(** * SANo emulator: bus fabric, mailboxes, CPLDs, renderer helpers, mixer

    A shallow embedding of the parts of the emulator that the specification
    pins down, followed by the properties proved about them.  Integers of a
    fixed width are [Z] with the wrap-around written out, byte vectors are
    lists indexed through stdpp's lookup and insert, [float] is IEEE-754
    binary32 through the Standard Library's [SpecFloat], and the
    [std::function] slots are defunctionalised: a slot holds the name of the
    lambda bound to it and the emulator interprets the name. *)

From Stdlib Require Import ZArith Lia Bool List Sorting.Sorted.
From Stdlib Require Import Floats.SpecFloat.
From stdpp Require Import base list.

Local Open Scope Z_scope.

(** ** Fixed-width integers *)

Definition u8 (x : Z) : Z := x mod 256.
Definition u16 (x : Z) : Z := x mod 65536.
Definition u32 (x : Z) : Z := x mod 4294967296.
Definition i8 (x : Z) : Z := (x + 128) mod 256 - 128.
Definition i16 (x : Z) : Z := (x + 32768) mod 65536 - 32768.
Definition u64 (x : Z) : Z := x mod 18446744073709551616.
Definition i32 (x : Z) : Z := (x + 2147483648) mod 4294967296 - 2147483648.

Definition is_u8 (x : Z) : Prop := 0 <= x <= 255.

(** [std::clamp(v, lo, hi)] on [int]. *)
Definition std_clamp (v lo hi : Z) : Z :=
  if v <? lo then lo else if hi <? v then hi else v.

(** ** Address *)

(** Modelled from the spec: the [Address] class of the CPU core is not part
    of the sources; the specification gives it as a pair (bank: u8,
    offset: u16) with flat form [bank<<16 | offset].  The constructor takes
    its arguments through the parameter types, which truncates them. *)
Record Address : Type := mkAddress { getBank : Z; getOffset : Z }.

Definition Address_new (bank offset : Z) : Address :=
  mkAddress (u8 bank) (u16 offset).

(** [(address.getBank() << 16) | address.getOffset()] *)
Definition flat (address : Address) : Z :=
  Z.lor (Z.shiftl (getBank address) 16) (getOffset address).

Definition Address_wf (a : Address) : Prop :=
  0 <= getBank a <= 255 /\ 0 <= getOffset a <= 65535.

(** ** Callback slots

    Every [std::function] bound anywhere in the emulator is one of the
    lambdas of [Emulator::setupCallbacks]; a slot stores which one. *)

Inductive WriteCallback : Type :=
| NotifyCPLD2        (* [this]() { cpld2->onMailboxAWrite(); } *)
| NotifyCPLD1.       (* [this]() { cpld1->onMailboxBWrite(); } *)

Inductive IRQCallback : Type :=
| RaiseGraphicsIRQ   (* [this]() { graphicsCPU->setIRQPin(true); } *)
| RaiseSoundIRQ.     (* [this]() { soundCPU->setIRQPin(true); } *)

Inductive ResetCallback : Type :=
| GraphicsCPUReset   (* the lambda handed to cpld2->setGraphicsCPUReset *)
| SoundCPUReset.     (* the lambda handed to cpld1->setSoundCPUReset *)

(** A callback invocation made by a component, in program order. *)
Inductive Call : Type :=
| CallWrite (cb : WriteCallback)
| CallIRQ (cb : IRQCallback)
| CallReset (cb : ResetCallback) (state : bool).

(** Invoke a nullable slot: [if (cb) cb();]. *)
Definition fire {A} (slot : option A) (mk : A -> Call) : list Call :=
  match slot with
  | Some cb => [mk cb]
  | None => []
  end.

(** ** RAM (memory/ram.cpp) *)

Module RAM.

Record t : Type := mk { baseAddress : Z; size : Z; data : list Z }.

(** [data.resize(size, 0x00)] *)
Definition new (baseAddress size : Z) : t :=
  mk baseAddress size (replicate (Z.to_nat size) 0).

(** The constructor's invariant: the vector has [size] bytes. *)
Definition wf (r : t) : Prop :=
  0 <= size r /\ Z.of_nat (length (data r)) = size r.

(** [data[offset]] is a raw vector access: [None] stands for an access
    past the end of the vector, which the size check is there to prevent. *)
Definition readByte (r : t) (address : Address) : option Z :=
  let flatAddr := flat address in
  let offset := u32 (flatAddr - baseAddress r) in
  if offset <? size r then data r !! Z.to_nat offset
  else Some 0xFF.

Definition storeByte (r : t) (address : Address) (value : Z) : t :=
  let flatAddr := flat address in
  let offset := u32 (flatAddr - baseAddress r) in
  if offset <? size r
  then mk (baseAddress r) (size r) (<[Z.to_nat offset := value]> (data r))
  else r.

Definition decodeAddress (r : t) (address : Address) : bool :=
  let flatAddr := flat address in
  (baseAddress r <=? flatAddr) && (flatAddr <? u32 (baseAddress r + size r)).

(** [clear(value)]: [std::fill] over the whole vector. *)
Definition clear (r : t) (value : Z) : t :=
  mk (baseAddress r) (size r) (replicate (length (data r)) value).

End RAM.

(** ** Mailbox (memory/mailbox.cpp) *)

Module Mailbox.

Record t : Type := mk {
  baseAddress : Z;
  size : Z;
  data : list Z;
  newDataFlag : bool;
  busyFlag : bool;
  writeCallback : option WriteCallback
}.

Definition new (baseAddress size : Z) : t :=
  mk baseAddress size (replicate (Z.to_nat size) 0) false false None.

Definition wf (m : t) : Prop :=
  0 <= size m /\ Z.of_nat (length (data m)) = size m.

Definition setWriteCallback (m : t) (cb : WriteCallback) : t :=
  mk (baseAddress m) (size m) (data m) (newDataFlag m) (busyFlag m) (Some cb).

Definition hasNewData (m : t) : bool := newDataFlag m.

(** [(flatAddr - baseAddress) & 0xFFFFFF] on [uint32_t] *)
Definition offsetOf (m : t) (address : Address) : Z :=
  Z.land (u32 (flat address - baseAddress m)) 0xFFFFFF.

(** Returns the byte and the mailbox after the read. *)
Definition readByte (m : t) (address : Address) : Z * t :=
  let offset := offsetOf m address in
  if offset <? size m then
    (data m !!! Z.to_nat offset,
     mk (baseAddress m) (size m) (data m) false (busyFlag m) (writeCallback m))
  else (0xFF, m).

(** Returns the mailbox after the store and the callbacks it invoked.  The
    notification is the last statement of the in-range branch, so running
    the returned calls on the returned mailbox is the C++ order. *)
Definition storeByte (m : t) (address : Address) (value : Z) : t * list Call :=
  let offset := offsetOf m address in
  if offset <? size m then
    (mk (baseAddress m) (size m) (<[Z.to_nat offset := value]> (data m))
        true (busyFlag m) (writeCallback m),
     fire (writeCallback m) CallWrite)
  else (m, []).

Definition decodeAddress (m : t) (address : Address) : bool :=
  let flatAddr := flat address in
  (baseAddress m <=? flatAddr) && (flatAddr <? u32 (baseAddress m + size m)).

Definition clear (m : t) : t :=
  mk (baseAddress m) (size m) (replicate (length (data m)) 0) false false
     (writeCallback m).

End Mailbox.

(** ** Cartridge (cartridge/cartridge.cpp) *)

Module Cartridge.

Definition ROM_WINDOW_START : Z := 0xC00000.
Definition ROM_WINDOW_END : Z := 0xFFFFFF.
Definition BANK_REGISTER : Z := 0x420000.
Definition SAVE_RAM_START : Z := 0x700000.
Definition SAVE_RAM_END : Z := 0x70FFFF.
Definition SAVE_RAM_SIZE : Z := 0x10000.
Definition MAX_BANKS : Z := 16.
Definition BANK_SIZE : Z := 0x400000.

Record ROMHeader : Type := mkHeader {
  mainCPU_entryPoint : Z;
  graphicsCPU_entryPoint : Z;
  soundCPU_entryPoint : Z;
  paletteData : Z;
  tileData : Z;
  audioData : Z;
  title : list Z;
  version : Z
}.

(** [std::memset(&header, 0, sizeof(header))] *)
Definition zeroHeader : ROMHeader :=
  mkHeader 0 0 0 0 0 0 (replicate 32 0) 0.

Record t : Type := mk {
  rom : list Z;
  saveRAM : list Z;
  currentBank : Z;
  header : ROMHeader
}.

Definition new : t := mk [] [] 0 zeroHeader.

Definition romSize (c : t) : Z := Z.of_nat (length (rom c)).
Definition isLoaded (c : t) : bool := 0 <? romSize c.

(** [rom[a] | (rom[b] << 8) | (rom[c] << 16)] *)
Definition le24 (rom : list Z) (a b c : nat) : Z :=
  Z.lor (Z.lor (rom !!! a) (Z.shiftl (rom !!! b) 8)) (Z.shiftl (rom !!! c) 16).

Definition parseHeader (c : t) : t :=
  if romSize c <? 256 then c
  else
    let r := rom c in
    mk r (saveRAM c) (currentBank c)
       (mkHeader (le24 r 0 1 2) (le24 r 3 4 5) (le24 r 6 7 8)
                 (le24 r 9 10 11) (le24 r 12 13 14) (le24 r 15 16 17)
                 (take 31 (drop 12 r) ++ [0])
                 (r !!! 50%nat)).

(** [loadROM(const uint8_t* data, size_t size)]: [None] is the null
    pointer; the result pairs the returned [bool] with the cartridge. *)
Definition loadROM (c : t) (bytes : option (list Z)) : bool * t :=
  match bytes with
  | None => (false, c)
  | Some bs =>
      let size := Z.of_nat (length bs) in
      if size =? 0 then (false, c)
      else if BANK_SIZE * MAX_BANKS <? size then (false, c)
      else
        let c1 := parseHeader (mk bs (saveRAM c) (currentBank c) (header c)) in
        (true, mk (rom c1) (saveRAM c1) 0 (header c1))
  end.

Definition createSaveRAM (c : t) : t :=
  match saveRAM c with
  | [] => mk (rom c) (replicate (Z.to_nat SAVE_RAM_SIZE) 0xFF)
             (currentBank c) (header c)
  | _ => c
  end.

Definition setBank (c : t) (bank : Z) : t :=
  let bank := if MAX_BANKS <=? bank then 0 else bank in
  mk (rom c) (saveRAM c) bank (header c).

Definition mapAddress (c : t) (address : Z) : Z :=
  let offset := u32 (address - ROM_WINDOW_START) in
  let romAddr := u32 (currentBank c * BANK_SIZE + offset) in
  romAddr.

Definition addressInROMWindow (address : Z) : bool :=
  (ROM_WINDOW_START <=? address) && (address <=? ROM_WINDOW_END).

Definition addressInSaveRAM (address : Z) : bool :=
  (SAVE_RAM_START <=? address) && (address <=? SAVE_RAM_END).

(** Each vector access is guarded by a comparison with the vector's own
    [size()], so the lookup below is always in range. *)
Definition readByte (c : t) (address : Address) : Z :=
  let flatAddr := flat address in
  if (0x00FFFC <=? flatAddr) && (flatAddr <=? 0x00FFFF) then
    let romAddr := flatAddr in
    if romAddr <? romSize c then rom c !!! Z.to_nat romAddr else 0xFF
  else if (0x008000 <=? flatAddr) && (flatAddr <=? 0x00FFFF) then
    let offset := flatAddr in
    if offset <? romSize c then rom c !!! Z.to_nat offset else 0xFF
  else if addressInROMWindow flatAddr then
    let romAddr := mapAddress c flatAddr in
    if romAddr <? romSize c then rom c !!! Z.to_nat romAddr else 0xFF
  else if addressInSaveRAM flatAddr then
    let offset := u32 (flatAddr - SAVE_RAM_START) in
    if offset <? Z.of_nat (length (saveRAM c))
    then saveRAM c !!! Z.to_nat offset else 0xFF
  else 0xFF.

Definition storeByte (c : t) (address : Address) (value : Z) : t :=
  let flatAddr := flat address in
  if flatAddr =? BANK_REGISTER then setBank c (Z.land value 0x0F)
  else if addressInSaveRAM flatAddr then
    let offset := u32 (flatAddr - SAVE_RAM_START) in
    if offset <? Z.of_nat (length (saveRAM c))
    then mk (rom c) (<[Z.to_nat offset := value]> (saveRAM c))
            (currentBank c) (header c)
    else c
  else c.

Definition decodeAddress (address : Address) : bool :=
  let flatAddr := flat address in
  ((0x00FFFC <=? flatAddr) && (flatAddr <=? 0x00FFFF))
  || ((0x008000 <=? flatAddr) && (flatAddr <=? 0x00FFFF))
  || addressInROMWindow flatAddr
  || (flatAddr =? BANK_REGISTER)
  || addressInSaveRAM flatAddr.

Definition unload (c : t) : t := mk [] [] 0 zeroHeader.

Definition hasSaveRAM (c : t) : bool := 0 <? Z.of_nat (length (saveRAM c)).

(** [(rom.size() + BANK_SIZE - 1) / BANK_SIZE] is computed in [size_t]
    and returned as [int]. *)
Definition getBankCount (c : t) : Z :=
  match rom c with
  | [] => 0
  | _ => i32 (u64 (romSize c + BANK_SIZE - 1) / BANK_SIZE)
  end.

(** [ROMHeader::isValid]: only the first [return] is reachable. *)
Definition isValid (h : ROMHeader) : bool :=
  (ROM_WINDOW_START <=? mainCPU_entryPoint h)
  && (mainCPU_entryPoint h <=? ROM_WINDOW_END).

End Cartridge.

(** ** MemoryBus (memory/memory_bus.cpp) *)

Module MemoryBus.

(** The abstract class [MemoryDevice]: a read may change the device. *)
Class MemoryDevice (D : Type) : Type := {
  read : D -> Z -> Z * D;
  write : D -> Z -> Z -> D
}.

(** A [MemoryDevice*]; the store maps every pointer to its device. *)
Definition DevicePtr : Type := nat.

Record MappedRegion : Type := mkRegion {
  baseAddress : Z;
  endAddress : Z;
  device : DevicePtr
}.

(** The bus is its [mappedRegions] vector. *)
Definition t : Type := list MappedRegion.

Definition empty : t := [].

(** [std::sort] with the comparison [a.baseAddress < b.baseAddress].  The
    vector is sorted before every [push_back], so sorting amounts to
    inserting the new last element.  [std::sort] leaves the order of
    regions of equal base unspecified; the insertion below keeps them in
    registration order, and nothing proved here depends on that choice. *)
Fixpoint insertRegion (r : MappedRegion) (l : list MappedRegion)
  : list MappedRegion :=
  match l with
  | [] => [r]
  | x :: l' =>
      if baseAddress r <? baseAddress x then r :: x :: l'
      else x :: insertRegion r l'
  end.

Definition sortRegions (l : list MappedRegion) : list MappedRegion :=
  foldl (fun acc r => insertRegion r acc) [] l.

(** The overlap check only prints a warning. *)
Definition mapDevice (bus : t) (dev : option DevicePtr) (base size : Z) : t :=
  match dev with
  | None => bus
  | Some d =>
      if size =? 0 then bus
      else
        let region :=
          mkRegion (Z.land base 0xFFFFFF)
                   (Z.land (u32 (base + size - 1)) 0xFFFFFF) d in
        sortRegions (bus ++ [region])
  end.

Definition unmapAll (bus : t) : t := [].

Definition inRegion (address : Z) (r : MappedRegion) : bool :=
  (baseAddress r <=? address) && (address <=? endAddress r).

Fixpoint findDevice (bus : t) (address : Z) : option DevicePtr :=
  match bus with
  | [] => None
  | region :: rest =>
      if inRegion address region then Some (device region)
      else if address <? baseAddress region then None
      else findDevice rest address
  end.

Section Access.
Context {D : Type} `{MemoryDevice D}.

Definition Store : Type := DevicePtr -> D.

Definition update (s : Store) (p : DevicePtr) (d : D) : Store :=
  fun q => if Nat.eqb q p then d else s q.

Definition read_bus (bus : t) (s : Store) (address : Z) : Z * Store :=
  let address := Z.land address 0xFFFFFF in
  match findDevice bus address with
  | Some p => let (v, d) := read (s p) address in (v, update s p d)
  | None => (0xFF, s)
  end.

Definition write_bus (bus : t) (s : Store) (address value : Z) : Store :=
  let address := Z.land address 0xFFFFFF in
  match findDevice bus address with
  | Some p => update s p (write (s p) address value)
  | None => s
  end.

(** [read16]: low byte first, then the byte at [address + 1]; the sum is
    taken in [uint32_t] and masked by [read]. *)
Definition read16 (bus : t) (s : Store) (address : Z) : Z * Store :=
  let (low, s) := read_bus bus s address in
  let (high, s) := read_bus bus s (u32 (address + 1)) in
  (u16 (Z.lor (Z.shiftl high 8) low), s).

Definition write16 (bus : t) (s : Store) (address value : Z) : Store :=
  let s := write_bus bus s address (Z.land value 0xFF) in
  write_bus bus s (u32 (address + 1)) (Z.land (Z.shiftr value 8) 0xFF).
End Access.

End MemoryBus.

(** ** CPU pins *)

(** Modelled from the spec: [Cpu65816] belongs to the CPU core, which is not
    part of the sources.  The specification pins only its interface
    ([set_res_pin], [set_rdy_pin], [set_irq_pin], [set_program_address],
    [get_program_address]); the model is the three pins and the program
    address those operations set. *)
Module Cpu65816.

Record t : Type := mk {
  RESPin : bool;
  RDYPin : bool;
  IRQPin : bool;
  programAddress : Address
}.

Definition setRESPin (c : t) (v : bool) : t :=
  mk v (RDYPin c) (IRQPin c) (programAddress c).
Definition setRDYPin (c : t) (v : bool) : t :=
  mk (RESPin c) v (IRQPin c) (programAddress c).
Definition setIRQPin (c : t) (v : bool) : t :=
  mk (RESPin c) (RDYPin c) v (programAddress c).
Definition setProgramAddress (c : t) (a : Address) : t :=
  mk (RESPin c) (RDYPin c) (IRQPin c) a.
Definition getProgramAddress (c : t) : Address := programAddress c.

End Cpu65816.

(** ** The memory objects the emulator owns

    The CPLDs and the renderer hold raw pointers ([RAM*], [Mailbox*]) to
    objects owned by the emulator.  A pointer is the name of the object and
    [Memory] is the store those names refer to; [None] is [nullptr]. *)

Inductive RAMRef : Type := MainRAM | GraphicsRAM | SoundRAM.
Inductive MailboxRef : Type := MailboxA | MailboxB.

Module Memory.

Record t : Type := mk {
  mainRAM : RAM.t;
  graphicsRAM : RAM.t;
  soundRAM : RAM.t;
  mailboxA : Mailbox.t;
  mailboxB : Mailbox.t
}.

Definition ram (h : t) (p : RAMRef) : RAM.t :=
  match p with
  | MainRAM => mainRAM h
  | GraphicsRAM => graphicsRAM h
  | SoundRAM => soundRAM h
  end.

Definition setRam (h : t) (p : RAMRef) (r : RAM.t) : t :=
  match p with
  | MainRAM => mk r (graphicsRAM h) (soundRAM h) (mailboxA h) (mailboxB h)
  | GraphicsRAM => mk (mainRAM h) r (soundRAM h) (mailboxA h) (mailboxB h)
  | SoundRAM => mk (mainRAM h) (graphicsRAM h) r (mailboxA h) (mailboxB h)
  end.

Definition mailbox (h : t) (p : MailboxRef) : Mailbox.t :=
  match p with
  | MailboxA => mailboxA h
  | MailboxB => mailboxB h
  end.

Definition setMailbox (h : t) (p : MailboxRef) (m : Mailbox.t) : t :=
  match p with
  | MailboxA => mk (mainRAM h) (graphicsRAM h) (soundRAM h) m (mailboxB h)
  | MailboxB => mk (mainRAM h) (graphicsRAM h) (soundRAM h) (mailboxA h) m
  end.

(** [mailbox->readByte(addr)] through a pointer *)
Definition readMailbox (h : t) (p : MailboxRef) (addr : Address) : Z * t :=
  let (v, m) := Mailbox.readByte (mailbox h p) addr in
  (v, setMailbox h p m).

(** [ram->storeByte(addr, value)] through a pointer *)
Definition storeRam (h : t) (p : RAMRef) (addr : Address) (value : Z) : t :=
  setRam h p (RAM.storeByte (ram h p) addr value).

(** The body shared by the two boot handlers' copy loops,
    [for (uint16_t i = 0; i < length; i++)]: [n] iterations are left and
    [i] is the loop counter.
<<
    addr = Address(bank, 0x0005 + i);
    uint8_t data = mailbox->readByte(addr);
    Address ramAddr(0x00, destAddr + i);
    ram->storeByte(ramAddr, data);
>> *)
Fixpoint copyLoop (bank : Z) (mb : MailboxRef) (dst : RAMRef) (destAddr : Z)
         (n : nat) (i : Z) (h : t) : t :=
  match n with
  | O => h
  | S n' =>
      let addr := Address_new bank (0x0005 + i) in
      let (data, h1) := readMailbox h mb addr in
      let ramAddr := Address_new 0x00 (destAddr + i) in
      let h2 := storeRam h1 dst ramAddr data in
      copyLoop bank mb dst destAddr n' (u16 (i + 1)) h2
  end.

End Memory.

(** ** CPLD2: video timing and the mailbox-A handler (cpld/cpld2_video.cpp) *)

Module CPLD2_Video.

Inductive VideoMode : Type := MODE_240P | MODE_480I.

Definition PIXELS_PER_LINE : Z := 857.
Definition LINES_PER_FRAME_240P : Z := 262.
Definition LINES_PER_FRAME_480I : Z := 525.
Definition HBLANK_START : Z := 0.
Definition HBLANK_END : Z := 137.
Definition VBLANK_LINES_240P : Z := 22.
Definition VBLANK_LINES_480I : Z := 22.

Record t : Type := mk {
  graphicsRAM : option RAMRef;
  graphicsCPUReset : option ResetCallback;
  videoMode : VideoMode;
  rasterLine : Z;
  rasterX : Z;
  inVBlank : bool;
  inHBlank : bool;
  vblankIRQPending : bool;
  hblankIRQPending : bool;
  vblankCallback : option IRQCallback;
  hblankCallback : option IRQCallback;
  mailboxA : option MailboxRef;
  mailboxB : option MailboxRef;
  mailboxACallback : option IRQCallback;
  mailboxBCallback : option IRQCallback
}.

(** The raster fields, the only ones [reset], [tick] and the register
    writes change. *)
Definition withRaster (c : t) (mode : VideoMode) (line x : Z)
           (vb hb vpend hpend : bool) : t :=
  mk (graphicsRAM c) (graphicsCPUReset c) mode line x vb hb vpend hpend
     (vblankCallback c) (hblankCallback c) (mailboxA c) (mailboxB c)
     (mailboxACallback c) (mailboxBCallback c).

Definition reset (c : t) : t :=
  withRaster c (videoMode c) 0 0 true true false false.

(** The constructor; the two mailbox pointers have no initialiser in the
    class and are set before any use by [Emulator::setupCallbacks]. *)
Definition new : t :=
  reset (mk None None MODE_240P 0 0 true true false false
            None None None None None None).

Definition setGraphicsRAM (c : t) (p : RAMRef) : t :=
  mk (Some p) (graphicsCPUReset c) (videoMode c) (rasterLine c) (rasterX c)
     (inVBlank c) (inHBlank c) (vblankIRQPending c) (hblankIRQPending c)
     (vblankCallback c) (hblankCallback c) (mailboxA c) (mailboxB c)
     (mailboxACallback c) (mailboxBCallback c).

Definition setGraphicsCPUReset (c : t) (cb : ResetCallback) : t :=
  mk (graphicsRAM c) (Some cb) (videoMode c) (rasterLine c) (rasterX c)
     (inVBlank c) (inHBlank c) (vblankIRQPending c) (hblankIRQPending c)
     (vblankCallback c) (hblankCallback c) (mailboxA c) (mailboxB c)
     (mailboxACallback c) (mailboxBCallback c).

Definition setMailboxA (c : t) (p : MailboxRef) : t :=
  mk (graphicsRAM c) (graphicsCPUReset c) (videoMode c) (rasterLine c)
     (rasterX c) (inVBlank c) (inHBlank c) (vblankIRQPending c)
     (hblankIRQPending c) (vblankCallback c) (hblankCallback c)
     (Some p) (mailboxB c) (mailboxACallback c) (mailboxBCallback c).

Definition setMailboxACallback (c : t) (cb : IRQCallback) : t :=
  mk (graphicsRAM c) (graphicsCPUReset c) (videoMode c) (rasterLine c)
     (rasterX c) (inVBlank c) (inHBlank c) (vblankIRQPending c)
     (hblankIRQPending c) (vblankCallback c) (hblankCallback c)
     (mailboxA c) (mailboxB c) (Some cb) (mailboxBCallback c).

Definition setVBlankCallback (c : t) (cb : IRQCallback) : t :=
  mk (graphicsRAM c) (graphicsCPUReset c) (videoMode c) (rasterLine c)
     (rasterX c) (inVBlank c) (inHBlank c) (vblankIRQPending c)
     (hblankIRQPending c) (Some cb) (hblankCallback c)
     (mailboxA c) (mailboxB c) (mailboxACallback c) (mailboxBCallback c).

Definition setVideoMode (c : t) (mode : VideoMode) : t :=
  withRaster c mode (rasterLine c) (rasterX c) (inVBlank c) (inHBlank c)
             (vblankIRQPending c) (hblankIRQPending c).

Definition getBaseAddress : Z := 0x400200.
Definition getSize : Z := 0x20.

Definition b2z (b : bool) : Z := if b then 0x01 else 0x00.

Definition readByte (c : t) (address : Address) : Z :=
  let flatAddr := flat address in
  let offset := u32 (flatAddr - getBaseAddress) in
  if offset =? 0x00 then
    match videoMode c with MODE_240P => 0 | MODE_480I => 1 end
  else if offset =? 0x01 then 0x00
  else if offset =? 0x02 then Z.land (rasterLine c) 0xFF
  else if offset =? 0x03 then Z.land (Z.shiftr (rasterLine c) 8) 0xFF
  else if offset =? 0x04 then Z.land (rasterX c) 0xFF
  else if offset =? 0x05 then Z.land (Z.shiftr (rasterX c) 8) 0xFF
  else if offset =? 0x06 then b2z (inVBlank c)
  else if offset =? 0x07 then 0x00
  else if offset =? 0x08 then b2z (inHBlank c)
  else if offset =? 0x09 then 0x00
  else 0x00.

Definition storeByte (c : t) (address : Address) (value : Z) : t :=
  let flatAddr := flat address in
  let offset := u32 (flatAddr - getBaseAddress) in
  if offset =? 0x00 then
    setVideoMode c (if Z.land value 0x01 =? 0 then MODE_240P else MODE_480I)
  else if offset =? 0x0A then
    if value =? 0 then c
    else withRaster c (videoMode c) (rasterLine c) (rasterX c) (inVBlank c)
                    (inHBlank c) false (hblankIRQPending c)
  else c.

(** [getRegister(uint8_t reg)] *)
Definition getRegister (c : t) (reg : Z) : Z :=
  let addr := u32 (getBaseAddress + u8 reg) in
  readByte c (Address_new (Z.shiftr addr 16) (Z.land addr 0xFFFF)).

(** [setRegister(uint8_t reg, uint8_t value)] *)
Definition setRegister (c : t) (reg value : Z) : t :=
  let addr := u32 (getBaseAddress + u8 reg) in
  storeByte c (Address_new (Z.shiftr addr 16) (Z.land addr 0xFFFF)) value.

Definition decodeAddress (address : Address) : bool :=
  let flatAddr := flat address in
  (getBaseAddress <=? flatAddr) && (flatAddr <? u32 (getBaseAddress + getSize)).

Definition getTotalLines (c : t) : Z :=
  match videoMode c with
  | MODE_240P => LINES_PER_FRAME_240P
  | MODE_480I => LINES_PER_FRAME_480I
  end.

Definition updateBlankingFlags (c : t) : t :=
  let hb := (HBLANK_START <=? rasterX c) && (rasterX c <=? HBLANK_END) in
  let vb :=
    match videoMode c with
    | MODE_240P => rasterLine c <? VBLANK_LINES_240P
    | MODE_480I =>
        (rasterLine c <? VBLANK_LINES_480I)
        || ((262 <=? rasterLine c) && (rasterLine c <? 262 + VBLANK_LINES_480I))
    end in
  withRaster c (videoMode c) (rasterLine c) (rasterX c) vb hb
             (vblankIRQPending c) (hblankIRQPending c).

(** One pixel clock.  The counters are [uint16_t]. *)
Definition tick (c : t) : t * list Call :=
  let x := u16 (rasterX c + 1) in
  let '(line, x, vpend, calls) :=
    if PIXELS_PER_LINE <=? x then
      let line := u16 (rasterLine c + 1) in
      let totalLines := getTotalLines c in
      if totalLines <=? line then
        if negb (vblankIRQPending c)
        then (0, 0, true, fire (vblankCallback c) CallIRQ)
        else (0, 0, vblankIRQPending c, [])
      else (line, 0, vblankIRQPending c, [])
    else (rasterLine c, x, vblankIRQPending c, []) in
  (updateBlankingFlags
     (withRaster c (videoMode c) line x (inVBlank c) (inHBlank c) vpend
                 (hblankIRQPending c)),
   calls).

(** [n] consecutive calls of [tick], with the callbacks fired on the way. *)
Fixpoint ticks (n : nat) (c : t) : t * list Call :=
  match n with
  | O => (c, [])
  | S n' =>
      let (c1, calls1) := tick c in
      let (c2, calls2) := ticks n' c1 in
      (c2, calls1 ++ calls2)
  end.

Definition allowGCpuVramAccess (c : t) : bool := inHBlank c || inVBlank c.

(** The mailbox-A handler.  The VRAM hexdump between the copy and the
    release only prints. *)
Definition onMailboxAWrite (c : t) (h : Memory.t) : Memory.t * list Call :=
  let generic := fire (mailboxACallback c) CallIRQ in
  match mailboxA c, graphicsRAM c with
  | Some mailboxA, Some graphicsRAM =>
      let (cmd, h) := Memory.readMailbox h mailboxA (Address_new 0x40 0x0000) in
      if cmd =? 0x01 then
        let (destLo, h) := Memory.readMailbox h mailboxA (Address_new 0x40 0x0001) in
        let (destHi, h) := Memory.readMailbox h mailboxA (Address_new 0x40 0x0002) in
        let destAddr := u16 (Z.lor destLo (Z.shiftl destHi 8)) in
        let (lenLo, h) := Memory.readMailbox h mailboxA (Address_new 0x40 0x0003) in
        let (lenHi, h) := Memory.readMailbox h mailboxA (Address_new 0x40 0x0004) in
        let length := u16 (Z.lor lenLo (Z.shiftl lenHi 8)) in
        let h := Memory.copyLoop 0x40 mailboxA graphicsRAM destAddr
                                 (Z.to_nat length) 0 h in
        (h, fire (graphicsCPUReset c) (fun cb => CallReset cb false))
      else (h, generic)
  | _, _ => (h, generic)
  end.

Definition onMailboxBWrite (c : t) : list Call :=
  fire (mailboxBCallback c) CallIRQ.

End CPLD2_Video.

(** ** CPLD1: audio FIFOs and the mailbox-B handler (cpld/cpld1_audio.cpp) *)

Module CPLD1_Audio.

(** A FIFO is its queue of [int16_t] samples, front first. *)
Record AudioFIFO : Type := mkFIFO { samples : list Z; irqPending : bool }.

Record t : Type := mk {
  fifos : list AudioFIFO;
  irqThreshold : Z;
  irqStatus : Z;
  enabled : bool;
  irqCallback : option IRQCallback;
  soundRAM : option RAMRef;
  soundCPUReset : option ResetCallback;
  mailboxB : option MailboxRef;
  mailboxBCallback : option IRQCallback
}.

Definition new : t :=
  mk (replicate 8 (mkFIFO [] false)) 128 0 true None None None None None.

Definition setSoundRAM (c : t) (p : RAMRef) : t :=
  mk (fifos c) (irqThreshold c) (irqStatus c) (enabled c) (irqCallback c)
     (Some p) (soundCPUReset c) (mailboxB c) (mailboxBCallback c).
Definition setSoundCPUReset (c : t) (cb : ResetCallback) : t :=
  mk (fifos c) (irqThreshold c) (irqStatus c) (enabled c) (irqCallback c)
     (soundRAM c) (Some cb) (mailboxB c) (mailboxBCallback c).
Definition setMailboxB (c : t) (p : MailboxRef) : t :=
  mk (fifos c) (irqThreshold c) (irqStatus c) (enabled c) (irqCallback c)
     (soundRAM c) (soundCPUReset c) (Some p) (mailboxBCallback c).
Definition setMailboxBCallback (c : t) (cb : IRQCallback) : t :=
  mk (fifos c) (irqThreshold c) (irqStatus c) (enabled c) (irqCallback c)
     (soundRAM c) (soundCPUReset c) (mailboxB c) (Some cb).
Definition setFifos (c : t) (fs : list AudioFIFO) : t :=
  mk fs (irqThreshold c) (irqStatus c) (enabled c) (irqCallback c)
     (soundRAM c) (soundCPUReset c) (mailboxB c) (mailboxBCallback c).

(** Sum of the front samples of the non-empty FIFOs ([int32_t]; eight
    [int16_t] terms cannot overflow it). *)
Definition frontSum (fs : list AudioFIFO) : Z :=
  foldl (fun acc f => match samples f with
                      | s :: _ => acc + s
                      | [] => acc
                      end) 0 fs.

(** [getAudioFrame(leftOut, rightOut)]; [/=] on [int32_t] truncates. *)
Definition getAudioFrame (c : t) : Z * Z :=
  let mixL := Z.quot (frontSum (fifos c)) 8 in
  let mixR := Z.quot (frontSum (fifos c)) 8 in
  (std_clamp mixL (-32768) 32767, std_clamp mixR (-32768) 32767).

Definition getBaseAddress : Z := 0x400100.

Definition isFull (f : AudioFIFO) : bool := 256 <=? Z.of_nat (length (samples f)).

(** The FIFO branch of [storeByte], taken for the even offsets $00..$0E:
    the byte becomes the sample [static_cast<int16_t>(value) << 8], which
    is queued unless the FIFO is full. *)
Definition storeFifo (c : t) (address : Address) (value : Z) : t :=
  let flatAddr := flat address in
  let offset := u32 (flatAddr - getBaseAddress) in
  if (0x00 <=? offset) && (offset <=? 0x0E) && (offset mod 2 =? 0) then
    let channel := Z.to_nat (offset / 2) in
    let sample := i16 (Z.shiftl value 8) in
    match fifos c !! channel with
    | Some f =>
        if isFull f then c
        else setFifos c (<[channel := mkFIFO (samples f ++ [sample]) (irqPending f)]>
                           (fifos c))
    | None => c
    end
  else c.

Definition onMailboxBWrite (c : t) (h : Memory.t) : Memory.t * list Call :=
  let generic := fire (mailboxBCallback c) CallIRQ in
  match mailboxB c, soundRAM c with
  | Some mailboxB, Some soundRAM =>
      let (cmd, h) := Memory.readMailbox h mailboxB (Address_new 0x41 0x0000) in
      if cmd =? 0x01 then
        let (destLo, h) := Memory.readMailbox h mailboxB (Address_new 0x41 0x0001) in
        let (destHi, h) := Memory.readMailbox h mailboxB (Address_new 0x41 0x0002) in
        let destAddr := u16 (Z.lor destLo (Z.shiftl destHi 8)) in
        let (lenLo, h) := Memory.readMailbox h mailboxB (Address_new 0x41 0x0003) in
        let (lenHi, h) := Memory.readMailbox h mailboxB (Address_new 0x41 0x0004) in
        let length := u16 (Z.lor lenLo (Z.shiftl lenHi 8)) in
        let h := Memory.copyLoop 0x41 mailboxB soundRAM destAddr
                                 (Z.to_nat length) 0 h in
        (h, fire (soundCPUReset c) (fun cb => CallReset cb false))
      else (h, generic)
  | _, _ => (h, generic)
  end.

Definition getSize : Z := 0x20.

Definition setIRQCallback (c : t) (cb : IRQCallback) : t :=
  mk (fifos c) (irqThreshold c) (irqStatus c) (enabled c) (Some cb)
     (soundRAM c) (soundCPUReset c) (mailboxB c) (mailboxBCallback c).

(** The fields the register writes and [tick] change. *)
Definition setIrqState (c : t) (fs : list AudioFIFO) (status : Z) : t :=
  mk fs (irqThreshold c) status (enabled c) (irqCallback c)
     (soundRAM c) (soundCPUReset c) (mailboxB c) (mailboxBCallback c).

Definition setThreshold (c : t) (threshold : Z) : t :=
  mk (fifos c) threshold (irqStatus c) (enabled c) (irqCallback c)
     (soundRAM c) (soundCPUReset c) (mailboxB c) (mailboxBCallback c).

Definition setEnabled (c : t) (en : bool) : t :=
  mk (fifos c) (irqThreshold c) (irqStatus c) en (irqCallback c)
     (soundRAM c) (soundCPUReset c) (mailboxB c) (mailboxBCallback c).

(** [static_cast<uint8_t>(samples.size())] *)
Definition getLevel (f : AudioFIFO) : Z := u8 (Z.of_nat (length (samples f))).

(** [fifos[ch].getLevel()] for a constant [ch] below 8. *)
Definition levelOf (c : t) (ch : nat) : Z :=
  match fifos c !! ch with
  | Some f => getLevel f
  | None => 0
  end.

Definition reset (c : t) : t :=
  mk ((fun _ => mkFIFO [] false) <$> fifos c) 128 0 true (irqCallback c)
     (soundRAM c) (soundCPUReset c) (mailboxB c) (mailboxBCallback c).

Definition readByte (c : t) (address : Address) : Z :=
  let flatAddr := flat address in
  let offset := u32 (flatAddr - getBaseAddress) in
  if offset =? 0x10 then levelOf c 0
  else if offset =? 0x11 then levelOf c 1
  else if offset =? 0x12 then levelOf c 2
  else if offset =? 0x13 then levelOf c 3
  else if offset =? 0x14 then levelOf c 4
  else if offset =? 0x15 then levelOf c 5
  else if offset =? 0x16 then levelOf c 6
  else if offset =? 0x17 then levelOf c 7
  else if offset =? 0x18 then irqStatus c
  else if offset =? 0x1C then irqThreshold c
  else 0x00.

(** [updateIRQ]: the callback is invoked whenever a status bit is set. *)
Definition updateIRQ (c : t) : list Call :=
  if negb (irqStatus c =? 0) then fire (irqCallback c) CallIRQ else [].

(** One pass of the loop of the IRQ_CLEAR case:
    [if (value & (1 << i)) { fifos[i].irqPending = false;
                             irqStatus &= ~(1 << i); }] *)
Definition clearChannel (value : Z) (c : t) (i : Z) : t :=
  if negb (Z.land value (Z.shiftl 1 i) =? 0) then
    setIrqState c
      (alter (fun f => mkFIFO (samples f) false) (Z.to_nat i) (fifos c))
      (u8 (Z.land (irqStatus c) (Z.lnot (Z.shiftl 1 i))))
  else c.

(** [storeByte]: the device afterwards and the callbacks it invoked. *)
Definition storeByte (c : t) (address : Address) (value : Z) : t * list Call :=
  let flatAddr := flat address in
  let offset := u32 (flatAddr - getBaseAddress) in
  if (0x00 <=? offset) && (offset <=? 0x0E) && (offset mod 2 =? 0) then
    (storeFifo c address value, [])
  else if offset =? 0x1A then
    let c := foldl (clearChannel value) c (seqZ 0 8) in
    (c, updateIRQ c)
  else if offset =? 0x1C then
    let c := setThreshold c value in
    (c, updateIRQ c)
  else if offset =? 0x1E then
    (setEnabled c (negb (Z.land value 0x01 =? 0)), [])
  else (c, []).

Definition decodeAddress (address : Address) : bool :=
  let flatAddr := flat address in
  (getBaseAddress <=? flatAddr) && (flatAddr <? u32 (getBaseAddress + getSize)).

(** One pass of the loop of [tick]: pop the front sample of a non-empty
    FIFO, then flag the channel if its level is now below the threshold and
    it is not flagged yet. *)
Definition tickChannel (c : t) (ch : Z) : t :=
  match fifos c !! Z.to_nat ch with
  | Some f =>
      match samples f with
      | [] => c
      | _ :: rest =>
          let f := mkFIFO rest (irqPending f) in
          if (getLevel f <? irqThreshold c) && negb (irqPending f) then
            setIrqState c (<[Z.to_nat ch := mkFIFO rest true]> (fifos c))
                        (u8 (Z.lor (irqStatus c) (Z.shiftl 1 ch)))
          else setIrqState c (<[Z.to_nat ch := f]> (fifos c)) (irqStatus c)
      end
  | None => c
  end.

(** [tick], called at the sample rate. *)
Definition tick (c : t) : t * list Call :=
  if negb (enabled c) then (c, [])
  else
    let c := foldl tickChannel c (seqZ 0 8) in
    (c, updateIRQ c).

Definition checkChannelIRQ (c : t) (channel : Z) : bool :=
  if (channel <? 0) || (8 <=? channel) then false
  else levelOf c (Z.to_nat channel) <? irqThreshold c.

Definition getFIFOLevel (c : t) (channel : Z) : Z :=
  if (channel <? 0) || (8 <=? channel) then 0
  else levelOf c (Z.to_nat channel).

Definition getIRQStatus (c : t) (channel : Z) : bool :=
  if (channel <? 0) || (8 <=? channel) then false
  else negb (Z.land (irqStatus c) (Z.shiftl 1 channel) =? 0).

End CPLD1_Audio.

(** ** CPLD3: raster effects (cpld/cpld3_raster.cpp) *)

Module CPLD3_Raster.

Record TableEntry : Type := mkEntry { scrollOffset : Z; paletteSelect : Z }.

Record t : Type := mk {
  tableMode : bool;
  scrollOffsetReg : Z;          (* int16_t *)
  paletteSelectReg : Z;
  currentScrollOffset : Z;      (* int16_t *)
  currentPaletteSelect : Z;
  scanlineTable : list TableEntry;   (* std::array<TableEntry, 262> *)
  tableIndex : Z;               (* uint16_t *)
  tableAddr : Z;                (* uint16_t *)
  tableByteOffset : Z;          (* uint8_t *)
  irqScanline : Z;              (* uint16_t *)
  irqEnable : bool;
  irqPending : bool;
  irqCallback : option IRQCallback
}.

Definition new : t :=
  mk false 0 0 0 0 (replicate 262 (mkEntry 0 0)) 0 0 0 0 false false None.

Definition reset (c : t) : t :=
  mk false 0 0 0 0 (replicate 262 (mkEntry 0 0)) 0 0 0 0 false false
     (irqCallback c).

Definition wf (c : t) : Prop := length (scanlineTable c) = 262%nat.

Definition getBaseAddress : Z := 0x400300.
Definition getSize : Z := 0x20.

(** Updates of the fields the register writes touch. *)
Definition setTable (c : t) (tbl : list TableEntry) (addr byteOffset : Z) : t :=
  mk (tableMode c) (scrollOffsetReg c) (paletteSelectReg c)
     (currentScrollOffset c) (currentPaletteSelect c) tbl (tableIndex c)
     addr byteOffset (irqScanline c) (irqEnable c) (irqPending c)
     (irqCallback c).

Definition setRegs (c : t) (scroll pal : Z) : t :=
  mk (tableMode c) scroll pal (currentScrollOffset c)
     (currentPaletteSelect c) (scanlineTable c) (tableIndex c) (tableAddr c)
     (tableByteOffset c) (irqScanline c) (irqEnable c) (irqPending c)
     (irqCallback c).

Definition setIrq (c : t) (line : Z) (en pend : bool) : t :=
  mk (tableMode c) (scrollOffsetReg c) (paletteSelectReg c)
     (currentScrollOffset c) (currentPaletteSelect c) (scanlineTable c)
     (tableIndex c) (tableAddr c) (tableByteOffset c) line en pend
     (irqCallback c).

Definition setMode (c : t) (mode : bool) (index : Z) : t :=
  mk mode (scrollOffsetReg c) (paletteSelectReg c) (currentScrollOffset c)
     (currentPaletteSelect c) (scanlineTable c) index (tableAddr c)
     (tableByteOffset c) (irqScanline c) (irqEnable c) (irqPending c)
     (irqCallback c).

Definition setCurrent (c : t) (scroll pal index : Z) : t :=
  mk (tableMode c) (scrollOffsetReg c) (paletteSelectReg c) scroll pal
     (scanlineTable c) index (tableAddr c) (tableByteOffset c)
     (irqScanline c) (irqEnable c) (irqPending c) (irqCallback c).

(** [scanlineTable[tableAddr]], read under the guard [tableAddr < 262]. *)
Definition entryAt (c : t) (i : Z) : TableEntry :=
  default (mkEntry 0 0) (scanlineTable c !! Z.to_nat i).

(** The [TABLE_DATA] case of [storeByte]. *)
Definition storeTableData (c : t) (value : Z) : t :=
  if tableAddr c <? 262 then
    let e := entryAt c (tableAddr c) in
    let i := Z.to_nat (tableAddr c) in
    if tableByteOffset c =? 0 then
      let e' := mkEntry (i16 (Z.lor (Z.land (scrollOffset e) 0xFF00) value))
                        (paletteSelect e) in
      setTable c (<[i := e']> (scanlineTable c)) (tableAddr c)
               (u8 (tableByteOffset c + 1))
    else if tableByteOffset c =? 1 then
      let e' := mkEntry (i16 (Z.lor (Z.land (scrollOffset e) 0x00FF)
                                    (Z.shiftl value 8)))
                        (paletteSelect e) in
      setTable c (<[i := e']> (scanlineTable c)) (tableAddr c)
               (u8 (tableByteOffset c + 1))
    else if tableByteOffset c =? 2 then
      let e' := mkEntry (scrollOffset e) value in
      setTable c (<[i := e']> (scanlineTable c)) (u16 (tableAddr c + 1)) 0
    else c
  else c.

Definition storeByte (c : t) (address : Address) (value : Z) : t :=
  let flatAddr := flat address in
  let offset := u32 (flatAddr - getBaseAddress) in
  if offset =? 0x00 then
    setRegs c (i16 (Z.lor (Z.land (scrollOffsetReg c) 0xFF00) value))
            (paletteSelectReg c)
  else if offset =? 0x01 then
    setRegs c (i16 (Z.lor (Z.land (scrollOffsetReg c) 0x00FF)
                          (Z.shiftl value 8)))
            (paletteSelectReg c)
  else if offset =? 0x02 then setRegs c (scrollOffsetReg c) value
  else if offset =? 0x04 then
    setIrq c (u16 (Z.lor (Z.land (irqScanline c) 0xFF00) value))
           (irqEnable c) (irqPending c)
  else if offset =? 0x05 then
    setIrq c (u16 (Z.lor (Z.land (irqScanline c) 0x00FF)
                         (Z.shiftl (Z.land value 0x01) 8)))
           (irqEnable c) (irqPending c)
  else if offset =? 0x06 then
    setIrq c (irqScanline c) (negb (Z.land value 0x01 =? 0)) (irqPending c)
  else if offset =? 0x08 then
    if Z.land value 0x01 =? 0 then c
    else setIrq c (irqScanline c) (irqEnable c) false
  else if offset =? 0x10 then
    let mode := negb (Z.land value 0x01 =? 0) in
    setMode c mode (if mode then 0 else tableIndex c)
  else if offset =? 0x12 then
    setTable c (scanlineTable c)
             (u16 (Z.lor (Z.land (tableAddr c) 0xFF00) value)) 0
  else if offset =? 0x13 then
    setTable c (scanlineTable c)
             (u16 (Z.lor (Z.land (tableAddr c) 0x00FF)
                         (Z.shiftl (Z.land value 0x01) 8))) 0
  else if offset =? 0x14 then storeTableData c value
  else c.

Definition updateEffects (c : t) : t :=
  if tableMode c then
    let e := entryAt c (tableIndex c) in
    let '(scroll, pal) :=
      if tableIndex c <? 262
      then (scrollOffset e, paletteSelect e)
      else (currentScrollOffset c, currentPaletteSelect c) in
    let index := u16 (tableIndex c + 1) in
    setCurrent c scroll pal (if 262 <=? index then 0 else index)
  else setCurrent c (scrollOffsetReg c) (paletteSelectReg c) (tableIndex c).

Definition checkIRQ (c : t) (currentLine : Z) : t * list Call :=
  if irqEnable c && (currentLine =? irqScanline c) then
    if negb (irqPending c)
    then (setIrq c (irqScanline c) (irqEnable c) true,
          fire (irqCallback c) CallIRQ)
    else (c, [])
  else (c, []).

Definition onHSync (c : t) (currentLine : Z) : t * list Call :=
  checkIRQ (updateEffects c) currentLine.

(** The register addresses as the CPU presents them. *)
Definition TABLE_ADDR_LO : Address := Address_new 0x40 0x0312.
Definition TABLE_ADDR_HI : Address := Address_new 0x40 0x0313.
Definition TABLE_DATA : Address := Address_new 0x40 0x0314.

Definition readByte (c : t) (address : Address) : Z :=
  let flatAddr := flat address in
  let offset := u32 (flatAddr - getBaseAddress) in
  if offset =? 0x00 then Z.land (scrollOffsetReg c) 0xFF
  else if offset =? 0x01 then Z.land (Z.shiftr (scrollOffsetReg c) 8) 0xFF
  else if offset =? 0x02 then paletteSelectReg c
  else if offset =? 0x03 then 0x00
  else if offset =? 0x04 then Z.land (irqScanline c) 0xFF
  else if offset =? 0x05 then Z.land (Z.shiftr (irqScanline c) 8) 0xFF
  else if offset =? 0x06 then if irqEnable c then 0x01 else 0x00
  else if offset =? 0x07 then 0x00
  else if offset =? 0x08 then if irqPending c then 0x01 else 0x00
  else if offset =? 0x09 then 0x00
  else if offset =? 0x10 then if tableMode c then 0x01 else 0x00
  else if offset =? 0x11 then 0x00
  else if offset =? 0x12 then Z.land (tableAddr c) 0xFF
  else if offset =? 0x13 then Z.land (Z.shiftr (tableAddr c) 8) 0xFF
  else if offset =? 0x16 then Z.land (tableIndex c) 0xFF
  else if offset =? 0x17 then Z.land (Z.shiftr (tableIndex c) 8) 0xFF
  else 0x00.

Definition decodeAddress (address : Address) : bool :=
  let flatAddr := flat address in
  (getBaseAddress <=? flatAddr) && (flatAddr <? u32 (getBaseAddress + getSize)).

Definition getScrollOffset (c : t) : Z := currentScrollOffset c.
Definition getPaletteSelect (c : t) : Z := currentPaletteSelect c.

Definition setIRQCallback (c : t) (callback : option IRQCallback) : t :=
  mk (tableMode c) (scrollOffsetReg c) (paletteSelectReg c)
     (currentScrollOffset c) (currentPaletteSelect c) (scanlineTable c)
     (tableIndex c) (tableAddr c) (tableByteOffset c) (irqScanline c)
     (irqEnable c) (irqPending c) callback.

(** [onHSync] once per line of [lines], in order. *)
Definition onHSyncs (c : t) (lines : list Z) : t * list Call :=
  foldl (fun (acc : t * list Call) line =>
           let (c', calls) := onHSync acc.1 line in (c', acc.2 ++ calls))
        (c, []) lines.

End CPLD3_Raster.

(** ** VideoRenderer: VRAM fetches and post effects (video/video_renderer.cpp) *)

Module VideoRenderer.

Definition WIDTH : Z := 320.
Definition HEIGHT : Z := 240.
Definition PALETTE_RAM : Z := 0x014000.
Definition SPRITE_OAM : Z := 0x013000.
Definition TILEMAP_BG0 : Z := 0x015000.
Definition TILEMAP_BG1 : Z := 0x017000.
Definition TILEMAP_FG0 : Z := 0x019000.
Definition TILEMAP_FG1 : Z := 0x01B000.
Definition TILEMAP_HUD : Z := 0x01D000.
Definition TILE_DATA : Z := 0x020000.
Definition FRAMEBUFFER : Z := 0x000000.

(** The renderer only reads VRAM, so its [RAM* vram] is passed as the RAM
    it points to; [None] is the null pointer.  A result of [None] would be
    a read past the end of the RAM's vector. *)
Definition readVRAM (vram : option RAM.t) (flatAddr : Z) : option Z :=
  match vram with
  | None => Some 0
  | Some r =>
      if 0x80000 <=? flatAddr then Some 0
      else RAM.readByte r (Address_new (Z.shiftr flatAddr 16)
                                       (Z.land flatAddr 0xFFFF))
  end.

Definition readVRAM16 (vram : option RAM.t) (addr : Z) : option Z :=
  lo ← readVRAM vram addr;
  hi ← readVRAM vram (u32 (addr + 1));
  Some (u16 (Z.lor lo (Z.shiftl hi 8))).

Definition rgb565_to_rgba8888 (rgb565 : Z) : Z :=
  let r5 := Z.land (Z.shiftr rgb565 11) 0x1F in
  let g6 := Z.land (Z.shiftr rgb565 5) 0x3F in
  let b5 := Z.land (Z.shiftr rgb565 0) 0x1F in
  let r := u8 (Z.lor (Z.shiftl r5 3) (Z.shiftr r5 2)) in
  let g := u8 (Z.lor (Z.shiftl g6 2) (Z.shiftr g6 4)) in
  let b := u8 (Z.lor (Z.shiftl b5 3) (Z.shiftr b5 2)) in
  u32 (Z.lor (Z.lor (Z.lor 0xFF000000 (Z.shiftl b 16)) (Z.shiftl g 8)) r).

(** One iteration of [updatePaletteCache]. *)
Definition paletteEntry (vram : option RAM.t) (i : Z) : option Z :=
  rgb565 ← readVRAM16 vram (u32 (PALETTE_RAM + i * 2));
  Some (rgb565_to_rgba8888 rgb565).

Definition updatePaletteCache (vram : option RAM.t) : option (list Z) :=
  mapM (paletteEntry vram) (seqZ 0 256).

Record Sprite : Type := mkSprite {
  x : Z; y : Z; tile : Z; attributes : Z; flags : Z; priority : Z
}.

Definition enabled (s : Sprite) : bool := negb (Z.land (flags s) 0x01 =? 0).
Definition hflip (s : Sprite) : bool := negb (Z.land (flags s) 0x04 =? 0).
Definition vflip (s : Sprite) : bool := negb (Z.land (flags s) 0x08 =? 0).
Definition size (s : Sprite) : Z := Z.land (Z.shiftr (flags s) 4) 0x03.
Definition palBank (s : Sprite) : Z := Z.land (Z.shiftr (attributes s) 4) 0x0F.
Definition alpha (s : Sprite) : Z := Z.land (attributes s) 0x0F.

(** One iteration of [updateSpriteCache]. *)
Definition spriteEntry (vram : option RAM.t) (i : Z) : option Sprite :=
  let oamAddr := u32 (SPRITE_OAM + i * 8) in
  sx ← readVRAM16 vram (u32 (oamAddr + 0));
  sy ← readVRAM16 vram (u32 (oamAddr + 2));
  st ← readVRAM vram (u32 (oamAddr + 4));
  sa ← readVRAM vram (u32 (oamAddr + 5));
  sf ← readVRAM vram (u32 (oamAddr + 6));
  sp ← readVRAM vram (u32 (oamAddr + 7));
  Some (mkSprite sx sy st sa sf sp).

Definition updateSpriteCache (vram : option RAM.t) : option (list Sprite) :=
  mapM (spriteEntry vram) (seqZ 0 512).

(** The palette index [renderFramebufferMode] fetches for pixel [px] of
    [line]. *)
Definition framebufferPixel (vram : option RAM.t) (line px : Z) : option Z :=
  let fbAddr := u32 (FRAMEBUFFER + line * WIDTH) in
  readVRAM vram (u32 (fbAddr + px)).

(** [renderScanline] calls [renderTileLayer] with the constants 0..4. *)
Inductive Layer : Type := BG0 | BG1 | FG0 | FG1 | HUD.

Definition layerIndex (l : Layer) : Z :=
  match l with BG0 => 0 | BG1 => 1 | FG0 => 2 | FG1 => 3 | HUD => 4 end.

Definition tilemapBases (l : Layer) : Z :=
  match l with
  | BG0 => TILEMAP_BG0 | BG1 => TILEMAP_BG1 | FG0 => TILEMAP_FG0
  | FG1 => TILEMAP_FG1 | HUD => TILEMAP_HUD
  end.

(** The tilemap entry and the colour index [renderTileLayer] fetches for
    one [screenX] of [line]: the body of its loop up to the transparency
    test. *)
Definition tileLayerPixel (vram : option RAM.t) (cpld2 : CPLD2_Video.t)
           (line : Z) (layer : Layer) (screenX : Z) : option Z :=
  let reg := CPLD2_Video.getRegister cpld2 in
  let baseReg := u8 (0x10 + layerIndex layer * 8) in
  let scrollX := u16 (Z.lor (reg (baseReg + 0)) (Z.shiftl (reg (baseReg + 1)) 8)) in
  let scrollY := u16 (Z.lor (reg (baseReg + 2)) (Z.shiftl (reg (baseReg + 3)) 8)) in
  let control := reg (baseReg + 4) in
  let bpp := Z.land (Z.shiftr control 0) 0x03 in
  let tileSize := Z.land (Z.shiftr control 2) 0x01 in
  let mapSize := Z.land (Z.shiftr control 3) 0x01 in
  let tilemapBase := tilemapBases layer in
  let side := if tileSize =? 0 then 8 else 16 in
  let worldY := u16 (Z.land (line + scrollY) 0x1FF) in
  let tileY := worldY / side in
  let pixelY := worldY mod side in
  let mapWidth := if mapSize =? 0 then 32 else 64 in
  let worldX := u16 (Z.land (screenX + scrollX) 0x1FF) in
  let tileX := worldX / side in
  let pixelX := worldX mod side in
  let tileMapAddr := u32 (tilemapBase + (tileY * mapWidth + tileX) * 2) in
  tileEntry ← readVRAM16 vram tileMapAddr;
  let tileNum := Z.land tileEntry 0x3FF in
  let hflip := negb (Z.land tileEntry 0x0400 =? 0) in
  let vflip := negb (Z.land tileEntry 0x0800 =? 0) in
  let tilePalBank := Z.land (Z.shiftr tileEntry 12) 0x0F in
  let px := u16 (if hflip then (side - 1) - pixelX else pixelX) in
  let py := u16 (if vflip then (side - 1) - pixelY else pixelY) in
  let bytesPerTile :=
    let full := side * side in
    if bpp =? 1 then full / 2 else if bpp =? 0 then full / 4 else full in
  let tileAddr := u32 (TILE_DATA + tileNum * bytesPerTile) in
  let pixelAddr := u32 (tileAddr + py * side) in
  if bpp =? 0 then
    byte ← readVRAM vram (u32 (pixelAddr + px / 4));
    let colorIndex := u8 (Z.land (Z.shiftr byte ((3 - px mod 4) * 2)) 0x03) in
    Some (u8 (Z.lor colorIndex (Z.shiftl tilePalBank 4)))
  else if bpp =? 1 then
    byte ← readVRAM vram (u32 (pixelAddr + px / 2));
    let colorIndex :=
      u8 (if Z.land px 1 =? 0 then Z.shiftr byte 4 else Z.land byte 0x0F) in
    Some (u8 (Z.lor colorIndex (Z.shiftl tilePalBank 4)))
  else if bpp =? 2 then readVRAM vram (u32 (pixelAddr + px))
  else Some 0.

Definition spriteSizes (i : Z) : Z :=
  if i =? 0 then 8 else if i =? 1 then 16 else if i =? 2 then 32 else 64.

(** The byte [renderSpritesOnLine] fetches for column [sx] of a sprite
    that intersects [line]. *)
Definition spritePixel (vram : option RAM.t) (spr : Sprite) (line sx : Z)
  : option Z :=
  let spriteHeight := spriteSizes (size spr) in
  let spriteWidth := spriteHeight in
  let spriteY := u16 (line - y spr) in
  let spriteY := if vflip spr then u16 (spriteHeight - 1 - spriteY) else spriteY in
  let tileAddr := u32 (TILE_DATA + tile spr * 64) in
  let spriteX := u16 sx in
  let spriteX := if hflip spr then u16 (spriteWidth - 1 - spriteX) else spriteX in
  let pixelAddr := u32 (tileAddr + (spriteY mod 8) * 8 + spriteX mod 8) in
  readVRAM vram pixelAddr.

Definition channel (color shift : Z) : Z := u8 (Z.land (Z.shiftr color shift) 0xFF).

Definition pack (a r g b : Z) : Z :=
  u32 (Z.lor (Z.lor (Z.lor (Z.shiftl a 24) (Z.shiftl r 16)) (Z.shiftl g 8)) b).

Definition applyBrightness (color brightness : Z) : Z :=
  let r := channel color 16 in
  let g := channel color 8 in
  let b := channel color 0 in
  let a := channel color 24 in
  let r := u8 (r * brightness / 31) in
  let g := u8 (g * brightness / 31) in
  let b := u8 (b * brightness / 31) in
  pack a r g b.

(** The tints are [int8_t]; the third clamp reads [g], which the line
    before has already overwritten. *)
Definition applyTint (color tintR tintG tintB : Z) : Z :=
  let r := channel color 16 in
  let g := channel color 8 in
  let b := channel color 0 in
  let a := channel color 24 in
  let r := u8 (std_clamp (r + tintR) 0 255) in
  let g := u8 (std_clamp (g + tintG) 0 255) in
  let b := u8 (std_clamp (g + tintB) 0 255) in
  pack a r g b.

(** [int(fg) * alpha + int(bg) * (16 - alpha)] is signed; [/] rounds
    toward zero and the result is cut to a byte. *)
Definition blendAlpha (fg bg alpha : Z) : Z :=
  let fgR := channel fg 16 in
  let fgG := channel fg 8 in
  let fgB := channel fg 0 in
  let bgR := channel bg 16 in
  let bgG := channel bg 8 in
  let bgB := channel bg 0 in
  let r := u8 (Z.quot (fgR * alpha + bgR * (16 - alpha)) 16) in
  let g := u8 (Z.quot (fgG * alpha + bgG * (16 - alpha)) 16) in
  let b := u8 (Z.quot (fgB * alpha + bgB * (16 - alpha)) 16) in
  u32 (Z.lor (Z.lor (Z.lor 0xFF000000 (Z.shiftl r 16)) (Z.shiftl g 8)) b).

(** *** The renderer's buffers and the scanline pipeline *)

Module LineBuffer.

Record t : Type := mk {
  color : list Z;       (* std::array<uint8_t, WIDTH> *)
  priority : list Z;    (* std::array<uint8_t, WIDTH> *)
  alpha : list Z        (* std::array<uint8_t, WIDTH> *)
}.

End LineBuffer.

Record t : Type := mk {
  framebuffer : list Z;               (* std::array<uint32_t, WIDTH * HEIGHT> *)
  layerBuffers : list LineBuffer.t;   (* std::array<LineBuffer, 6> *)
  finalBuffer : LineBuffer.t;
  paletteRGBA : list Z;               (* std::array<uint32_t, 256> *)
  paletteDirty : bool;
  spriteCache : list Sprite;          (* std::array<Sprite, 512> *)
  spriteCacheDirty : bool
}.

Definition setFramebuffer (r : t) (fb : list Z) : t :=
  mk fb (layerBuffers r) (finalBuffer r) (paletteRGBA r) (paletteDirty r)
     (spriteCache r) (spriteCacheDirty r).
Definition setLayerBuffers (r : t) (layers : list LineBuffer.t) : t :=
  mk (framebuffer r) layers (finalBuffer r) (paletteRGBA r) (paletteDirty r)
     (spriteCache r) (spriteCacheDirty r).
Definition setFinalBuffer (r : t) (buf : LineBuffer.t) : t :=
  mk (framebuffer r) (layerBuffers r) buf (paletteRGBA r) (paletteDirty r)
     (spriteCache r) (spriteCacheDirty r).
Definition setPalette (r : t) (palette : list Z) (dirty : bool) : t :=
  mk (framebuffer r) (layerBuffers r) (finalBuffer r) palette dirty
     (spriteCache r) (spriteCacheDirty r).
Definition setSprites (r : t) (sprites : list Sprite) (dirty : bool) : t :=
  mk (framebuffer r) (layerBuffers r) (finalBuffer r) (paletteRGBA r)
     (paletteDirty r) sprites dirty.

(** [a[i]] and [a[i] = v] on a [std::array]; [None] is an index outside
    the array. *)
Definition getAt {A} (a : list A) (i : Z) : option A :=
  if 0 <=? i then a !! Z.to_nat i else None.

Definition setAt {A} (a : list A) (i : Z) (v : A) : option (list A) :=
  if (0 <=? i) && (i <? Z.of_nat (length a))
  then Some (<[Z.to_nat i := v]> a) else None.

(** [for (int x = 0; x < n; ++x) body], the body threading its state. *)
Definition forRange {S} (n : Z) (body : S -> Z -> option S) (s : S) : option S :=
  foldl (fun acc x => s ← acc; body s x) (Some s) (seqZ 0 n).

Definition blankLine : LineBuffer.t :=
  LineBuffer.mk (replicate (Z.to_nat WIDTH) 0) (replicate (Z.to_nat WIDTH) 0)
                (replicate (Z.to_nat WIDTH) 16).

(** [reset]: the final buffer and the sprite cache are not touched. *)
Definition reset (r : t) : t :=
  mk (replicate (Z.to_nat (WIDTH * HEIGHT)) 0xFF000000)
     (replicate 6 blankLine)
     (finalBuffer r)
     ((fun i => u32 (Z.lor (Z.lor (Z.lor 0xFF000000 (Z.shiftl i 16))
                                  (Z.shiftl i 8)) i)) <$> seqZ 0 256)
     true (spriteCache r) true.

Definition renderFramebufferMode (r : t) (vram : option RAM.t) (line : Z)
  : option t :=
  forRange WIDTH
    (fun r x =>
       palIndex ← framebufferPixel vram line x;
       colour ← getAt (paletteRGBA r) palIndex;
       fb ← setAt (framebuffer r) (line * WIDTH + x) colour;
       Some (setFramebuffer r fb))
    r.

Definition renderTileLayer (r : t) (vram : option RAM.t) (cpld2 : CPLD2_Video.t)
           (line : Z) (layer : Layer) : option t :=
  let baseReg := u8 (0x10 + layerIndex layer * 8) in
  let priority := CPLD2_Video.getRegister cpld2 (baseReg + 5) in
  forRange WIDTH
    (fun r screenX =>
       colorIndex ← tileLayerPixel vram cpld2 line layer screenX;
       if colorIndex =? 0 then Some r
       else
         buf ← getAt (layerBuffers r) (layerIndex layer);
         c ← setAt (LineBuffer.color buf) screenX colorIndex;
         p ← setAt (LineBuffer.priority buf) screenX priority;
         a ← setAt (LineBuffer.alpha buf) screenX 16;
         layers ← setAt (layerBuffers r) (layerIndex layer) (LineBuffer.mk c p a);
         Some (setLayerBuffers r layers))
    r.

Definition SPRITE_LAYER : Z := 5.

(** The inner loop of [renderSpritesOnLine], for a sprite on [line]. *)
Definition renderSprite (vram : option RAM.t) (line : Z) (r : t) (spr : Sprite)
  : option t :=
  let spriteHeight := spriteSizes (size spr) in
  let spriteWidth := spriteHeight in
  forRange spriteWidth
    (fun r sx =>
       let screenX := x spr + sx in
       if (screenX <? 0) || (WIDTH <=? screenX) then Some r
       else
         byte ← spritePixel vram spr line sx;
         let colorIndex :=
           u8 (Z.lor (Z.land byte 0x0F) (Z.shiftl (palBank spr) 4)) in
         if Z.land colorIndex 0x0F =? 0 then Some r
         else
           buf ← getAt (layerBuffers r) SPRITE_LAYER;
           shown ← getAt (LineBuffer.priority buf) screenX;
           if shown <=? priority spr then
             c ← setAt (LineBuffer.color buf) screenX colorIndex;
             p ← setAt (LineBuffer.priority buf) screenX (priority spr);
             a ← setAt (LineBuffer.alpha buf) screenX (alpha spr);
             layers ← setAt (layerBuffers r) SPRITE_LAYER (LineBuffer.mk c p a);
             Some (setLayerBuffers r layers)
           else Some r)
    r.

(** The outer loop runs [i] from 511 down to 0 while fewer than 128
    sprites have been found on the line. *)
Definition renderSpritesOnLine (r : t) (vram : option RAM.t) (line : Z)
  : option t :=
  res ← foldl
          (fun (acc : option (t * Z)) i =>
             '(r, spritesOnLine) ← acc;
             if spritesOnLine <? 128 then
               spr ← getAt (spriteCache r) i;
               if negb (enabled spr) then Some (r, spritesOnLine)
               else
                 let spriteHeight := spriteSizes (size spr) in
                 if (line <? y spr) || (y spr + spriteHeight <=? line)
                 then Some (r, spritesOnLine)
                 else
                   r' ← renderSprite vram line r spr;
                   Some (r', spritesOnLine + 1)
             else Some (r, spritesOnLine))
          (Some (r, 0)) (reverse (seqZ 0 512));
  Some res.1.

(** The inner loop of [compositeBuffers] for column [x]: the colour,
    priority and alpha that end up on top.  The blended colour is computed
    and dropped. *)
Definition topPixel (r : t) (x : Z) : option (Z * Z * Z) :=
  forRange 6
    (fun (top : Z * Z * Z) layer =>
       let '(topColor, topPriority, topAlpha) := top in
       buf ← getAt (layerBuffers r) layer;
       color ← getAt (LineBuffer.color buf) x;
       priority ← getAt (LineBuffer.priority buf) x;
       alpha ← getAt (LineBuffer.alpha buf) x;
       if color =? 0 then Some top
       else if topPriority <=? priority then
         if alpha =? 16 then Some (color, priority, alpha)
         else if 0 <? alpha then
           fgColor ← getAt (paletteRGBA r) color;
           bgColor ← getAt (paletteRGBA r) topColor;
           let blended := blendAlpha fgColor bgColor alpha in
           Some (color, priority, 16)
         else Some top
       else Some top)
    (0, 0, 16).

Definition compositeBuffers (r : t) (line : Z) : option t :=
  r ← forRange WIDTH
        (fun r x =>
           '(topColor, topPriority, topAlpha) ← topPixel r x;
           c ← setAt (LineBuffer.color (finalBuffer r)) x topColor;
           p ← setAt (LineBuffer.priority (finalBuffer r)) x topPriority;
           a ← setAt (LineBuffer.alpha (finalBuffer r)) x topAlpha;
           Some (setFinalBuffer r (LineBuffer.mk c p a)))
        r;
  forRange WIDTH
    (fun r x =>
       palIndex ← getAt (LineBuffer.color (finalBuffer r)) x;
       colour ← getAt (paletteRGBA r) palIndex;
       fb ← setAt (framebuffer r) (line * WIDTH + x) colour;
       Some (setFramebuffer r fb))
    r.

Definition applyEffects (r : t) (cpld2 : option CPLD2_Video.t) (line : Z)
  : option t :=
  match cpld2 with
  | None => Some r
  | Some c =>
      let brightness := CPLD2_Video.getRegister c 0x08 in
      let tintR := i8 (CPLD2_Video.getRegister c 0x09) in
      let tintG := i8 (CPLD2_Video.getRegister c 0x0A) in
      let tintB := i8 (CPLD2_Video.getRegister c 0x0B) in
      forRange WIDTH
        (fun r x =>
           color ← getAt (framebuffer r) (line * WIDTH + x);
           let color :=
             if negb (brightness =? 31) then applyBrightness color brightness
             else color in
           let color :=
             if negb (tintR =? 0) || negb (tintG =? 0) || negb (tintB =? 0)
             then applyTint color tintR tintG tintB else color in
           fb ← setAt (framebuffer r) (line * WIDTH + x) color;
           Some (setFramebuffer r fb))
        r
  end.

(** [if (layerEnable & bit) renderTileLayer(line, layer);] *)
Definition layerOn (r : t) (vram : option RAM.t) (cpld2 : CPLD2_Video.t)
           (line layerEnable bit : Z) (layer : Layer) : option t :=
  if negb (Z.land layerEnable bit =? 0) then renderTileLayer r vram cpld2 line layer
  else Some r.

(** [renderScanline(line)]; [cpld2] and [vram] are what the renderer's two
    pointers point to at the time of the call. *)
Definition renderScanline (r : t) (cpld2 : option CPLD2_Video.t)
           (vram : option RAM.t) (line : Z) : option t :=
  match cpld2, vram with
  | Some c, Some _ =>
      r ← (if paletteDirty r
           then palette ← updatePaletteCache vram; Some (setPalette r palette false)
           else Some r);
      let videoMode := CPLD2_Video.getRegister c 0x00 in
      if Z.land videoMode 0x03 =? 0 then renderFramebufferMode r vram line
      else
        let layerEnable := CPLD2_Video.getRegister c 0x01 in
        r ← (if spriteCacheDirty r
             then sprites ← updateSpriteCache vram; Some (setSprites r sprites false)
             else Some r);
        r ← layerOn r vram c line layerEnable 0x01 BG0;
        r ← layerOn r vram c line layerEnable 0x02 BG1;
        r ← layerOn r vram c line layerEnable 0x04 FG0;
        r ← layerOn r vram c line layerEnable 0x08 FG1;
        r ← layerOn r vram c line layerEnable 0x10 HUD;
        r ← (if (Z.land videoMode 0x03 =? 1)
                && negb (Z.land layerEnable 0x20 =? 0)
             then renderSpritesOnLine r vram line else Some r);
        r ← compositeBuffers r line;
        applyEffects r cpld2 line
  | _, _ => Some r
  end.

(** [renderFrame]: the 240 scanlines in order. *)
Definition renderFrame (r : t) (cpld2 : option CPLD2_Video.t)
           (vram : option RAM.t) : option t :=
  forRange HEIGHT (fun r line => renderScanline r cpld2 vram line) r.

End VideoRenderer.

(** ** AudioMixer (audio_mixer.cpp) *)

Module AudioMixer.

(** [float] is IEEE-754 binary32 (24-bit significand, [emax] 128), every
    operation rounded to nearest-even on its own (no fused or
    extended-precision evaluation). *)
Definition float : Type := spec_float.
Definition prec : Z := 24.
Definition emax : Z := 128.

Definition of_int (z : Z) : float := binary_normalize prec emax z 0 false.
Definition fadd : float -> float -> float := SFadd prec emax.
Definition fsub : float -> float -> float := SFsub prec emax.
Definition fmul : float -> float -> float := SFmul prec emax.
Definition fdiv : float -> float -> float := SFdiv prec emax.
Definition fabs : float -> float := SFabs.
Definition flt : float -> float -> bool := SFltb.
Definition fle : float -> float -> bool := SFleb.

(** [std::max(a, b)] is [(a < b) ? b : a]. *)
Definition fmax (a b : float) : float := if flt a b then b else a.

Definition f0 : float := S754_zero false.
Definition f1 : float := of_int 1.
(** [0.01f], the binary32 nearest to 1/100: 10737418 * 2^-30. *)
Definition alpha : float := S754_finite false 10737418 (-30).

(** [static_cast<int16_t>(sample)], reached only for
    [-32768 <= sample <= 32767]: truncation toward zero.  The conversion
    of a NaN is undefined in C++; it is given 0 here. *)
Definition to_int16 (f : float) : Z :=
  match f with
  | S754_finite s m e =>
      let mag := if 0 <=? e then Z.pos m * 2 ^ e else Z.pos m / 2 ^ (- e) in
      i16 (if s then - mag else mag)
  | _ => 0
  end.

Definition clamp (sample : float) : Z :=
  if flt (of_int 32767) sample then 32767
  else if flt sample (of_int (-32768)) then -32768
  else to_int16 sample.

Definition NUM_CHANNELS : Z := 8.

Record ChannelState : Type := mkChannel {
  volume : float; pan : float; muted : bool
}.

Record t : Type := mk {
  cpld1 : option CPLD1_Audio.t;   (* CPLD1_Audio*; only read *)
  channels : list ChannelState;
  masterVolume : float;
  autoGainControl : bool;
  currentGain : float;
  targetGain : float
}.

Definition reset (m : t) : t :=
  mk (cpld1 m) (replicate (Z.to_nat NUM_CHANNELS) (mkChannel f1 f0 false))
     f1 true f1 f1.

Definition new : t := reset (mk None [] f1 true f1 f1).

Definition setCPLD1 (m : t) (c : CPLD1_Audio.t) : t :=
  mk (Some c) (channels m) (masterVolume m) (autoGainControl m)
     (currentGain m) (targetGain m).

Definition setAutoGainControl (m : t) (enabled : bool) : t :=
  if enabled
  then mk (cpld1 m) (channels m) (masterVolume m) true f1 f1
  else mk (cpld1 m) (channels m) (masterVolume m) false
          (currentGain m) (targetGain m).

Definition setChannelMute (m : t) (channel : Z) (mute : bool) : t :=
  if (0 <=? channel) && (channel <? NUM_CHANNELS) then
    match channels m !! Z.to_nat channel with
    | Some ch =>
        mk (cpld1 m)
           (<[Z.to_nat channel := mkChannel (volume ch) (pan ch) mute]> (channels m))
           (masterVolume m) (autoGainControl m) (currentGain m) (targetGain m)
    | None => m
    end
  else m.

Definition setGains (m : t) (current target : float) : t :=
  mk (cpld1 m) (channels m) (masterVolume m) (autoGainControl m)
     current target.

(** The sums of [mixFrame] before master volume and clamping: one pass of
    its loop per channel, each pass reading the CPLD1 frame again. *)
Definition mixSums (chs : list ChannelState) (frame : Z * Z) : float * float :=
  foldl
    (fun (acc : float * float) ch =>
       let (leftSum, rightSum) := acc in
       if muted ch then acc
       else
         let (leftSample, rightSample) := frame in
         let sample := fmul (of_int leftSample) (volume ch) in
         let (leftGain, rightGain) :=
           if fle (pan ch) f0
           then (f1, fadd f1 (pan ch))
           else (fsub f1 (pan ch), f1) in
         (fadd leftSum (fmul sample leftGain),
          fadd rightSum (fmul sample rightGain)))
    (f0, f0) chs.

(** The two sums after master volume, before the clamp to 16 bits. *)
Definition preClamp (m : t) (c : CPLD1_Audio.t) : float * float :=
  let (leftSum, rightSum) := mixSums (channels m) (CPLD1_Audio.getAudioFrame c) in
  (fmul leftSum (masterVolume m), fmul rightSum (masterVolume m)).

(** [mixFrame(leftOut, rightOut)], with the attached CPLD1. *)
Definition mixFrame (m : t) (c : CPLD1_Audio.t) : Z * Z :=
  let (leftSum, rightSum) := preClamp m c in
  (clamp leftSum, clamp rightSum).

(** [applyAGC(left, right)]: the new mixer state and the two samples. *)
Definition applyAGC (m : t) (left right : Z) : t * (Z * Z) :=
  let leftF := of_int left in
  let rightF := of_int right in
  let peak := fmax (fabs leftF) (fabs rightF) in
  let target :=
    if flt (of_int 32767) peak then fdiv (of_int 32767) peak else f1 in
  let current := fadd (currentGain m) (fmul (fsub target (currentGain m)) alpha) in
  (setGains m current target,
   (clamp (fmul leftF current), clamp (fmul rightF current))).

(** One iteration of the loop of [generateSamples]. *)
Definition generateFrame (m : t) (c : CPLD1_Audio.t) : t * (Z * Z) :=
  let (leftS, rightS) := mixFrame m c in
  if autoGainControl m then applyAGC m leftS rightS
  else (m, (leftS, rightS)).

(** [generateSamples(buffer, numFrames)]: the mixer afterwards and the
    interleaved buffer. *)
Fixpoint generateLoop (n : nat) (m : t) (c : CPLD1_Audio.t) : t * list Z :=
  match n with
  | O => (m, [])
  | S n' =>
      let '(m1, (leftS, rightS)) := generateFrame m c in
      let (m2, rest) := generateLoop n' m1 c in
      (m2, leftS :: rightS :: rest)
  end.

Definition generateSamples (m : t) (numFrames : nat) : t * list Z :=
  match cpld1 m with
  | None => (m, replicate (numFrames * 2) 0)
  | Some c => generateLoop numFrames m c
  end.

End AudioMixer.

(** ** MasterClock (timing/master_clock.cpp) *)

Module MasterClock.

Definition MAIN_CPU_FREQ : Z := 7159000.
Definition GRAPHICS_CPU_FREQ : Z := 13500000.
Definition SOUND_CPU_FREQ : Z := 4773000.
Definition PIXEL_CLOCK : Z := 13500000.
Definition FRAME_RATE : Z := 60.
Definition SCANLINES_PER_FRAME : Z := 240.
Definition TOTAL_SCANLINES : Z := 262.
Definition PIXELS_PER_SCANLINE : Z := 858.
Definition AUDIO_SAMPLE_RATE : Z := 32000.
Definition CYCLES_PER_FRAME_MAIN : Z := u32 (MAIN_CPU_FREQ / FRAME_RATE).
Definition CYCLES_PER_FRAME_GRAPHICS : Z := u32 (GRAPHICS_CPU_FREQ / FRAME_RATE).
Definition CYCLES_PER_FRAME_SOUND : Z := u32 (SOUND_CPU_FREQ / FRAME_RATE).
Definition AUDIO_SAMPLES_PER_FRAME : Z := u32 (AUDIO_SAMPLE_RATE / FRAME_RATE).

(** An invocation of one of the three event callbacks.  The handlers are
    the client's; a slot records whether one is bound, and a handler is
    taken not to call back into the clock. *)
Inductive Event : Type :=
| Scanline (scanline : Z)    (* onScanline(currentScanline) *)
| VBlank                     (* onVBlank() *)
| AudioSample.               (* onAudioSample() *)

Record t : Type := mk {
  mainCPUCycles : Z;           (* uint64_t *)
  graphicsCPUCycles : Z;       (* uint64_t *)
  soundCPUCycles : Z;          (* uint64_t *)
  masterCycles : Z;            (* uint64_t *)
  frameCount : Z;              (* uint64_t *)
  currentScanline : Z;         (* int *)
  currentPixel : Z;            (* int *)
  targetMainCycles : Z;        (* uint64_t *)
  targetGraphicsCycles : Z;    (* uint64_t *)
  targetSoundCycles : Z;       (* uint64_t *)
  audioSampleCounter : Z;      (* uint32_t *)
  audioSamplesThisFrame : Z;   (* uint32_t *)
  onScanline : bool;
  onVBlank : bool;
  onAudioSample : bool;
  realTimeStart : Z;           (* uint64_t *)
  emulatedTimeStart : Z        (* uint64_t *)
}.

(** [if (slot) slot(...)] *)
Definition emit (slot : bool) (e : Event) : list Event :=
  if slot then [e] else [].

(** [reset]; [now] is the reading of the steady clock in microseconds. *)
Definition reset (k : t) (now : Z) : t :=
  mk 0 0 0 0 0 0 0
     CYCLES_PER_FRAME_MAIN CYCLES_PER_FRAME_GRAPHICS CYCLES_PER_FRAME_SOUND
     0 0 (onScanline k) (onVBlank k) (onAudioSample k) (u64 now) 0.

(** The constructor: every slot empty, then [reset]. *)
Definition new (now : Z) : t :=
  reset (mk 0 0 0 0 0 0 0 0 0 0 0 0 false false false 0 0) now.

Definition setScanlineCallback (k : t) (bound : bool) : t :=
  mk (mainCPUCycles k) (graphicsCPUCycles k) (soundCPUCycles k)
     (masterCycles k) (frameCount k) (currentScanline k) (currentPixel k)
     (targetMainCycles k) (targetGraphicsCycles k) (targetSoundCycles k)
     (audioSampleCounter k) (audioSamplesThisFrame k)
     bound (onVBlank k) (onAudioSample k)
     (realTimeStart k) (emulatedTimeStart k).

Definition setVBlankCallback (k : t) (bound : bool) : t :=
  mk (mainCPUCycles k) (graphicsCPUCycles k) (soundCPUCycles k)
     (masterCycles k) (frameCount k) (currentScanline k) (currentPixel k)
     (targetMainCycles k) (targetGraphicsCycles k) (targetSoundCycles k)
     (audioSampleCounter k) (audioSamplesThisFrame k)
     (onScanline k) bound (onAudioSample k)
     (realTimeStart k) (emulatedTimeStart k).

Definition setAudioCallback (k : t) (bound : bool) : t :=
  mk (mainCPUCycles k) (graphicsCPUCycles k) (soundCPUCycles k)
     (masterCycles k) (frameCount k) (currentScanline k) (currentPixel k)
     (targetMainCycles k) (targetGraphicsCycles k) (targetSoundCycles k)
     (audioSampleCounter k) (audioSamplesThisFrame k)
     (onScanline k) (onVBlank k) bound
     (realTimeStart k) (emulatedTimeStart k).

(** Updates of the fields the timing functions assign. *)
Definition setCycles (k : t) (main graphics sound master : Z) : t :=
  mk main graphics sound master (frameCount k)
     (currentScanline k) (currentPixel k)
     (targetMainCycles k) (targetGraphicsCycles k) (targetSoundCycles k)
     (audioSampleCounter k) (audioSamplesThisFrame k)
     (onScanline k) (onVBlank k) (onAudioSample k)
     (realTimeStart k) (emulatedTimeStart k).

Definition setRaster (k : t) (frames scanline pixel : Z) : t :=
  mk (mainCPUCycles k) (graphicsCPUCycles k) (soundCPUCycles k)
     (masterCycles k) frames scanline pixel
     (targetMainCycles k) (targetGraphicsCycles k) (targetSoundCycles k)
     (audioSampleCounter k) (audioSamplesThisFrame k)
     (onScanline k) (onVBlank k) (onAudioSample k)
     (realTimeStart k) (emulatedTimeStart k).

Definition setAudio (k : t) (counter thisFrame : Z) : t :=
  mk (mainCPUCycles k) (graphicsCPUCycles k) (soundCPUCycles k)
     (masterCycles k) (frameCount k) (currentScanline k) (currentPixel k)
     (targetMainCycles k) (targetGraphicsCycles k) (targetSoundCycles k)
     counter thisFrame
     (onScanline k) (onVBlank k) (onAudioSample k)
     (realTimeStart k) (emulatedTimeStart k).

Definition setTargets (k : t) (main graphics sound : Z) : t :=
  mk (mainCPUCycles k) (graphicsCPUCycles k) (soundCPUCycles k)
     (masterCycles k) (frameCount k) (currentScanline k) (currentPixel k)
     main graphics sound
     (audioSampleCounter k) (audioSamplesThisFrame k)
     (onScanline k) (onVBlank k) (onAudioSample k)
     (realTimeStart k) (emulatedTimeStart k).

Definition isVBlank (k : t) : bool := SCANLINES_PER_FRAME <=? currentScanline k.
Definition isHBlank (k : t) : bool := 720 <=? currentPixel k.

Definition updateVideoTiming (k : t) : t * list Event :=
  let cyclesThisFrame :=
    graphicsCPUCycles k mod u32 (GRAPHICS_CPU_FREQ / FRAME_RATE) in
  let totalPixels := cyclesThisFrame in
  let oldScanline := currentScanline k in
  let k := setRaster k (frameCount k)
                     (i32 (totalPixels / PIXELS_PER_SCANLINE))
                     (i32 (totalPixels mod PIXELS_PER_SCANLINE)) in
  (k,
   (if negb (currentScanline k =? oldScanline)
    then emit (onScanline k) (Scanline (currentScanline k)) else [])
   ++
   (if (oldScanline <? SCANLINES_PER_FRAME)
       && (SCANLINES_PER_FRAME <=? currentScanline k)
    then emit (onVBlank k) VBlank else [])).

Definition advanceScanline (k : t) : t * list Event :=
  let k := setRaster k (frameCount k) (i32 (currentScanline k + 1)) 0 in
  let k :=
    if TOTAL_SCANLINES <=? currentScanline k
    then setRaster k (u64 (frameCount k + 1)) 0 (currentPixel k)
    else k in
  (k,
   emit (onScanline k) (Scanline (currentScanline k))
   ++
   (if currentScanline k =? SCANLINES_PER_FRAME
    then emit (onVBlank k) VBlank else [])).

(** The [while] loop of [updateAudioTiming].  The counter is a [uint32_t]
    compared with a [uint64_t]; [fuel] bounds the number of iterations and
    [None] is a loop still running when it is used up. *)
Fixpoint audioLoop (fuel : nat) (k : t) (expectedSamples : Z)
  : option (t * list Event) :=
  if audioSampleCounter k <? expectedSamples then
    match fuel with
    | O => None
    | S fuel' =>
        let calls := emit (onAudioSample k) AudioSample in
        let k := setAudio k (u32 (audioSampleCounter k + 1))
                          (u32 (audioSamplesThisFrame k + 1)) in
        match audioLoop fuel' k expectedSamples with
        | Some (k', rest) => Some (k', calls ++ rest)
        | None => None
        end
    end
  else Some (k, []).

Definition updateAudioTiming (fuel : nat) (k : t) : option (t * list Event) :=
  let expectedSamples :=
    u64 (masterCycles k * AUDIO_SAMPLE_RATE) / GRAPHICS_CPU_FREQ in
  audioLoop fuel k expectedSamples.

Definition addMainCPUCycles (fuel : nat) (k : t) (cycles : Z)
  : option (t * list Event) :=
  let k := setCycles k (u64 (mainCPUCycles k + cycles)) (graphicsCPUCycles k)
                     (soundCPUCycles k) (masterCycles k) in
  let k := setCycles k (mainCPUCycles k) (graphicsCPUCycles k) (soundCPUCycles k)
                     (u64 (graphicsCPUCycles k * GRAPHICS_CPU_FREQ)
                      / GRAPHICS_CPU_FREQ) in
  let (k, video) := updateVideoTiming k in
  match updateAudioTiming fuel k with
  | Some (k, audio) => Some (k, video ++ audio)
  | None => None
  end.

Definition addGraphicsCPUCycles (fuel : nat) (k : t) (cycles : Z)
  : option (t * list Event) :=
  let k := setCycles k (mainCPUCycles k) (u64 (graphicsCPUCycles k + cycles))
                     (soundCPUCycles k) (masterCycles k) in
  let k := setCycles k (mainCPUCycles k) (graphicsCPUCycles k) (soundCPUCycles k)
                     (graphicsCPUCycles k) in
  let (k, video) := updateVideoTiming k in
  match updateAudioTiming fuel k with
  | Some (k, audio) => Some (k, video ++ audio)
  | None => None
  end.

Definition addSoundCPUCycles (fuel : nat) (k : t) (cycles : Z)
  : option (t * list Event) :=
  let k := setCycles k (mainCPUCycles k) (graphicsCPUCycles k)
                     (u64 (soundCPUCycles k + cycles)) (masterCycles k) in
  updateAudioTiming fuel k.

Definition runFrame (k : t) : t :=
  let k := setTargets k (u64 (mainCPUCycles k + CYCLES_PER_FRAME_MAIN))
                      (u64 (graphicsCPUCycles k + CYCLES_PER_FRAME_GRAPHICS))
                      (u64 (soundCPUCycles k + CYCLES_PER_FRAME_SOUND)) in
  let k := setAudio k (audioSampleCounter k) 0 in
  setRaster k (u64 (frameCount k + 1)) (currentScanline k) (currentPixel k).

Definition shouldRunMainCPU (k : t) : bool :=
  mainCPUCycles k <? targetMainCycles k.
Definition shouldRunGraphicsCPU (k : t) : bool :=
  graphicsCPUCycles k <? targetGraphicsCycles k.
Definition shouldRunSoundCPU (k : t) : bool :=
  soundCPUCycles k <? targetSoundCycles k.

Definition checkCallbacks (fuel : nat) (k : t) : option (t * list Event) :=
  let (k, video) := updateVideoTiming k in
  match updateAudioTiming fuel k with
  | Some (k, audio) => Some (k, video ++ audio)
  | None => None
  end.

End MasterClock.

(** ** Emulator (emulator.cpp) *)

Module Emulator.

(** The components the modelled operations touch.  The three system buses,
    the clock, the renderer and the audio sink take no part in them. *)
Record t : Type := mk {
  initialized : bool;
  cartridge : option Cartridge.t;
  mainCPU : option Cpu65816.t;
  graphicsCPU : option Cpu65816.t;
  soundCPU : option Cpu65816.t;
  memory : Memory.t;
  cpld1 : CPLD1_Audio.t;
  cpld2 : CPLD2_Video.t;
  cpld3 : CPLD3_Raster.t
}.

Definition setCartridge (e : t) (c : option Cartridge.t) : t :=
  mk (initialized e) c (mainCPU e) (graphicsCPU e) (soundCPU e) (memory e)
     (cpld1 e) (cpld2 e) (cpld3 e).
Definition setMainCPU (e : t) (c : option Cpu65816.t) : t :=
  mk (initialized e) (cartridge e) c (graphicsCPU e) (soundCPU e) (memory e)
     (cpld1 e) (cpld2 e) (cpld3 e).
Definition setGraphicsCPU (e : t) (c : option Cpu65816.t) : t :=
  mk (initialized e) (cartridge e) (mainCPU e) c (soundCPU e) (memory e)
     (cpld1 e) (cpld2 e) (cpld3 e).
Definition setSoundCPU (e : t) (c : option Cpu65816.t) : t :=
  mk (initialized e) (cartridge e) (mainCPU e) (graphicsCPU e) c (memory e)
     (cpld1 e) (cpld2 e) (cpld3 e).
Definition setMemory (e : t) (h : Memory.t) : t :=
  mk (initialized e) (cartridge e) (mainCPU e) (graphicsCPU e) (soundCPU e) h
     (cpld1 e) (cpld2 e) (cpld3 e).

(** [initializeMemory] *)
Definition initializeMemory : Memory.t :=
  Memory.mk (RAM.new 0x000000 (128 * 1024))
            (RAM.new 0x000000 (128 * 1024))
            (RAM.new 0x000000 (64 * 1024))
            (Mailbox.new 0x400000 1024)
            (Mailbox.new 0x410000 1024).

(** [initializeCPUs]: [powerOn] is the state the CPU core's constructor
    leaves a CPU in.  Only the main CPU gets RES asserted; the two lines
    that would assert it on the coprocessors are commented out. *)
Definition initializeCPU (powerOn : Cpu65816.t) : Cpu65816.t :=
  Cpu65816.setRDYPin powerOn true.

(** [setupCallbacks]; the slots it sets twice receive the same lambda. *)
Definition setupCallbacks (e : t) : t :=
  let c2 := CPLD2_Video.setGraphicsRAM (cpld2 e) GraphicsRAM in
  let c2 := CPLD2_Video.setGraphicsCPUReset c2 GraphicsCPUReset in
  let c1 := CPLD1_Audio.setSoundRAM (cpld1 e) SoundRAM in
  let c1 := CPLD1_Audio.setSoundCPUReset c1 SoundCPUReset in
  let c2 := CPLD2_Video.setMailboxA c2 MailboxA in
  let c2 := CPLD2_Video.setMailboxACallback c2 RaiseGraphicsIRQ in
  let c1 := CPLD1_Audio.setMailboxB c1 MailboxB in
  let c1 := CPLD1_Audio.setMailboxBCallback c1 RaiseSoundIRQ in
  let h := memory e in
  let h := Memory.setMailbox h MailboxA
             (Mailbox.setWriteCallback (Memory.mailboxA h) NotifyCPLD2) in
  let h := Memory.setMailbox h MailboxB
             (Mailbox.setWriteCallback (Memory.mailboxB h) NotifyCPLD1) in
  let c2 := CPLD2_Video.setMailboxACallback c2 RaiseGraphicsIRQ in
  let c1 := CPLD1_Audio.setMailboxBCallback c1 RaiseSoundIRQ in
  mk (initialized e) (cartridge e) (mainCPU e) (graphicsCPU e) (soundCPU e)
     h c1 c2 (cpld3 e).

(** [initialize], from a freshly constructed emulator. *)
Definition initialize (powerOn : Cpu65816.t) : t :=
  let e :=
    mk false None
       (Some (Cpu65816.setRESPin (initializeCPU powerOn) true))
       (Some (initializeCPU powerOn))
       (Some (initializeCPU powerOn))
       initializeMemory CPLD1_Audio.new CPLD2_Video.new CPLD3_Raster.new in
  let e := setupCallbacks e in
  mk true (cartridge e) (mainCPU e) (graphicsCPU e) (soundCPU e) (memory e)
     (cpld1 e) (cpld2 e) (cpld3 e).

(** [loadROMFromMemory(data, size)] *)
Definition loadROMFromMemory (e : t) (bytes : option (list Z)) : bool * t :=
  if negb (initialized e) then (false, e)
  else
    let (ok, c) := Cartridge.loadROM Cartridge.new bytes in
    if ok then (true, setCartridge e (Some c))
    else (false, setCartridge e None).

Definition isROMLoaded (e : t) : bool :=
  match cartridge e with
  | Some c => Cartridge.isLoaded c
  | None => false
  end.

(** [Address startAddr(entryPoint >> 16, entryPoint & 0xFFFF)] *)
Definition entryAddress (entryPoint : Z) : Address :=
  Address_new (Z.shiftr entryPoint 16) (Z.land entryPoint 0xFFFF).

(** The header of the cartridge when [cartridge && cartridge->isLoaded()]. *)
Definition loadedHeader (e : t) : option Cartridge.ROMHeader :=
  match cartridge e with
  | Some c => if Cartridge.isLoaded c then Some (Cartridge.header c) else None
  | None => None
  end.

(** [reset]; resetting the clock is left out. *)
Definition reset (e : t) : t :=
  if negb (initialized e) then e
  else
    let e :=
      match mainCPU e with
      | Some cpu =>
          let cpu := Cpu65816.setRESPin cpu true in
          let cpu := Cpu65816.setRESPin cpu false in
          let cpu :=
            match loadedHeader e with
            | Some hd =>
                let entryPoint := Cartridge.mainCPU_entryPoint hd in
                Cpu65816.setProgramAddress cpu (entryAddress entryPoint)
            | None => cpu
            end in
          setMainCPU e (Some cpu)
      | None => e
      end in
    let e :=
      match graphicsCPU e with
      | Some cpu =>
          let cpu := Cpu65816.setRESPin cpu false in
          let cpu :=
            match loadedHeader e with
            | Some hd =>
                let entryPoint := Cartridge.graphicsCPU_entryPoint hd in
                if negb (entryPoint =? 0) then
                  let cpu := Cpu65816.setRESPin cpu false in
                  Cpu65816.setProgramAddress cpu (entryAddress entryPoint)
                else cpu
            | None => cpu
            end in
          setGraphicsCPU e (Some cpu)
      | None => e
      end in
    let e :=
      match soundCPU e with
      | Some cpu =>
          let cpu := Cpu65816.setRESPin cpu true in
          let cpu := Cpu65816.setRESPin cpu false in
          let cpu :=
            match loadedHeader e with
            | Some hd =>
                let entryPoint := Cartridge.soundCPU_entryPoint hd in
                Cpu65816.setProgramAddress cpu (entryAddress entryPoint)
            | None => cpu
            end in
          setSoundCPU e (Some cpu)
      | None => e
      end in
    e.

(** The lambdas of [setupCallbacks] that end a callback chain; they
    dereference the CPU without a null check.  The bus read and the
    printing in the reset lambdas are left out. *)
Definition onCpu (f : Cpu65816.t -> Cpu65816.t) (c : option Cpu65816.t)
  : option Cpu65816.t :=
  match c with Some cpu => Some (f cpu) | None => None end.

Definition releaseOrHold (state : bool) (cpu : Cpu65816.t) : Cpu65816.t :=
  if negb state then
    let cpu := Cpu65816.setRESPin cpu false in
    Cpu65816.setProgramAddress cpu (Address_new 0 0)
  else Cpu65816.setRESPin cpu true.

Definition runLeaf (e : t) (c : Call) : t :=
  match c with
  | CallReset GraphicsCPUReset state =>
      setGraphicsCPU e (onCpu (releaseOrHold state) (graphicsCPU e))
  | CallReset SoundCPUReset state =>
      setSoundCPU e (onCpu (releaseOrHold state) (soundCPU e))
  | CallIRQ RaiseGraphicsIRQ =>
      setGraphicsCPU e (onCpu (fun cpu => Cpu65816.setIRQPin cpu true)
                              (graphicsCPU e))
  | CallIRQ RaiseSoundIRQ =>
      setSoundCPU e (onCpu (fun cpu => Cpu65816.setIRQPin cpu true)
                           (soundCPU e))
  | CallWrite _ => e
  end.

(** The lambdas bound to the mailboxes: run the CPLD handler, then the
    callbacks the handler invoked. *)
Definition runCall (e : t) (c : Call) : t :=
  match c with
  | CallWrite NotifyCPLD2 =>
      let (h, calls) := CPLD2_Video.onMailboxAWrite (cpld2 e) (memory e) in
      foldl runLeaf (setMemory e h) calls
  | CallWrite NotifyCPLD1 =>
      let (h, calls) := CPLD1_Audio.onMailboxBWrite (cpld1 e) (memory e) in
      foldl runLeaf (setMemory e h) calls
  | _ => runLeaf e c
  end.

(** [mailbox->storeByte(address, value)] inside the emulator: the store,
    then the notification it fires, on the same call stack. *)
Definition storeMailbox (e : t) (p : MailboxRef) (address : Address)
           (value : Z) : t :=
  let (m, calls) := Mailbox.storeByte (Memory.mailbox (memory e) p) address value in
  foldl runCall (setMemory e (Memory.setMailbox (memory e) p m)) calls.

End Emulator.

(** * Properties *)

(** ** Arithmetic of the fixed-width types *)

Lemma u8_small z : 0 <= z < 256 -> u8 z = z.
Proof. intros. unfold u8. apply Z.mod_small. lia. Qed.

Lemma u16_small z : 0 <= z < 65536 -> u16 z = z.
Proof. intros. unfold u16. apply Z.mod_small. lia. Qed.

Lemma u32_small z : 0 <= z < 4294967296 -> u32 z = z.
Proof. intros. unfold u32. apply Z.mod_small. lia. Qed.

Lemma u8_range z : 0 <= u8 z <= 255.
Proof. unfold u8. pose proof (Z.mod_pos_bound z 256). lia. Qed.

Lemma u16_range z : 0 <= u16 z <= 65535.
Proof. unfold u16. pose proof (Z.mod_pos_bound z 65536). lia. Qed.

Lemma u32_range z : 0 <= u32 z < 4294967296.
Proof. unfold u32. apply Z.mod_pos_bound. lia. Qed.

(** The flat form of a well-formed address is [bank * 65536 + offset]. *)
Lemma flat_eq a : Address_wf a -> flat a = getBank a * 65536 + getOffset a.
Proof.
  intros [Hb Ho]. unfold flat.
  rewrite Z.shiftl_mul_pow2 by lia. change (2 ^ 16) with 65536.
  assert (Hland : Z.land (getBank a * 65536) (getOffset a) = 0).
  { apply Z.bits_inj'. intros n Hn. rewrite Z.land_spec, Z.bits_0.
    destruct (Z.lt_ge_cases n 16) as [Hlt|Hge].
    - change 65536 with (2 ^ 16).
      rewrite (Z.mul_pow2_bits_low (getBank a) 16 n) by lia. reflexivity.
    - destruct (Z.eq_dec (getOffset a) 0) as [->|Hne].
      + rewrite Z.bits_0, andb_false_r. reflexivity.
      + rewrite (Z.bits_above_log2 (getOffset a) n), andb_false_r; try lia.
        apply Z.lt_le_trans with 16; [|lia].
        apply Z.log2_lt_pow2; lia. }
  rewrite <- Z.lxor_lor by exact Hland.
  symmetry. apply Z.add_nocarry_lxor. exact Hland.
Qed.

Lemma Address_new_wf bank offset : Address_wf (Address_new bank offset).
Proof.
  unfold Address_wf, Address_new; simpl.
  pose proof (u8_range bank). pose proof (u16_range offset). lia.
Qed.

Lemma flat_new bank offset :
  flat (Address_new bank offset) = u8 bank * 65536 + u16 offset.
Proof. rewrite flat_eq by apply Address_new_wf. reflexivity. Qed.

(** ** CPLD2: one frame of pixel clocks *)

Section RasterFrame.
Import CPLD2_Video.

(** Pixel clocks since the start of the frame. *)
Definition rasterPos (c : t) : Z := rasterLine c * PIXELS_PER_LINE + rasterX c.

Definition frameTicks : Z := PIXELS_PER_LINE * LINES_PER_FRAME_240P.

Definition inFrame240 (c : t) : Prop :=
  videoMode c = MODE_240P /\
  0 <= rasterX c < PIXELS_PER_LINE /\
  0 <= rasterLine c < LINES_PER_FRAME_240P.

Local Ltac frame_arith :=
  repeat split; first [assumption | reflexivity | lia].

(** A tick either advances the position inside the frame and is silent,
    or is the last of the frame, wraps to the origin and raises the vblank
    interrupt unless one is already pending. *)
Lemma tick_spec c :
  inFrame240 c ->
  inFrame240 (tick c).1 /\
  vblankCallback (tick c).1 = vblankCallback c /\
  ((rasterPos c + 1 < frameTicks /\
    rasterPos (tick c).1 = rasterPos c + 1 /\
    vblankIRQPending (tick c).1 = vblankIRQPending c /\
    (tick c).2 = [])
   \/
   (rasterPos c + 1 = frameTicks /\
    rasterPos (tick c).1 = 0 /\
    vblankIRQPending (tick c).1 = true /\
    (tick c).2 = if vblankIRQPending c then []
                 else fire (vblankCallback c) CallIRQ)).
Proof.
  unfold inFrame240, rasterPos, frameTicks, PIXELS_PER_LINE,
    LINES_PER_FRAME_240P.
  intros (Hm & Hx & Hl). unfold tick, getTotalLines.
  rewrite Hm, (u16_small (rasterX c + 1)) by lia.
  unfold PIXELS_PER_LINE, LINES_PER_FRAME_240P.
  destruct (Z.leb_spec 857 (rasterX c + 1)) as [Hw|Hw].
  - rewrite (u16_small (rasterLine c + 1)) by lia.
    destruct (Z.leb_spec 262 (rasterLine c + 1)) as [Hf|Hf].
    + destruct (vblankIRQPending c) eqn:Hp; cbn; rewrite ?Hm;
        (split; [frame_arith|]); (split; [reflexivity|]); right; frame_arith.
    + cbn. rewrite ?Hm. (split; [frame_arith|]). (split; [reflexivity|]).
      left. frame_arith.
  - cbn. rewrite ?Hm. (split; [frame_arith|]). (split; [reflexivity|]).
    left. frame_arith.
Qed.

Lemma ticks_app n m c :
  ticks (n + m) c =
    ((ticks m (ticks n c).1).1, (ticks n c).2 ++ (ticks m (ticks n c).1).2).
Proof.
  revert c. induction n as [|n IH]; intros c.
  - simpl. destruct (ticks m c); reflexivity.
  - cbn [Nat.add ticks]. destruct (tick c) as [c1 k1] eqn:Ht.
    rewrite IH. destruct (ticks n c1) as [c2 k2]. simpl.
    destruct (ticks m c2) as [c3 k3]. simpl. rewrite app_assoc. reflexivity.
Qed.

(** Ticks that stay inside the frame fire nothing. *)
Lemma ticks_quiet n : forall c,
  inFrame240 c ->
  rasterPos c + Z.of_nat n < frameTicks ->
  inFrame240 (ticks n c).1 /\
  vblankCallback (ticks n c).1 = vblankCallback c /\
  rasterPos (ticks n c).1 = rasterPos c + Z.of_nat n /\
  vblankIRQPending (ticks n c).1 = vblankIRQPending c /\
  (ticks n c).2 = [].
Proof.
  induction n as [|n IH]; intros c Hc Hlt.
  - simpl. repeat split; try apply Hc; lia.
  - cbn [ticks].
    destruct (tick_spec c Hc) as (Hc1 & Hcb & [(_ & Hpos & Hpend & Hk)|(Hend & _)]);
      [|lia].
    destruct (tick c) as [c1 k1]. simpl in *.
    destruct (IH c1 Hc1) as (Hc2 & Hcb2 & Hpos2 & Hpend2 & Hk2); [lia|].
    destruct (ticks n c1) as [c2 k2]. simpl in *. subst k1 k2.
    repeat split; try apply Hc2; try congruence. lia.
Qed.

(** A whole frame from the origin. *)
Lemma ticks_frame c :
  inFrame240 c ->
  rasterPos c = 0 ->
  inFrame240 (ticks (Z.to_nat frameTicks) c).1 /\
  vblankCallback (ticks (Z.to_nat frameTicks) c).1 = vblankCallback c /\
  rasterPos (ticks (Z.to_nat frameTicks) c).1 = 0 /\
  vblankIRQPending (ticks (Z.to_nat frameTicks) c).1 = true /\
  (ticks (Z.to_nat frameTicks) c).2 =
    if vblankIRQPending c then [] else fire (vblankCallback c) CallIRQ.
Proof.
  intros Hc H0.
  assert (Hft : frameTicks = 224534) by reflexivity.
  replace (Z.to_nat frameTicks) with (Z.to_nat (frameTicks - 1) + 1)%nat by lia.
  rewrite ticks_app.
  destruct (ticks_quiet (Z.to_nat (frameTicks - 1)) c Hc)
    as (Hc1 & Hcb1 & Hpos1 & Hpend1 & Hk1); [lia|].
  destruct (ticks (Z.to_nat (frameTicks - 1)) c) as [c1 k1]. simpl in *.
  destruct (tick_spec c1 Hc1)
    as (Hc2 & Hcb2 & [(Hlt & _)|(_ & Hpos2 & Hpend2 & Hk2)]); [lia|].
  destruct (tick c1) as [c2 k2]. simpl in *. subst k1.
  rewrite Hk2, Hpend1, Hcb1. repeat split; try apply Hc2; try congruence.
  rewrite app_nil_r. reflexivity.
Qed.

Lemma origin_of_pos c : inFrame240 c -> rasterPos c = 0 ->
  rasterLine c = 0 /\ rasterX c = 0.
Proof.
  unfold inFrame240, rasterPos, PIXELS_PER_LINE, LINES_PER_FRAME_240P.
  intros (_ & Hx & Hl) H. lia.
Qed.

Lemma reset_inFrame c : videoMode c = MODE_240P ->
  inFrame240 (reset c) /\ rasterPos (reset c) = 0 /\
  vblankIRQPending (reset c) = false /\
  vblankCallback (reset c) = vblankCallback c.
Proof.
  intros Hm. unfold inFrame240, rasterPos, reset; simpl.
  unfold PIXELS_PER_LINE, LINES_PER_FRAME_240P. repeat split; auto; lia.
Qed.

End RasterFrame.

(** C6.  From a reset CPLD2 in 240p mode with a vblank callback bound,
    exactly [PIXELS_PER_LINE * LINES_PER_FRAME_240P] = 857 * 262 calls of
    [tick] end at raster line 0, pixel 0, and the calls made to the vblank
    callback during the sequence are exactly one.  The pending flag is left
    set, so a second frame of ticks fires nothing more. *)
Theorem cpld2_frame_fires_vblank_once (c : CPLD2_Video.t) (cb : IRQCallback) :
  CPLD2_Video.videoMode c = CPLD2_Video.MODE_240P ->
  CPLD2_Video.vblankCallback c = Some cb ->
  let n := Z.to_nat (CPLD2_Video.PIXELS_PER_LINE * CPLD2_Video.LINES_PER_FRAME_240P) in
  let r := CPLD2_Video.ticks n (CPLD2_Video.reset c) in
  CPLD2_Video.rasterLine r.1 = 0 /\
  CPLD2_Video.rasterX r.1 = 0 /\
  r.2 = [CallIRQ cb] /\
  CPLD2_Video.vblankIRQPending r.1 = true /\
  (CPLD2_Video.ticks n r.1).2 = [].
Proof.
  intros Hm Hcb n r.
  destruct (reset_inFrame c Hm) as (Hin & Hpos & Hpend & Hcb0).
  destruct (ticks_frame _ Hin Hpos) as (Hin1 & Hcb1 & Hpos1 & Hpend1 & Hk1).
  fold frameTicks in n. fold n in Hin1, Hcb1, Hpos1, Hpend1, Hk1.
  fold r in Hin1, Hcb1, Hpos1, Hpend1, Hk1.
  destruct (origin_of_pos _ Hin1 Hpos1) as [Hl Hx].
  destruct (ticks_frame _ Hin1 Hpos1) as (_ & _ & _ & _ & Hk2).
  fold n in Hk2. rewrite Hpend1 in Hk2.
  rewrite Hpend, Hcb0, Hcb in Hk1.
  repeat split; assumption.
Qed.

Lemma cpld2_frame_fires_vblank_once_witness :
  let c := CPLD2_Video.setVBlankCallback CPLD2_Video.new RaiseGraphicsIRQ in
  let n := Z.to_nat (CPLD2_Video.PIXELS_PER_LINE * CPLD2_Video.LINES_PER_FRAME_240P) in
  let r := CPLD2_Video.ticks n (CPLD2_Video.reset c) in
  CPLD2_Video.rasterLine r.1 = 0 /\
  CPLD2_Video.rasterX r.1 = 0 /\
  r.2 = [CallIRQ RaiseGraphicsIRQ] /\
  CPLD2_Video.vblankIRQPending r.1 = true /\
  (CPLD2_Video.ticks n r.1).2 = [].
Proof.
  apply (cpld2_frame_fires_vblank_once
           (CPLD2_Video.setVBlankCallback CPLD2_Video.new RaiseGraphicsIRQ)
           RaiseGraphicsIRQ); reflexivity.
Defined.

(** ** Cartridge: the bank register and the ROM window *)

Section CartridgeBank.
Import Cartridge.

Lemma land_0F v : 0 <= v -> Z.land v 0x0F = v mod 16.
Proof. intros. change 0x0F with (Z.ones 4). apply Z.land_ones. lia. Qed.

(** A guarded vector read is a lookup with the open-bus value as default. *)
Lemma guarded_read (v : list Z) (i : Z) :
  0 <= i ->
  (if i <? Z.of_nat (length v) then v !!! Z.to_nat i else 0xFF)
  = default 0xFF (v !! Z.to_nat i).
Proof.
  intros Hi. destruct (Z.ltb_spec i (Z.of_nat (length v))) as [Hlt|Hge].
  - rewrite (list_lookup_lookup_total_lt v (Z.to_nat i)) by lia. reflexivity.
  - rewrite (lookup_ge_None_2 v (Z.to_nat i)) by lia. reflexivity.
Qed.

Lemma storeByte_bank c v :
  0 <= v <= 255 ->
  storeByte c (Address_new 0x42 0x0000) v
  = mk (rom c) (saveRAM c) (v mod 16) (header c).
Proof.
  intros Hv. unfold storeByte.
  change (flat (Address_new 0x42 0x0000) =? BANK_REGISTER) with true.
  cbv iota. unfold setBank. rewrite land_0F by lia.
  pose proof (Z.mod_pos_bound v 16).
  destruct (Z.leb_spec MAX_BANKS (v mod 16)) as [H16|_];
    [unfold MAX_BANKS in H16; lia|]. reflexivity.
Qed.

Lemma readByte_window c a :
  0 <= currentBank c < 16 ->
  ROM_WINDOW_START <= flat a <= ROM_WINDOW_END ->
  readByte c a
  = default 0xFF
      (rom c !! Z.to_nat (currentBank c * BANK_SIZE + (flat a - ROM_WINDOW_START))).
Proof.
  unfold ROM_WINDOW_START, ROM_WINDOW_END, BANK_SIZE.
  intros Hb Ha. unfold readByte, addressInROMWindow, mapAddress, romSize,
    ROM_WINDOW_START, ROM_WINDOW_END, BANK_SIZE.
  destruct (Z.leb_spec 0x00FFFC (flat a)); [|lia].
  destruct (Z.leb_spec (flat a) 0x00FFFF); [lia|].
  destruct (Z.leb_spec 0x008000 (flat a)); [|lia].
  destruct (Z.leb_spec 0xC00000 (flat a)); [|lia].
  destruct (Z.leb_spec (flat a) 0xFFFFFF); [|lia].
  cbn [andb].
  rewrite (u32_small (flat a - 0xC00000)) by lia.
  rewrite (u32_small (currentBank c * 0x400000 + (flat a - 0xC00000))) by lia.
  apply guarded_read. lia.
Qed.

End CartridgeBank.

(** C4.  Storing a byte [v] to the bank register $420000 sets
    [current_bank] to [v mod 16] and changes nothing else in the cartridge;
    afterwards a read of any address [a] in $C00000..$FFFFFF returns the ROM
    byte at physical offset [current_bank * 4MB + (a - $C00000)] when the
    ROM has one there, and 0xFF otherwise. *)
Theorem cartridge_bank_select (c : Cartridge.t) (v : Z) (a : Address) :
  0 <= v <= 255 ->
  0xC00000 <= flat a <= 0xFFFFFF ->
  let c' := Cartridge.storeByte c (Address_new 0x42 0x0000) v in
  Cartridge.currentBank c' = v mod 16 /\
  Cartridge.rom c' = Cartridge.rom c /\
  Cartridge.saveRAM c' = Cartridge.saveRAM c /\
  Cartridge.header c' = Cartridge.header c /\
  Cartridge.readByte c' a
  = default 0xFF
      (Cartridge.rom c !!
         Z.to_nat (Cartridge.currentBank c' * 0x400000 + (flat a - 0xC00000))).
Proof.
  intros Hv Ha c'. unfold c'. rewrite storeByte_bank by exact Hv.
  repeat split.
  rewrite readByte_window; [reflexivity| |exact Ha].
  simpl. pose proof (Z.mod_pos_bound v 16). lia.
Qed.

Lemma cartridge_bank_select_witness :
  let c := Cartridge.mk [0xAA; 0xBB; 0xCC] [] 0 Cartridge.zeroHeader in
  let a := Address_new 0xC0 0x0001 in
  let c' := Cartridge.storeByte c (Address_new 0x42 0x0000) 0x10 in
  Cartridge.currentBank c' = 0x10 mod 16 /\
  Cartridge.rom c' = Cartridge.rom c /\
  Cartridge.saveRAM c' = Cartridge.saveRAM c /\
  Cartridge.header c' = Cartridge.header c /\
  Cartridge.readByte c' a
  = default 0xFF
      (Cartridge.rom c !!
         Z.to_nat (Cartridge.currentBank c' * 0x400000 + (flat a - 0xC00000))).
Proof.
  apply (cartridge_bank_select
           (Cartridge.mk [0xAA; 0xBB; 0xCC] [] 0 Cartridge.zeroHeader)
           0x10 (Address_new 0xC0 0x0001)); vm_compute; split; discriminate.
Defined.

(** ** Mailbox: store, notify, read *)

Section MailboxFacts.
Import Mailbox.

Lemma offsetOf_nonneg m a : 0 <= offsetOf m a.
Proof. unfold offsetOf. apply Z.land_nonneg. right. lia. Qed.

Lemma storeByte_in m a v :
  offsetOf m a < size m ->
  storeByte m a v
  = (mk (baseAddress m) (size m)
        (<[Z.to_nat (offsetOf m a) := v]> (data m))
        true (busyFlag m) (writeCallback m),
     fire (writeCallback m) CallWrite).
Proof.
  intros H. unfold storeByte.
  destruct (Z.ltb_spec (offsetOf m a) (size m)); [reflexivity|lia].
Qed.

Lemma readByte_in m a :
  offsetOf m a < size m ->
  readByte m a
  = (data m !!! Z.to_nat (offsetOf m a),
     mk (baseAddress m) (size m) (data m) false (busyFlag m) (writeCallback m)).
Proof.
  intros H. unfold readByte.
  destruct (Z.ltb_spec (offsetOf m a) (size m)); [reflexivity|lia].
Qed.

Lemma readByte_out m a :
  size m <= offsetOf m a -> readByte m a = (0xFF, m).
Proof.
  intros H. unfold readByte.
  destruct (Z.ltb_spec (offsetOf m a) (size m)); [lia|reflexivity].
Qed.

(** A read leaves the bytes, the geometry and the callback alone. *)
Lemma readByte_keeps m a :
  baseAddress (readByte m a).2 = baseAddress m /\
  size (readByte m a).2 = size m /\
  data (readByte m a).2 = data m /\
  writeCallback (readByte m a).2 = writeCallback m.
Proof.
  unfold readByte. destruct (offsetOf m a <? size m); simpl; auto.
Qed.

Lemma storeByte_wf m a v : wf m -> wf (storeByte m a v).1.
Proof.
  unfold wf, storeByte. intros [Hs Hl].
  destruct (offsetOf m a <? size m); simpl; [|auto].
  rewrite length_insert. auto.
Qed.

End MailboxFacts.

(** C5.  A write inside the mailbox stores the byte at its offset and
    nowhere else, sets [new_data], and makes exactly one call, to the bound
    write callback (none when no callback is bound); a later read of any
    offset inside the mailbox returns the byte stored there, in particular
    the written byte at the written offset, and clears [new_data].  No call
    made by the mailbox is an interrupt request. *)
Theorem mailbox_write_notifies_read_clears
        (m : Mailbox.t) (a b : Address) (v : Z) :
  Mailbox.wf m ->
  Mailbox.offsetOf m a < Mailbox.size m ->
  Mailbox.offsetOf m b < Mailbox.size m ->
  let w := Mailbox.storeByte m a v in
  let r := Mailbox.readByte w.1 b in
  (* the store *)
  Mailbox.data w.1 !! Z.to_nat (Mailbox.offsetOf m a) = Some v /\
  (forall j, j <> Z.to_nat (Mailbox.offsetOf m a) ->
             Mailbox.data w.1 !! j = Mailbox.data m !! j) /\
  Mailbox.newDataFlag w.1 = true /\
  (* the notification *)
  (forall cb, Mailbox.writeCallback m = Some cb -> w.2 = [CallWrite cb]) /\
  (Mailbox.writeCallback m = None -> w.2 = []) /\
  (forall irq, ~ In (CallIRQ irq) w.2) /\
  (* the read *)
  Mailbox.data w.1 !! Z.to_nat (Mailbox.offsetOf m b) = Some r.1 /\
  (Mailbox.offsetOf m b = Mailbox.offsetOf m a -> r.1 = v) /\
  Mailbox.newDataFlag r.2 = false /\
  Mailbox.data r.2 = Mailbox.data w.1.
Proof.
  intros [Hs Hl] Ha Hb w r.
  pose proof (offsetOf_nonneg m a) as Ha0.
  pose proof (offsetOf_nonneg m b) as Hb0.
  unfold r, w. rewrite storeByte_in by exact Ha. cbn [fst snd].
  rewrite readByte_in by exact Hb. cbn [fst snd Mailbox.data Mailbox.newDataFlag].
  change (Mailbox.offsetOf
            (Mailbox.mk (Mailbox.baseAddress m) (Mailbox.size m)
               (<[Z.to_nat (Mailbox.offsetOf m a):=v]> (Mailbox.data m)) true
               (Mailbox.busyFlag m) (Mailbox.writeCallback m)) b)
    with (Mailbox.offsetOf m b).
  assert (Hstored :
            <[Z.to_nat (Mailbox.offsetOf m a):=v]> (Mailbox.data m)
              !! Z.to_nat (Mailbox.offsetOf m a) = Some v).
  { apply list_lookup_insert_eq. lia. }
  repeat split.
  - exact Hstored.
  - intros j Hj. apply list_lookup_insert_ne. auto.
  - intros cb Hcb. rewrite Hcb. reflexivity.
  - intros Hcb. rewrite Hcb. reflexivity.
  - intros irq. destruct (Mailbox.writeCallback m); simpl; intuition discriminate.
  - apply list_lookup_lookup_total_lt. rewrite length_insert. lia.
  - intros Heq. rewrite Heq.
    apply (list_lookup_total_correct _ _ _ Hstored).
Qed.

Lemma mailbox_write_notifies_read_clears_witness :
  let m := Mailbox.setWriteCallback (Mailbox.new 0x400000 1024) NotifyCPLD2 in
  let a := Address_new 0x40 0x0005 in
  let b := Address_new 0x40 0x0005 in
  let v := 0xDE in
  let w := Mailbox.storeByte m a v in
  let r := Mailbox.readByte w.1 b in
  Mailbox.data w.1 !! Z.to_nat (Mailbox.offsetOf m a) = Some v /\
  (forall j, j <> Z.to_nat (Mailbox.offsetOf m a) ->
             Mailbox.data w.1 !! j = Mailbox.data m !! j) /\
  Mailbox.newDataFlag w.1 = true /\
  (forall cb, Mailbox.writeCallback m = Some cb -> w.2 = [CallWrite cb]) /\
  (Mailbox.writeCallback m = None -> w.2 = []) /\
  (forall irq, ~ In (CallIRQ irq) w.2) /\
  Mailbox.data w.1 !! Z.to_nat (Mailbox.offsetOf m b) = Some r.1 /\
  (Mailbox.offsetOf m b = Mailbox.offsetOf m a -> r.1 = v) /\
  Mailbox.newDataFlag r.2 = false /\
  Mailbox.data r.2 = Mailbox.data w.1.
Proof.
  apply (mailbox_write_notifies_read_clears
           (Mailbox.setWriteCallback (Mailbox.new 0x400000 1024) NotifyCPLD2)
           (Address_new 0x40 0x0005) (Address_new 0x40 0x0005) 0xDE).
  - split; vm_compute; [discriminate | reflexivity].
  - vm_compute. reflexivity.
  - vm_compute. reflexivity.
Defined.

(** ** The boot-copy protocol on Mailbox A *)

Section Boot.

(** Mailbox A and graphics RAM as [initializeMemory] builds them. *)
Definition mailboxA_ok (m : Mailbox.t) : Prop :=
  Mailbox.baseAddress m = 0x400000 /\ Mailbox.size m = 1024 /\
  Z.of_nat (length (Mailbox.data m)) = 1024.

Definition graphicsRAM_ok (r : RAM.t) : Prop :=
  RAM.baseAddress r = 0 /\ RAM.size r = 131072 /\
  Z.of_nat (length (RAM.data r)) = 131072.

(** The byte the handler gets for mailbox offset [k]. *)
Definition peekA (m : Mailbox.t) (k : Z) : Z :=
  (Mailbox.readByte m (Address_new 0x40 k)).1.

Lemma land_24 z : 0 <= z < 16777216 -> Z.land z 0xFFFFFF = z.
Proof.
  intros. change 0xFFFFFF with (Z.ones 24). rewrite Z.land_ones by lia.
  apply Z.mod_small. change (2 ^ 24) with 16777216. lia.
Qed.

Lemma offsetOf_A m k :
  Mailbox.baseAddress m = 0x400000 ->
  Mailbox.offsetOf m (Address_new 0x40 k) = u16 k.
Proof.
  intros Hb. unfold Mailbox.offsetOf. rewrite Hb, flat_new.
  pose proof (u16_range k). rewrite (u8_small 0x40) by lia.
  replace (64 * 65536 + u16 k - 0x400000) with (u16 k) by lia.
  rewrite u32_small by lia. apply land_24. lia.
Qed.

Lemma peekA_in m k :
  mailboxA_ok m -> u16 k < 1024 ->
  peekA m k = Mailbox.data m !!! Z.to_nat (u16 k).
Proof.
  intros (Hb & Hs & Hl) Hk. unfold peekA.
  rewrite readByte_in; rewrite offsetOf_A by exact Hb; [reflexivity|lia].
Qed.

Lemma peekA_out m k :
  mailboxA_ok m -> 1024 <= u16 k -> peekA m k = 0xFF.
Proof.
  intros (Hb & Hs & Hl) Hk. unfold peekA.
  rewrite readByte_out; rewrite ?offsetOf_A by exact Hb; [reflexivity|lia].
Qed.

(** Two mailboxes that differ at most in the new-data latch. *)
Definition sameBytes (m m' : Mailbox.t) : Prop :=
  Mailbox.baseAddress m' = Mailbox.baseAddress m /\
  Mailbox.size m' = Mailbox.size m /\
  Mailbox.data m' = Mailbox.data m.

Lemma peekA_sameBytes m m' k : sameBytes m m' -> peekA m' k = peekA m k.
Proof.
  intros (Hb & Hs & Hd). unfold peekA, Mailbox.readByte, Mailbox.offsetOf.
  rewrite Hb, Hs, Hd.
  destruct (_ <? Mailbox.size m); reflexivity.
Qed.

Lemma readByte_sameBytes m a : sameBytes m (Mailbox.readByte m a).2.
Proof.
  unfold sameBytes, Mailbox.readByte.
  destruct (_ <? Mailbox.size m); simpl; auto.
Qed.

Lemma storeByte_gram r k v :
  graphicsRAM_ok r ->
  RAM.storeByte r (Address_new 0x00 k) v
  = RAM.mk (RAM.baseAddress r) (RAM.size r)
           (<[Z.to_nat (u16 k) := v]> (RAM.data r)).
Proof.
  intros (Hb & Hs & Hl). unfold RAM.storeByte. rewrite flat_new, Hb, Hs.
  pose proof (u16_range k). rewrite (u8_small 0) by lia.
  replace (0 * 65536 + u16 k - 0) with (u16 k) by lia.
  rewrite u32_small by lia.
  destruct (Z.ltb_spec (u16 k) 131072); [reflexivity|lia].
Qed.


Lemma u16_shift_ne x d : 0 < d < 65536 -> u16 (x + d) <> u16 x.
Proof.
  unfold u16. intros Hd Heq.
  pose proof (Z.div_mod (x + d) 65536). pose proof (Z.div_mod x 65536). lia.
Qed.

Definition cleared (m : Mailbox.t) : Mailbox.t :=
  Mailbox.mk (Mailbox.baseAddress m) (Mailbox.size m) (Mailbox.data m) false
             (Mailbox.busyFlag m) (Mailbox.writeCallback m).

Lemma readMailbox_A_in h k :
  mailboxA_ok (Memory.mailboxA h) -> u16 k < 1024 ->
  Memory.readMailbox h MailboxA (Address_new 0x40 k)
  = (Mailbox.data (Memory.mailboxA h) !!! Z.to_nat (u16 k),
     Memory.setMailbox h MailboxA (cleared (Memory.mailboxA h))).
Proof.
  intros (Hb & Hs & Hl) Hk. unfold Memory.readMailbox. cbn [Memory.mailbox].
  rewrite readByte_in; rewrite offsetOf_A by exact Hb; [reflexivity|lia].
Qed.

(** What the copy loop leaves alone. *)
Definition copyFrame (h h' : Memory.t) : Prop :=
  Memory.mainRAM h' = Memory.mainRAM h /\
  Memory.soundRAM h' = Memory.soundRAM h /\
  Memory.mailboxB h' = Memory.mailboxB h /\
  sameBytes (Memory.mailboxA h) (Memory.mailboxA h') /\
  graphicsRAM_ok (Memory.graphicsRAM h').

Lemma copyLoop_spec dest n : forall i h,
  mailboxA_ok (Memory.mailboxA h) ->
  graphicsRAM_ok (Memory.graphicsRAM h) ->
  0 <= i -> i + Z.of_nat n <= 65535 ->
  let h' := Memory.copyLoop 0x40 MailboxA GraphicsRAM dest n i h in
  copyFrame h h' /\
  (forall k, i <= k < i + Z.of_nat n ->
     RAM.data (Memory.graphicsRAM h') !! Z.to_nat (u16 (dest + k))
     = Some (peekA (Memory.mailboxA h) (0x0005 + k))) /\
  (forall j, (forall k, i <= k < i + Z.of_nat n -> j <> Z.to_nat (u16 (dest + k))) ->
     RAM.data (Memory.graphicsRAM h') !! j
     = RAM.data (Memory.graphicsRAM h) !! j).
Proof.
  induction n as [|n IH]; intros i h Hm Hr Hi Hn.
  - simpl. split; [|split].
    + destruct Hr as (? & ? & ?).
      unfold copyFrame, sameBytes, graphicsRAM_ok. repeat split; auto.
    + intros; lia.
    + reflexivity.
  - cbn [Memory.copyLoop]. unfold Memory.readMailbox.
    cbn [Memory.mailbox].
    pose proof (readByte_sameBytes (Memory.mailboxA h)
                  (Address_new 0x40 (0x0005 + i))) as Hsb.
    fold (peekA (Memory.mailboxA h) (0x0005 + i)).
    destruct (Mailbox.readByte (Memory.mailboxA h)
                (Address_new 0x40 (0x0005 + i))) as [b m1] eqn:Hrd.
    assert (Hb : b = peekA (Memory.mailboxA h) (0x0005 + i)).
    { unfold peekA. rewrite Hrd. reflexivity. }
    cbn [snd] in Hsb.
    unfold Memory.storeRam. cbn [Memory.ram Memory.setMailbox Memory.graphicsRAM].
    rewrite storeByte_gram by exact Hr.
    cbn [Memory.setRam Memory.mainRAM Memory.soundRAM Memory.mailboxA
           Memory.mailboxB Memory.graphicsRAM].
    rewrite (u16_small (i + 1)) by lia.
    set (h2 := Memory.mk _ _ _ _ _).
    destruct Hm as (Hmb & Hms & Hml). destruct Hr as (Hrb & Hrs & Hrl).
    destruct Hsb as (Hb1 & Hs1 & Hd1).
    destruct (IH (i + 1) h2) as ((F1 & F2 & F3 & F4 & F5) & Ha & Hb');
      try lia.
    { subst h2. unfold mailboxA_ok. cbn [Memory.mailboxA].
      rewrite Hb1, Hs1, Hd1. repeat split; assumption. }
    { subst h2. unfold graphicsRAM_ok.
      cbn [Memory.graphicsRAM RAM.baseAddress RAM.size RAM.data].
      rewrite length_insert. repeat split; assumption. }
    pose proof (u16_range (dest + i)) as Hdi.
    split; [|split].
    + subst h2. cbn in F1, F2, F3, F4.
      repeat split; try assumption;
        destruct F4 as (G1 & G2 & G3); try congruence; apply F5.
    + intros k Hk. destruct (Z.eq_dec k i) as [->|Hne].
      * rewrite Hb'.
        -- subst h2; cbn. rewrite Hb. apply list_lookup_insert_eq. lia.
        -- intros k Hk' Heq.
           apply (u16_shift_ne (dest + i) (k - i)); [lia|].
           replace (dest + i + (k - i)) with (dest + k) by lia.
           pose proof (u16_range (dest + k)). lia.
      * rewrite Ha by lia. f_equal. apply peekA_sameBytes.
        subst h2; cbn. repeat split; assumption.
    + intros j Hj. rewrite Hb'.
      * subst h2; cbn. apply list_lookup_insert_ne.
        intros Heq. apply (Hj i); [lia|]. auto.
      * intros k Hk. apply Hj. lia.
Qed.


(** CPLD2 as [setupCallbacks] wires it. *)
Definition cpld2_wired (c : CPLD2_Video.t) : Prop :=
  CPLD2_Video.mailboxA c = Some MailboxA /\
  CPLD2_Video.graphicsRAM c = Some GraphicsRAM /\
  CPLD2_Video.graphicsCPUReset c = Some GraphicsCPUReset /\
  CPLD2_Video.mailboxACallback c = Some RaiseGraphicsIRQ.

(** The 16-bit little-endian field at mailbox offsets [k], [k+1]. *)
Definition le16 (m : Mailbox.t) (k : nat) : Z :=
  u16 (Z.lor (Mailbox.data m !!! k) (Z.shiftl (Mailbox.data m !!! S k) 8)).

Lemma cleared_ok m : mailboxA_ok m -> mailboxA_ok (cleared m).
Proof. intros H; exact H. Qed.

Lemma onMailboxAWrite_boot c h :
  cpld2_wired c ->
  mailboxA_ok (Memory.mailboxA h) ->
  Mailbox.data (Memory.mailboxA h) !!! 0%nat = 0x01 ->
  CPLD2_Video.onMailboxAWrite c h
  = (Memory.copyLoop 0x40 MailboxA GraphicsRAM (le16 (Memory.mailboxA h) 1)
       (Z.to_nat (le16 (Memory.mailboxA h) 3)) 0
       (Memory.setMailbox h MailboxA (cleared (Memory.mailboxA h))),
     [CallReset GraphicsCPUReset false]).
Proof.
  intros (W1 & W2 & W3 & W4) Hm Hcmd. unfold CPLD2_Video.onMailboxAWrite.
  rewrite W1, W2, W3, W4.
  rewrite (readMailbox_A_in h 0x0000) by (exact Hm || reflexivity).
  change (Z.to_nat (u16 0x0000)) with 0%nat. rewrite Hcmd.
  change (0x01 =? 0x01) with true. cbv iota.
  set (h1 := Memory.setMailbox h MailboxA (cleared (Memory.mailboxA h))).
  assert (Hm1 : mailboxA_ok (Memory.mailboxA h1)) by exact Hm.
  rewrite (readMailbox_A_in h1 0x0001) by (exact Hm1 || reflexivity).
  change (Memory.setMailbox h1 MailboxA (cleared (Memory.mailboxA h1))) with h1.
  rewrite (readMailbox_A_in h1 0x0002) by (exact Hm1 || reflexivity).
  change (Memory.setMailbox h1 MailboxA (cleared (Memory.mailboxA h1))) with h1.
  rewrite (readMailbox_A_in h1 0x0003) by (exact Hm1 || reflexivity).
  change (Memory.setMailbox h1 MailboxA (cleared (Memory.mailboxA h1))) with h1.
  rewrite (readMailbox_A_in h1 0x0004) by (exact Hm1 || reflexivity).
  change (Memory.setMailbox h1 MailboxA (cleared (Memory.mailboxA h1))) with h1.
  reflexivity.
Qed.

Lemma onMailboxAWrite_other c h :
  cpld2_wired c ->
  mailboxA_ok (Memory.mailboxA h) ->
  Mailbox.data (Memory.mailboxA h) !!! 0%nat <> 0x01 ->
  CPLD2_Video.onMailboxAWrite c h
  = (Memory.setMailbox h MailboxA (cleared (Memory.mailboxA h)),
     [CallIRQ RaiseGraphicsIRQ]).
Proof.
  intros (W1 & W2 & W3 & W4) Hm Hcmd. unfold CPLD2_Video.onMailboxAWrite.
  rewrite W1, W2, W3, W4.
  rewrite (readMailbox_A_in h 0x0000) by (exact Hm || reflexivity).
  change (Z.to_nat (u16 0x0000)) with 0%nat.
  destruct (Z.eqb_spec (Mailbox.data (Memory.mailboxA h) !!! 0%nat) 0x01);
    [contradiction|reflexivity].
Qed.

End Boot.

Definition bootWired (e : Emulator.t) : Prop :=
  cpld2_wired (Emulator.cpld2 e) /\
  mailboxA_ok (Memory.mailboxA (Emulator.memory e)) /\
  Mailbox.writeCallback (Memory.mailboxA (Emulator.memory e)) = Some NotifyCPLD2 /\
  graphicsRAM_ok (Memory.graphicsRAM (Emulator.memory e)).

Lemma initialize_bootWired powerOn : bootWired (Emulator.initialize powerOn).
Proof. repeat split. Qed.

Lemma copyLoop_callback dest n : forall i h,
  Mailbox.writeCallback
    (Memory.mailboxA (Memory.copyLoop 0x40 MailboxA GraphicsRAM dest n i h))
  = Mailbox.writeCallback (Memory.mailboxA h).
Proof.
  induction n as [|n IH]; intros i h; [reflexivity|].
  cbn [Memory.copyLoop]. unfold Memory.readMailbox. cbn [Memory.mailbox].
  destruct (readByte_keeps (Memory.mailboxA h) (Address_new 0x40 (0x0005 + i)))
    as (_ & _ & _ & Hcb).
  destruct (Mailbox.readByte (Memory.mailboxA h) (Address_new 0x40 (0x0005 + i)))
    as [b m1].
  rewrite IH. exact Hcb.
Qed.

(** The wiring and the geometry survive every write into Mailbox A, so the
    boot-copy theorem applies to each write of a sequence. *)
Lemma storeMailbox_bootWired e a v :
  bootWired e -> bootWired (Emulator.storeMailbox e MailboxA a v).
Proof.
  intros (Hc & Hm & Hcb & Hr). unfold Emulator.storeMailbox.
  cbn [Memory.mailbox]. unfold Mailbox.storeByte.
  destruct (Z.ltb_spec (Mailbox.offsetOf (Memory.mailboxA (Emulator.memory e)) a)
                       (Mailbox.size (Memory.mailboxA (Emulator.memory e))))
    as [Hin|Hout].
  - rewrite Hcb. cbn [fire foldl Emulator.runCall Emulator.cpld2
                       Emulator.setMemory Emulator.memory].
    set (mb := Mailbox.mk _ _ _ _ _ _).
    set (h0 := Memory.setMailbox (Emulator.memory e) MailboxA mb).
    assert (Hmb : mailboxA_ok mb).
    { destruct Hm as (Hb & Hs & Hl). unfold mailboxA_ok, mb. cbn.
      rewrite length_insert. repeat split; assumption. }
    destruct (Z.eq_dec (Mailbox.data mb !!! 0%nat) 0x01) as [Hcmd|Hcmd].
    + rewrite (onMailboxAWrite_boot (Emulator.cpld2 e) h0 Hc Hmb Hcmd).
      cbn [foldl Emulator.runLeaf].
      pose proof (u16_range (Z.lor (Mailbox.data mb !!! 3%nat)
                                   (Z.shiftl (Mailbox.data mb !!! 4%nat) 8)))
        as Hlen.
      destruct (copyLoop_spec (le16 (Memory.mailboxA h0) 1)
                  (Z.to_nat (le16 (Memory.mailboxA h0) 3)) 0
                  (Memory.setMailbox h0 MailboxA (cleared (Memory.mailboxA h0))))
        as ((_ & _ & _ & (Hb' & Hs' & Hd') & Hr') & _ & _);
        [exact Hmb|exact Hr|lia|unfold le16, h0; cbn [Memory.mailboxA Memory.setMailbox]; lia|].
      unfold bootWired.
      cbn [Emulator.cpld2 Emulator.memory Emulator.setGraphicsCPU Emulator.setMemory].
      split; [exact Hc|]. split; [|split; [|exact Hr']].
      * destruct Hmb as (Hb & Hs & Hl). unfold mailboxA_ok.
        rewrite Hb', Hs', Hd'. repeat split; assumption.
      * rewrite copyLoop_callback. unfold h0, mb.
        cbn [Mailbox.writeCallback Memory.mailboxA Memory.setMailbox cleared].
        reflexivity.
    + rewrite (onMailboxAWrite_other (Emulator.cpld2 e) h0 Hc Hmb Hcmd).
      cbn [foldl Emulator.runLeaf]. unfold bootWired.
      cbn [Emulator.cpld2 Emulator.memory Emulator.setGraphicsCPU Emulator.setMemory].
      repeat split; try apply Hc; try apply Hmb; try apply Hr.
  - cbn [foldl]. unfold bootWired.
    cbn [Emulator.cpld2 Emulator.memory Emulator.setMemory Memory.setMailbox
           Memory.mailboxA Memory.graphicsRAM].
    repeat split; try apply Hc; try apply Hm; try apply Hr. exact Hcb.
Qed.

(** C1.  In the wired emulator, a byte written into Mailbox A runs CPLD2's
    handler on the mailbox as it is after the store.  When the first byte
    (the command) is 0x01, the handler takes the little-endian 16-bit
    destination from offsets 1-2 and length from offsets 3-4 and, for every
    [i] below the length, puts the byte the mailbox holds at offset [5 + i]
    into Graphics RAM, bank 0, at offset [dest + i] (16-bit); it changes no
    other byte of Graphics RAM, and it calls the reset-release callback,
    which deasserts the Graphics CPU's RES pin and sets its program address
    to (0, 0).  For any other command it copies nothing and calls the
    generic callback, which raises the Graphics CPU's IRQ pin. *)
Theorem mailboxA_boot_copy
        (e : Emulator.t) (cpu : Cpu65816.t) (a : Address) (v : Z) :
  bootWired e ->
  Emulator.graphicsCPU e = Some cpu ->
  Mailbox.offsetOf (Memory.mailboxA (Emulator.memory e)) a < 1024 ->
  let mb := (Mailbox.storeByte (Memory.mailboxA (Emulator.memory e)) a v).1 in
  let cmd := Mailbox.data mb !!! 0%nat in
  let dest := le16 mb 1 in
  let len := le16 mb 3 in
  let e' := Emulator.storeMailbox e MailboxA a v in
  let vram := RAM.data (Memory.graphicsRAM (Emulator.memory e)) in
  let vram' := RAM.data (Memory.graphicsRAM (Emulator.memory e')) in
  (cmd = 0x01 ->
     (forall i, 0 <= i < len ->
        vram' !! Z.to_nat (u16 (dest + i)) = Some (peekA mb (5 + i))) /\
     (forall i, 0 <= i < len -> 5 + i < 1024 ->
        peekA mb (5 + i) = Mailbox.data mb !!! Z.to_nat (5 + i)) /\
     (forall j, (forall i, 0 <= i < len -> j <> Z.to_nat (u16 (dest + i))) ->
        vram' !! j = vram !! j) /\
     Emulator.graphicsCPU e'
     = Some (Cpu65816.mk false (Cpu65816.RDYPin cpu) (Cpu65816.IRQPin cpu)
                         (Address_new 0 0)))
  /\
  (cmd <> 0x01 ->
     Memory.graphicsRAM (Emulator.memory e')
     = Memory.graphicsRAM (Emulator.memory e) /\
     Emulator.graphicsCPU e' = Some (Cpu65816.setIRQPin cpu true)).
Proof.
  intros (Hc & Hm & Hcb & Hr) Hcpu Hoff mb cmd dest len e' vram vram'.
  destruct Hm as (Hmb & Hms & Hml).
  assert (Hin : Mailbox.offsetOf (Memory.mailboxA (Emulator.memory e)) a
                < Mailbox.size (Memory.mailboxA (Emulator.memory e)))
    by (rewrite Hms; exact Hoff).
  pose proof (offsetOf_nonneg (Memory.mailboxA (Emulator.memory e)) a) as Hoff0.
  assert (Hmb1 : mailboxA_ok mb).
  { unfold mb. rewrite storeByte_in by exact Hin. unfold mailboxA_ok. cbn.
    rewrite length_insert. repeat split; assumption. }
  assert (He' : e' = foldl Emulator.runCall
                       (Emulator.setMemory e
                          (Memory.setMailbox (Emulator.memory e) MailboxA mb))
                       [CallWrite NotifyCPLD2]).
  { unfold e', Emulator.storeMailbox, mb. cbn [Memory.mailbox].
    rewrite storeByte_in by exact Hin. rewrite Hcb. reflexivity. }
  cbn [foldl Emulator.runCall] in He'.
  cbn [Emulator.cpld2 Emulator.setMemory Emulator.memory] in He'.
  set (h0 := Memory.setMailbox (Emulator.memory e) MailboxA mb) in He'.
  assert (Hh0 : Memory.mailboxA h0 = mb) by reflexivity.
  assert (Hpeek : forall k, peekA (cleared mb) k = peekA mb k).
  { intros k. apply peekA_sameBytes. repeat split. }
  split.
  - intros Hcmd.
    rewrite (onMailboxAWrite_boot (Emulator.cpld2 e) h0 Hc) in He';
      [|rewrite Hh0; exact Hmb1|rewrite Hh0; exact Hcmd].
    rewrite Hh0 in He'. cbn [foldl Emulator.runLeaf] in He'.
    fold dest len in He'.
    pose proof (u16_range (Z.lor (Mailbox.data mb !!! 3%nat)
                                 (Z.shiftl (Mailbox.data mb !!! 4%nat) 8)))
      as Hlen.
    fold (le16 mb 3) in Hlen. fold len in Hlen.
    destruct (copyLoop_spec dest (Z.to_nat len) 0
                (Memory.setMailbox h0 MailboxA (cleared mb)))
      as (_ & Hcopy & Hrest); try lia.
    { exact Hmb1. }
    { exact Hr. }
    unfold vram', vram. rewrite He'.
    cbn [Emulator.memory Emulator.setGraphicsCPU Emulator.setMemory
           Emulator.graphicsCPU].
    repeat split.
    + intros i Hi. rewrite Hcopy by lia.
      cbn [Memory.mailboxA Memory.setMailbox]. rewrite Hpeek. reflexivity.
    + intros i Hi Hfit. rewrite peekA_in; [|exact Hmb1|];
        rewrite u16_small by lia; [reflexivity|lia].
    + intros j Hj. rewrite Hrest; [reflexivity|]. intros k Hk. apply Hj. lia.
    + rewrite Hcpu. reflexivity.
  - intros Hcmd.
    rewrite (onMailboxAWrite_other (Emulator.cpld2 e) h0 Hc) in He';
      [|rewrite Hh0; exact Hmb1|rewrite Hh0; exact Hcmd].
    cbn [foldl Emulator.runLeaf] in He'. rewrite He'.
    cbn [Emulator.memory Emulator.setGraphicsCPU Emulator.setMemory
           Emulator.graphicsCPU].
    split; [reflexivity|]. rewrite Hcpu. reflexivity.
Qed.

Definition powerOn0 : Cpu65816.t := Cpu65816.mk true false false (Address_new 0xFF 0xFFFF).

Lemma mailboxA_boot_copy_witness :
  let e := Emulator.initialize powerOn0 in
  let a := Address_new 0x40 0x0000 in
  bootWired e /\
  Emulator.graphicsCPU e = Some (Emulator.initializeCPU powerOn0) /\
  Mailbox.offsetOf (Memory.mailboxA (Emulator.memory e)) a < 1024 /\
  Emulator.graphicsCPU (Emulator.storeMailbox e MailboxA a 0x01)
  = Some (Cpu65816.mk false true false (Address_new 0 0)).
Proof.
  intros e a.
  assert (Hw : bootWired e) by (repeat split).
  assert (Hc : Emulator.graphicsCPU e = Some (Emulator.initializeCPU powerOn0))
    by reflexivity.
  assert (Ho : Mailbox.offsetOf (Memory.mailboxA (Emulator.memory e)) a < 1024)
    by (vm_compute; reflexivity).
  split; [exact Hw|]. split; [exact Hc|]. split; [exact Ho|].
  destruct (mailboxA_boot_copy e _ a 0x01 Hw Hc Ho) as [Hboot _].
  destruct Hboot as (_ & _ & _ & Hcpu); [vm_compute; reflexivity|].
  exact Hcpu.
Defined.

(** Scenario S3: the eight bytes written one after the other. *)
Definition writeA (e : Emulator.t) (kv : Z * Z) : Emulator.t :=
  Emulator.storeMailbox e MailboxA (Address_new 0x40 kv.1) kv.2.

Example scenario_S3 :
  let e := foldl writeA (Emulator.initialize powerOn0)
             [(0, 0x01); (1, 0x00); (2, 0x10); (3, 0x03); (4, 0x00);
              (5, 0xDE); (6, 0xAD); (7, 0xBE)] in
  let vram := RAM.data (Memory.graphicsRAM (Emulator.memory e)) in
  vram !! 0x1000%nat = Some 0xDE /\
  vram !! 0x1001%nat = Some 0xAD /\
  vram !! 0x1002%nat = Some 0xBE /\
  Emulator.graphicsCPU e = Some (Cpu65816.mk false true false (Address_new 0 0)).
Proof. vm_compute. repeat split. Qed.


(** ** VideoRenderer: the tint post effect *)

Section Tint.
Import VideoRenderer.

Lemma lor_mul_add hi lo k :
  0 <= k -> 0 <= lo < 2 ^ k -> Z.lor (hi * 2 ^ k) lo = hi * 2 ^ k + lo.
Proof.
  intros Hk Hlo.
  assert (Hland : Z.land (hi * 2 ^ k) lo = 0).
  { apply Z.bits_inj'. intros n Hn. rewrite Z.land_spec, Z.bits_0.
    destruct (Z.lt_ge_cases n k) as [Hlt|Hge].
    - rewrite Z.mul_pow2_bits_low by lia. reflexivity.
    - destruct (Z.eq_dec lo 0) as [->|Hne].
      + rewrite Z.bits_0, andb_false_r. reflexivity.
      + rewrite (Z.bits_above_log2 lo n), andb_false_r; try lia.
        apply Z.lt_le_trans with k; [|lia].
        apply Z.log2_lt_pow2; lia. }
  rewrite <- Z.lxor_lor by exact Hland.
  symmetry. apply Z.add_nocarry_lxor. exact Hland.
Qed.

Lemma pack_eq a r g b :
  0 <= a <= 255 -> 0 <= r <= 255 -> 0 <= g <= 255 -> 0 <= b <= 255 ->
  pack a r g b = a * 16777216 + r * 65536 + g * 256 + b.
Proof.
  intros Ha Hr Hg Hb. unfold pack. rewrite !Z.shiftl_mul_pow2 by lia.
  rewrite (lor_mul_add a (r * 2 ^ 16) 24) by lia.
  replace (a * 2 ^ 24 + r * 2 ^ 16) with ((a * 256 + r) * 2 ^ 16) by lia.
  rewrite (lor_mul_add (a * 256 + r) (g * 2 ^ 8) 16) by lia.
  replace ((a * 256 + r) * 2 ^ 16 + g * 2 ^ 8)
    with ((a * 65536 + r * 256 + g) * 2 ^ 8) by lia.
  rewrite (lor_mul_add (a * 65536 + r * 256 + g) b 8) by lia.
  rewrite u32_small by lia. lia.
Qed.

Lemma channel_div color s : 0 <= s -> channel color s = (color / 2 ^ s) mod 256.
Proof.
  intros Hs. unfold channel, u8. rewrite Z.shiftr_div_pow2 by lia.
  change 0xFF with (Z.ones 8). rewrite Z.land_ones by lia.
  change (2 ^ 8) with 256. apply Z.mod_mod. lia.
Qed.

Lemma channel_range color s : 0 <= s -> 0 <= channel color s <= 255.
Proof.
  intros Hs. rewrite channel_div by exact Hs.
  pose proof (Z.mod_pos_bound (color / 2 ^ s) 256). lia.
Qed.

Lemma std_clamp_byte v : 0 <= std_clamp v 0 255 <= 255.
Proof.
  unfold std_clamp. destruct (Z.ltb_spec v 0); [lia|].
  destruct (Z.ltb_spec 255 v); lia.
Qed.

(** What [applyTint] computes, channel by channel: red and green are the
    clamped sums of their own channels; blue is the clamped sum of the
    already tinted green and the blue tint. *)
Lemma applyTint_channels color tintR tintG tintB :
  let out := applyTint color tintR tintG tintB in
  channel out 16 = std_clamp (channel color 16 + tintR) 0 255 /\
  channel out 8 = std_clamp (channel color 8 + tintG) 0 255 /\
  channel out 0 = std_clamp (std_clamp (channel color 8 + tintG) 0 255 + tintB) 0 255 /\
  channel out 24 = channel color 24.
Proof.
  intros out. unfold out, applyTint.
  pose proof (channel_range color 24 ltac:(lia)) as Ha.
  pose proof (std_clamp_byte (channel color 16 + tintR)) as Hr.
  pose proof (std_clamp_byte (channel color 8 + tintG)) as Hg.
  rewrite (u8_small (std_clamp (channel color 16 + tintR) 0 255)) by lia.
  rewrite (u8_small (std_clamp (channel color 8 + tintG) 0 255)) by lia.
  pose proof (std_clamp_byte (std_clamp (channel color 8 + tintG) 0 255 + tintB)) as Hb.
  rewrite (u8_small (std_clamp (std_clamp (channel color 8 + tintG) 0 255 + tintB) 0 255)) by lia.
  rewrite pack_eq by lia.
  set (a := channel color 24) in *. set (r := std_clamp _ 0 255) in *.
  set (g := std_clamp (channel color 8 + tintG) 0 255) in *.
  set (b := std_clamp (g + tintB) 0 255) in *.
  rewrite !channel_div by lia.
  change (2 ^ 16) with 65536. change (2 ^ 8) with 256.
  change (2 ^ 0) with 1. change (2 ^ 24) with 16777216.
  repeat split; Z.to_euclidean_division_equations; lia.
Qed.

End Tint.


(** ** Emulator: reset and the coprocessors' RES pins *)

Section ResetPins.
Import Emulator.

Local Ltac reset_step :=
  cbn [graphicsCPU soundCPU setMainCPU setGraphicsCPU setSoundCPU loadedHeader
         cartridge].

(** [reset] leaves both coprocessors with RES deasserted, whatever the
    header says: the graphics CPU's pin is cleared before the entry point is
    looked at, the sound CPU's pin is pulsed. *)
Lemma reset_releases_coprocessors e g s :
  initialized e = true ->
  graphicsCPU e = Some g ->
  soundCPU e = Some s ->
  exists g' s',
    graphicsCPU (reset e) = Some g' /\ Cpu65816.RESPin g' = false /\
    soundCPU (reset e) = Some s' /\ Cpu65816.RESPin s' = false.
Proof.
  intros Hi Hg Hs. unfold reset, loadedHeader. rewrite Hi. cbn [negb].
  destruct (mainCPU e) as [m|];
    reset_step; rewrite Hg; reset_step; rewrite Hs; reset_step;
    eexists; eexists; (split; [reflexivity|]);
    (split; [|split; [reflexivity|]]);
    repeat case_match; reflexivity.
Qed.

(** With a non-zero entry point in the header, [reset] sets the
    coprocessor's program address to it and leaves RES released. *)
Lemma reset_nonzero_entry e c g s :
  initialized e = true ->
  cartridge e = Some c -> Cartridge.isLoaded c = true ->
  graphicsCPU e = Some g ->
  soundCPU e = Some s ->
  Cartridge.graphicsCPU_entryPoint (Cartridge.header c) <> 0 ->
  graphicsCPU (reset e)
  = Some (Cpu65816.mk false (Cpu65816.RDYPin g) (Cpu65816.IRQPin g)
            (entryAddress (Cartridge.graphicsCPU_entryPoint (Cartridge.header c))))
  /\
  soundCPU (reset e)
  = Some (Cpu65816.mk false (Cpu65816.RDYPin s) (Cpu65816.IRQPin s)
            (entryAddress (Cartridge.soundCPU_entryPoint (Cartridge.header c)))).
Proof.
  intros Hi Hc Hl Hg Hs Hne. unfold reset, loadedHeader. rewrite Hi. cbn [negb].
  destruct (mainCPU e) as [m|];
    reset_step; rewrite Hg, ?Hc, ?Hl; reset_step; rewrite Hs, ?Hc, ?Hl;
    reset_step; rewrite ?Hc, ?Hl;
    (destruct (Z.eqb_spec (Cartridge.graphicsCPU_entryPoint (Cartridge.header c)) 0);
       [contradiction|]);
    split; reflexivity.
Qed.

End ResetPins.

(** A 256-byte ROM image whose header gives the main CPU the entry point
    $008000 and leaves the graphics and sound entry points zero. *)
Definition bootRom : list Z := [0x00; 0x80; 0x00] ++ replicate 253 0.

(** C2 (the code departs from the claim).  With [bootRom] loaded, both
    coprocessor entry points of the header are zero, and after [reset] the
    RES pin of the graphics CPU and of the sound CPU is deasserted, for any
    power-on state of the CPUs; the sound CPU has also been given the
    program address (0, 0).  The claim requires both to stay held in
    reset. *)
Theorem reset_releases_res_with_zero_entry (powerOn : Cpu65816.t) :
  let e := (Emulator.loadROMFromMemory (Emulator.initialize powerOn)
                                       (Some bootRom)).2 in
  Emulator.isROMLoaded e = true /\
  (Cartridge.graphicsCPU_entryPoint <$> Emulator.loadedHeader e) = Some 0 /\
  (Cartridge.soundCPU_entryPoint <$> Emulator.loadedHeader e) = Some 0 /\
  (Cpu65816.RESPin <$> Emulator.graphicsCPU (Emulator.reset e)) = Some false /\
  (Cpu65816.RESPin <$> Emulator.soundCPU (Emulator.reset e)) = Some false /\
  (Cpu65816.programAddress <$> Emulator.soundCPU (Emulator.reset e))
  = Some (Address_new 0 0).
Proof. intros e. repeat split. Qed.

(** ** AudioMixer: what the gain control sees *)

(** CPLD1 after the byte [b] has been written to the FIFO registers of
    channels 0 and 1 ($400100, $400102). *)
Definition twoSamples (b : Z) : CPLD1_Audio.t :=
  CPLD1_Audio.storeFifo
    (CPLD1_Audio.storeFifo CPLD1_Audio.new (Address_new 0x40 0x0100) b)
    (Address_new 0x40 0x0102) b.

(** A mixer after [reset] with channels 5, 6 and 7 muted, attached to
    [twoSamples b]. *)
Definition fiveChannels (b : Z) : AudioMixer.t :=
  AudioMixer.setChannelMute
    (AudioMixer.setChannelMute
       (AudioMixer.setChannelMute
          (AudioMixer.setCPLD1 AudioMixer.new (twoSamples b)) 5 true) 6 true)
    7 true.

Definition gainAfter (n : nat) (m : AudioMixer.t) : AudioMixer.float :=
  AudioMixer.currentGain (AudioMixer.generateSamples m n).1.

(** C7 (the code departs from the claim).  [mixFrame] clamps the mix to 16
    bits before [applyAGC] looks at it.  With a pre-clamp level of +40000 on
    both channels the gain control is handed 32767, sees no peak above
    32767 and leaves [current_gain] at exactly 1.0, after one frame and
    after 1000.  With -40000 it is handed -32768, aims at 32767/32768, and
    after 1000 frames [current_gain] is 16776754 * 2^-24 (about 0.99997),
    above 32767/40000 + 0.001. *)
Theorem agc_sees_only_clamped_samples :
  AudioMixer.preClamp (fiveChannels 0x7D) (twoSamples 0x7D)
  = (AudioMixer.of_int 40000, AudioMixer.of_int 40000) /\
  AudioMixer.mixFrame (fiveChannels 0x7D) (twoSamples 0x7D) = (32767, 32767) /\
  gainAfter 1 (fiveChannels 0x7D) = AudioMixer.f1 /\
  AudioMixer.flt (gainAfter 1 (fiveChannels 0x7D)) AudioMixer.f1 = false /\
  gainAfter 1000 (fiveChannels 0x7D) = AudioMixer.f1 /\
  AudioMixer.preClamp (fiveChannels 0x83) (twoSamples 0x83)
  = (AudioMixer.of_int (-40000), AudioMixer.of_int (-40000)) /\
  AudioMixer.mixFrame (fiveChannels 0x83) (twoSamples 0x83) = (-32768, -32768) /\
  AudioMixer.targetGain (AudioMixer.generateSamples (fiveChannels 0x83) 1).1
  = AudioMixer.fdiv (AudioMixer.of_int 32767) (AudioMixer.of_int 32768) /\
  gainAfter 1000 (fiveChannels 0x83) = S754_finite false 16776754 (-24) /\
  AudioMixer.flt
    (AudioMixer.fadd
       (AudioMixer.fdiv (AudioMixer.of_int 32767) (AudioMixer.of_int 40000))
       (AudioMixer.fdiv (AudioMixer.of_int 1) (AudioMixer.of_int 1000)))
    (gainAfter 1000 (fiveChannels 0x83)) = true.
Proof. vm_compute. repeat split. Qed.

(** ** CPLD3: loading the scanline table *)

Section TableLoad.
Import CPLD3_Raster.

Lemma i16_mod256 x : i16 x mod 256 = x mod 256.
Proof. unfold i16. Z.to_euclidean_division_equations. lia. Qed.

Lemma i16_congr x y : x mod 65536 = y mod 65536 -> i16 x = i16 y.
Proof. unfold i16. intros H. Z.to_euclidean_division_equations. lia. Qed.

Lemma land_FF x : Z.land x 0x00FF = x mod 256.
Proof. change 0x00FF with (Z.ones 8). apply Z.land_ones. lia. Qed.

(** Replacing the low byte, then the high byte, leaves the 16-bit value
    [lo | hi << 8], whatever was there before. *)
Lemma low_then_high old lo hi :
  0 <= lo <= 255 -> 0 <= hi <= 255 ->
  i16 (Z.lor (Z.land (i16 (Z.lor (Z.land old 0xFF00) lo)) 0x00FF) (Z.shiftl hi 8))
  = i16 (Z.lor lo (Z.shiftl hi 8)).
Proof.
  intros Hlo Hhi. f_equal. f_equal.
  rewrite land_FF, i16_mod256, <- land_FF.
  rewrite Z.land_lor_distr_l, <- Z.land_assoc.
  change (Z.land 0xFF00 0x00FF) with 0. rewrite Z.land_0_r, Z.lor_0_l.
  rewrite land_FF. apply Z.mod_small. lia.
Qed.

Lemma storeByte_data c v : storeByte c TABLE_DATA v = storeTableData c v.
Proof. reflexivity. Qed.

Lemma entryAt_lookup c i e :
  scanlineTable c !! Z.to_nat i = Some e -> entryAt c i = e.
Proof. unfold entryAt. intros ->. reflexivity. Qed.

(** The three phases of one row, for a write pointer inside the table. *)
Lemma storeTableData_phase0 c v e :
  0 <= tableAddr c < 262 -> tableByteOffset c = 0 ->
  scanlineTable c !! Z.to_nat (tableAddr c) = Some e ->
  storeTableData c v
  = setTable c
      (<[Z.to_nat (tableAddr c) :=
           mkEntry (i16 (Z.lor (Z.land (scrollOffset e) 0xFF00) v)) (paletteSelect e)]>
         (scanlineTable c))
      (tableAddr c) 1.
Proof.
  intros Ha Hp He. unfold storeTableData.
  destruct (Z.ltb_spec (tableAddr c) 262); [|lia].
  rewrite Hp, (entryAt_lookup c _ e He). reflexivity.
Qed.

Lemma storeTableData_phase1 c v e :
  0 <= tableAddr c < 262 -> tableByteOffset c = 1 ->
  scanlineTable c !! Z.to_nat (tableAddr c) = Some e ->
  storeTableData c v
  = setTable c
      (<[Z.to_nat (tableAddr c) :=
           mkEntry (i16 (Z.lor (Z.land (scrollOffset e) 0x00FF) (Z.shiftl v 8)))
                   (paletteSelect e)]>
         (scanlineTable c))
      (tableAddr c) 2.
Proof.
  intros Ha Hp He. unfold storeTableData.
  destruct (Z.ltb_spec (tableAddr c) 262); [|lia].
  rewrite Hp, (entryAt_lookup c _ e He). reflexivity.
Qed.

Lemma storeTableData_phase2 c v e :
  0 <= tableAddr c < 262 -> tableByteOffset c = 2 ->
  scanlineTable c !! Z.to_nat (tableAddr c) = Some e ->
  storeTableData c v
  = setTable c
      (<[Z.to_nat (tableAddr c) := mkEntry (scrollOffset e) v]> (scanlineTable c))
      (tableAddr c + 1) 0.
Proof.
  intros Ha Hp He. unfold storeTableData.
  destruct (Z.ltb_spec (tableAddr c) 262); [|lia].
  rewrite Hp, (entryAt_lookup c _ e He).
  rewrite (u16_small (tableAddr c + 1)) by lia. reflexivity.
Qed.

(** Past the end of the table a data write is dropped. *)
Lemma storeTableData_past_end c v :
  262 <= tableAddr c -> storeTableData c v = c.
Proof.
  intros Ha. unfold storeTableData.
  destruct (Z.ltb_spec (tableAddr c) 262); [lia|reflexivity].
Qed.

End TableLoad.

(** C9, as the code has it.  Data writes to $400314 take one table row in
    three phases: with the write pointer [table_addr] inside the table and
    the phase at 0, the bytes [lo], [hi], [pal] written in turn leave
    [scanline_table[table_addr]] holding the scroll offset [lo | hi << 8] (as
    a signed 16-bit value) and the palette select [pal], leave every other
    row as it was, return the phase to 0 and advance [table_addr] by one,
    with no wrap: after row 261 it is 262.  With [table_addr] at 262 or above
    a data write changes nothing. *)
Theorem cpld3_table_data_write (c : CPLD3_Raster.t) (lo hi pal : Z) :
  CPLD3_Raster.wf c ->
  0 <= CPLD3_Raster.tableAddr c ->
  CPLD3_Raster.tableByteOffset c = 0 ->
  0 <= lo <= 255 -> 0 <= hi <= 255 ->
  let c1 := CPLD3_Raster.storeByte c CPLD3_Raster.TABLE_DATA lo in
  let c2 := CPLD3_Raster.storeByte c1 CPLD3_Raster.TABLE_DATA hi in
  let c3 := CPLD3_Raster.storeByte c2 CPLD3_Raster.TABLE_DATA pal in
  let row := Z.to_nat (CPLD3_Raster.tableAddr c) in
  (CPLD3_Raster.tableAddr c < 262 ->
     CPLD3_Raster.tableByteOffset c1 = 1 /\
     CPLD3_Raster.tableByteOffset c2 = 2 /\
     CPLD3_Raster.tableByteOffset c3 = 0 /\
     CPLD3_Raster.tableAddr c1 = CPLD3_Raster.tableAddr c /\
     CPLD3_Raster.tableAddr c2 = CPLD3_Raster.tableAddr c /\
     CPLD3_Raster.tableAddr c3 = CPLD3_Raster.tableAddr c + 1 /\
     CPLD3_Raster.scanlineTable c3 !! row
     = Some (CPLD3_Raster.mkEntry (i16 (Z.lor lo (Z.shiftl hi 8))) pal) /\
     (forall j, j <> row ->
        CPLD3_Raster.scanlineTable c3 !! j = CPLD3_Raster.scanlineTable c !! j) /\
     CPLD3_Raster.wf c3)
  /\
  (262 <= CPLD3_Raster.tableAddr c -> c3 = c).
Proof.
  intros Hwf Ha0 Hp Hlo Hhi c1 c2 c3 row. split.
  - intros Ha.
    assert (Hrow : (row < length (CPLD3_Raster.scanlineTable c))%nat).
    { unfold CPLD3_Raster.wf in Hwf. rewrite Hwf. unfold row. lia. }
    destruct (lookup_lt_is_Some_2 _ _ Hrow) as [e He].
    assert (H1 : c1 = _) by
      exact (storeTableData_phase0 c lo e (conj Ha0 Ha) Hp He).
    assert (Ha1 : CPLD3_Raster.tableAddr c1 = CPLD3_Raster.tableAddr c)
      by (rewrite H1; reflexivity).
    assert (Hp1 : CPLD3_Raster.tableByteOffset c1 = 1)
      by (rewrite H1; reflexivity).
    eassert (He1 : CPLD3_Raster.scanlineTable c1
                     !! Z.to_nat (CPLD3_Raster.tableAddr c1) = Some _).
    { rewrite Ha1, H1. cbn [CPLD3_Raster.scanlineTable CPLD3_Raster.setTable].
      apply list_lookup_insert_eq. exact Hrow. }
    eassert (H2 : c2 = _).
    { refine (storeTableData_phase1 c1 hi _ _ Hp1 He1). lia. }
    assert (Ha2 : CPLD3_Raster.tableAddr c2 = CPLD3_Raster.tableAddr c)
      by (rewrite H2; exact Ha1).
    assert (Hp2 : CPLD3_Raster.tableByteOffset c2 = 2)
      by (rewrite H2; reflexivity).
    eassert (He2 : CPLD3_Raster.scanlineTable c2
                     !! Z.to_nat (CPLD3_Raster.tableAddr c2) = Some _).
    { rewrite Ha2, H2. cbn [CPLD3_Raster.scanlineTable CPLD3_Raster.setTable].
      rewrite Ha1. apply list_lookup_insert_eq.
      rewrite H1. cbn [CPLD3_Raster.scanlineTable CPLD3_Raster.setTable].
      rewrite length_insert. exact Hrow. }
    eassert (H3 : c3 = _).
    { refine (storeTableData_phase2 c2 pal _ _ Hp2 He2). lia. }
    assert (Hlen : length (CPLD3_Raster.scanlineTable c3)
                   = length (CPLD3_Raster.scanlineTable c)).
    { rewrite H3, H2, H1.
      cbn [CPLD3_Raster.scanlineTable CPLD3_Raster.setTable].
      rewrite !length_insert. reflexivity. }
    repeat split.
    + exact Hp1.
    + exact Hp2.
    + rewrite H3. reflexivity.
    + exact Ha1.
    + exact Ha2.
    + rewrite H3. cbn [CPLD3_Raster.tableAddr CPLD3_Raster.setTable].
      rewrite Ha2. reflexivity.
    + rewrite H3. cbn [CPLD3_Raster.scanlineTable CPLD3_Raster.setTable].
      rewrite Ha2. fold row.
      rewrite list_lookup_insert_eq.
      * cbn [CPLD3_Raster.scrollOffset CPLD3_Raster.paletteSelect].
        rewrite low_then_high by assumption. reflexivity.
      * rewrite H2, H1.
        cbn [CPLD3_Raster.scanlineTable CPLD3_Raster.setTable].
        rewrite !length_insert. exact Hrow.
    + intros j Hj. rewrite H3, H2, H1.
      cbn [CPLD3_Raster.scanlineTable CPLD3_Raster.setTable CPLD3_Raster.tableAddr].
      fold row. rewrite !list_lookup_insert_ne by auto. reflexivity.
    + unfold CPLD3_Raster.wf. rewrite Hlen. exact Hwf.
  - intros Ha. unfold c3, c2, c1.
    rewrite !storeByte_data.
    rewrite (storeTableData_past_end c lo Ha).
    rewrite (storeTableData_past_end c hi Ha).
    exact (storeTableData_past_end c pal Ha).
Qed.

Lemma cpld3_table_data_write_witness :
  let c := CPLD3_Raster.new in
  let c3 := CPLD3_Raster.storeByte
              (CPLD3_Raster.storeByte
                 (CPLD3_Raster.storeByte c CPLD3_Raster.TABLE_DATA 0x34)
                 CPLD3_Raster.TABLE_DATA 0x12)
              CPLD3_Raster.TABLE_DATA 0x07 in
  CPLD3_Raster.wf c /\
  CPLD3_Raster.tableAddr c3 = 1 /\
  CPLD3_Raster.scanlineTable c3 !! 0%nat = Some (CPLD3_Raster.mkEntry 0x1234 0x07).
Proof.
  intros c c3.
  assert (Hwf : CPLD3_Raster.wf c) by reflexivity.
  assert (H0 : 0 <= CPLD3_Raster.tableAddr c) by (vm_compute; discriminate).
  assert (Hlo : 0 <= 0x34 <= 255) by lia.
  assert (Hhi : 0 <= 0x12 <= 255) by lia.
  destruct (cpld3_table_data_write c 0x34 0x12 0x07 Hwf H0 eq_refl Hlo Hhi)
    as [Hin _].
  assert (Hlt : CPLD3_Raster.tableAddr c < 262) by reflexivity.
  destruct (Hin Hlt) as (_ & _ & _ & _ & _ & Haddr & Hrow & _).
  split; [exact Hwf|]. split; [exact Haddr|exact Hrow].
Defined.

(** The table row pointer set to 261 through $400312/13, then one full row
    of data. *)
Definition afterLastRow : CPLD3_Raster.t :=
  foldl (fun c av => CPLD3_Raster.storeByte c av.1 av.2) CPLD3_Raster.new
        [(CPLD3_Raster.TABLE_ADDR_LO, 0x05); (CPLD3_Raster.TABLE_ADDR_HI, 0x01);
         (CPLD3_Raster.TABLE_DATA, 0x11); (CPLD3_Raster.TABLE_DATA, 0x22);
         (CPLD3_Raster.TABLE_DATA, 0x33)].

(** C9 as stated fails: after the phase-2 write of row 261 [table_addr] is
    262, not 0, and three further data writes are dropped, so row 0 is not
    filled. *)
Lemma cpld3_table_addr_does_not_wrap :
  CPLD3_Raster.scanlineTable afterLastRow !! 261%nat
  = Some (CPLD3_Raster.mkEntry 0x2211 0x33) /\
  CPLD3_Raster.tableAddr afterLastRow = 262 /\
  CPLD3_Raster.tableAddr afterLastRow <> 0 /\
  foldl (fun c v => CPLD3_Raster.storeByte c CPLD3_Raster.TABLE_DATA v)
        afterLastRow [0x44; 0x55; 0x66] = afterLastRow /\
  CPLD3_Raster.scanlineTable afterLastRow !! 0%nat
  = Some (CPLD3_Raster.mkEntry 0 0).
Proof. vm_compute. repeat split. discriminate. Qed.


(** ** MemoryBus: which region answers *)

Section BusLookup.
Import MemoryBus.

(** The region a call [mapDevice(device, base, size)] adds, if any. *)
Definition regionOf (reg : option DevicePtr * Z * Z) : option MappedRegion :=
  let '(dev, base, size) := reg in
  match dev with
  | None => None
  | Some d =>
      if size =? 0 then None
      else Some (mkRegion (Z.land base 0xFFFFFF)
                          (Z.land (u32 (base + size - 1)) 0xFFFFFF) d)
  end.

(** The bus after the calls [regs], in that order. *)
Definition mapAll (regs : list (option DevicePtr * Z * Z)) : t :=
  foldl (fun bus reg => let '(dev, base, size) := reg in mapDevice bus dev base size)
        empty regs.

(** The regions in registration order. *)
Definition registered (regs : list (option DevicePtr * Z * Z)) : list MappedRegion :=
  omap regionOf regs.

(** The reading of the claim: the first registered region that contains the
    address. *)
Definition firstRegistered (regs : list (option DevicePtr * Z * Z)) (address : Z)
  : option MappedRegion :=
  head (filter (fun r => inRegion address r = true) (registered regs)).

Definition byBase : relation MappedRegion :=
  fun a b => baseAddress a <= baseAddress b.

Lemma insertRegion_perm r l : insertRegion r l ≡ₚ r :: l.
Proof.
  induction l as [|x l IH]; simpl; [reflexivity|].
  destruct (baseAddress r <? baseAddress x); [reflexivity|].
  rewrite IH. apply perm_swap.
Qed.

Lemma insertRegion_sorted r l :
  StronglySorted byBase l -> StronglySorted byBase (insertRegion r l).
Proof.
  induction 1 as [|x l Hs IH Hx]; simpl.
  - repeat constructor.
  - destruct (Z.ltb_spec (baseAddress r) (baseAddress x)) as [Hlt|Hge].
    + constructor; [constructor; assumption|].
      constructor; [unfold byBase; lia|].
      eapply Forall_impl; [exact Hx|]. unfold byBase. intros; simpl in *. lia.
    + constructor; [exact IH|].
      rewrite insertRegion_perm. constructor; [exact Hge|exact Hx].
Qed.

Lemma sortRegions_sorted_from acc l :
  StronglySorted byBase acc ->
  StronglySorted byBase (foldl (fun acc r => insertRegion r acc) acc l)
  /\ foldl (fun acc r => insertRegion r acc) acc l ≡ₚ acc ++ l.
Proof.
  revert acc. induction l as [|r l IH]; intros acc Hs; simpl.
  - rewrite app_nil_r. split; [exact Hs|reflexivity].
  - destruct (IH (insertRegion r acc) (insertRegion_sorted r acc Hs)) as [H1 H2].
    split; [exact H1|]. rewrite H2, insertRegion_perm.
    simpl. apply Permutation_middle.
Qed.

Lemma sortRegions_spec l :
  StronglySorted byBase (sortRegions l) /\ sortRegions l ≡ₚ l.
Proof. apply (sortRegions_sorted_from [] l). constructor. Qed.

Lemma mapDevice_spec bus dev base size :
  StronglySorted byBase bus ->
  StronglySorted byBase (mapDevice bus dev base size) /\
  mapDevice bus dev base size
  ≡ₚ bus ++ option_list (regionOf (dev, base, size)).
Proof.
  intros Hs. unfold mapDevice, regionOf. destruct dev as [d|].
  - destruct (size =? 0).
    + rewrite app_nil_r. split; [exact Hs|reflexivity].
    + apply sortRegions_spec.
  - rewrite app_nil_r. split; [exact Hs|reflexivity].
Qed.

Lemma mapAll_from regs : forall bus,
  StronglySorted byBase bus ->
  let bus' :=
    foldl (fun bus reg => let '(dev, base, size) := reg in mapDevice bus dev base size)
          bus regs in
  StronglySorted byBase bus' /\ bus' ≡ₚ bus ++ registered regs.
Proof.
  induction regs as [|[[dev base] size] regs IH]; intros bus Hs.
  - simpl. rewrite app_nil_r. split; [exact Hs|reflexivity].
  - cbn [foldl]. destruct (mapDevice_spec bus dev base size Hs) as [Hs1 Hp1].
    destruct (IH _ Hs1) as [Hs2 Hp2]. split; [exact Hs2|].
    rewrite Hp2, Hp1. unfold registered.
    change (omap regionOf ((dev, base, size) :: regs))
      with (match regionOf (dev, base, size) with
            | Some y => y :: omap regionOf regs
            | None => omap regionOf regs
            end).
    generalize (regionOf (dev, base, size)). intros [m|]; simpl.
    + rewrite <- app_assoc. reflexivity.
    + rewrite app_nil_r. reflexivity.
Qed.

Lemma mapAll_spec regs :
  StronglySorted byBase (mapAll regs) /\ mapAll regs ≡ₚ registered regs.
Proof. apply (mapAll_from regs []). constructor. Qed.

(** On a vector sorted by base, the scan with its early exit returns the
    device of a containing region of least base, and nothing only when no
    region contains the address. *)
Lemma findDevice_sorted bus address :
  StronglySorted byBase bus ->
  match findDevice bus address with
  | Some p =>
      exists r, r ∈ bus /\ device r = p /\ inRegion address r = true /\
                forall r', r' ∈ bus -> inRegion address r' = true ->
                           baseAddress r <= baseAddress r'
  | None => forall r, r ∈ bus -> inRegion address r = false
  end.
Proof.
  induction 1 as [|x l Hs IH Hx]; simpl.
  - intros r Hr. inversion Hr.
  - destruct (inRegion address x) eqn:Hin.
    + exists x. repeat split; [left|exact Hin|].
      intros r' Hr' _. apply elem_of_cons in Hr' as [->|Hr']; [lia|].
      rewrite Forall_forall in Hx. apply (Hx r' Hr').
    + destruct (Z.ltb_spec address (baseAddress x)) as [Hlt|Hge].
      * intros r Hr. apply elem_of_cons in Hr as [->|Hr]; [exact Hin|].
        rewrite Forall_forall in Hx. specialize (Hx r Hr). unfold byBase in Hx.
        unfold inRegion. destruct (Z.leb_spec (baseAddress r) address); [lia|].
        reflexivity.
      * destruct (findDevice l address) as [p|].
        -- destruct IH as (r & Hr & Hd & Hi & Hmin).
           exists r. repeat split; [right; exact Hr|exact Hd|exact Hi|].
           intros r' Hr' Hi'. apply elem_of_cons in Hr' as [->|Hr'];
             [congruence|]. apply Hmin; assumption.
        -- intros r Hr. apply elem_of_cons in Hr as [->|Hr]; [exact Hin|].
           apply IH. exact Hr.
Qed.

End BusLookup.

(** C3, as the code has it.  [mapDevice] keeps the regions sorted by base
    address, so for a bus built by any sequence of [mapDevice] calls and any
    address [a] (masked to 24 bits): if no mapped region contains [a], a
    read returns 0xFF and a write is dropped, both leaving every device
    untouched; otherwise the read and the write go to the device of a
    region that contains [a] and whose base address is the least among the
    regions containing [a]. *)
Theorem bus_dispatch_least_base
        {D : Type} `{MemoryBus.MemoryDevice D}
        (regs : list (option MemoryBus.DevicePtr * Z * Z))
        (s : MemoryBus.DevicePtr -> D) (a v : Z) :
  let bus := mapAll regs in
  let address := Z.land a 0xFFFFFF in
  let claims r := MemoryBus.inRegion address r = true in
  ((forall r, r ∈ registered regs -> ~ claims r) /\
   MemoryBus.read_bus bus s a = (0xFF, s) /\
   MemoryBus.write_bus bus s a v = s)
  \/
  (exists r,
     r ∈ registered regs /\ claims r /\
     (forall r', r' ∈ registered regs -> claims r' ->
                 MemoryBus.baseAddress r <= MemoryBus.baseAddress r') /\
     MemoryBus.read_bus bus s a
     = ((MemoryBus.read (s (MemoryBus.device r)) address).1,
        MemoryBus.update s (MemoryBus.device r)
          (MemoryBus.read (s (MemoryBus.device r)) address).2) /\
     MemoryBus.write_bus bus s a v
     = MemoryBus.update s (MemoryBus.device r)
         (MemoryBus.write (s (MemoryBus.device r)) address v)).
Proof.
  intros bus address claims.
  destruct (mapAll_spec regs) as [Hsorted Hperm].
  pose proof (findDevice_sorted bus address Hsorted) as Hfind.
  unfold MemoryBus.read_bus, MemoryBus.write_bus. fold address.
  destruct (MemoryBus.findDevice bus address) as [p|].
  - right. destruct Hfind as (r & Hr & Hd & Hi & Hmin). subst p.
    exists r. repeat split.
    + rewrite <- Hperm. exact Hr.
    + exact Hi.
    + intros r' Hr' Hc. apply Hmin; [|exact Hc]. unfold bus. rewrite Hperm. exact Hr'.
    + destruct (MemoryBus.read (s (MemoryBus.device r)) address). reflexivity.
  - left. repeat split. intros r Hr Hc. unfold claims in Hc.
    rewrite (Hfind r) in Hc; [discriminate|]. unfold bus. rewrite Hperm. exact Hr.
Qed.

(** A one-byte device: every address reads the byte, a write replaces it. *)
#[local] Instance byteDevice : MemoryBus.MemoryDevice Z :=
  {| MemoryBus.read d _ := (d, d); MemoryBus.write _ _ v := v |}.

(** Device 0 mapped at $10..$1F first, then device 1 at $00..$FF. *)
Definition overlapRegs : list (option MemoryBus.DevicePtr * Z * Z) :=
  [(Some 0%nat, 0x10, 0x10); (Some 1%nat, 0x00, 0x100)].

Definition overlapStore : MemoryBus.DevicePtr -> Z :=
  fun p => if Nat.eqb p 0 then 0xAA else 0xBB.

(** C3 as stated fails: the first registered device that claims $10 is
    device 0, which reads 0xAA, but the bus reads 0xBB from device 1, the
    later registration with the lower base, and a bus write goes to device 1
    as well. *)
Lemma bus_first_registered_loses :
  firstRegistered overlapRegs 0x10 = Some (MemoryBus.mkRegion 0x10 0x1F 0%nat) /\
  (MemoryBus.read (overlapStore 0%nat) 0x10).1 = 0xAA /\
  (MemoryBus.read_bus (mapAll overlapRegs) overlapStore 0x10).1 = 0xBB /\
  (MemoryBus.read_bus (mapAll overlapRegs) overlapStore 0x10).1
  <> (MemoryBus.read (overlapStore 0%nat) 0x10).1 /\
  MemoryBus.write_bus (mapAll overlapRegs) overlapStore 0x10 0x55 0%nat = 0xAA /\
  MemoryBus.write_bus (mapAll overlapRegs) overlapStore 0x10 0x55 1%nat = 0x55.
Proof. vm_compute. repeat split. discriminate. Qed.

Lemma bus_dispatch_least_base_witness :
  (MemoryBus.read_bus (mapAll overlapRegs) overlapStore 0x10).1 = 0xBB /\
  MemoryBus.write_bus (mapAll overlapRegs) overlapStore 0x10 0x55 1%nat = 0x55.
Proof.
  destruct (bus_dispatch_least_base overlapRegs overlapStore 0x10 0x55)
    as [(Hnone & _)|(r & Hr & Hc & Hmin & Hrd & Hwr)].
  - exfalso. apply (Hnone (MemoryBus.mkRegion 0x00 0xFF 1%nat)).
    + right. left.
    + reflexivity.
  - assert (Hlow : MemoryBus.mkRegion 0x00 0xFF 1%nat ∈ registered overlapRegs)
      by (right; left).
    specialize (Hmin _ Hlow eq_refl).
    apply elem_of_cons in Hr as [->|Hr];
      [exfalso; vm_compute in Hmin; apply Hmin; reflexivity|].
    apply list_elem_of_singleton in Hr as ->.
    rewrite Hrd, Hwr. split; reflexivity.
Defined.


(** ** VideoRenderer: every VRAM fetch is defined *)

Section VramFetch.
Import VideoRenderer.

(** A RAM that keeps its constructor's invariant answers every read. *)
Lemma RAM_readByte_total r a : RAM.wf r -> is_Some (RAM.readByte r a).
Proof.
  intros [Hs Hl]. unfold RAM.readByte.
  pose proof (u32_range (flat a - RAM.baseAddress r)) as Ho.
  destruct (Z.ltb_spec (u32 (flat a - RAM.baseAddress r)) (RAM.size r)).
  - apply lookup_lt_is_Some_2. lia.
  - eauto.
Qed.

(** The invariant holds for a constructed RAM and is kept by every store. *)
Lemma RAM_new_wf base size : 0 <= size -> RAM.wf (RAM.new base size).
Proof.
  intros Hs. unfold RAM.wf, RAM.new. cbn [RAM.size RAM.data].
  rewrite length_replicate. lia.
Qed.

Lemma RAM_storeByte_wf r a v : RAM.wf r -> RAM.wf (RAM.storeByte r a v).
Proof.
  intros [Hs Hl]. unfold RAM.wf, RAM.storeByte.
  destruct (_ <? RAM.size r); cbn [RAM.size RAM.data]; [|auto].
  rewrite length_insert. auto.
Qed.

Variable vram : option RAM.t.
Hypothesis vram_wf : forall r, vram = Some r -> RAM.wf r.

Lemma readVRAM_total a : is_Some (readVRAM vram a).
Proof.
  unfold readVRAM. destruct vram as [r|] eqn:Hv; [|eauto].
  destruct (0x80000 <=? a); [eauto|].
  apply RAM_readByte_total. apply vram_wf. reflexivity.
Qed.

Lemma readVRAM_zero a :
  vram = None \/ 0x80000 <= a -> readVRAM vram a = Some 0.
Proof.
  unfold readVRAM. intros [->|Ha]; [reflexivity|].
  destruct vram; [|reflexivity].
  destruct (Z.leb_spec 0x80000 a); [reflexivity|lia].
Qed.

Local Ltac fetch :=
  repeat match goal with
    | |- context [readVRAM vram ?a] =>
        let v := fresh "v" in let Hv := fresh "Hv" in
        destruct (readVRAM_total a) as [v Hv]; rewrite Hv; clear Hv;
        cbn [mbind option_bind]
    end.

Lemma readVRAM16_total a : is_Some (readVRAM16 vram a).
Proof. unfold readVRAM16. fetch. eauto. Qed.

Local Ltac fetch16 :=
  repeat match goal with
    | |- context [readVRAM16 vram ?a] =>
        let v := fresh "w" in let Hv := fresh "Hw" in
        destruct (readVRAM16_total a) as [v Hv]; rewrite Hv; clear Hv;
        cbn [mbind option_bind]
    end.

Lemma paletteEntry_total i : is_Some (paletteEntry vram i).
Proof. unfold paletteEntry. fetch16. eauto. Qed.

Lemma spriteEntry_total i : is_Some (spriteEntry vram i).
Proof. unfold spriteEntry. fetch16. fetch. eauto. Qed.

Lemma updatePaletteCache_total : is_Some (updatePaletteCache vram).
Proof.
  unfold updatePaletteCache. apply mapM_is_Some, Forall_forall.
  intros i _. apply paletteEntry_total.
Qed.

Lemma updateSpriteCache_total : is_Some (updateSpriteCache vram).
Proof.
  unfold updateSpriteCache. apply mapM_is_Some, Forall_forall.
  intros i _. apply spriteEntry_total.
Qed.

Lemma framebufferPixel_total line px : is_Some (framebufferPixel vram line px).
Proof. unfold framebufferPixel. apply readVRAM_total. Qed.

Lemma spritePixel_total spr line sx : is_Some (spritePixel vram spr line sx).
Proof. unfold spritePixel. apply readVRAM_total. Qed.

Lemma tileLayerPixel_total cpld2 line layer screenX :
  is_Some (tileLayerPixel vram cpld2 line layer screenX).
Proof.
  unfold tileLayerPixel. cbv zeta. fetch16.
  repeat case_match; fetch; eauto using readVRAM_total.
Qed.

End VramFetch.

(** C10.  [readVRAM] is total and never reads past the end of the RAM it is
    attached to: with no VRAM attached, or for an address at or above
    0x80000, it returns 0, and for every address it returns a value;
    so do [readVRAM16], the palette and sprite cache refreshes, and the
    framebuffer, tilemap, tile-data and sprite-pixel fetches, for any
    register and VRAM contents. *)
Theorem readVRAM_total_and_guarded (vram : option RAM.t) :
  (forall r, vram = Some r -> RAM.wf r) ->
  (forall a, vram = None \/ 0x80000 <= a -> VideoRenderer.readVRAM vram a = Some 0) /\
  (forall a, is_Some (VideoRenderer.readVRAM vram a)) /\
  (forall a, is_Some (VideoRenderer.readVRAM16 vram a)) /\
  (forall i, is_Some (VideoRenderer.paletteEntry vram i)) /\
  is_Some (VideoRenderer.updatePaletteCache vram) /\
  (forall i, is_Some (VideoRenderer.spriteEntry vram i)) /\
  is_Some (VideoRenderer.updateSpriteCache vram) /\
  (forall line px, is_Some (VideoRenderer.framebufferPixel vram line px)) /\
  (forall cpld2 line layer screenX,
     is_Some (VideoRenderer.tileLayerPixel vram cpld2 line layer screenX)) /\
  (forall spr line sx, is_Some (VideoRenderer.spritePixel vram spr line sx)).
Proof.
  intros Hwf.
  split; [intros; apply readVRAM_zero; assumption|].
  split; [intros; apply readVRAM_total, Hwf|].
  split; [intros; apply readVRAM16_total, Hwf|].
  split; [intros; apply paletteEntry_total, Hwf|].
  split; [apply updatePaletteCache_total, Hwf|].
  split; [intros; apply spriteEntry_total, Hwf|].
  split; [apply updateSpriteCache_total, Hwf|].
  split; [intros; apply framebufferPixel_total, Hwf|].
  split; [intros; apply tileLayerPixel_total, Hwf|].
  intros; apply spritePixel_total, Hwf.
Qed.

Lemma readVRAM_total_and_guarded_witness :
  let vram := Some (RAM.new 0x000000 (128 * 1024)) in
  (forall r, vram = Some r -> RAM.wf r) /\
  VideoRenderer.readVRAM vram 0x80000 = Some 0 /\
  is_Some (VideoRenderer.tileLayerPixel vram CPLD2_Video.new 0 VideoRenderer.BG0 0).
Proof.
  intros vram.
  assert (Hwf : forall r, vram = Some r -> RAM.wf r).
  { intros r [= <-]. split; vm_compute; [discriminate|reflexivity]. }
  destruct (readVRAM_total_and_guarded vram Hwf)
    as (Hzero & _ & _ & _ & _ & _ & _ & _ & Htile & _).
  split; [exact Hwf|]. split; [apply Hzero; right; lia|apply Htile].
Defined.


(** * Further properties *)

(** ** RAM: stores, reads and the address decoder *)

Section RamAccess.
Import RAM.

Lemma RAM_lookup_in r o :
  wf r -> 0 <= o < size r -> is_Some (data r !! Z.to_nat o).
Proof.
  intros [_ Hlen] Ho. apply lookup_lt_is_Some_2. lia.
Qed.

Lemma RAM_offset_decoded r a :
  Address_wf a -> 0 <= baseAddress r -> 0 <= size r ->
  baseAddress r + size r < 4294967296 ->
  decodeAddress r a = (u32 (flat a - baseAddress r) <? size r).
Proof.
  intros Ha Hb Hs Hfit. unfold decodeAddress.
  rewrite (u32_small (baseAddress r + size r)) by lia.
  pose proof (flat_eq a Ha) as Hf. destruct Ha as [Hbank Hoff].
  assert (Hu : u32 (flat a - baseAddress r)
               = if baseAddress r <=? flat a then flat a - baseAddress r
                 else flat a - baseAddress r + 4294967296).
  { unfold u32. destruct (Z.leb_spec (baseAddress r) (flat a));
      Z.to_euclidean_division_equations; lia. }
  rewrite Hu.
  destruct (Z.leb_spec (baseAddress r) (flat a)) as [Hle|Hlt]; simpl.
  - destruct (Z.ltb_spec (flat a) (baseAddress r + size r));
      destruct (Z.ltb_spec (flat a - baseAddress r) (size r)); lia || reflexivity.
  - destruct (Z.ltb_spec (flat a - baseAddress r + 4294967296) (size r));
      lia || reflexivity.
Qed.

Lemma RAM_storeByte_in r a v :
  u32 (flat a - baseAddress r) < size r ->
  storeByte r a v
  = mk (baseAddress r) (size r)
       (<[Z.to_nat (u32 (flat a - baseAddress r)) := v]> (data r)).
Proof.
  intros Hin. unfold storeByte.
  destruct (Z.ltb_spec (u32 (flat a - baseAddress r)) (size r)); [reflexivity|lia].
Qed.

Lemma RAM_storeByte_out r a v :
  size r <= u32 (flat a - baseAddress r) -> storeByte r a v = r.
Proof.
  intros Hout. unfold storeByte.
  destruct (Z.ltb_spec (u32 (flat a - baseAddress r)) (size r)); [lia|reflexivity].
Qed.

Lemma RAM_store_read r a v :
  wf r -> u32 (flat a - baseAddress r) < size r ->
  readByte (storeByte r a v) a = Some v.
Proof.
  intros [Hsz Hlen] Hin. rewrite RAM_storeByte_in by exact Hin.
  unfold readByte. cbn [baseAddress size data].
  destruct (Z.ltb_spec (u32 (flat a - baseAddress r)) (size r)); [|lia].
  apply list_lookup_insert_eq.
  pose proof (u32_range (flat a - baseAddress r)). lia.
Qed.

Lemma RAM_readByte_out r a :
  size r <= u32 (flat a - baseAddress r) -> readByte r a = Some 0xFF.
Proof.
  intros Hout. unfold readByte.
  destruct (Z.ltb_spec (u32 (flat a - baseAddress r)) (size r)); [lia|reflexivity].
Qed.

End RamAccess.

(** X1. A RAM that keeps its constructor's invariant behaves as a byte
    array over its window: a store at an in-range address is read back at
    that address, leaves every other offset as it was and keeps the
    invariant; at an out-of-range address a read returns 0xFF and a store
    changes nothing; after [clear v] every in-range address reads [v]. *)
Theorem ram_store_then_read (r : RAM.t) (a b : Address) (v w : Z) :
  RAM.wf r ->
  let off x := u32 (flat x - RAM.baseAddress r) in
  RAM.wf (RAM.storeByte r a v) /\
  (off a < RAM.size r ->
     RAM.readByte (RAM.storeByte r a v) a = Some v /\
     RAM.readByte (RAM.clear r w) a = Some w) /\
  (off b <> off a ->
     RAM.readByte (RAM.storeByte r a v) b = RAM.readByte r b) /\
  (RAM.size r <= off a ->
     RAM.readByte r a = Some 0xFF /\ RAM.storeByte r a v = r).
Proof.
  intros Hwf off. pose proof Hwf as [Hsz Hlen].
  assert (Hoff : forall x, 0 <= off x) by (intros x; apply u32_range).
  split; [apply RAM_storeByte_wf; exact Hwf|].
  split; [|split].
  - intros Hin. rewrite RAM_storeByte_in by exact Hin.
    unfold RAM.readByte, RAM.clear. cbn [RAM.baseAddress RAM.size RAM.data].
    fold (off a). destruct (Z.ltb_spec (off a) (RAM.size r)); [|lia]. split.
    + apply list_lookup_insert_eq. specialize (Hoff a). lia.
    + apply lookup_replicate_2. specialize (Hoff a). lia.
  - intros Hne. destruct (Z.lt_ge_cases (off a) (RAM.size r)) as [Hin|Hout].
    + rewrite RAM_storeByte_in by exact Hin.
      unfold RAM.readByte. cbn [RAM.baseAddress RAM.size RAM.data].
      fold (off a) (off b). destruct (off b <? RAM.size r); [|reflexivity].
      apply list_lookup_insert_ne. intros Heq. apply Hne.
      apply Z2Nat.inj in Heq; auto.
    + rewrite RAM_storeByte_out by exact Hout. reflexivity.
  - intros Hout. split; [|apply RAM_storeByte_out; exact Hout].
    unfold RAM.readByte. fold (off a).
    destruct (Z.ltb_spec (off a) (RAM.size r)); [lia|reflexivity].
Qed.

Lemma ram_store_then_read_witness :
  RAM.readByte (RAM.storeByte (RAM.new 0x10 4) (Address_new 0 0x11) 7)
               (Address_new 0 0x11) = Some 7 /\
  RAM.readByte (RAM.storeByte (RAM.new 0x10 4) (Address_new 0 0x11) 7)
               (Address_new 0 0x12) = Some 0 /\
  RAM.readByte (RAM.new 0x10 4) (Address_new 0 0x14) = Some 0xFF.
Proof.
  assert (Hwf : RAM.wf (RAM.new 0x10 4)) by (apply RAM_new_wf; lia).
  destruct (ram_store_then_read (RAM.new 0x10 4) (Address_new 0 0x11)
              (Address_new 0 0x12) 7 0 Hwf) as (_ & Hin & Hother & _).
  destruct (ram_store_then_read (RAM.new 0x10 4) (Address_new 0 0x14)
              (Address_new 0 0x12) 7 0 Hwf) as (_ & _ & _ & Hout).
  split; [apply Hin; vm_compute; reflexivity|].
  split; [rewrite Hother; [reflexivity|vm_compute; discriminate]|].
  apply Hout. vm_compute. discriminate.
Defined.

(** X2. For a RAM whose window [base, base + size) fits the 32-bit address
    arithmetic, [decodeAddress] and the bounds check of [readByte] and
    [storeByte] agree: an address the decoder accepts reads the byte at
    offset [flat - base] of the vector, and an address it rejects reads
    0xFF and cannot be stored to. *)
Theorem ram_decode_agrees_with_bounds (r : RAM.t) (a : Address) (v : Z) :
  Address_wf a -> RAM.wf r -> 0 <= RAM.baseAddress r ->
  RAM.baseAddress r + RAM.size r < 4294967296 ->
  if RAM.decodeAddress r a
  then RAM.readByte r a = RAM.data r !! Z.to_nat (flat a - RAM.baseAddress r)
       /\ is_Some (RAM.readByte r a)
       /\ RAM.readByte (RAM.storeByte r a v) a = Some v
  else RAM.readByte r a = Some 0xFF /\ RAM.storeByte r a v = r.
Proof.
  intros Ha Hwf Hb Hfit. pose proof Hwf as [Hsz Hlen].
  rewrite (RAM_offset_decoded r a Ha Hb Hsz Hfit).
  destruct (Z.ltb_spec (u32 (flat a - RAM.baseAddress r)) (RAM.size r)) as [Hlt|Hge].
  - assert (Hdec : RAM.decodeAddress r a = true).
    { rewrite (RAM_offset_decoded r a Ha Hb Hsz Hfit). apply Z.ltb_lt. exact Hlt. }
    unfold RAM.decodeAddress in Hdec. apply andb_true_iff in Hdec as [Hle _].
    apply Z.leb_le in Hle.
    assert (Hu : u32 (flat a - RAM.baseAddress r) = flat a - RAM.baseAddress r).
    { apply u32_small. pose proof (flat_eq a Ha). destruct Ha. lia. }
    split; [|split].
    + unfold RAM.readByte. destruct (Z.ltb_spec (u32 (flat a - RAM.baseAddress r)) (RAM.size r)); [|lia].
      rewrite Hu. reflexivity.
    + apply RAM_readByte_total. exact Hwf.
    + apply RAM_store_read; assumption.
  - split; [apply RAM_readByte_out|apply RAM_storeByte_out]; exact Hge.
Qed.

Lemma ram_decode_agrees_with_bounds_witness :
  RAM.readByte (RAM.new 0x10 4) (Address_new 0 0x12) = Some 0 /\
  RAM.readByte (RAM.new 0x10 4) (Address_new 0 0x0F) = Some 0xFF.
Proof.
  assert (Hwf : RAM.wf (RAM.new 0x10 4)) by (apply RAM_new_wf; lia).
  pose proof (ram_decode_agrees_with_bounds (RAM.new 0x10 4) (Address_new 0 0x12) 0
                (Address_new_wf _ _) Hwf ltac:(simpl; lia) ltac:(simpl; lia)) as Hin.
  pose proof (ram_decode_agrees_with_bounds (RAM.new 0x10 4) (Address_new 0 0x0F) 0
                (Address_new_wf _ _) Hwf ltac:(simpl; lia) ltac:(simpl; lia)) as Hout.
  change (RAM.decodeAddress (RAM.new 16 4) (Address_new 0 18)) with true in Hin.
  change (RAM.decodeAddress (RAM.new 16 4) (Address_new 0 15)) with false in Hout.
  destruct Hin as (Hrd & _). destruct Hout as (Hff & _).
  split; [rewrite Hrd; reflexivity|exact Hff].
Defined.

(** ** Mailbox: the decoder and the bounds check *)

Section MailboxDecode.
Import Mailbox.

Lemma Mailbox_offset_decoded m a :
  Address_wf a -> 0 <= baseAddress m -> 0 <= size m ->
  baseAddress m + size m <= 16777216 ->
  decodeAddress m a = (offsetOf m a <? size m)
  /\ (decodeAddress m a = true -> offsetOf m a = flat a - baseAddress m).
Proof.
  intros Ha Hb Hs Hfit. unfold decodeAddress, offsetOf.
  rewrite (u32_small (baseAddress m + size m)) by lia.
  pose proof (flat_eq a Ha) as Hf. destruct Ha as [Hbank Hoff].
  change 0xFFFFFF with (Z.ones 24). rewrite Z.land_ones by lia.
  assert (Hu : u32 (flat a - baseAddress m) mod 2 ^ 24
               = if baseAddress m <=? flat a then flat a - baseAddress m
                 else flat a - baseAddress m + 16777216).
  { unfold u32. destruct (Z.leb_spec (baseAddress m) (flat a));
      Z.to_euclidean_division_equations; lia. }
  rewrite Hu.
  destruct (Z.leb_spec (baseAddress m) (flat a)) as [Hle|Hlt]; simpl.
  - split; [|reflexivity].
    destruct (Z.ltb_spec (flat a) (baseAddress m + size m));
      destruct (Z.ltb_spec (flat a - baseAddress m) (size m)); lia || reflexivity.
  - split; [|discriminate].
    destruct (Z.ltb_spec (flat a - baseAddress m + 16777216) (size m));
      lia || reflexivity.
Qed.

End MailboxDecode.

(** X3. For a mailbox whose window lies inside the 24-bit address space,
    [decodeAddress] and the bounds check agree.  An address the decoder
    rejects is refused by the device as well: the read returns 0xFF and
    leaves the mailbox, its new-data flag included, as it was, and the
    store changes nothing and notifies nobody.  An address the decoder
    accepts reads the byte at offset [flat - base] and clears the flag,
    and a store there sets the flag and fires the write callback. *)
Theorem mailbox_decode_agrees_with_bounds (m : Mailbox.t) (a : Address) (v : Z) :
  Address_wf a -> 0 <= Mailbox.baseAddress m -> 0 <= Mailbox.size m ->
  Mailbox.baseAddress m + Mailbox.size m <= 16777216 ->
  if Mailbox.decodeAddress m a
  then (Mailbox.readByte m a).1
       = Mailbox.data m !!! Z.to_nat (flat a - Mailbox.baseAddress m)
       /\ Mailbox.hasNewData (Mailbox.readByte m a).2 = false
       /\ Mailbox.hasNewData (Mailbox.storeByte m a v).1 = true
       /\ (Mailbox.storeByte m a v).2 = fire (Mailbox.writeCallback m) CallWrite
  else Mailbox.readByte m a = (0xFF, m) /\ Mailbox.storeByte m a v = (m, []).
Proof.
  intros Ha Hb Hs Hfit.
  destruct (Mailbox_offset_decoded m a Ha Hb Hs Hfit) as [Hdec Hoff].
  unfold Mailbox.readByte, Mailbox.storeByte.
  destruct (Mailbox.decodeAddress m a).
  - rewrite <- Hdec, (Hoff eq_refl). repeat split.
  - rewrite <- Hdec. split; reflexivity.
Qed.

Lemma mailbox_decode_agrees_with_bounds_witness :
  Mailbox.readByte (Mailbox.new 0x400000 1024) (Address_new 0x40 0x0400)
  = (0xFF, Mailbox.new 0x400000 1024) /\
  Mailbox.hasNewData
    (Mailbox.storeByte (Mailbox.new 0x400000 1024) (Address_new 0x40 0x03FF) 9).1
  = true.
Proof.
  pose proof (mailbox_decode_agrees_with_bounds (Mailbox.new 0x400000 1024)
                (Address_new 0x40 0x0400) 9 (Address_new_wf _ _)
                ltac:(simpl; lia) ltac:(simpl; lia) ltac:(simpl; lia)) as Hout.
  pose proof (mailbox_decode_agrees_with_bounds (Mailbox.new 0x400000 1024)
                (Address_new 0x40 0x03FF) 9 (Address_new_wf _ _)
                ltac:(simpl; lia) ltac:(simpl; lia) ltac:(simpl; lia)) as Hin.
  change (Mailbox.decodeAddress (Mailbox.new 4194304 1024) (Address_new 64 1024))
    with false in Hout.
  change (Mailbox.decodeAddress (Mailbox.new 4194304 1024) (Address_new 64 1023))
    with true in Hin.
  destruct Hout as (Hrd & _). destruct Hin as (_ & _ & Hflag & _).
  split; [exact Hrd|exact Hflag].
Defined.

(** ** Cartridge: the fixed window, read-only ROM, save RAM, loading *)

Section CartridgeMap.
Import Cartridge.

Lemma readByte_fixed c a :
  0x008000 <= flat a <= 0x00FFFF ->
  readByte c a = default 0xFF (rom c !! Z.to_nat (flat a)).
Proof.
  intros Hr. unfold readByte, romSize.
  destruct ((0x00FFFC <=? flat a) && (flat a <=? 0x00FFFF));
    [apply guarded_read; lia|].
  destruct (Z.leb_spec 0x008000 (flat a)); [|lia].
  destruct (Z.leb_spec (flat a) 0x00FFFF); [|lia].
  apply guarded_read; lia.
Qed.

Lemma storeByte_rom c a v :
  rom (storeByte c a v) = rom c /\ header (storeByte c a v) = header c.
Proof.
  unfold storeByte, setBank. repeat case_match; split; reflexivity.
Qed.

End CartridgeMap.

(** X4. The fixed window $008000..$00FFFF (which holds the reset vector
    $00FFFC..$00FFFF) reads ROM offset [flat] directly, 0xFF past the end
    of the ROM, and no store, to the bank register or anywhere else,
    changes what it reads. *)
Theorem cartridge_fixed_window_ignores_bank
        (c : Cartridge.t) (a b : Address) (v : Z) :
  0x008000 <= flat a <= 0x00FFFF ->
  Cartridge.readByte c a = default 0xFF (Cartridge.rom c !! Z.to_nat (flat a)) /\
  Cartridge.readByte (Cartridge.storeByte c b v) a = Cartridge.readByte c a.
Proof.
  intros Hr. split; [apply readByte_fixed; exact Hr|].
  rewrite !readByte_fixed by exact Hr.
  destruct (storeByte_rom c b v) as [-> _]. reflexivity.
Qed.

Lemma cartridge_fixed_window_ignores_bank_witness :
  Cartridge.readByte
    (Cartridge.storeByte (Cartridge.mk [1; 2; 3] [] 0 Cartridge.zeroHeader)
                         (Address_new 0x42 0) 5)
    (Address_new 0 0xFFFC) = 0xFF.
Proof.
  destruct (cartridge_fixed_window_ignores_bank
              (Cartridge.mk [1; 2; 3] [] 0 Cartridge.zeroHeader)
              (Address_new 0 0xFFFC) (Address_new 0x42 0) 5
              ltac:(vm_compute; split; discriminate)) as [Hrd Hsame].
  rewrite Hsame, Hrd. reflexivity.
Defined.

(** X5. The ROM is read-only: no store changes the ROM bytes or the parsed
    header; a store anywhere but the bank register and the save-RAM window
    leaves the whole cartridge as it was; and a store anywhere but the bank
    register cannot change what any address outside the save-RAM window
    reads. *)
Theorem cartridge_rom_is_read_only (c : Cartridge.t) (a b : Address) (v : Z) :
  Cartridge.rom (Cartridge.storeByte c a v) = Cartridge.rom c /\
  Cartridge.header (Cartridge.storeByte c a v) = Cartridge.header c /\
  (flat a <> Cartridge.BANK_REGISTER ->
   Cartridge.addressInSaveRAM (flat a) = false ->
   Cartridge.storeByte c a v = c) /\
  (flat a <> Cartridge.BANK_REGISTER ->
   Cartridge.addressInSaveRAM (flat b) = false ->
   Cartridge.readByte (Cartridge.storeByte c a v) b = Cartridge.readByte c b).
Proof.
  destruct (storeByte_rom c a v) as [Hrom Hhd].
  split; [exact Hrom|]. split; [exact Hhd|]. split.
  - intros Hreg Hsave. unfold Cartridge.storeByte.
    destruct (Z.eqb_spec (flat a) Cartridge.BANK_REGISTER); [contradiction|].
    rewrite Hsave. reflexivity.
  - intros Hreg Hsave. unfold Cartridge.storeByte.
    destruct (Z.eqb_spec (flat a) Cartridge.BANK_REGISTER); [contradiction|].
    destruct (Cartridge.addressInSaveRAM (flat a)); [|reflexivity].
    destruct (_ <? _); [|reflexivity].
    unfold Cartridge.readByte, Cartridge.romSize, Cartridge.mapAddress.
    cbn [Cartridge.rom Cartridge.saveRAM Cartridge.currentBank].
    rewrite Hsave. reflexivity.
Qed.

Section SaveRam.
Import Cartridge.

Lemma save_offset a :
  SAVE_RAM_START <= flat a <= SAVE_RAM_END ->
  u32 (flat a - SAVE_RAM_START) = flat a - SAVE_RAM_START
  /\ 0 <= flat a - SAVE_RAM_START < 65536.
Proof.
  unfold SAVE_RAM_START, SAVE_RAM_END. intros Hr.
  split; [apply u32_small|]; lia.
Qed.

Lemma readByte_save c a :
  SAVE_RAM_START <= flat a <= SAVE_RAM_END ->
  readByte c a = default 0xFF (saveRAM c !! Z.to_nat (flat a - SAVE_RAM_START)).
Proof.
  intros Hr. destruct (save_offset a Hr) as [Hu Ho].
  unfold SAVE_RAM_START, SAVE_RAM_END in Hr.
  unfold readByte, addressInROMWindow, addressInSaveRAM, ROM_WINDOW_START,
    ROM_WINDOW_END.
  destruct (Z.leb_spec 0x00FFFC (flat a)); [destruct (Z.leb_spec (flat a) 0x00FFFF); [lia|]|];
    cbn [andb];
    (destruct (Z.leb_spec 0x008000 (flat a));
       [destruct (Z.leb_spec (flat a) 0x00FFFF); [lia|]|]); cbn [andb];
    (destruct (Z.leb_spec 0xC00000 (flat a)); [lia|]); cbn [andb];
    fold SAVE_RAM_START SAVE_RAM_END;
    (destruct (Z.leb_spec SAVE_RAM_START (flat a)); [|unfold SAVE_RAM_START in *; lia]);
    (destruct (Z.leb_spec (flat a) SAVE_RAM_END); [|unfold SAVE_RAM_END in *; lia]);
    cbn [andb]; rewrite Hu; apply guarded_read; lia.
Qed.

Lemma storeByte_save c a v :
  SAVE_RAM_START <= flat a <= SAVE_RAM_END ->
  storeByte c a v
  = mk (rom c) (<[Z.to_nat (flat a - SAVE_RAM_START) := v]> (saveRAM c))
       (currentBank c) (header c).
Proof.
  intros Hr. destruct (save_offset a Hr) as [Hu Ho].
  unfold storeByte, addressInSaveRAM.
  destruct (Z.eqb_spec (flat a) BANK_REGISTER) as [He|_];
    [unfold SAVE_RAM_START, SAVE_RAM_END, BANK_REGISTER in *; lia|].
  destruct (Z.leb_spec SAVE_RAM_START (flat a)); [|lia].
  destruct (Z.leb_spec (flat a) SAVE_RAM_END); [|lia]. cbn [andb].
  rewrite Hu.
  destruct (Z.ltb_spec (flat a - SAVE_RAM_START) (Z.of_nat (length (saveRAM c))));
    [reflexivity|].
  rewrite list_insert_ge by lia. destruct c; reflexivity.
Qed.

End SaveRam.

(** X6. Save RAM is optional.  On a cartridge without it every address of
    $700000..$70FFFF reads 0xFF and stores there are dropped.
    [createSaveRAM] provides 64 KB that read 0xFF until written; a byte
    stored is read back at its address and at no other, and a second
    [createSaveRAM] keeps the contents. *)
Theorem cartridge_save_ram_round_trip (c : Cartridge.t) (a b : Address) (v : Z) :
  Cartridge.SAVE_RAM_START <= flat a <= Cartridge.SAVE_RAM_END ->
  Cartridge.SAVE_RAM_START <= flat b <= Cartridge.SAVE_RAM_END ->
  Cartridge.saveRAM c = [] ->
  let c1 := Cartridge.createSaveRAM c in
  let c2 := Cartridge.storeByte c1 a v in
  Cartridge.hasSaveRAM c = false /\
  Cartridge.readByte c a = 0xFF /\
  Cartridge.storeByte c a v = c /\
  Cartridge.hasSaveRAM c1 = true /\
  Cartridge.readByte c1 a = 0xFF /\
  Cartridge.readByte c2 a = v /\
  (flat b <> flat a -> Cartridge.readByte c2 b = 0xFF) /\
  Cartridge.createSaveRAM c2 = c2.
Proof.
  intros Ha Hb Hempty c1 c2.
  destruct (save_offset a Ha) as [Hua Hoa]. destruct (save_offset b Hb) as [Hub Hob].
  set (n := Z.to_nat Cartridge.SAVE_RAM_SIZE).
  assert (Hn : Z.of_nat n = 65536) by (unfold n, Cartridge.SAVE_RAM_SIZE; lia).
  assert (Hc1 : Cartridge.saveRAM c1 = replicate n 0xFF).
  { unfold c1, Cartridge.createSaveRAM. rewrite Hempty. reflexivity. }
  assert (Hc2 : Cartridge.saveRAM c2
                = <[Z.to_nat (flat a - Cartridge.SAVE_RAM_START) := v]>
                    (replicate n 0xFF)).
  { unfold c2. rewrite storeByte_save by exact Ha. cbn [Cartridge.saveRAM].
    rewrite Hc1. reflexivity. }
  clearbody n.
  split; [unfold Cartridge.hasSaveRAM; rewrite Hempty; reflexivity|].
  split; [rewrite readByte_save by exact Ha; rewrite Hempty; reflexivity|].
  split; [rewrite storeByte_save by exact Ha; rewrite Hempty; destruct c; simpl in *;
          subst; reflexivity|].
  split; [unfold Cartridge.hasSaveRAM; rewrite Hc1, length_replicate, Hn; reflexivity|].
  split; [rewrite readByte_save by exact Ha; rewrite Hc1, lookup_replicate_2 by lia;
          reflexivity|].
  split; [rewrite readByte_save by exact Ha; rewrite Hc2,
            list_lookup_insert_eq by (rewrite length_replicate; lia); reflexivity|].
  split.
  - intros Hne. rewrite readByte_save by exact Hb. rewrite Hc2.
    rewrite list_lookup_insert_ne by lia.
    rewrite lookup_replicate_2 by lia. reflexivity.
  - unfold Cartridge.createSaveRAM. rewrite Hc2.
    destruct (<[_ := v]> (replicate n 255)) eqn:Hl; [|reflexivity].
    apply (f_equal length) in Hl. rewrite length_insert, length_replicate in Hl.
    simpl in Hl. lia.
Qed.

Lemma cartridge_save_ram_round_trip_witness :
  Cartridge.readByte Cartridge.new (Address_new 0x70 0x1234) = 0xFF /\
  Cartridge.readByte
    (Cartridge.storeByte (Cartridge.createSaveRAM Cartridge.new)
                         (Address_new 0x70 0x1234) 0x5A)
    (Address_new 0x70 0x1234) = 0x5A.
Proof.
  destruct (cartridge_save_ram_round_trip Cartridge.new
              (Address_new 0x70 0x1234) (Address_new 0x70 0x0000) 0x5A
              ltac:(vm_compute; split; discriminate)
              ltac:(vm_compute; split; discriminate) eq_refl)
    as (_ & Hno & _ & _ & _ & Hrt & _).
  split; [exact Hno|exact Hrt].
Defined.

Section CartridgeLoad.
Import Cartridge.

Lemma parseHeader_frame c :
  rom (parseHeader c) = rom c /\ saveRAM (parseHeader c) = saveRAM c /\
  (romSize c < 256 -> header (parseHeader c) = header c).
Proof.
  unfold parseHeader. destruct (Z.ltb_spec (romSize c) 256).
  - repeat split.
  - repeat split. lia.
Qed.

Lemma getBankCount_bounds c :
  0 < romSize c <= BANK_SIZE * MAX_BANKS ->
  1 <= getBankCount c <= MAX_BANKS /\
  romSize c <= getBankCount c * BANK_SIZE < romSize c + BANK_SIZE.
Proof.
  unfold getBankCount, romSize, BANK_SIZE, MAX_BANKS. intros Hn.
  destruct (rom c) as [|x l]; [simpl in Hn; lia|].
  set (n := Z.of_nat (length (x :: l))) in *.
  unfold u64. rewrite (Z.mod_small (n + 4194304 - 1)) by lia.
  assert (Hq : 1 <= (n + 4194304 - 1) / 4194304 <= 16
               /\ n <= (n + 4194304 - 1) / 4194304 * 4194304 < n + 4194304)
    by (Z.to_euclidean_division_equations; lia).
  unfold i32. rewrite Z.mod_small by lia. lia.
Qed.

End CartridgeLoad.

(** X7. [loadROM] from memory accepts an image exactly when it has between
    1 byte and 64 MB.  A rejected image (null pointer, empty, too large)
    leaves the cartridge untouched.  An accepted one becomes the ROM, with
    bank 0 selected whatever bank was selected before, the save RAM kept,
    and a bank count between 1 and 16 that covers the image; an image
    shorter than 256 bytes is accepted but the header of the previous image
    stays in place. *)
Theorem cartridge_loadROM_accepts_by_size (c : Cartridge.t) (bs : list Z) :
  let n := Z.of_nat (length bs) in
  let r := Cartridge.loadROM c (Some bs) in
  Cartridge.loadROM c None = (false, c) /\
  (r.1 = true <-> 0 < n <= Cartridge.BANK_SIZE * Cartridge.MAX_BANKS) /\
  (r.1 = false -> r.2 = c) /\
  (r.1 = true ->
   Cartridge.rom r.2 = bs /\ Cartridge.currentBank r.2 = 0 /\
   Cartridge.saveRAM r.2 = Cartridge.saveRAM c /\
   Cartridge.isLoaded r.2 = true /\
   1 <= Cartridge.getBankCount r.2 <= Cartridge.MAX_BANKS /\
   n <= Cartridge.getBankCount r.2 * Cartridge.BANK_SIZE /\
   (n < 256 -> Cartridge.header r.2 = Cartridge.header c)).
Proof.
  intros n r. split; [reflexivity|].
  unfold r, Cartridge.loadROM. fold n.
  destruct (Z.eqb_spec n 0) as [H0|H0].
  { split; [split; [discriminate|lia]|]. split; [reflexivity|discriminate]. }
  destruct (Z.ltb_spec (Cartridge.BANK_SIZE * Cartridge.MAX_BANKS) n) as [Hbig|Hfit].
  { split; [split; [discriminate|lia]|]. split; [reflexivity|discriminate]. }
  assert (Hn : 0 < n <= Cartridge.BANK_SIZE * Cartridge.MAX_BANKS) by (unfold n in *; lia).
  cbn [fst snd].
  split; [split; [intros _; exact Hn|reflexivity]|].
  split; [discriminate|]. intros _.
  set (c0 := Cartridge.mk bs (Cartridge.saveRAM c) (Cartridge.currentBank c)
                          (Cartridge.header c)).
  destruct (parseHeader_frame c0) as (Hrom & Hsave & Hhd).
  cbn [Cartridge.rom Cartridge.saveRAM Cartridge.currentBank Cartridge.header].
  set (c1 := Cartridge.mk _ _ 0 _).
  assert (Hsz : Cartridge.romSize c1 = n).
  { unfold Cartridge.romSize, c1. cbn [Cartridge.rom]. rewrite Hrom. reflexivity. }
  destruct (getBankCount_bounds c1) as [Hcount Hcover]; [rewrite Hsz; exact Hn|].
  rewrite Hsz in Hcover.
  split; [exact Hrom|]. split; [reflexivity|]. split; [exact Hsave|].
  split; [unfold Cartridge.isLoaded; rewrite Hsz; apply Z.ltb_lt; lia|].
  split; [exact Hcount|]. split; [lia|].
  intros Hshort. apply Hhd. exact Hshort.
Qed.

Section ResetVector.
Import Emulator.

Lemma le24_sum (bs : list Z) (i j k : nat) :
  is_u8 (bs !!! i) -> is_u8 (bs !!! j) -> is_u8 (bs !!! k) ->
  Cartridge.le24 bs i j k = bs !!! i + 256 * bs !!! j + 65536 * bs !!! k.
Proof.
  unfold is_u8, Cartridge.le24. intros Hi Hj Hk.
  rewrite !Z.shiftl_mul_pow2 by lia.
  rewrite (Z.lor_comm (bs !!! i)), (lor_mul_add (bs !!! j) (bs !!! i) 8) by lia.
  rewrite Z.lor_comm, (lor_mul_add (bs !!! k) _ 16) by lia. lia.
Qed.

Lemma entryAddress_split lo mid hi :
  is_u8 lo -> is_u8 mid -> is_u8 hi ->
  entryAddress (lo + 256 * mid + 65536 * hi) = mkAddress hi (lo + 256 * mid).
Proof.
  unfold is_u8, entryAddress, Address_new. intros Hlo Hmid Hhi.
  rewrite Z.shiftr_div_pow2 by lia.
  change 0xFFFF with (Z.ones 16). rewrite Z.land_ones by lia.
  f_equal; unfold u8, u16; Z.to_euclidean_division_equations; lia.
Qed.

Lemma loadROMFromMemory_ok powerOn bs :
  0 < Z.of_nat (length bs) <= 0x4000000 ->
  loadROMFromMemory (initialize powerOn) (Some bs)
  = (true,
     setCartridge (initialize powerOn)
       (Some (Cartridge.loadROM Cartridge.new (Some bs)).2)).
Proof.
  intros Hn. unfold loadROMFromMemory.
  change (initialized (initialize powerOn)) with true. cbn [negb].
  unfold Cartridge.loadROM.
  destruct (Z.eqb_spec (Z.of_nat (length bs)) 0); [lia|].
  destruct (Z.ltb_spec (Cartridge.BANK_SIZE * Cartridge.MAX_BANKS)
                       (Z.of_nat (length bs)));
    [unfold Cartridge.BANK_SIZE, Cartridge.MAX_BANKS in *; lia|].
  reflexivity.
Qed.

End ResetVector.

(** X8. Reset vectors the main CPU and the sound CPU from the header.
    After an image of at least 256 bytes is loaded into an initialised
    emulator, [reset] leaves the main CPU with RES released, RDY high and
    its program address at bank [rom[2]], offset [rom[0] + 256 * rom[1]]
    (the little-endian 24-bit entry point at the head of the image), and
    the sound CPU likewise at bank [rom[8]], offset
    [rom[6] + 256 * rom[7]]. *)
Theorem reset_vectors_cpus_from_header (powerOn : Cpu65816.t) (bs : list Z) :
  256 <= Z.of_nat (length bs) <= 0x4000000 ->
  Forall is_u8 bs ->
  let e := Emulator.reset
             (Emulator.loadROMFromMemory (Emulator.initialize powerOn) (Some bs)).2 in
  Emulator.mainCPU e
  = Some (Cpu65816.mk false true (Cpu65816.IRQPin powerOn)
            (mkAddress (bs !!! 2%nat) (bs !!! 0%nat + 256 * bs !!! 1%nat))) /\
  Emulator.soundCPU e
  = Some (Cpu65816.mk false true (Cpu65816.IRQPin powerOn)
            (mkAddress (bs !!! 8%nat) (bs !!! 6%nat + 256 * bs !!! 7%nat))).
Proof.
  intros Hn Hbytes e.
  assert (Hb : forall i : nat, (i < 256)%nat -> is_u8 (bs !!! i)).
  { intros i Hi. rewrite Forall_lookup in Hbytes.
    destruct (lookup_lt_is_Some_2 bs i) as [x Hx]; [lia|].
    rewrite (list_lookup_total_correct _ _ _ Hx). exact (Hbytes i x Hx). }
  unfold e. rewrite loadROMFromMemory_ok by lia. cbn [snd].
  unfold Cartridge.loadROM.
  destruct (Z.eqb_spec (Z.of_nat (length bs)) 0); [lia|].
  destruct (Z.ltb_spec (Cartridge.BANK_SIZE * Cartridge.MAX_BANKS)
                       (Z.of_nat (length bs)));
    [unfold Cartridge.BANK_SIZE, Cartridge.MAX_BANKS in *; lia|].
  cbn [snd]. unfold Cartridge.parseHeader, Cartridge.romSize. cbn [Cartridge.rom].
  destruct (Z.ltb_spec (Z.of_nat (length bs)) 256); [lia|].
  cbn [Cartridge.rom Cartridge.saveRAM Cartridge.header].
  unfold Emulator.reset, Emulator.loadedHeader, Cartridge.isLoaded, Cartridge.romSize.
  cbn [Emulator.initialized Emulator.initialize Emulator.setupCallbacks
       Emulator.setCartridge Emulator.mainCPU Emulator.graphicsCPU Emulator.soundCPU
       Emulator.cartridge Emulator.setMainCPU Emulator.setGraphicsCPU
       Emulator.setSoundCPU negb Cartridge.rom Cartridge.header
       Cartridge.mainCPU_entryPoint Cartridge.soundCPU_entryPoint].
  destruct (Z.ltb_spec 0 (Z.of_nat (length bs))); [|lia].
  rewrite !le24_sum by (apply Hb; lia).
  cbn [Cartridge.mainCPU_entryPoint Cartridge.soundCPU_entryPoint].
  rewrite !entryAddress_split by (apply Hb; lia).
  split; reflexivity.
Qed.

Lemma reset_vectors_cpus_from_header_witness :
  (Cpu65816.programAddress
     <$> Emulator.mainCPU
           (Emulator.reset
              (Emulator.loadROMFromMemory (Emulator.initialize powerOn0)
                                          (Some bootRom)).2))
  = Some (mkAddress 0x00 0x8000).
Proof.
  destruct (reset_vectors_cpus_from_header powerOn0 bootRom
              ltac:(vm_compute; split; discriminate)
              ltac:(unfold bootRom; repeat constructor; vm_compute; discriminate))
    as [Hmain _].
  rewrite Hmain. reflexivity.
Defined.

(** ** MemoryBus: disjoint maps and word accesses *)

Section BusDisjoint.
Import MemoryBus.

Lemma head_filter_unique {A} (P : A -> bool) (l : list A) (x : A) :
  x ∈ l -> P x = true -> (forall y, y ∈ l -> P y = true -> y = x) ->
  head (filter (fun y => P y = true) l) = Some x.
Proof.
  induction l as [|y l IH]; intros Hx HP Huniq.
  - inversion Hx.
  - rewrite filter_cons. destruct (decide (P y = true)) as [Hy|Hy].
    + simpl. f_equal. apply Huniq; [left|exact Hy].
    + apply IH; [|exact HP|].
      * apply elem_of_cons in Hx as [->|Hx]; [contradiction|exact Hx].
      * intros z Hz. apply Huniq. right. exact Hz.
Qed.

Lemma land_24_u32 a : Z.land (u32 a) 0xFFFFFF = Z.land a 0xFFFFFF.
Proof.
  change 0xFFFFFF with (Z.ones 24). rewrite !Z.land_ones by lia.
  unfold u32. change (2 ^ 24) with 16777216.
  Z.to_euclidean_division_equations; lia.
Qed.

Lemma findDevice_unmapped regs address :
  (forall r, r ∈ registered regs -> inRegion address r = false) ->
  findDevice (mapAll regs) address = None.
Proof.
  intros Hnone. destruct (mapAll_spec regs) as [Hsorted Hperm].
  pose proof (findDevice_sorted (mapAll regs) address Hsorted) as Hfind.
  destruct (findDevice (mapAll regs) address) as [p|]; [|reflexivity].
  destruct Hfind as (r & Hr & _ & Hi & _). rewrite Hperm in Hr.
  rewrite (Hnone r Hr) in Hi. discriminate.
Qed.

End BusDisjoint.

(** X9. When at most one registered region contains the (masked) address,
    the order of registration does not matter: the bus dispatches reads and
    writes to the device of that region, which is also the first registered
    region containing the address. *)
Theorem bus_disjoint_regions_dispatch
        {D : Type} `{MemoryBus.MemoryDevice D}
        (regs : list (option MemoryBus.DevicePtr * Z * Z))
        (s : MemoryBus.DevicePtr -> D) (a v : Z) (r : MemoryBus.MappedRegion) :
  let bus := mapAll regs in
  let address := Z.land a 0xFFFFFF in
  r ∈ registered regs ->
  MemoryBus.inRegion address r = true ->
  (forall r', r' ∈ registered regs -> MemoryBus.inRegion address r' = true ->
              r' = r) ->
  firstRegistered regs address = Some r /\
  MemoryBus.findDevice bus address = Some (MemoryBus.device r) /\
  MemoryBus.read_bus bus s a
  = ((MemoryBus.read (s (MemoryBus.device r)) address).1,
     MemoryBus.update s (MemoryBus.device r)
       (MemoryBus.read (s (MemoryBus.device r)) address).2) /\
  MemoryBus.write_bus bus s a v
  = MemoryBus.update s (MemoryBus.device r)
      (MemoryBus.write (s (MemoryBus.device r)) address v).
Proof.
  intros bus address Hr Hin Huniq.
  destruct (mapAll_spec regs) as [Hsorted Hperm].
  pose proof (findDevice_sorted bus address Hsorted) as Hfind.
  assert (Hdev : MemoryBus.findDevice bus address = Some (MemoryBus.device r)).
  { destruct (MemoryBus.findDevice bus address) as [p|].
    - destruct Hfind as (r0 & Hr0 & Hd & Hi & _). unfold bus in Hr0.
      rewrite Hperm in Hr0. rewrite (Huniq r0 Hr0 Hi) in Hd. rewrite Hd. reflexivity.
    - rewrite (Hfind r) in Hin; [discriminate|]. unfold bus. rewrite Hperm. exact Hr. }
  split; [apply (head_filter_unique (MemoryBus.inRegion address)); assumption|].
  split; [exact Hdev|].
  unfold MemoryBus.read_bus, MemoryBus.write_bus. fold address. rewrite Hdev.
  split; [|reflexivity].
  destruct (MemoryBus.read (s (MemoryBus.device r)) address). reflexivity.
Qed.

(** Device 0 at $00..$0F and device 1 at $10..$1F, registered high region
    first. *)
Definition splitRegs : list (option MemoryBus.DevicePtr * Z * Z) :=
  [(Some 1%nat, 0x10, 0x10); (Some 0%nat, 0x00, 0x10)].

Lemma bus_disjoint_regions_dispatch_witness :
  (MemoryBus.read_bus (mapAll splitRegs) overlapStore 0x12).1 = 0xBB /\
  MemoryBus.write_bus (mapAll splitRegs) overlapStore 0x12 0x55 1%nat = 0x55.
Proof.
  destruct (bus_disjoint_regions_dispatch splitRegs overlapStore 0x12 0x55
              (MemoryBus.mkRegion 0x10 0x1F 1%nat)) as (_ & _ & Hrd & Hwr).
  - left.
  - reflexivity.
  - intros r' Hr' Hin. apply elem_of_cons in Hr' as [->|Hr']; [reflexivity|].
    apply list_elem_of_singleton in Hr' as ->. discriminate Hin.
  - rewrite Hrd, Hwr. split; reflexivity.
Defined.

(** X10. Word accesses on unmapped addresses: when no registered region
    contains [a] or [a + 1] (each masked to 24 bits, so the high byte of a
    word at $FFFFFF is looked up at $000000), [read16] returns 0xFFFF and
    [write16] is dropped, both leaving every device untouched.  After
    [unmapAll] this holds at every address. *)
Theorem bus_word_access_open_bus
        {D : Type} `{MemoryBus.MemoryDevice D}
        (regs : list (option MemoryBus.DevicePtr * Z * Z))
        (s : MemoryBus.DevicePtr -> D) (a v : Z) :
  (forall r, r ∈ registered regs ->
             MemoryBus.inRegion (Z.land a 0xFFFFFF) r = false) ->
  (forall r, r ∈ registered regs ->
             MemoryBus.inRegion (Z.land (a + 1) 0xFFFFFF) r = false) ->
  MemoryBus.read16 (mapAll regs) s a = (0xFFFF, s) /\
  MemoryBus.write16 (mapAll regs) s a v = s /\
  MemoryBus.read16 (MemoryBus.unmapAll (mapAll regs)) s a = (0xFFFF, s) /\
  MemoryBus.write16 (MemoryBus.unmapAll (mapAll regs)) s a v = s.
Proof.
  intros Hlo Hhi.
  pose proof (findDevice_unmapped regs _ Hlo) as Flo.
  pose proof (findDevice_unmapped regs _ Hhi) as Fhi.
  unfold MemoryBus.read16, MemoryBus.write16, MemoryBus.read_bus,
    MemoryBus.write_bus, MemoryBus.unmapAll.
  rewrite !land_24_u32, Flo, Fhi. cbn [MemoryBus.findDevice].
  repeat split.
Qed.

Lemma bus_word_access_open_bus_witness :
  MemoryBus.read16 (mapAll splitRegs) overlapStore 0x20 = (0xFFFF, overlapStore).
Proof.
  assert (Hnone : forall a, 0x20 <= a <= 0x21 ->
            forall r, r ∈ registered splitRegs -> MemoryBus.inRegion a r = false).
  { intros a Ha r Hr. apply elem_of_cons in Hr as [->|Hr].
    - unfold MemoryBus.inRegion. cbn [MemoryBus.baseAddress MemoryBus.endAddress].
      change (Z.land (u32 (16 + 16 - 1)) 16777215) with 31.
      destruct (Z.leb_spec a 31) as [Hle|_]; [lia|]. apply andb_false_r.
    - apply list_elem_of_singleton in Hr as ->.
      unfold MemoryBus.inRegion. cbn [MemoryBus.baseAddress MemoryBus.endAddress].
      change (Z.land (u32 (0 + 16 - 1)) 16777215) with 15.
      destruct (Z.leb_spec a 15) as [Hle|_]; [lia|]. apply andb_false_r. }
  destruct (bus_word_access_open_bus splitRegs overlapStore 0x20 0
              (Hnone (Z.land 0x20 0xFFFFFF) ltac:(vm_compute; split; discriminate))
              (Hnone (Z.land (0x20 + 1) 0xFFFFFF)
                     ltac:(vm_compute; split; discriminate))) as (Hrd & _).
  exact Hrd.
Defined.


(** ** CPLD2: the raster counters in either video mode *)

Section RasterAnyMode.
Import CPLD2_Video.

(** Pixel clocks in a frame of the current mode. *)
Definition frameLength (c : t) : Z := PIXELS_PER_LINE * getTotalLines c.

Definition inFrame (c : t) : Prop :=
  0 <= rasterX c < PIXELS_PER_LINE /\ 0 <= rasterLine c < getTotalLines c.

(** What [updateBlankingFlags] makes of a raster position. *)
Definition hblankAt (x : Z) : bool := x <=? HBLANK_END.

Definition vblankAt (mode : VideoMode) (line : Z) : bool :=
  match mode with
  | MODE_240P => line <? 22
  | MODE_480I => (line <? 22) || ((262 <=? line) && (line <? 284))
  end.

Definition lastTick (c : t) : bool := rasterPos c + 1 =? frameLength c.

Lemma getTotalLines_pos c : 262 <= getTotalLines c <= 525.
Proof. unfold getTotalLines. destruct (videoMode c); cbv; split; discriminate. Qed.

Local Ltac raster_arith :=
  repeat split; first [assumption | reflexivity | lia | nia].

Lemma tick_step c :
  inFrame c ->
  let c' := (tick c).1 in
  inFrame c' /\
  videoMode c' = videoMode c /\
  vblankCallback c' = vblankCallback c /\
  rasterPos c' = (if lastTick c then 0 else rasterPos c + 1) /\
  inHBlank c' = hblankAt (rasterX c') /\
  inVBlank c' = vblankAt (videoMode c') (rasterLine c') /\
  vblankIRQPending c' = vblankIRQPending c || lastTick c /\
  (tick c).2 = (if lastTick c && negb (vblankIRQPending c)
                then fire (vblankCallback c) CallIRQ else []).
Proof.
  unfold inFrame, lastTick, frameLength, rasterPos, PIXELS_PER_LINE.
  pose proof (getTotalLines_pos c) as HT.
  intros (Hx & Hl). unfold tick.
  rewrite (u16_small (rasterX c + 1)) by lia. unfold PIXELS_PER_LINE.
  assert (Hflags : forall line x vp,
            let c' := updateBlankingFlags
                        (withRaster c (videoMode c) line x (inVBlank c)
                                    (inHBlank c) vp (hblankIRQPending c)) in
            0 <= x ->
            videoMode c' = videoMode c /\ vblankCallback c' = vblankCallback c /\
            rasterLine c' = line /\ rasterX c' = x /\
            inHBlank c' = hblankAt x /\
            inVBlank c' = vblankAt (videoMode c) line /\
            vblankIRQPending c' = vp /\ getTotalLines c' = getTotalLines c).
  { intros line x vp c' Hx0. unfold c', updateBlankingFlags, withRaster, hblankAt,
      vblankAt, getTotalLines, HBLANK_START, HBLANK_END, VBLANK_LINES_240P,
      VBLANK_LINES_480I.
    cbn. destruct (Z.leb_spec 0 x); [|lia]. destruct (videoMode c); repeat split. }
  destruct (Z.leb_spec 857 (rasterX c + 1)) as [Hw|Hw].
  - rewrite (u16_small (rasterLine c + 1)) by lia.
    destruct (Z.leb_spec (getTotalLines c) (rasterLine c + 1)) as [Hf|Hf].
    + destruct (Z.eqb_spec (rasterLine c * 857 + rasterX c + 1)
                           (857 * getTotalLines c)); [|nia].
      destruct (vblankIRQPending c) eqn:Hp; cbn [fst snd negb andb orb];
        destruct (Hflags 0 0 true ltac:(lia))
          as (Hm & Hcb & Hl' & Hx' & Hhb & Hvb & Hvp & Htl);
        rewrite ?Hm, ?Hcb, ?Hl', ?Hx', ?Htl; raster_arith.
    + destruct (Z.eqb_spec (rasterLine c * 857 + rasterX c + 1)
                           (857 * getTotalLines c)); [nia|].
      cbn [fst snd negb andb orb].
      destruct (Hflags (rasterLine c + 1) 0 (vblankIRQPending c) ltac:(lia))
        as (Hm & Hcb & Hl' & Hx' & Hhb & Hvb & Hvp & Htl).
      rewrite ?Hm, ?Hcb, ?Hl', ?Hx', ?Htl, ?orb_false_r; raster_arith.
  - destruct (Z.eqb_spec (rasterLine c * 857 + rasterX c + 1)
                         (857 * getTotalLines c)); [nia|].
    cbn [fst snd negb andb orb].
    destruct (Hflags (rasterLine c) (rasterX c + 1) (vblankIRQPending c) ltac:(lia))
      as (Hm & Hcb & Hl' & Hx' & Hhb & Hvb & Hvp & Htl).
    rewrite ?Hm, ?Hcb, ?Hl', ?Hx', ?Htl, ?orb_false_r; raster_arith.
Qed.

Lemma frameLength_pos c : 0 < frameLength c.
Proof. unfold frameLength, PIXELS_PER_LINE. pose proof (getTotalLines_pos c). lia. Qed.

Lemma rasterPos_range c : inFrame c -> 0 <= rasterPos c < frameLength c.
Proof.
  unfold inFrame, rasterPos, frameLength, PIXELS_PER_LINE. intros [Hx Hl]. nia.
Qed.

Lemma ticks_run n : forall c,
  inFrame c ->
  let r := ticks n c in
  let wraps := frameLength c <=? rasterPos c + Z.of_nat n in
  inFrame r.1 /\
  videoMode r.1 = videoMode c /\
  vblankCallback r.1 = vblankCallback c /\
  rasterPos r.1 = (rasterPos c + Z.of_nat n) mod frameLength c /\
  vblankIRQPending r.1 = vblankIRQPending c || wraps /\
  r.2 = (if negb (vblankIRQPending c) && wraps
         then fire (vblankCallback c) CallIRQ else []).
Proof.
  induction n as [|n IH]; intros c Hc.
  - pose proof (rasterPos_range c Hc) as Hp. cbn [ticks fst snd].
    rewrite Z.add_0_r, Z.mod_small by exact Hp.
    destruct (Z.leb_spec (frameLength c) (rasterPos c)); [lia|].
    rewrite orb_false_r, andb_false_r. repeat split; apply Hc.
  - pose proof (rasterPos_range c Hc) as Hp.
    destruct (tick_step c Hc) as (Hc1 & Hm1 & Hcb1 & Hpos1 & _ & _ & Hpend1 & Hk1).
    cbn [ticks]. destruct (tick c) as [c1 k1]. cbn [fst snd] in *.
    assert (HL : frameLength c1 = frameLength c)
      by (unfold frameLength, getTotalLines; rewrite Hm1; reflexivity).
    destruct (IH c1 Hc1) as (Hc2 & Hm2 & Hcb2 & Hpos2 & Hpend2 & Hk2).
    destruct (ticks n c1) as [c2 k2] eqn:Hr. cbn [fst snd] in *.
    rewrite HL in *. unfold lastTick in *.
    split; [exact Hc2|]. split; [congruence|]. split; [congruence|].
    destruct (Z.eqb_spec (rasterPos c + 1) (frameLength c)) as [Hlast|Hnot].
    + (* the first tick ends the frame *)
      rewrite Hpos1 in *. rewrite orb_true_r in Hpend1. rewrite Hpend1 in *.
      cbn [negb andb orb] in *. subst k2.
      destruct (Z.leb_spec (frameLength c) (rasterPos c + Z.of_nat (S n))); [|lia].
      rewrite orb_true_r, andb_true_r, app_nil_r.
      split; [|split; [exact Hpend2|exact Hk1]].
      rewrite Hpos2. replace (rasterPos c + Z.of_nat (S n))
        with (Z.of_nat n + 1 * frameLength c) by lia.
      rewrite Z.mod_add by lia. reflexivity.
    + rewrite Hpos1 in *. rewrite orb_false_r in Hpend1. rewrite Hpend1 in *.
      cbn [andb] in Hk1. subst k1. cbn [app].
      replace (rasterPos c + Z.of_nat (S n)) with (rasterPos c + 1 + Z.of_nat n) by lia.
      split; [exact Hpos2|]. split; [exact Hpend2|].
      rewrite Hk2, Hcb1. reflexivity.
Qed.

End RasterAnyMode.

(** X11. In either video mode a pixel clock keeps the raster position
    inside the frame (pixel below 857, line below 262 or 525), advances it
    by one modulo the frame length, and leaves the blanking flags equal to
    what the position says: hblank for pixels 0..137, vblank for lines
    0..21 and, in 480i, also 262..283; the G-CPU may access VRAM exactly
    in those blanking periods. *)
Theorem cpld2_tick_keeps_raster_in_frame (c : CPLD2_Video.t) :
  inFrame c ->
  let c' := (CPLD2_Video.tick c).1 in
  inFrame c' /\
  CPLD2_Video.videoMode c' = CPLD2_Video.videoMode c /\
  rasterPos c' = (rasterPos c + 1) mod frameLength c /\
  CPLD2_Video.inHBlank c' = (CPLD2_Video.rasterX c' <=? 137) /\
  CPLD2_Video.inVBlank c'
  = vblankAt (CPLD2_Video.videoMode c') (CPLD2_Video.rasterLine c') /\
  CPLD2_Video.allowGCpuVramAccess c'
  = (CPLD2_Video.rasterX c' <=? 137)
    || vblankAt (CPLD2_Video.videoMode c') (CPLD2_Video.rasterLine c').
Proof.
  intros Hc c'.
  destruct (tick_step c Hc) as (Hc1 & Hm & _ & Hpos & Hhb & Hvb & _).
  fold c' in Hc1, Hm, Hpos, Hhb, Hvb.
  pose proof (rasterPos_range c Hc) as Hp.
  split; [exact Hc1|]. split; [exact Hm|]. split.
  - rewrite Hpos. unfold lastTick.
    destruct (Z.eqb_spec (rasterPos c + 1) (frameLength c)) as [->|Hne].
    + rewrite Z.mod_same by (pose proof (frameLength_pos c); lia). reflexivity.
    + rewrite Z.mod_small by lia. reflexivity.
  - unfold CPLD2_Video.allowGCpuVramAccess. rewrite Hhb, Hvb. repeat split.
Qed.

Lemma cpld2_tick_keeps_raster_in_frame_witness :
  rasterPos (CPLD2_Video.tick
               (CPLD2_Video.setVideoMode CPLD2_Video.new CPLD2_Video.MODE_480I)).1 = 1.
Proof.
  destruct (cpld2_tick_keeps_raster_in_frame
              (CPLD2_Video.setVideoMode CPLD2_Video.new CPLD2_Video.MODE_480I))
    as (_ & _ & Hpos & _).
  - vm_compute. repeat split; discriminate.
  - rewrite Hpos. reflexivity.
Defined.

(** X12. Any number of pixel clocks from any in-frame state, in either
    mode: the position afterwards is the start position plus the number of
    ticks, modulo the frame length, and the vblank pending flag is set iff
    it was set or the frame end was reached.  The vblank callback is
    invoked once if the flag was clear and the frame end was reached, and
    otherwise not at all: without a write to IRQ_CLEAR it never fires a
    second time, however many frames go by. *)
Theorem cpld2_ticks_position_and_irq (n : nat) (c : CPLD2_Video.t) :
  inFrame c ->
  let r := CPLD2_Video.ticks n c in
  let wraps := frameLength c <=? rasterPos c + Z.of_nat n in
  inFrame r.1 /\
  rasterPos r.1 = (rasterPos c + Z.of_nat n) mod frameLength c /\
  CPLD2_Video.vblankIRQPending r.1 = CPLD2_Video.vblankIRQPending c || wraps /\
  r.2 = (if negb (CPLD2_Video.vblankIRQPending c) && wraps
         then fire (CPLD2_Video.vblankCallback c) CallIRQ else []).
Proof.
  intros Hc r wraps.
  destruct (ticks_run n c Hc) as (H1 & _ & _ & H2 & H3 & H4).
  repeat split; assumption || apply H1.
Qed.

Lemma cpld2_ticks_position_and_irq_witness :
  let c := CPLD2_Video.withRaster
             (CPLD2_Video.setVBlankCallback CPLD2_Video.new RaiseGraphicsIRQ)
             CPLD2_Video.MODE_480I 524 855 false false false false in
  (CPLD2_Video.ticks 3 c).2 = [CallIRQ RaiseGraphicsIRQ] /\
  rasterPos (CPLD2_Video.ticks 3 c).1 = 1.
Proof.
  intros c.
  destruct (cpld2_ticks_position_and_irq 3 c) as (_ & Hpos & _ & Hk).
  - vm_compute. repeat split; discriminate.
  - rewrite Hk, Hpos. split; reflexivity.
Defined.

(** X13. IRQ_CLEAR ($40020A) re-arms the vblank interrupt.  Writing zero
    changes nothing.  Writing any other byte clears the pending flag and
    leaves the raster position alone, so that the callback is invoked again,
    once, as soon as the ticks that follow reach the end of the frame. *)
Theorem cpld2_irq_clear_rearms (c : CPLD2_Video.t) (v : Z) (n : nat) :
  inFrame c ->
  let c1 := CPLD2_Video.storeByte c (Address_new 0x40 0x020A) v in
  (v = 0 -> c1 = c) /\
  (v <> 0 ->
   CPLD2_Video.vblankIRQPending c1 = false /\
   rasterPos c1 = rasterPos c /\
   (CPLD2_Video.ticks n c1).2
   = (if frameLength c <=? rasterPos c + Z.of_nat n
      then fire (CPLD2_Video.vblankCallback c) CallIRQ else [])).
Proof.
  intros Hc c1.
  assert (Hst : c1 = if v =? 0 then c
                     else CPLD2_Video.withRaster c (CPLD2_Video.videoMode c)
                            (CPLD2_Video.rasterLine c) (CPLD2_Video.rasterX c)
                            (CPLD2_Video.inVBlank c) (CPLD2_Video.inHBlank c) false
                            (CPLD2_Video.hblankIRQPending c)) by reflexivity.
  split.
  - intros ->. exact Hst.
  - intros Hv. destruct (Z.eqb_spec v 0) as [|_]; [contradiction|].
    assert (Hc1 : inFrame c1) by (rewrite Hst; exact Hc).
    destruct (ticks_run n c1 Hc1) as (_ & _ & _ & _ & _ & Hk).
    rewrite Hk, Hst. repeat split.
Qed.

Lemma cpld2_irq_clear_rearms_witness :
  let c := CPLD2_Video.withRaster
             (CPLD2_Video.setVBlankCallback CPLD2_Video.new RaiseGraphicsIRQ)
             CPLD2_Video.MODE_240P 261 855 false false true false in
  let c1 := CPLD2_Video.storeByte c (Address_new 0x40 0x020A) 1 in
  (CPLD2_Video.ticks 2 c).2 = [] /\
  CPLD2_Video.vblankIRQPending c1 = false /\
  (CPLD2_Video.ticks 2 c1).2 = [CallIRQ RaiseGraphicsIRQ].
Proof.
  intros c c1.
  assert (Hc : inFrame c) by (vm_compute; repeat split; discriminate).
  destruct (cpld2_irq_clear_rearms c 1 2 Hc) as [_ Hre].
  destruct (Hre ltac:(discriminate)) as (Hpend & _ & Hfire).
  fold c1 in Hpend, Hfire.
  split; [reflexivity|]. split; [exact Hpend|].
  rewrite Hfire. reflexivity.
Defined.

Section RegisterFile.
Import CPLD2_Video.

(** The address [getRegister] and [setRegister] build for a register. *)
Definition registerAddress (reg : Z) : Address :=
  let addr := u32 (getBaseAddress + u8 reg) in
  Address_new (Z.shiftr addr 16) (Z.land addr 0xFFFF).

Lemma registerAddress_offset reg :
  0 <= reg <= 255 -> u32 (flat (registerAddress reg) - getBaseAddress) = reg.
Proof.
  intros Hr. unfold registerAddress, getBaseAddress.
  rewrite (u8_small reg), (u32_small (0x400200 + reg)) by lia.
  rewrite flat_new, Z.shiftr_div_pow2 by lia.
  change 0xFFFF with (Z.ones 16). rewrite Z.land_ones by lia.
  unfold u8, u16, u32. Z.to_euclidean_division_equations; lia.
Qed.

Lemma getRegister_offset c reg :
  0 <= reg <= 255 ->
  getRegister c reg
  = if reg =? 0x00 then match videoMode c with MODE_240P => 0 | MODE_480I => 1 end
    else if reg =? 0x02 then Z.land (rasterLine c) 0xFF
    else if reg =? 0x03 then Z.land (Z.shiftr (rasterLine c) 8) 0xFF
    else if reg =? 0x04 then Z.land (rasterX c) 0xFF
    else if reg =? 0x05 then Z.land (Z.shiftr (rasterX c) 8) 0xFF
    else if reg =? 0x06 then b2z (inVBlank c)
    else if reg =? 0x08 then b2z (inHBlank c)
    else 0.
Proof.
  intros Hr. unfold getRegister. fold (registerAddress reg). unfold readByte.
  rewrite (registerAddress_offset reg Hr).
  repeat (match goal with
          | |- context [reg =? ?k] =>
              destruct (Z.eqb_spec reg k); [subst; reflexivity|]
          end).
  reflexivity.
Qed.

Lemma setRegister_offset c reg v :
  0 <= reg <= 255 ->
  setRegister c reg v
  = if reg =? 0x00 then
      setVideoMode c (if Z.land v 0x01 =? 0 then MODE_240P else MODE_480I)
    else if reg =? 0x0A then
      if v =? 0 then c
      else withRaster c (videoMode c) (rasterLine c) (rasterX c) (inVBlank c)
                      (inHBlank c) false (hblankIRQPending c)
    else c.
Proof.
  intros Hr. unfold setRegister. fold (registerAddress reg). unfold storeByte.
  rewrite (registerAddress_offset reg Hr). reflexivity.
Qed.

Lemma byte_pair x :
  0 <= x < 65536 ->
  Z.land x 0xFF + 256 * Z.land (Z.shiftr x 8) 0xFF = x.
Proof.
  intros Hx. rewrite Z.shiftr_div_pow2 by lia.
  change 0xFF with (Z.ones 8). rewrite !Z.land_ones by lia.
  change (2 ^ 8) with 256. Z.to_euclidean_division_equations; lia.
Qed.

End RegisterFile.

(** X14. The CPLD2 register file as [getRegister] and [setRegister] see
    it.  Register $00 holds the video mode: what is written there is read
    back as its bit 0.  A write to any other register changes nothing that
    any register reads.  Registers $02/$03 and $04/$05 read the raster line
    and pixel as little-endian byte pairs, and every register from $09 on,
    the layer and effect registers of the renderer among them, reads 0. *)
Theorem cpld2_register_file (c : CPLD2_Video.t) (reg k v : Z) :
  0 <= reg <= 255 -> 0 <= k <= 255 ->
  CPLD2_Video.getRegister (CPLD2_Video.setRegister c 0 v) 0
  = (if Z.land v 1 =? 0 then 0 else 1) /\
  (reg <> 0 ->
   CPLD2_Video.getRegister (CPLD2_Video.setRegister c reg v) k
   = CPLD2_Video.getRegister c k) /\
  (9 <= k -> CPLD2_Video.getRegister c k = 0) /\
  (0 <= CPLD2_Video.rasterLine c < 65536 ->
   CPLD2_Video.getRegister c 2 + 256 * CPLD2_Video.getRegister c 3
   = CPLD2_Video.rasterLine c) /\
  (0 <= CPLD2_Video.rasterX c < 65536 ->
   CPLD2_Video.getRegister c 4 + 256 * CPLD2_Video.getRegister c 5
   = CPLD2_Video.rasterX c).
Proof.
  intros Hreg Hk. split; [|split; [|split; [|split]]].
  - rewrite getRegister_offset, setRegister_offset by lia. cbn.
    destruct (Z.land v 1 =? 0); reflexivity.
  - intros Hne. rewrite setRegister_offset by lia.
    destruct (Z.eqb_spec reg 0); [contradiction|].
    rewrite !getRegister_offset by lia.
    destruct (reg =? 10); [|reflexivity]. destruct (v =? 0); reflexivity.
  - intros H9. rewrite getRegister_offset by lia.
    repeat (match goal with
            | |- context [k =? ?j] => destruct (Z.eqb_spec k j); [lia|]
            end).
    reflexivity.
  - intros Hl. rewrite !getRegister_offset by lia. cbn. apply byte_pair. exact Hl.
  - intros Hx. rewrite !getRegister_offset by lia. cbn. apply byte_pair. exact Hx.
Qed.

Lemma cpld2_register_file_witness :
  CPLD2_Video.getRegister (CPLD2_Video.setRegister CPLD2_Video.new 0x10 0x55) 0x10
  = 0.
Proof.
  destruct (cpld2_register_file CPLD2_Video.new 0x10 0x10 0x55
              ltac:(lia) ltac:(lia)) as (_ & Hsame & Hzero & _).
  rewrite Hsame by discriminate. apply Hzero. lia.
Defined.


(** ** CPLD1: the FIFOs, their level registers and the FIFO interrupt *)

Section AudioFifos.
Import CPLD1_Audio.

(** The FIFO data register and the level register of a channel. *)
Definition fifoData (ch : Z) : Address := Address_new 0x40 (0x0100 + 2 * ch).
Definition fifoLevel (ch : Z) : Address := Address_new 0x40 (0x0110 + ch).
Definition IRQ_STATUS : Address := Address_new 0x40 0x0118.
Definition IRQ_CLEAR : Address := Address_new 0x40 0x011A.

Lemma channel_cases ch :
  0 <= ch < 8 ->
  ch = 0 \/ ch = 1 \/ ch = 2 \/ ch = 3 \/ ch = 4 \/ ch = 5 \/ ch = 6 \/ ch = 7.
Proof. lia. Qed.

Local Ltac each_channel H :=
  destruct (channel_cases _ H) as [->|[->|[->|[->|[->|[->|[->| ->]]]]]]].

Lemma readByte_level c ch :
  0 <= ch < 8 -> readByte c (fifoLevel ch) = levelOf c (Z.to_nat ch).
Proof. intros Hch. each_channel Hch; reflexivity. Qed.

Lemma storeByte_fifoData c ch v :
  0 <= ch < 8 -> storeByte c (fifoData ch) v = (storeFifo c (fifoData ch) v, []).
Proof. intros Hch. each_channel Hch; reflexivity. Qed.

Lemma storeFifo_channel c ch v :
  0 <= ch < 8 ->
  storeFifo c (fifoData ch) v
  = match fifos c !! Z.to_nat ch with
    | Some f =>
        if isFull f then c
        else setFifos c (<[Z.to_nat ch :=
                             mkFIFO (samples f ++ [i16 (Z.shiftl v 8)])
                                    (irqPending f)]> (fifos c))
    | None => c
    end.
Proof. intros Hch. each_channel Hch; reflexivity. Qed.

Lemma sample_of_byte v :
  0 <= v <= 255 ->
  i16 (Z.shiftl v 8) = 256 * (if v <? 128 then v else v - 256).
Proof.
  intros Hv. rewrite Z.shiftl_mul_pow2 by lia. unfold i16.
  destruct (Z.ltb_spec v 128); Z.to_euclidean_division_equations; lia.
Qed.

End AudioFifos.

(** X15. A byte written to the data register of channel [ch] ($400100 +
    2*ch) is queued as the signed sample [256 * v] (with [v] read as a
    signed byte) behind the samples already there, and the level register
    ($400110 + ch) then reads one more, unless the FIFO already holds 256
    samples: then the write is dropped.  The level register is the sample
    count truncated to a byte, so a full FIFO reports level 0.  No FIFO
    write invokes a callback. *)
Theorem cpld1_fifo_write
        (c : CPLD1_Audio.t) (ch v : Z) (f : CPLD1_Audio.AudioFIFO) :
  0 <= ch < 8 -> 0 <= v <= 255 ->
  CPLD1_Audio.fifos c !! Z.to_nat ch = Some f ->
  let n := Z.of_nat (length (CPLD1_Audio.samples f)) in
  let r := CPLD1_Audio.storeByte c (fifoData ch) v in
  r.2 = [] /\
  CPLD1_Audio.readByte c (fifoLevel ch) = n mod 256 /\
  (n < 256 ->
   CPLD1_Audio.fifos r.1 !! Z.to_nat ch
   = Some (CPLD1_Audio.mkFIFO
             (CPLD1_Audio.samples f ++ [256 * (if v <? 128 then v else v - 256)])
             (CPLD1_Audio.irqPending f)) /\
   (forall j, j <> Z.to_nat ch ->
              CPLD1_Audio.fifos r.1 !! j = CPLD1_Audio.fifos c !! j) /\
   CPLD1_Audio.readByte r.1 (fifoLevel ch) = (n + 1) mod 256) /\
  (256 <= n -> r.1 = c).
Proof.
  intros Hch Hv Hf n r. unfold r.
  rewrite storeByte_fifoData, storeFifo_channel by exact Hch. rewrite Hf.
  cbn [fst snd]. split; [reflexivity|].
  split; [rewrite readByte_level by exact Hch; unfold CPLD1_Audio.levelOf;
          rewrite Hf; reflexivity|].
  unfold CPLD1_Audio.isFull. fold n.
  destruct (Z.leb_spec 256 n) as [Hfull|Hroom].
  - split; [lia|reflexivity].
  - split; [|lia]. intros _.
    assert (Hlt : (Z.to_nat ch < length (CPLD1_Audio.fifos c))%nat)
      by (apply lookup_lt_is_Some_1; eauto).
    rewrite sample_of_byte by exact Hv.
    split; [apply list_lookup_insert_eq; exact Hlt|].
    split; [intros j Hj; apply list_lookup_insert_ne; auto|].
    rewrite readByte_level by exact Hch. unfold CPLD1_Audio.levelOf.
    cbn [CPLD1_Audio.fifos CPLD1_Audio.setFifos].
    rewrite list_lookup_insert_eq by exact Hlt.
    unfold CPLD1_Audio.getLevel. cbn [CPLD1_Audio.samples].
    rewrite length_app. cbn [length]. unfold u8, n. f_equal. lia.
Qed.

Lemma cpld1_fifo_write_witness :
  CPLD1_Audio.fifos
    (CPLD1_Audio.storeByte CPLD1_Audio.new (fifoData 3) 0x80).1 !! 3%nat
  = Some (CPLD1_Audio.mkFIFO [-32768] false).
Proof.
  destruct (cpld1_fifo_write CPLD1_Audio.new 3 0x80 (CPLD1_Audio.mkFIFO [] false)
              ltac:(lia) ltac:(lia) eq_refl) as (_ & _ & Hpush & _).
  destruct (Hpush ltac:(simpl; lia)) as (Hq & _). exact Hq.
Defined.

Section AudioIrq.
Import CPLD1_Audio.

Lemma land_bit s k :
  0 <= k -> negb (Z.land s (Z.shiftl 1 k) =? 0) = Z.testbit s k.
Proof.
  intros Hk. rewrite Z.shiftl_1_l.
  destruct (Z.testbit s k) eqn:Hb.
  - destruct (Z.eqb_spec (Z.land s (2 ^ k)) 0) as [H0|]; [|reflexivity].
    apply (f_equal (fun x => Z.testbit x k)) in H0.
    rewrite Z.land_spec, Hb, Z.pow2_bits_true, Z.bits_0 in H0 by exact Hk.
    discriminate.
  - destruct (Z.eqb_spec (Z.land s (2 ^ k)) 0) as [|Hne]; [reflexivity|].
    exfalso. apply Hne. apply Z.bits_inj'. intros j Hj.
    rewrite Z.land_spec, Z.bits_0, Z.pow2_bits_eqb by exact Hk.
    destruct (Z.eqb_spec k j) as [<-|]; [rewrite Hb; reflexivity|].
    apply andb_false_r.
Qed.

Lemma testbit_u8 x j : 0 <= j < 8 -> Z.testbit (u8 x) j = Z.testbit x j.
Proof.
  intros Hj. unfold u8. change 256 with (2 ^ 8).
  apply Z.mod_pow2_bits_low. lia.
Qed.

Lemma getIRQStatus_bit c ch :
  0 <= ch < 8 -> getIRQStatus c ch = Z.testbit (irqStatus c) ch.
Proof.
  intros Hch. unfold getIRQStatus.
  destruct (Z.ltb_spec ch 0); [lia|]. destruct (Z.leb_spec 8 ch); [lia|].
  apply land_bit. lia.
Qed.

Lemma byte_zero_bits s :
  0 <= s <= 255 -> (forall j, 0 <= j < 8 -> Z.testbit s j = false) -> s = 0.
Proof.
  intros Hs Hbits. apply Z.bits_inj'. intros j Hj. rewrite Z.bits_0.
  destruct (Z.lt_ge_cases j 8) as [Hlt|Hge]; [apply Hbits; lia|].
  destruct (Z.eq_dec s 0) as [->|Hne]; [apply Z.bits_0|].
  apply Z.bits_above_log2; [lia|].
  apply Z.lt_le_trans with 8; [|exact Hge].
  apply Z.log2_lt_pow2; lia.
Qed.

(** What one [tick] makes of a FIFO: the front sample is gone, and the
    channel is flagged if the level left is below the threshold. *)
Definition crossing (c : t) (f : AudioFIFO) : bool :=
  match samples f with
  | [] => false
  | _ :: rest => u8 (Z.of_nat (length rest)) <? irqThreshold c
  end.

Definition drained (c : t) (f : AudioFIFO) : AudioFIFO :=
  mkFIFO (tail (samples f)) (irqPending f || crossing c f).

Lemma tickChannel_none c k :
  fifos c !! Z.to_nat k = None -> tickChannel c k = c.
Proof. intros Hf. unfold tickChannel. rewrite Hf. reflexivity. Qed.

Lemma tickChannel_spec c k f :
  0 <= k < 8 ->
  fifos c !! Z.to_nat k = Some f ->
  let c' := tickChannel c k in
  irqThreshold c' = irqThreshold c /\ enabled c' = enabled c /\
  irqCallback c' = irqCallback c /\
  (forall j, j <> Z.to_nat k -> fifos c' !! j = fifos c !! j) /\
  (forall j, 0 <= j < 8 -> j <> k ->
             Z.testbit (irqStatus c') j = Z.testbit (irqStatus c) j) /\
  fifos c' !! Z.to_nat k = Some (drained c f) /\
  Z.testbit (irqStatus c') k
  = Z.testbit (irqStatus c) k || (crossing c f && negb (irqPending f)).
Proof.
  intros Hk Hf c'. unfold c', tickChannel, drained, crossing. rewrite Hf.
  assert (Hlt : (Z.to_nat k < length (fifos c))%nat)
    by (apply lookup_lt_is_Some_1; eauto).
  destruct f as [ss p]. cbn [samples irqPending].
  destruct ss as [|s rest].
  { rewrite Hf, andb_false_l, !orb_false_r. repeat split. }
  unfold getLevel. cbn [samples irqPending tail].
  destruct (u8 (Z.of_nat (length rest)) <? irqThreshold c) eqn:Hlevel;
    destruct p; cbn [andb negb orb];
    cbn [irqThreshold enabled irqCallback fifos irqStatus setIrqState];
    rewrite ?orb_false_r;
    (split; [reflexivity|]); (split; [reflexivity|]); (split; [reflexivity|]);
    (split; [intros j Hj; apply list_lookup_insert_ne; auto|]);
    rewrite list_lookup_insert_eq by exact Hlt;
    try (split; [reflexivity|split; reflexivity]).
  split; [|split; [reflexivity|]].
  - intros j Hj Hne. rewrite testbit_u8, Z.lor_spec, Z.shiftl_1_l,
      Z.pow2_bits_eqb by lia.
    destruct (Z.eqb_spec k j); [lia|]. apply orb_false_r.
  - rewrite testbit_u8, Z.lor_spec, Z.shiftl_1_l, Z.pow2_bits_true by lia.
    reflexivity.
Qed.

Lemma tickChannels_spec l : forall c,
  NoDup l -> Forall (fun k => 0 <= k < 8) l ->
  let c' := foldl tickChannel c l in
  irqThreshold c' = irqThreshold c /\ enabled c' = enabled c /\
  irqCallback c' = irqCallback c /\
  forall ch f, 0 <= ch < 8 -> fifos c !! Z.to_nat ch = Some f ->
    if decide (ch ∈ l)
    then fifos c' !! Z.to_nat ch = Some (drained c f) /\
         Z.testbit (irqStatus c') ch
         = Z.testbit (irqStatus c) ch || (crossing c f && negb (irqPending f))
    else fifos c' !! Z.to_nat ch = Some f /\
         Z.testbit (irqStatus c') ch = Z.testbit (irqStatus c) ch.
Proof.
  induction l as [|k l IH]; intros c Hnd Hall.
  - cbn [foldl]. split; [reflexivity|]. split; [reflexivity|].
    split; [reflexivity|]. intros ch f Hch Hf.
    destruct (decide (ch ∈ [])) as [Hin|_]; [inversion Hin|].
    split; [exact Hf|reflexivity].
  - apply NoDup_cons in Hnd as [Hk Hnd]. apply Forall_cons in Hall as [Hk8 Hall].
    cbn [foldl].
    destruct (IH (tickChannel c k) Hnd Hall) as (I1 & I2 & I3 & Irest).
    destruct (fifos c !! Z.to_nat k) as [fk|] eqn:Hfk.
    2:{ rewrite (tickChannel_none c k Hfk) in *.
        split; [exact I1|]. split; [exact I2|]. split; [exact I3|].
        intros ch f Hch Hf. specialize (Irest ch f Hch Hf).
        assert (ch <> k) by congruence.
        destruct (decide (ch ∈ l)) as [Hin|Hnin].
        - destruct (decide (ch ∈ k :: l)) as [_|Hn]; [exact Irest|].
          exfalso. apply Hn. right. exact Hin.
        - destruct (decide (ch ∈ k :: l)) as [Hin|_]; [|exact Irest].
          apply elem_of_cons in Hin as [?|?]; contradiction. }
    destruct (tickChannel_spec c k fk Hk8 Hfk)
      as (T1 & T2 & T3 & Tother & Tbits & Tq & Tb).
    split; [congruence|]. split; [congruence|]. split; [congruence|].
    intros ch f Hch Hf.
    assert (Hdr : forall g, drained (tickChannel c k) g = drained c g).
    { intros g. unfold drained, crossing. rewrite T1. reflexivity. }
    assert (Hcr : forall g, crossing (tickChannel c k) g = crossing c g).
    { intros g. unfold crossing. rewrite T1. reflexivity. }
    destruct (Z.eq_dec ch k) as [->|Hne].
    + assert (f = fk) by congruence. subst fk.
      specialize (Irest k (drained c f) Hk8 Tq).
      destruct (decide (k ∈ l)) as [|_]; [contradiction|].
      destruct (decide (k ∈ k :: l)) as [_|Hn]; [|exfalso; apply Hn; left].
      destruct Irest as [-> ->]. split; [reflexivity|exact Tb].
    + assert (Hf' : fifos (tickChannel c k) !! Z.to_nat ch = Some f).
      { rewrite Tother; [exact Hf|]. intros Heq. apply Hne.
        apply Z2Nat.inj in Heq; lia. }
      specialize (Irest ch f Hch Hf'). rewrite Hdr, Hcr in Irest.
      rewrite (Tbits ch Hch Hne) in Irest.
      destruct (decide (ch ∈ l)) as [Hin|Hnin].
      * destruct (decide (ch ∈ k :: l)) as [_|Hn]; [exact Irest|].
        exfalso. apply Hn. right. exact Hin.
      * destruct (decide (ch ∈ k :: l)) as [Hin|_]; [|exact Irest].
        apply elem_of_cons in Hin as [?|?]; contradiction.
Qed.

Lemma channels_all :
  NoDup (seqZ 0 8) /\ Forall (fun k => 0 <= k < 8) (seqZ 0 8)
  /\ forall ch, 0 <= ch < 8 -> ch ∈ seqZ 0 8.
Proof.
  split; [apply NoDup_seqZ|]. split.
  - apply Forall_forall. intros k Hk. apply elem_of_seqZ in Hk. lia.
  - intros ch Hch. apply elem_of_seqZ. lia.
Qed.

End AudioIrq.

(** X16. One [tick] of an enabled CPLD1 pops the front sample of every
    non-empty FIFO.  A channel whose level is then below the threshold
    becomes pending, and its status bit is set if it was not pending
    already; no status bit is ever cleared by a tick.  The interrupt is
    level-triggered: the callback is invoked on every tick that ends with a
    non-zero status register, in particular on every tick taken while some
    channel's bit is still set.  A disabled CPLD1 does nothing. *)
Theorem cpld1_tick_drains_and_flags
        (c : CPLD1_Audio.t) (ch : Z) (f : CPLD1_Audio.AudioFIFO) :
  0 <= ch < 8 ->
  CPLD1_Audio.fifos c !! Z.to_nat ch = Some f ->
  let r := CPLD1_Audio.tick c in
  (CPLD1_Audio.enabled c = false -> r = (c, [])) /\
  (CPLD1_Audio.enabled c = true ->
   CPLD1_Audio.fifos r.1 !! Z.to_nat ch
   = Some (CPLD1_Audio.mkFIFO (tail (CPLD1_Audio.samples f))
             (CPLD1_Audio.irqPending f || crossing c f)) /\
   CPLD1_Audio.getIRQStatus r.1 ch
   = CPLD1_Audio.getIRQStatus c ch
     || (crossing c f && negb (CPLD1_Audio.irqPending f)) /\
   r.2 = (if CPLD1_Audio.irqStatus r.1 =? 0 then []
          else fire (CPLD1_Audio.irqCallback c) CallIRQ) /\
   (CPLD1_Audio.getIRQStatus c ch = true ->
    r.2 = fire (CPLD1_Audio.irqCallback c) CallIRQ)).
Proof.
  intros Hch Hf r. unfold r, CPLD1_Audio.tick. split.
  - intros ->. reflexivity.
  - intros ->. cbn [negb fst snd].
    destruct channels_all as (Hnd & Hall & Hin).
    destruct (tickChannels_spec (seqZ 0 8) c Hnd Hall) as (_ & _ & Hcb & Hrest).
    specialize (Hrest ch f Hch Hf).
    destruct (decide (ch ∈ seqZ 0 8)) as [_|Hn]; [|exfalso; apply Hn, Hin, Hch].
    destruct Hrest as [Hq Hb].
    split; [exact Hq|].
    rewrite !getIRQStatus_bit by exact Hch. split; [exact Hb|].
    unfold CPLD1_Audio.updateIRQ. rewrite Hcb. split.
    + destruct (_ =? 0); reflexivity.
    + intros Hset. rewrite Hset in Hb. cbn [orb] in Hb.
      destruct (Z.eqb_spec (CPLD1_Audio.irqStatus
                              (foldl CPLD1_Audio.tickChannel c (seqZ 0 8))) 0)
        as [H0|]; [|reflexivity].
      rewrite H0, Z.bits_0 in Hb. discriminate.
Qed.

(** Channel 2 holds a single sample; the threshold is the default 128. *)
Definition oneSample : CPLD1_Audio.t :=
  CPLD1_Audio.setIRQCallback
    (CPLD1_Audio.storeByte CPLD1_Audio.new (fifoData 2) 0x10).1 RaiseSoundIRQ.

Lemma cpld1_tick_drains_and_flags_witness :
  (CPLD1_Audio.tick oneSample).2 = [CallIRQ RaiseSoundIRQ] /\
  (CPLD1_Audio.tick (CPLD1_Audio.tick oneSample).1).2 = [CallIRQ RaiseSoundIRQ].
Proof.
  destruct (cpld1_tick_drains_and_flags oneSample 2
              (CPLD1_Audio.mkFIFO [4096] false) ltac:(lia) eq_refl) as [_ H1].
  destruct (H1 eq_refl) as (Hq & Hbit & Hk & _).
  destruct (cpld1_tick_drains_and_flags (CPLD1_Audio.tick oneSample).1 2
              (CPLD1_Audio.mkFIFO [] true) ltac:(lia) Hq) as [_ H2].
  destruct (H2 eq_refl) as (_ & _ & _ & Hlevel).
  split; [rewrite Hk; reflexivity|].
  rewrite Hlevel; [reflexivity|]. rewrite Hbit. reflexivity.
Defined.

Section AudioIrqClear.
Import CPLD1_Audio.

(** Bit [k] of the byte written to IRQ_CLEAR. *)
Definition selected (v k : Z) : bool := negb (Z.land v (Z.shiftl 1 k) =? 0).

Lemma clearChannel_spec v c k :
  0 <= k < 8 ->
  let c' := clearChannel v c k in
  irqCallback c' = irqCallback c /\
  (forall j, j <> Z.to_nat k -> fifos c' !! j = fifos c !! j) /\
  (forall j, 0 <= j < 8 -> j <> k ->
             Z.testbit (irqStatus c') j = Z.testbit (irqStatus c) j) /\
  fifos c' !! Z.to_nat k
  = (fun f => mkFIFO (samples f) (irqPending f && negb (selected v k)))
      <$> fifos c !! Z.to_nat k /\
  Z.testbit (irqStatus c') k = Z.testbit (irqStatus c) k && negb (selected v k) /\
  (0 <= irqStatus c <= 255 -> 0 <= irqStatus c' <= 255).
Proof.
  intros Hk c'. unfold c', clearChannel. fold (selected v k).
  destruct (selected v k); cbn [negb irqCallback fifos irqStatus setIrqState].
  - split; [reflexivity|].
    split; [intros j Hj; apply list_lookup_alter_ne; auto|].
    split; [|split; [|split]].
    + intros j Hj Hne.
      rewrite testbit_u8, Z.land_spec, Z.lnot_spec, Z.shiftl_1_l,
        Z.pow2_bits_eqb by lia.
      destruct (Z.eqb_spec k j); [lia|]. apply andb_true_r.
    + rewrite list_lookup_alter_eq. destruct (fifos c !! Z.to_nat k) as [f|]; [|reflexivity].
      cbn. rewrite andb_false_r. reflexivity.
    + rewrite testbit_u8, Z.land_spec, Z.lnot_spec, Z.shiftl_1_l,
        Z.pow2_bits_true by lia.
      reflexivity.
    + intros _. pose proof (u8_range (Z.land (irqStatus c) (Z.lnot (Z.shiftl 1 k)))).
      lia.
  - repeat split; try tauto.
    + destruct (fifos c !! Z.to_nat k) as [f|]; [|reflexivity].
      cbn. rewrite andb_true_r. destruct f; reflexivity.
    + rewrite andb_true_r. reflexivity.
Qed.

Lemma clearChannels_spec v l : forall c,
  NoDup l -> Forall (fun k => 0 <= k < 8) l ->
  let c' := foldl (clearChannel v) c l in
  irqCallback c' = irqCallback c /\
  (0 <= irqStatus c <= 255 -> 0 <= irqStatus c' <= 255) /\
  forall ch, 0 <= ch < 8 ->
    let sel := if decide (ch ∈ l) then selected v ch else false in
    fifos c' !! Z.to_nat ch
    = (fun f => mkFIFO (samples f) (irqPending f && negb sel))
        <$> fifos c !! Z.to_nat ch /\
    Z.testbit (irqStatus c') ch = Z.testbit (irqStatus c) ch && negb sel.
Proof.
  induction l as [|k l IH]; intros c Hnd Hall.
  - cbn [foldl]. split; [reflexivity|]. split; [tauto|]. intros ch Hch.
    destruct (decide (ch ∈ [])) as [Hin|_]; [inversion Hin|]. cbn.
    rewrite andb_true_r. split; [|reflexivity].
    destruct (fifos c !! Z.to_nat ch) as [f|]; [|reflexivity].
    cbn. rewrite andb_true_r. destruct f; reflexivity.
  - apply NoDup_cons in Hnd as [Hk Hnd]. apply Forall_cons in Hall as [Hk8 Hall].
    cbn [foldl].
    destruct (clearChannel_spec v c k Hk8) as (T3 & Tother & Tbits & Tq & Tb & Tr).
    destruct (IH (clearChannel v c k) Hnd Hall) as (I3 & Ir & Irest).
    split; [congruence|]. split; [tauto|].
    intros ch Hch. specialize (Irest ch Hch). cbn zeta in Irest.
    destruct Irest as [Iq Ib]. cbn zeta.
    destruct (Z.eq_dec ch k) as [->|Hne].
    + destruct (decide (k ∈ l)) as [|_]; [contradiction|].
      destruct (decide (k ∈ k :: l)) as [_|Hn]; [|exfalso; apply Hn; left].
      rewrite Iq, Ib, Tq, Tb. cbn [negb]. rewrite !andb_true_r. split; [|reflexivity].
      destruct (fifos c !! Z.to_nat k) as [f|]; cbn; rewrite ?andb_true_r; reflexivity.
    + assert (Hj : Z.to_nat ch <> Z.to_nat k).
      { intros Heq. apply Hne. apply Z2Nat.inj in Heq; lia. }
      rewrite Iq, Ib, (Tother _ Hj), (Tbits ch Hch Hne).
      destruct (decide (ch ∈ l)) as [Hin|Hnin].
      * destruct (decide (ch ∈ k :: l)) as [_|Hn]; [split; reflexivity|].
        exfalso. apply Hn. right. exact Hin.
      * destruct (decide (ch ∈ k :: l)) as [Hin|_]; [|split; reflexivity].
        apply elem_of_cons in Hin as [?|?]; contradiction.
Qed.

End AudioIrqClear.

(** X17. A byte [v] written to IRQ_CLEAR ($40011A) acknowledges exactly
    the channels whose bit is set in [v]: their pending flag and status bit
    are cleared, the other channels keep both, and no sample is touched.
    Afterwards the callback is invoked again if any status bit is left;
    writing 0xFF leaves none, so nothing is invoked. *)
Theorem cpld1_irq_clear_acknowledges
        (c : CPLD1_Audio.t) (v ch : Z) (f : CPLD1_Audio.AudioFIFO) :
  0 <= ch < 8 ->
  CPLD1_Audio.fifos c !! Z.to_nat ch = Some f ->
  let r := CPLD1_Audio.storeByte c IRQ_CLEAR v in
  CPLD1_Audio.fifos r.1 !! Z.to_nat ch
  = Some (CPLD1_Audio.mkFIFO (CPLD1_Audio.samples f)
            (CPLD1_Audio.irqPending f && negb (selected v ch))) /\
  CPLD1_Audio.getIRQStatus r.1 ch
  = CPLD1_Audio.getIRQStatus c ch && negb (selected v ch) /\
  r.2 = (if CPLD1_Audio.irqStatus r.1 =? 0 then []
         else fire (CPLD1_Audio.irqCallback c) CallIRQ) /\
  (0 <= CPLD1_Audio.irqStatus c <= 255 -> v = 0xFF ->
   CPLD1_Audio.irqStatus r.1 = 0 /\ r.2 = []).
Proof.
  intros Hch Hf r.
  assert (Hr : r = (foldl (CPLD1_Audio.clearChannel v) c (seqZ 0 8),
                    CPLD1_Audio.updateIRQ
                      (foldl (CPLD1_Audio.clearChannel v) c (seqZ 0 8))))
    by reflexivity.
  destruct channels_all as (Hnd & Hall & Hin).
  destruct (clearChannels_spec v (seqZ 0 8) c Hnd Hall) as (Hcb & Hrange & Hrest).
  assert (Hsel : forall k, 0 <= k < 8 ->
            (if decide (k ∈ seqZ 0 8) then selected v k else false) = selected v k).
  { intros k Hk. destruct (decide (k ∈ seqZ 0 8)) as [_|Hn]; [reflexivity|].
    exfalso. apply Hn, Hin, Hk. }
  rewrite Hr. cbn [fst snd].
  destruct (Hrest ch Hch) as [Hq Hb]. rewrite (Hsel ch Hch) in Hq, Hb.
  split; [rewrite Hq, Hf; reflexivity|].
  split; [rewrite !getIRQStatus_bit by exact Hch; exact Hb|].
  assert (Hup : CPLD1_Audio.updateIRQ (foldl (CPLD1_Audio.clearChannel v) c (seqZ 0 8))
                = if CPLD1_Audio.irqStatus
                       (foldl (CPLD1_Audio.clearChannel v) c (seqZ 0 8)) =? 0
                  then [] else fire (CPLD1_Audio.irqCallback c) CallIRQ).
  { unfold CPLD1_Audio.updateIRQ. rewrite Hcb. destruct (_ =? 0); reflexivity. }
  split; [exact Hup|].
  intros Hs ->.
  assert (H0 : CPLD1_Audio.irqStatus
                 (foldl (CPLD1_Audio.clearChannel 255) c (seqZ 0 8)) = 0).
  { apply byte_zero_bits; [apply Hrange; exact Hs|].
    intros j Hj. destruct (Hrest j Hj) as [_ Hbj]. rewrite (Hsel j Hj) in Hbj.
    rewrite Hbj. unfold selected. rewrite land_bit by lia.
    replace (Z.testbit 255 j) with true; [apply andb_false_r|].
    symmetry. change 255 with (Z.ones 8). apply Z.ones_spec_low. lia. }
  split; [exact H0|]. rewrite Hup, H0. reflexivity.
Qed.

Lemma cpld1_irq_clear_acknowledges_witness :
  let c := (CPLD1_Audio.tick oneSample).1 in
  CPLD1_Audio.getIRQStatus c 2 = true /\
  CPLD1_Audio.getIRQStatus (CPLD1_Audio.storeByte c IRQ_CLEAR 0x04).1 2 = false.
Proof.
  intros c.
  destruct (cpld1_irq_clear_acknowledges c 0x04 2 (CPLD1_Audio.mkFIFO [] true)
              ltac:(lia) eq_refl) as (_ & Hbit & _).
  split; [reflexivity|]. rewrite Hbit. reflexivity.
Defined.

Section AudioFrame.
Import CPLD1_Audio.

Definition int16 (s : Z) : Prop := -32768 <= s <= 32767.

Lemma frontSum_from acc fs :
  Forall (fun f => Forall int16 (samples f)) fs ->
  let total :=
    foldl (fun acc f => match samples f with
                        | s :: _ => acc + s
                        | [] => acc
                        end) acc fs in
  acc - 32768 * Z.of_nat (length fs) <= total <= acc + 32767 * Z.of_nat (length fs)
  /\ (Forall (fun f => samples f = []) fs -> total = acc).
Proof.
  revert acc. induction fs as [|f fs IH]; intros acc Hall.
  - cbn. split; [lia|reflexivity].
  - apply Forall_cons in Hall as [Hf Hall]. cbn [foldl length].
    destruct (samples f) as [|s rest] eqn:Hs.
    + destruct (IH acc Hall) as [Hb Hz]. split; [lia|].
      intros He. apply Forall_cons in He as [_ He]. apply Hz, He.
    + apply Forall_cons in Hf as [Hs16 _]. unfold int16 in Hs16.
      destruct (IH (acc + s) Hall) as [Hb _]. split; [lia|].
      intros He. apply Forall_cons in He as [He _]. congruence.
Qed.

End AudioFrame.

(** X18. [getAudioFrame] is mono and never clips.  With 16-bit samples in
    the (at most eight) FIFOs, both outputs are the sum of the front samples
    of the non-empty FIFOs divided by 8, rounded towards zero; that value
    always lies in the 16-bit range, so the clamp that follows changes
    nothing.  With every FIFO empty the frame is (0, 0). *)
Theorem cpld1_audio_frame_is_mono_mean (c : CPLD1_Audio.t) :
  (length (CPLD1_Audio.fifos c) <= 8)%nat ->
  Forall (fun f => Forall int16 (CPLD1_Audio.samples f)) (CPLD1_Audio.fifos c) ->
  let mean := Z.quot (CPLD1_Audio.frontSum (CPLD1_Audio.fifos c)) 8 in
  CPLD1_Audio.getAudioFrame c = (mean, mean) /\
  -32768 <= mean <= 32767 /\
  (Forall (fun f => CPLD1_Audio.samples f = []) (CPLD1_Audio.fifos c) ->
   CPLD1_Audio.getAudioFrame c = (0, 0)).
Proof.
  intros Hlen Hall mean.
  pose proof (frontSum_from 0 (CPLD1_Audio.fifos c) Hall) as Hsum.
  change (foldl _ 0 (CPLD1_Audio.fifos c))
    with (CPLD1_Audio.frontSum (CPLD1_Audio.fifos c)) in Hsum.
  cbn zeta in Hsum. destruct Hsum as [Hb Hz].
  assert (Hm : -32768 <= mean <= 32767).
  { unfold mean. clear mean.
    assert (Hn : Z.of_nat (length (CPLD1_Audio.fifos c)) <= 8) by lia.
    set (s := CPLD1_Audio.frontSum (CPLD1_Audio.fifos c)) in *.
    clearbody s. clear Hz Hall.
    Z.to_euclidean_division_equations; lia. }
  assert (Hframe : CPLD1_Audio.getAudioFrame c = (mean, mean)).
  { unfold CPLD1_Audio.getAudioFrame, std_clamp. fold mean.
    destruct (Z.ltb_spec mean (-32768)); [lia|].
    destruct (Z.ltb_spec 32767 mean); [lia|]. reflexivity. }
  split; [exact Hframe|]. split; [exact Hm|].
  intros He. rewrite Hframe. unfold mean. rewrite (Hz He). reflexivity.
Qed.

Lemma cpld1_audio_frame_is_mono_mean_witness :
  CPLD1_Audio.getAudioFrame (twoSamples 0x7F) = (8128, 8128).
Proof.
  destruct (cpld1_audio_frame_is_mono_mean (twoSamples 0x7F))
    as (Hframe & _).
  - vm_compute. repeat constructor.
  - unfold int16. repeat constructor; vm_compute; discriminate.
  - rewrite Hframe. reflexivity.
Defined.


(** ** The boot-copy protocol on Mailbox B *)

Section BootB.

(** Mailbox B and sound RAM as [initializeMemory] builds them. *)
Definition mailboxB_ok (m : Mailbox.t) : Prop :=
  Mailbox.baseAddress m = 0x410000 /\ Mailbox.size m = 1024 /\
  Z.of_nat (length (Mailbox.data m)) = 1024.

Definition soundRAM_ok (r : RAM.t) : Prop :=
  RAM.baseAddress r = 0 /\ RAM.size r = 65536 /\
  Z.of_nat (length (RAM.data r)) = 65536.

(** The byte the handler gets for mailbox offset [k]. *)
Definition peekB (m : Mailbox.t) (k : Z) : Z :=
  (Mailbox.readByte m (Address_new 0x41 k)).1.

Lemma offsetOf_B m k :
  Mailbox.baseAddress m = 0x410000 ->
  Mailbox.offsetOf m (Address_new 0x41 k) = u16 k.
Proof.
  intros Hb. unfold Mailbox.offsetOf. rewrite Hb, flat_new.
  pose proof (u16_range k). rewrite (u8_small 0x41) by lia.
  replace (65 * 65536 + u16 k - 0x410000) with (u16 k) by lia.
  rewrite u32_small by lia. apply land_24. lia.
Qed.

Lemma peekB_in m k :
  mailboxB_ok m -> u16 k < 1024 ->
  peekB m k = Mailbox.data m !!! Z.to_nat (u16 k).
Proof.
  intros (Hb & Hs & Hl) Hk. unfold peekB.
  rewrite readByte_in; rewrite offsetOf_B by exact Hb; [reflexivity|lia].
Qed.

Lemma peekB_out m k :
  mailboxB_ok m -> 1024 <= u16 k -> peekB m k = 0xFF.
Proof.
  intros (Hb & Hs & Hl) Hk. unfold peekB.
  rewrite readByte_out; rewrite ?offsetOf_B by exact Hb; [reflexivity|lia].
Qed.

Lemma peekB_sameBytes m m' k : sameBytes m m' -> peekB m' k = peekB m k.
Proof.
  intros (Hb & Hs & Hd). unfold peekB, Mailbox.readByte, Mailbox.offsetOf.
  rewrite Hb, Hs, Hd.
  destruct (_ <? Mailbox.size m); reflexivity.
Qed.

Lemma storeByte_sram r k v :
  soundRAM_ok r ->
  RAM.storeByte r (Address_new 0x00 k) v
  = RAM.mk (RAM.baseAddress r) (RAM.size r)
           (<[Z.to_nat (u16 k) := v]> (RAM.data r)).
Proof.
  intros (Hb & Hs & Hl). unfold RAM.storeByte. rewrite flat_new, Hb, Hs.
  pose proof (u16_range k). rewrite (u8_small 0) by lia.
  replace (0 * 65536 + u16 k - 0) with (u16 k) by lia.
  rewrite u32_small by lia.
  destruct (Z.ltb_spec (u16 k) 65536); [reflexivity|lia].
Qed.


Lemma readMailbox_B_in h k :
  mailboxB_ok (Memory.mailboxB h) -> u16 k < 1024 ->
  Memory.readMailbox h MailboxB (Address_new 0x41 k)
  = (Mailbox.data (Memory.mailboxB h) !!! Z.to_nat (u16 k),
     Memory.setMailbox h MailboxB (cleared (Memory.mailboxB h))).
Proof.
  intros (Hb & Hs & Hl) Hk. unfold Memory.readMailbox. cbn [Memory.mailbox].
  rewrite readByte_in; rewrite offsetOf_B by exact Hb; [reflexivity|lia].
Qed.

(** What the copy loop leaves alone. *)
Definition copyFrameB (h h' : Memory.t) : Prop :=
  Memory.mainRAM h' = Memory.mainRAM h /\
  Memory.graphicsRAM h' = Memory.graphicsRAM h /\
  Memory.mailboxA h' = Memory.mailboxA h /\
  sameBytes (Memory.mailboxB h) (Memory.mailboxB h') /\
  soundRAM_ok (Memory.soundRAM h').

Lemma copyLoopB_spec dest n : forall i h,
  mailboxB_ok (Memory.mailboxB h) ->
  soundRAM_ok (Memory.soundRAM h) ->
  0 <= i -> i + Z.of_nat n <= 65535 ->
  let h' := Memory.copyLoop 0x41 MailboxB SoundRAM dest n i h in
  copyFrameB h h' /\
  (forall k, i <= k < i + Z.of_nat n ->
     RAM.data (Memory.soundRAM h') !! Z.to_nat (u16 (dest + k))
     = Some (peekB (Memory.mailboxB h) (0x0005 + k))) /\
  (forall j, (forall k, i <= k < i + Z.of_nat n -> j <> Z.to_nat (u16 (dest + k))) ->
     RAM.data (Memory.soundRAM h') !! j
     = RAM.data (Memory.soundRAM h) !! j).
Proof.
  induction n as [|n IH]; intros i h Hm Hr Hi Hn.
  - simpl. split; [|split].
    + destruct Hr as (? & ? & ?).
      unfold copyFrameB, sameBytes, soundRAM_ok. repeat split; auto.
    + intros; lia.
    + reflexivity.
  - cbn [Memory.copyLoop]. unfold Memory.readMailbox.
    cbn [Memory.mailbox].
    pose proof (readByte_sameBytes (Memory.mailboxB h)
                  (Address_new 0x41 (0x0005 + i))) as Hsb.
    fold (peekB (Memory.mailboxB h) (0x0005 + i)).
    destruct (Mailbox.readByte (Memory.mailboxB h)
                (Address_new 0x41 (0x0005 + i))) as [b m1] eqn:Hrd.
    assert (Hb : b = peekB (Memory.mailboxB h) (0x0005 + i)).
    { unfold peekB. rewrite Hrd. reflexivity. }
    cbn [snd] in Hsb.
    unfold Memory.storeRam. cbn [Memory.ram Memory.setMailbox Memory.soundRAM].
    rewrite storeByte_sram by exact Hr.
    cbn [Memory.setRam Memory.mainRAM Memory.graphicsRAM Memory.mailboxB
           Memory.mailboxA Memory.soundRAM].
    rewrite (u16_small (i + 1)) by lia.
    set (h2 := Memory.mk _ _ _ _ _).
    destruct Hm as (Hmb & Hms & Hml). destruct Hr as (Hrb & Hrs & Hrl).
    destruct Hsb as (Hb1 & Hs1 & Hd1).
    destruct (IH (i + 1) h2) as ((F1 & F2 & F3 & F4 & F5) & Ha & Hb');
      try lia.
    { subst h2. unfold mailboxB_ok. cbn [Memory.mailboxB].
      rewrite Hb1, Hs1, Hd1. repeat split; assumption. }
    { subst h2. unfold soundRAM_ok.
      cbn [Memory.soundRAM RAM.baseAddress RAM.size RAM.data].
      rewrite length_insert. repeat split; assumption. }
    pose proof (u16_range (dest + i)) as Hdi.
    split; [|split].
    + subst h2. cbn in F1, F2, F3, F4.
      repeat split; try assumption;
        destruct F4 as (G1 & G2 & G3); try congruence; apply F5.
    + intros k Hk. destruct (Z.eq_dec k i) as [->|Hne].
      * rewrite Hb'.
        -- subst h2; cbn. rewrite Hb. apply list_lookup_insert_eq. lia.
        -- intros k Hk' Heq.
           apply (u16_shift_ne (dest + i) (k - i)); [lia|].
           replace (dest + i + (k - i)) with (dest + k) by lia.
           pose proof (u16_range (dest + k)). lia.
      * rewrite Ha by lia. f_equal. apply peekB_sameBytes.
        subst h2; cbn. repeat split; assumption.
    + intros j Hj. rewrite Hb'.
      * subst h2; cbn. apply list_lookup_insert_ne.
        intros Heq. apply (Hj i); [lia|]. auto.
      * intros k Hk. apply Hj. lia.
Qed.


(** CPLD1 as [setupCallbacks] wires it. *)
Definition cpld1_wired (c : CPLD1_Audio.t) : Prop :=
  CPLD1_Audio.mailboxB c = Some MailboxB /\
  CPLD1_Audio.soundRAM c = Some SoundRAM /\
  CPLD1_Audio.soundCPUReset c = Some SoundCPUReset /\
  CPLD1_Audio.mailboxBCallback c = Some RaiseSoundIRQ.

Lemma onMailboxBWrite_boot c h :
  cpld1_wired c ->
  mailboxB_ok (Memory.mailboxB h) ->
  Mailbox.data (Memory.mailboxB h) !!! 0%nat = 0x01 ->
  CPLD1_Audio.onMailboxBWrite c h
  = (Memory.copyLoop 0x41 MailboxB SoundRAM (le16 (Memory.mailboxB h) 1)
       (Z.to_nat (le16 (Memory.mailboxB h) 3)) 0
       (Memory.setMailbox h MailboxB (cleared (Memory.mailboxB h))),
     [CallReset SoundCPUReset false]).
Proof.
  intros (W1 & W2 & W3 & W4) Hm Hcmd. unfold CPLD1_Audio.onMailboxBWrite.
  rewrite W1, W2, W3, W4.
  rewrite (readMailbox_B_in h 0x0000) by (exact Hm || reflexivity).
  change (Z.to_nat (u16 0x0000)) with 0%nat. rewrite Hcmd.
  change (0x01 =? 0x01) with true. cbv iota.
  set (h1 := Memory.setMailbox h MailboxB (cleared (Memory.mailboxB h))).
  assert (Hm1 : mailboxB_ok (Memory.mailboxB h1)) by exact Hm.
  rewrite (readMailbox_B_in h1 0x0001) by (exact Hm1 || reflexivity).
  change (Memory.setMailbox h1 MailboxB (cleared (Memory.mailboxB h1))) with h1.
  rewrite (readMailbox_B_in h1 0x0002) by (exact Hm1 || reflexivity).
  change (Memory.setMailbox h1 MailboxB (cleared (Memory.mailboxB h1))) with h1.
  rewrite (readMailbox_B_in h1 0x0003) by (exact Hm1 || reflexivity).
  change (Memory.setMailbox h1 MailboxB (cleared (Memory.mailboxB h1))) with h1.
  rewrite (readMailbox_B_in h1 0x0004) by (exact Hm1 || reflexivity).
  change (Memory.setMailbox h1 MailboxB (cleared (Memory.mailboxB h1))) with h1.
  reflexivity.
Qed.

Lemma onMailboxBWrite_other c h :
  cpld1_wired c ->
  mailboxB_ok (Memory.mailboxB h) ->
  Mailbox.data (Memory.mailboxB h) !!! 0%nat <> 0x01 ->
  CPLD1_Audio.onMailboxBWrite c h
  = (Memory.setMailbox h MailboxB (cleared (Memory.mailboxB h)),
     [CallIRQ RaiseSoundIRQ]).
Proof.
  intros (W1 & W2 & W3 & W4) Hm Hcmd. unfold CPLD1_Audio.onMailboxBWrite.
  rewrite W1, W2, W3, W4.
  rewrite (readMailbox_B_in h 0x0000) by (exact Hm || reflexivity).
  change (Z.to_nat (u16 0x0000)) with 0%nat.
  destruct (Z.eqb_spec (Mailbox.data (Memory.mailboxB h) !!! 0%nat) 0x01);
    [contradiction|reflexivity].
Qed.

End BootB.

Definition bootWiredB (e : Emulator.t) : Prop :=
  cpld1_wired (Emulator.cpld1 e) /\
  mailboxB_ok (Memory.mailboxB (Emulator.memory e)) /\
  Mailbox.writeCallback (Memory.mailboxB (Emulator.memory e)) = Some NotifyCPLD1 /\
  soundRAM_ok (Memory.soundRAM (Emulator.memory e)).

Lemma initialize_bootWiredB powerOn : bootWiredB (Emulator.initialize powerOn).
Proof. repeat split. Qed.

Lemma copyLoopB_callback dest n : forall i h,
  Mailbox.writeCallback
    (Memory.mailboxB (Memory.copyLoop 0x41 MailboxB SoundRAM dest n i h))
  = Mailbox.writeCallback (Memory.mailboxB h).
Proof.
  induction n as [|n IH]; intros i h; [reflexivity|].
  cbn [Memory.copyLoop]. unfold Memory.readMailbox. cbn [Memory.mailbox].
  destruct (readByte_keeps (Memory.mailboxB h) (Address_new 0x41 (0x0005 + i)))
    as (_ & _ & _ & Hcb).
  destruct (Mailbox.readByte (Memory.mailboxB h) (Address_new 0x41 (0x0005 + i)))
    as [b m1].
  rewrite IH. exact Hcb.
Qed.

(** The wiring and the geometry survive every write into Mailbox B. *)
Lemma storeMailboxB_wired e a v :
  bootWiredB e -> bootWiredB (Emulator.storeMailbox e MailboxB a v).
Proof.
  intros (Hc & Hm & Hcb & Hr). unfold Emulator.storeMailbox.
  cbn [Memory.mailbox]. unfold Mailbox.storeByte.
  destruct (Z.ltb_spec (Mailbox.offsetOf (Memory.mailboxB (Emulator.memory e)) a)
                       (Mailbox.size (Memory.mailboxB (Emulator.memory e))))
    as [Hin|Hout].
  - rewrite Hcb. cbn [fire foldl Emulator.runCall Emulator.cpld1
                       Emulator.setMemory Emulator.memory].
    set (mb := Mailbox.mk _ _ _ _ _ _).
    set (h0 := Memory.setMailbox (Emulator.memory e) MailboxB mb).
    assert (Hmb : mailboxB_ok mb).
    { destruct Hm as (Hb & Hs & Hl). unfold mailboxB_ok, mb. cbn.
      rewrite length_insert. repeat split; assumption. }
    destruct (Z.eq_dec (Mailbox.data mb !!! 0%nat) 0x01) as [Hcmd|Hcmd].
    + rewrite (onMailboxBWrite_boot (Emulator.cpld1 e) h0 Hc Hmb Hcmd).
      cbn [foldl Emulator.runLeaf].
      pose proof (u16_range (Z.lor (Mailbox.data mb !!! 3%nat)
                                   (Z.shiftl (Mailbox.data mb !!! 4%nat) 8)))
        as Hlen.
      destruct (copyLoopB_spec (le16 (Memory.mailboxB h0) 1)
                  (Z.to_nat (le16 (Memory.mailboxB h0) 3)) 0
                  (Memory.setMailbox h0 MailboxB (cleared (Memory.mailboxB h0))))
        as ((_ & _ & _ & (Hb' & Hs' & Hd') & Hr') & _ & _);
        [exact Hmb|exact Hr|lia|unfold le16, h0; cbn [Memory.mailboxB Memory.setMailbox]; lia|].
      unfold bootWiredB.
      cbn [Emulator.cpld1 Emulator.memory Emulator.setSoundCPU Emulator.setMemory].
      split; [exact Hc|]. split; [|split; [|exact Hr']].
      * destruct Hmb as (Hb & Hs & Hl). unfold mailboxB_ok.
        rewrite Hb', Hs', Hd'. repeat split; assumption.
      * rewrite copyLoopB_callback. unfold h0, mb.
        cbn [Mailbox.writeCallback Memory.mailboxB Memory.setMailbox cleared].
        reflexivity.
    + rewrite (onMailboxBWrite_other (Emulator.cpld1 e) h0 Hc Hmb Hcmd).
      cbn [foldl Emulator.runLeaf]. unfold bootWiredB.
      cbn [Emulator.cpld1 Emulator.memory Emulator.setSoundCPU Emulator.setMemory].
      repeat split; try apply Hc; try apply Hmb; try apply Hr.
  - cbn [foldl]. unfold bootWiredB.
    cbn [Emulator.cpld1 Emulator.memory Emulator.setMemory Memory.setMailbox
           Memory.mailboxB Memory.soundRAM].
    repeat split; try apply Hc; try apply Hm; try apply Hr. exact Hcb.
Qed.

(** X19. Mailbox B and CPLD1 follow the same boot protocol on the sound
    side.  In the wired emulator a byte written into Mailbox B runs CPLD1's
    handler on the mailbox as it is after the store.  When the command byte
    at offset 0 is 0x01, the handler copies [len] bytes (little-endian at
    offsets 3-4) from mailbox offset 5 on into Sound RAM at the 16-bit
    offsets [dest + i] ([dest] little-endian at offsets 1-2), changes no
    other byte of Sound RAM, and releases the Sound CPU: RES deasserted,
    program address (0, 0).  For any other command nothing is copied and
    the Sound CPU's IRQ pin is raised. *)
Theorem mailboxB_boot_copy
        (e : Emulator.t) (cpu : Cpu65816.t) (a : Address) (v : Z) :
  bootWiredB e ->
  Emulator.soundCPU e = Some cpu ->
  Mailbox.offsetOf (Memory.mailboxB (Emulator.memory e)) a < 1024 ->
  let mb := (Mailbox.storeByte (Memory.mailboxB (Emulator.memory e)) a v).1 in
  let cmd := Mailbox.data mb !!! 0%nat in
  let dest := le16 mb 1 in
  let len := le16 mb 3 in
  let e' := Emulator.storeMailbox e MailboxB a v in
  let sram := RAM.data (Memory.soundRAM (Emulator.memory e)) in
  let sram' := RAM.data (Memory.soundRAM (Emulator.memory e')) in
  (cmd = 0x01 ->
     (forall i, 0 <= i < len ->
        sram' !! Z.to_nat (u16 (dest + i)) = Some (peekB mb (5 + i))) /\
     (forall i, 0 <= i < len -> 5 + i < 1024 ->
        peekB mb (5 + i) = Mailbox.data mb !!! Z.to_nat (5 + i)) /\
     (forall j, (forall i, 0 <= i < len -> j <> Z.to_nat (u16 (dest + i))) ->
        sram' !! j = sram !! j) /\
     Emulator.soundCPU e'
     = Some (Cpu65816.mk false (Cpu65816.RDYPin cpu) (Cpu65816.IRQPin cpu)
                         (Address_new 0 0)))
  /\
  (cmd <> 0x01 ->
     Memory.soundRAM (Emulator.memory e')
     = Memory.soundRAM (Emulator.memory e) /\
     Emulator.soundCPU e' = Some (Cpu65816.setIRQPin cpu true)).
Proof.
  intros (Hc & Hm & Hcb & Hr) Hcpu Hoff mb cmd dest len e' sram sram'.
  destruct Hm as (Hmb & Hms & Hml).
  assert (Hin : Mailbox.offsetOf (Memory.mailboxB (Emulator.memory e)) a
                < Mailbox.size (Memory.mailboxB (Emulator.memory e)))
    by (rewrite Hms; exact Hoff).
  pose proof (offsetOf_nonneg (Memory.mailboxB (Emulator.memory e)) a) as Hoff0.
  assert (Hmb1 : mailboxB_ok mb).
  { unfold mb. rewrite storeByte_in by exact Hin. unfold mailboxB_ok. cbn.
    rewrite length_insert. repeat split; assumption. }
  assert (He' : e' = foldl Emulator.runCall
                       (Emulator.setMemory e
                          (Memory.setMailbox (Emulator.memory e) MailboxB mb))
                       [CallWrite NotifyCPLD1]).
  { unfold e', Emulator.storeMailbox, mb. cbn [Memory.mailbox].
    rewrite storeByte_in by exact Hin. rewrite Hcb. reflexivity. }
  cbn [foldl Emulator.runCall] in He'.
  cbn [Emulator.cpld1 Emulator.setMemory Emulator.memory] in He'.
  set (h0 := Memory.setMailbox (Emulator.memory e) MailboxB mb) in He'.
  assert (Hh0 : Memory.mailboxB h0 = mb) by reflexivity.
  assert (Hpeek : forall k, peekB (cleared mb) k = peekB mb k).
  { intros k. apply peekB_sameBytes. repeat split. }
  split.
  - intros Hcmd.
    rewrite (onMailboxBWrite_boot (Emulator.cpld1 e) h0 Hc) in He';
      [|rewrite Hh0; exact Hmb1|rewrite Hh0; exact Hcmd].
    rewrite Hh0 in He'. cbn [foldl Emulator.runLeaf] in He'.
    fold dest len in He'.
    pose proof (u16_range (Z.lor (Mailbox.data mb !!! 3%nat)
                                 (Z.shiftl (Mailbox.data mb !!! 4%nat) 8)))
      as Hlen.
    fold (le16 mb 3) in Hlen. fold len in Hlen.
    destruct (copyLoopB_spec dest (Z.to_nat len) 0
                (Memory.setMailbox h0 MailboxB (cleared mb)))
      as (_ & Hcopy & Hrest); try lia.
    { exact Hmb1. }
    { exact Hr. }
    unfold sram', sram. rewrite He'.
    cbn [Emulator.memory Emulator.setSoundCPU Emulator.setMemory
           Emulator.soundCPU].
    repeat split.
    + intros i Hi. rewrite Hcopy by lia.
      cbn [Memory.mailboxB Memory.setMailbox]. rewrite Hpeek. reflexivity.
    + intros i Hi Hfit. rewrite peekB_in; [|exact Hmb1|];
        rewrite u16_small by lia; [reflexivity|lia].
    + intros j Hj. rewrite Hrest; [reflexivity|]. intros k Hk. apply Hj. lia.
    + rewrite Hcpu. reflexivity.
  - intros Hcmd.
    rewrite (onMailboxBWrite_other (Emulator.cpld1 e) h0 Hc) in He';
      [|rewrite Hh0; exact Hmb1|rewrite Hh0; exact Hcmd].
    cbn [foldl Emulator.runLeaf] in He'. rewrite He'.
    cbn [Emulator.memory Emulator.setSoundCPU Emulator.setMemory
           Emulator.soundCPU].
    split; [reflexivity|]. rewrite Hcpu. reflexivity.
Qed.

Lemma mailboxB_boot_copy_witness :
  let e := Emulator.initialize powerOn0 in
  let a := Address_new 0x41 0x0000 in
  bootWiredB e /\
  Emulator.soundCPU e = Some (Emulator.initializeCPU powerOn0) /\
  Mailbox.offsetOf (Memory.mailboxB (Emulator.memory e)) a < 1024 /\
  Emulator.soundCPU (Emulator.storeMailbox e MailboxB a 0x01)
  = Some (Cpu65816.mk false true false (Address_new 0 0)).
Proof.
  intros e a.
  pose proof (initialize_bootWiredB powerOn0) as Hw. fold e in Hw.
  assert (Hc : Emulator.soundCPU e = Some (Emulator.initializeCPU powerOn0))
    by reflexivity.
  assert (Ho : Mailbox.offsetOf (Memory.mailboxB (Emulator.memory e)) a < 1024)
    by (vm_compute; reflexivity).
  split; [exact Hw|]. split; [exact Hc|]. split; [exact Ho|].
  destruct (mailboxB_boot_copy e _ a 0x01 Hw Hc Ho) as [Hboot _].
  destruct Hboot as (_ & _ & _ & Hcpu); [vm_compute; reflexivity|].
  exact Hcpu.
Defined.


(** ** Emulator: a mailbox write stays on its side *)

(** Everything outside the graphics side: the main and sound CPUs, main and
    sound RAM, Mailbox B, the cartridge and the CPLDs. *)
Definition graphicsSideOnly (e e' : Emulator.t) : Prop :=
  Emulator.initialized e' = Emulator.initialized e /\
  Emulator.cartridge e' = Emulator.cartridge e /\
  Emulator.mainCPU e' = Emulator.mainCPU e /\
  Emulator.soundCPU e' = Emulator.soundCPU e /\
  Emulator.cpld1 e' = Emulator.cpld1 e /\
  Emulator.cpld2 e' = Emulator.cpld2 e /\
  Emulator.cpld3 e' = Emulator.cpld3 e /\
  Memory.mainRAM (Emulator.memory e') = Memory.mainRAM (Emulator.memory e) /\
  Memory.soundRAM (Emulator.memory e') = Memory.soundRAM (Emulator.memory e) /\
  Memory.mailboxB (Emulator.memory e') = Memory.mailboxB (Emulator.memory e).

(** Everything outside the sound side. *)
Definition soundSideOnly (e e' : Emulator.t) : Prop :=
  Emulator.initialized e' = Emulator.initialized e /\
  Emulator.cartridge e' = Emulator.cartridge e /\
  Emulator.mainCPU e' = Emulator.mainCPU e /\
  Emulator.graphicsCPU e' = Emulator.graphicsCPU e /\
  Emulator.cpld1 e' = Emulator.cpld1 e /\
  Emulator.cpld2 e' = Emulator.cpld2 e /\
  Emulator.cpld3 e' = Emulator.cpld3 e /\
  Memory.mainRAM (Emulator.memory e') = Memory.mainRAM (Emulator.memory e) /\
  Memory.graphicsRAM (Emulator.memory e') = Memory.graphicsRAM (Emulator.memory e) /\
  Memory.mailboxA (Emulator.memory e') = Memory.mailboxA (Emulator.memory e).

Lemma storeMailboxA_frame e a v :
  bootWired e -> graphicsSideOnly e (Emulator.storeMailbox e MailboxA a v).
Proof.
  intros (Hc & Hm & Hcb & Hr). unfold Emulator.storeMailbox.
  cbn [Memory.mailbox]. unfold Mailbox.storeByte.
  destruct (Z.ltb_spec (Mailbox.offsetOf (Memory.mailboxA (Emulator.memory e)) a)
                       (Mailbox.size (Memory.mailboxA (Emulator.memory e))))
    as [Hin|Hout].
  - rewrite Hcb. cbn [fire foldl Emulator.runCall Emulator.cpld2
                       Emulator.setMemory Emulator.memory].
    set (mb := Mailbox.mk _ _ _ _ _ _).
    set (h0 := Memory.setMailbox (Emulator.memory e) MailboxA mb).
    assert (Hmb : mailboxA_ok mb).
    { destruct Hm as (Hb & Hs & Hl). unfold mailboxA_ok, mb. cbn.
      rewrite length_insert. repeat split; assumption. }
    destruct (Z.eq_dec (Mailbox.data mb !!! 0%nat) 0x01) as [Hcmd|Hcmd].
    + rewrite (onMailboxAWrite_boot (Emulator.cpld2 e) h0 Hc Hmb Hcmd).
      cbn [foldl Emulator.runLeaf].
      pose proof (u16_range (Z.lor (Mailbox.data mb !!! 3%nat)
                                   (Z.shiftl (Mailbox.data mb !!! 4%nat) 8)))
        as Hlen.
      destruct (copyLoop_spec (le16 (Memory.mailboxA h0) 1)
                  (Z.to_nat (le16 (Memory.mailboxA h0) 3)) 0
                  (Memory.setMailbox h0 MailboxA (cleared (Memory.mailboxA h0))))
        as ((F1 & F2 & F3 & _ & _) & _ & _);
        [exact Hmb|exact Hr|lia|unfold le16, h0; cbn [Memory.mailboxA Memory.setMailbox]; lia|].
      unfold graphicsSideOnly.
      cbn [Emulator.initialized Emulator.cartridge Emulator.mainCPU Emulator.soundCPU
           Emulator.cpld1 Emulator.cpld2 Emulator.cpld3 Emulator.memory
           Emulator.setGraphicsCPU Emulator.setMemory].
      rewrite F1, F2, F3. repeat split.
    + rewrite (onMailboxAWrite_other (Emulator.cpld2 e) h0 Hc Hmb Hcmd).
      cbn [foldl Emulator.runLeaf]. repeat split.
  - cbn [foldl]. repeat split.
Qed.

Lemma storeMailboxB_frame e a v :
  bootWiredB e -> soundSideOnly e (Emulator.storeMailbox e MailboxB a v).
Proof.
  intros (Hc & Hm & Hcb & Hr). unfold Emulator.storeMailbox.
  cbn [Memory.mailbox]. unfold Mailbox.storeByte.
  destruct (Z.ltb_spec (Mailbox.offsetOf (Memory.mailboxB (Emulator.memory e)) a)
                       (Mailbox.size (Memory.mailboxB (Emulator.memory e))))
    as [Hin|Hout].
  - rewrite Hcb. cbn [fire foldl Emulator.runCall Emulator.cpld1
                       Emulator.setMemory Emulator.memory].
    set (mb := Mailbox.mk _ _ _ _ _ _).
    set (h0 := Memory.setMailbox (Emulator.memory e) MailboxB mb).
    assert (Hmb : mailboxB_ok mb).
    { destruct Hm as (Hb & Hs & Hl). unfold mailboxB_ok, mb. cbn.
      rewrite length_insert. repeat split; assumption. }
    destruct (Z.eq_dec (Mailbox.data mb !!! 0%nat) 0x01) as [Hcmd|Hcmd].
    + rewrite (onMailboxBWrite_boot (Emulator.cpld1 e) h0 Hc Hmb Hcmd).
      cbn [foldl Emulator.runLeaf].
      pose proof (u16_range (Z.lor (Mailbox.data mb !!! 3%nat)
                                   (Z.shiftl (Mailbox.data mb !!! 4%nat) 8)))
        as Hlen.
      destruct (copyLoopB_spec (le16 (Memory.mailboxB h0) 1)
                  (Z.to_nat (le16 (Memory.mailboxB h0) 3)) 0
                  (Memory.setMailbox h0 MailboxB (cleared (Memory.mailboxB h0))))
        as ((F1 & F2 & F3 & _ & _) & _ & _);
        [exact Hmb|exact Hr|lia|unfold le16, h0; cbn [Memory.mailboxB Memory.setMailbox]; lia|].
      unfold soundSideOnly.
      cbn [Emulator.initialized Emulator.cartridge Emulator.mainCPU
           Emulator.graphicsCPU Emulator.cpld1 Emulator.cpld2 Emulator.cpld3
           Emulator.memory Emulator.setSoundCPU Emulator.setMemory].
      rewrite F1, F2, F3. repeat split.
    + rewrite (onMailboxBWrite_other (Emulator.cpld1 e) h0 Hc Hmb Hcmd).
      cbn [foldl Emulator.runLeaf]. repeat split.
  - cbn [foldl]. repeat split.
Qed.

(** The writes of a sequence, each to either mailbox. *)
Definition writeMailbox (e : Emulator.t) (w : MailboxRef * Address * Z)
  : Emulator.t :=
  let '(p, a, v) := w in Emulator.storeMailbox e p a v.

Definition targets (p : MailboxRef) (w : MailboxRef * Address * Z) : bool :=
  match p, w.1.1 with
  | MailboxA, MailboxA | MailboxB, MailboxB => true
  | _, _ => false
  end.

(** X20. Mailbox traffic never crosses sides and never reaches the main
    CPU.  In the emulator as [initialize] leaves it, after any sequence of
    byte writes to the two mailboxes, at any addresses and whatever
    commands they form, the main CPU, main RAM, the cartridge and the
    three CPLDs are untouched; if no write went to Mailbox A, the graphics
    CPU, graphics RAM and Mailbox A are untouched as well, and likewise for
    Mailbox B and the sound side. *)
Theorem mailbox_writes_stay_on_their_side
        (powerOn : Cpu65816.t) (ws : list (MailboxRef * Address * Z)) :
  let e := Emulator.initialize powerOn in
  let e' := foldl writeMailbox e ws in
  Emulator.mainCPU e' = Emulator.mainCPU e /\
  Emulator.cartridge e' = Emulator.cartridge e /\
  Emulator.cpld1 e' = Emulator.cpld1 e /\
  Emulator.cpld2 e' = Emulator.cpld2 e /\
  Emulator.cpld3 e' = Emulator.cpld3 e /\
  Memory.mainRAM (Emulator.memory e') = Memory.mainRAM (Emulator.memory e) /\
  (forallb (fun w => negb (targets MailboxA w)) ws = true ->
   Emulator.graphicsCPU e' = Emulator.graphicsCPU e /\
   Memory.graphicsRAM (Emulator.memory e') = Memory.graphicsRAM (Emulator.memory e) /\
   Memory.mailboxA (Emulator.memory e') = Memory.mailboxA (Emulator.memory e)) /\
  (forallb (fun w => negb (targets MailboxB w)) ws = true ->
   Emulator.soundCPU e' = Emulator.soundCPU e /\
   Memory.soundRAM (Emulator.memory e') = Memory.soundRAM (Emulator.memory e) /\
   Memory.mailboxB (Emulator.memory e') = Memory.mailboxB (Emulator.memory e)).
Proof.
  intros e e'.
  assert (Hgen : forall ws e0,
            bootWired e0 -> bootWiredB e0 ->
            let e1 := foldl writeMailbox e0 ws in
            (Emulator.mainCPU e1 = Emulator.mainCPU e0 /\
             Emulator.cartridge e1 = Emulator.cartridge e0 /\
             Emulator.cpld1 e1 = Emulator.cpld1 e0 /\
             Emulator.cpld2 e1 = Emulator.cpld2 e0 /\
             Emulator.cpld3 e1 = Emulator.cpld3 e0 /\
             Memory.mainRAM (Emulator.memory e1)
             = Memory.mainRAM (Emulator.memory e0)) /\
            (forallb (fun w => negb (targets MailboxA w)) ws = true ->
             Emulator.graphicsCPU e1 = Emulator.graphicsCPU e0 /\
             Memory.graphicsRAM (Emulator.memory e1)
             = Memory.graphicsRAM (Emulator.memory e0) /\
             Memory.mailboxA (Emulator.memory e1)
             = Memory.mailboxA (Emulator.memory e0)) /\
            (forallb (fun w => negb (targets MailboxB w)) ws = true ->
             Emulator.soundCPU e1 = Emulator.soundCPU e0 /\
             Memory.soundRAM (Emulator.memory e1)
             = Memory.soundRAM (Emulator.memory e0) /\
             Memory.mailboxB (Emulator.memory e1)
             = Memory.mailboxB (Emulator.memory e0))).
  { clear. induction ws as [|[[p a] v] ws IH]; intros e0 HA HB.
    - cbn. repeat split.
    - cbn [foldl writeMailbox].
      destruct p.
      + pose proof (storeMailboxA_frame e0 a v HA)
          as (G1 & G2 & G3 & G4 & G5 & G6 & G7 & G8 & G9 & G10).
        assert (HA1 : bootWired (Emulator.storeMailbox e0 MailboxA a v))
          by (apply storeMailbox_bootWired; exact HA).
        assert (HB1 : bootWiredB (Emulator.storeMailbox e0 MailboxA a v)).
        { destruct HB as ((W1 & W2 & W3 & W4) & (M1 & M2 & M3) & Hcb & (R1 & R2 & R3)).
          unfold bootWiredB, cpld1_wired, mailboxB_ok, soundRAM_ok.
          rewrite G5, G10, G9. repeat split; assumption. }
        destruct (IH _ HA1 HB1) as ((I1 & I2 & I3 & I4 & I5 & I6) & IA & IB).
        split; [repeat split; congruence|]. split; [discriminate|].
        intros Hws. cbn [forallb targets fst negb andb] in Hws.
        destruct (IB Hws) as (J1 & J2 & J3). repeat split; congruence.
      + pose proof (storeMailboxB_frame e0 a v HB)
          as (G1 & G2 & G3 & G4 & G5 & G6 & G7 & G8 & G9 & G10).
        assert (HB1 : bootWiredB (Emulator.storeMailbox e0 MailboxB a v))
          by (apply storeMailboxB_wired; exact HB).
        assert (HA1 : bootWired (Emulator.storeMailbox e0 MailboxB a v)).
        { destruct HA as ((W1 & W2 & W3 & W4) & (M1 & M2 & M3) & Hcb & (R1 & R2 & R3)).
          unfold bootWired, cpld2_wired, mailboxA_ok, graphicsRAM_ok.
          rewrite G6, G10, G9. repeat split; assumption. }
        destruct (IH _ HA1 HB1) as ((I1 & I2 & I3 & I4 & I5 & I6) & IA & IB).
        split; [repeat split; congruence|]. split; [|discriminate].
        intros Hws. cbn [forallb targets fst negb andb] in Hws.
        destruct (IA Hws) as (J1 & J2 & J3). repeat split; congruence. }
  destruct (Hgen ws e (initialize_bootWired powerOn) (initialize_bootWiredB powerOn))
    as ((I1 & I2 & I3 & I4 & I5 & I6) & IA & IB).
  exact (conj I1 (conj I2 (conj I3 (conj I4 (conj I5 (conj I6 (conj IA IB))))))).
Qed.


(** ** CPLD3: the register file, table playback and the split-line IRQ *)

Definition SCROLL_OFFSET_LO : Address := Address_new 0x40 0x0300.
Definition SCROLL_OFFSET_HI : Address := Address_new 0x40 0x0301.
Definition PALETTE_SELECT : Address := Address_new 0x40 0x0302.
Definition IRQ_SCANLINE_LO : Address := Address_new 0x40 0x0304.
Definition IRQ_SCANLINE_HI : Address := Address_new 0x40 0x0305.
Definition RASTER_IRQ_ENABLE : Address := Address_new 0x40 0x0306.
Definition RASTER_IRQ_STATUS : Address := Address_new 0x40 0x0308.
Definition TABLE_MODE : Address := Address_new 0x40 0x0310.

Section RasterRegisters.
Import CPLD3_Raster.

Lemma word_bytes lo hi :
  0 <= lo <= 255 -> 0 <= hi <= 255 ->
  Z.lor lo (Z.shiftl hi 8) = lo + 256 * hi.
Proof.
  intros Hlo Hhi. rewrite Z.shiftl_mul_pow2 by lia. rewrite Z.lor_comm.
  rewrite lor_mul_add by (simpl; lia). change (2 ^ 8) with 256. lia.
Qed.

Lemma i16_bytes lo hi :
  0 <= lo <= 255 -> 0 <= hi <= 255 ->
  Z.land (i16 (lo + 256 * hi)) 0xFF = lo /\
  Z.land (Z.shiftr (i16 (lo + 256 * hi)) 8) 0xFF = hi.
Proof.
  intros Hlo Hhi. rewrite !land_FF. rewrite Z.shiftr_div_pow2 by lia.
  change (2 ^ 8) with 256. unfold i16.
  split; Z.to_euclidean_division_equations; lia.
Qed.

Lemma u16_low_then_high old lo hi :
  0 <= lo <= 255 -> 0 <= hi <= 255 ->
  u16 (Z.lor (Z.land (u16 (Z.lor (Z.land old 0xFF00) lo)) 0x00FF)
             (Z.shiftl (Z.land hi 0x01) 8))
  = lo + 256 * (hi mod 2).
Proof.
  intros Hlo Hhi.
  assert (Hbit : Z.land hi 0x01 = hi mod 2).
  { change 0x01 with (Z.ones 1). apply Z.land_ones. lia. }
  rewrite Hbit.
  assert (Hlow : Z.land (u16 (Z.lor (Z.land old 0xFF00) lo)) 0x00FF = lo).
  { rewrite land_FF. unfold u16.
    replace ((Z.lor (Z.land old 0xFF00) lo mod 65536) mod 256)
      with (Z.lor (Z.land old 0xFF00) lo mod 256)
      by (Z.to_euclidean_division_equations; lia).
    rewrite <- land_FF, Z.land_lor_distr_l, <- Z.land_assoc.
    change (Z.land 0xFF00 0x00FF) with 0. rewrite Z.land_0_r, Z.lor_0_l.
    rewrite land_FF. apply Z.mod_small. lia. }
  rewrite Hlow.
  pose proof (Z.mod_pos_bound hi 2 ltac:(lia)) as Hm.
  rewrite word_bytes by lia. apply u16_small. lia.
Qed.

End RasterRegisters.

(** X21. The register pairs of CPLD3.  The two bytes written to
    SCROLL_OFFSET ($400300/$400301) are read back as written and form the
    signed 16-bit scroll offset [lo + 256 * hi], whatever the register held
    before; in register mode the next HSYNC latches it, and the palette
    select written to $400302, as the current values.  IRQ_SCANLINE
    ($400304/$400305) keeps only bit 0 of its high byte: the line number
    has 9 bits and the high byte reads back as 0 or 1. *)
Theorem cpld3_registers_read_back (c : CPLD3_Raster.t) (lo hi line : Z) :
  0 <= lo <= 255 -> 0 <= hi <= 255 ->
  let w := i16 (lo + 256 * hi) in
  let c1 := CPLD3_Raster.storeByte
              (CPLD3_Raster.storeByte c SCROLL_OFFSET_LO lo) SCROLL_OFFSET_HI hi in
  let c2 := CPLD3_Raster.storeByte
              (CPLD3_Raster.storeByte c IRQ_SCANLINE_LO lo) IRQ_SCANLINE_HI hi in
  let c3 := CPLD3_Raster.storeByte c PALETTE_SELECT lo in
  (CPLD3_Raster.scrollOffsetReg c1 = w /\
   CPLD3_Raster.readByte c1 SCROLL_OFFSET_LO = lo /\
   CPLD3_Raster.readByte c1 SCROLL_OFFSET_HI = hi /\
   (CPLD3_Raster.tableMode c = false ->
    CPLD3_Raster.getScrollOffset (CPLD3_Raster.onHSync c1 line).1 = w)) /\
  (CPLD3_Raster.irqScanline c2 = lo + 256 * (hi mod 2) /\
   CPLD3_Raster.readByte c2 IRQ_SCANLINE_LO = lo /\
   CPLD3_Raster.readByte c2 IRQ_SCANLINE_HI = hi mod 2) /\
  (CPLD3_Raster.readByte c3 PALETTE_SELECT = lo /\
   (CPLD3_Raster.tableMode c = false ->
    CPLD3_Raster.getPaletteSelect (CPLD3_Raster.onHSync c3 line).1 = lo)).
Proof.
  intros Hlo Hhi w c1 c2 c3.
  assert (Hw : CPLD3_Raster.scrollOffsetReg c1 = w).
  { unfold c1, w. change (CPLD3_Raster.scrollOffsetReg _)
      with (i16 (Z.lor (Z.land (i16 (Z.lor (Z.land (CPLD3_Raster.scrollOffsetReg c) 0xFF00) lo))
                               0x00FF) (Z.shiftl hi 8))).
    rewrite low_then_high by assumption. rewrite word_bytes by assumption.
    reflexivity. }
  assert (Hl : CPLD3_Raster.irqScanline c2 = lo + 256 * (hi mod 2)).
  { unfold c2. change (CPLD3_Raster.irqScanline _)
      with (u16 (Z.lor (Z.land (u16 (Z.lor (Z.land (CPLD3_Raster.irqScanline c) 0xFF00) lo))
                               0x00FF) (Z.shiftl (Z.land hi 0x01) 8))).
    apply u16_low_then_high; assumption. }
  destruct (i16_bytes lo hi Hlo Hhi) as [Hb0 Hb1].
  pose proof (Z.mod_pos_bound hi 2 ltac:(lia)) as Hm.
  split; [|split].
  - split; [exact Hw|]. split; [|split].
    + change (CPLD3_Raster.readByte c1 SCROLL_OFFSET_LO)
        with (Z.land (CPLD3_Raster.scrollOffsetReg c1) 0xFF).
      rewrite Hw. exact Hb0.
    + change (CPLD3_Raster.readByte c1 SCROLL_OFFSET_HI)
        with (Z.land (Z.shiftr (CPLD3_Raster.scrollOffsetReg c1) 8) 0xFF).
      rewrite Hw. exact Hb1.
    + intros Hmode.
      unfold CPLD3_Raster.getScrollOffset, CPLD3_Raster.onHSync,
        CPLD3_Raster.updateEffects.
      change (CPLD3_Raster.tableMode c1) with (CPLD3_Raster.tableMode c).
      rewrite Hmode. unfold CPLD3_Raster.checkIRQ.
      repeat case_match; cbn; exact Hw.
  - split; [exact Hl|]. split.
    + change (CPLD3_Raster.readByte c2 IRQ_SCANLINE_LO)
        with (Z.land (CPLD3_Raster.irqScanline c2) 0xFF).
      rewrite Hl, land_FF. Z.to_euclidean_division_equations; lia.
    + change (CPLD3_Raster.readByte c2 IRQ_SCANLINE_HI)
        with (Z.land (Z.shiftr (CPLD3_Raster.irqScanline c2) 8) 0xFF).
      rewrite Hl, land_FF, Z.shiftr_div_pow2 by lia. change (2 ^ 8) with 256.
      Z.to_euclidean_division_equations; lia.
  - split; [reflexivity|]. intros Hmode.
    unfold CPLD3_Raster.getPaletteSelect, CPLD3_Raster.onHSync,
      CPLD3_Raster.updateEffects.
    change (CPLD3_Raster.tableMode c3) with (CPLD3_Raster.tableMode c).
    rewrite Hmode. unfold CPLD3_Raster.checkIRQ.
    repeat case_match; reflexivity.
Qed.

Lemma cpld3_registers_read_back_witness :
  CPLD3_Raster.getScrollOffset
    (CPLD3_Raster.onHSync
       (CPLD3_Raster.storeByte
          (CPLD3_Raster.storeByte CPLD3_Raster.new SCROLL_OFFSET_LO 0xFE)
          SCROLL_OFFSET_HI 0xFF) 7).1 = -2.
Proof.
  destruct (cpld3_registers_read_back CPLD3_Raster.new 0xFE 0xFF 7
              ltac:(lia) ltac:(lia)) as ((_ & _ & _ & Hlatch) & _).
  rewrite Hlatch; reflexivity.
Defined.

Section RasterSync.
Import CPLD3_Raster.

(** The fields [checkIRQ] leaves alone. *)
Lemma checkIRQ_frame c line :
  let c' := (checkIRQ c line).1 in
  tableMode c' = tableMode c /\ scanlineTable c' = scanlineTable c /\
  tableIndex c' = tableIndex c /\
  currentScrollOffset c' = currentScrollOffset c /\
  currentPaletteSelect c' = currentPaletteSelect c /\
  irqScanline c' = irqScanline c /\ irqEnable c' = irqEnable c /\
  irqCallback c' = irqCallback c.
Proof. unfold checkIRQ. repeat case_match; cbn; repeat split. Qed.

(** The fields [updateEffects] leaves alone. *)
Lemma updateEffects_frame c :
  let c' := updateEffects c in
  tableMode c' = tableMode c /\ scanlineTable c' = scanlineTable c /\
  irqScanline c' = irqScanline c /\ irqEnable c' = irqEnable c /\
  irqPending c' = irqPending c /\ irqCallback c' = irqCallback c.
Proof.
  unfold updateEffects.
  destruct (tableMode c) eqn:Hmode; [destruct (tableIndex c <? 262)|];
    cbn; rewrite ?Hmode; repeat split.
Qed.

Lemma updateEffects_table c :
  tableMode c = true -> 0 <= tableIndex c < 262 ->
  let e := entryAt c (tableIndex c) in
  let c' := updateEffects c in
  currentScrollOffset c' = scrollOffset e /\
  currentPaletteSelect c' = paletteSelect e /\
  tableIndex c' = (tableIndex c + 1) mod 262.
Proof.
  intros Hmode Hi. unfold updateEffects. rewrite Hmode.
  destruct (Z.ltb_spec (tableIndex c) 262) as [_|]; [|lia].
  rewrite (u16_small (tableIndex c + 1)) by lia. cbn.
  split; [reflexivity|]. split; [reflexivity|].
  destruct (Z.leb_spec 262 (tableIndex c + 1)).
  - replace (tableIndex c + 1) with 262 by lia. reflexivity.
  - symmetry. apply Z.mod_small. lia.
Qed.

Lemma onHSyncs_from c pre lines :
  foldl (fun (acc : t * list Call) line =>
           let (c', calls) := onHSync acc.1 line in (c', acc.2 ++ calls))
        (c, pre) lines
  = ((onHSyncs c lines).1, pre ++ (onHSyncs c lines).2).
Proof.
  unfold onHSyncs. revert c pre.
  induction lines as [|l ls IH]; intros c pre; cbn [foldl].
  - rewrite app_nil_r. reflexivity.
  - cbn [fst snd]. destruct (onHSync c l) as [c' calls].
    rewrite (IH c' (pre ++ calls)), (IH c' ([] ++ calls)).
    cbn [fst snd app]. rewrite app_assoc. reflexivity.
Qed.

Lemma onHSyncs_cons c l ls :
  onHSyncs c (l :: ls)
  = ((onHSyncs (onHSync c l).1 ls).1,
     (onHSync c l).2 ++ (onHSyncs (onHSync c l).1 ls).2).
Proof.
  unfold onHSyncs at 1. cbn [foldl fst snd].
  destruct (onHSync c l) as [c' calls]. cbn [fst snd app].
  apply onHSyncs_from.
Qed.

Lemma onHSyncs_snoc c ls l :
  onHSyncs c (ls ++ [l])
  = ((onHSync (onHSyncs c ls).1 l).1,
     (onHSyncs c ls).2 ++ (onHSync (onHSyncs c ls).1 l).2).
Proof.
  unfold onHSyncs. rewrite foldl_app. cbn [foldl].
  destruct (onHSync _ l) as [c' calls]. reflexivity.
Qed.

End RasterSync.

(** X22. Table playback.  In table mode every HSYNC latches the row the
    read pointer is at and advances the pointer modulo 262, without
    touching the table; the line number passed to [onHSync] plays no part.
    After [n >= 1] HSYNCs the current scroll offset and palette select are
    those of row [(index + n - 1) mod 262].  Writing a byte with bit 0 set
    to TABLE_MODE ($400310) switches table mode on and rewinds the pointer
    to row 0. *)
Theorem cpld3_table_playback
        (c : CPLD3_Raster.t) (lines : list Z) (line v : Z) :
  CPLD3_Raster.tableMode c = true ->
  0 <= CPLD3_Raster.tableIndex c < 262 ->
  let n := Z.of_nat (length lines) in
  let c' := (CPLD3_Raster.onHSyncs c (lines ++ [line])).1 in
  let row := CPLD3_Raster.entryAt c ((CPLD3_Raster.tableIndex c + n) mod 262) in
  CPLD3_Raster.scanlineTable c' = CPLD3_Raster.scanlineTable c /\
  CPLD3_Raster.tableMode c' = true /\
  CPLD3_Raster.tableIndex c' = (CPLD3_Raster.tableIndex c + n + 1) mod 262 /\
  CPLD3_Raster.getScrollOffset c' = CPLD3_Raster.scrollOffset row /\
  CPLD3_Raster.getPaletteSelect c' = CPLD3_Raster.paletteSelect row /\
  (Z.land v 0x01 <> 0 ->
   CPLD3_Raster.tableMode (CPLD3_Raster.storeByte c TABLE_MODE v) = true /\
   CPLD3_Raster.tableIndex (CPLD3_Raster.storeByte c TABLE_MODE v) = 0).
Proof.
  intros Hmode Hidx n c' row.
  assert (Hrun : forall ls,
             let r := (CPLD3_Raster.onHSyncs c ls).1 in
             CPLD3_Raster.scanlineTable r = CPLD3_Raster.scanlineTable c /\
             CPLD3_Raster.tableMode r = true /\
             CPLD3_Raster.tableIndex r
             = (CPLD3_Raster.tableIndex c + Z.of_nat (length ls)) mod 262).
  { induction ls as [|l ls IH] using rev_ind.
    - cbn. split; [reflexivity|]. split; [exact Hmode|].
      rewrite Z.add_0_r. symmetry. apply Z.mod_small. exact Hidx.
    - cbn zeta in *. rewrite onHSyncs_snoc. cbn [fst].
      destruct IH as (Ht & Hm & Hi).
      set (r := (CPLD3_Raster.onHSyncs c ls).1) in *.
      unfold CPLD3_Raster.onHSync.
      destruct (checkIRQ_frame (CPLD3_Raster.updateEffects r) l)
        as (Hm' & Ht' & Hi' & _).
      destruct (updateEffects_frame r) as (Hm'' & Ht'' & _).
      assert (Hr : 0 <= CPLD3_Raster.tableIndex r < 262).
      { rewrite Hi. apply Z.mod_pos_bound. lia. }
      destruct (updateEffects_table r Hm Hr) as (_ & _ & Hnext).
      rewrite Ht', Ht'', Hm', Hm'', Hi', Hnext, Hi.
      split; [exact Ht|]. split; [exact Hm|].
      rewrite length_app, Nat2Z.inj_add. cbn [length].
      rewrite Zplus_mod_idemp_l. f_equal. lia. }
  destruct (Hrun lines) as (Ht & Hm & Hi).
  destruct (Hrun (lines ++ [line])) as (Ht1 & Hm1 & Hi1).
  fold c' in Ht1, Hm1, Hi1.
  split; [exact Ht1|]. split; [exact Hm1|]. split.
  { rewrite Hi1, length_app, Nat2Z.inj_add. cbn [length]. f_equal. lia. }
  assert (Hc' : c' = (CPLD3_Raster.onHSync (CPLD3_Raster.onHSyncs c lines).1 line).1).
  { unfold c'. rewrite onHSyncs_snoc. reflexivity. }
  set (r := (CPLD3_Raster.onHSyncs c lines).1) in *.
  assert (Hr : 0 <= CPLD3_Raster.tableIndex r < 262).
  { rewrite Hi. apply Z.mod_pos_bound. lia. }
  destruct (updateEffects_table r Hm Hr) as (Hs & Hp & _).
  destruct (checkIRQ_frame (CPLD3_Raster.updateEffects r) line)
    as (_ & _ & _ & Hs' & Hp' & _).
  assert (Hrow : CPLD3_Raster.entryAt r (CPLD3_Raster.tableIndex r) = row).
  { unfold row, CPLD3_Raster.entryAt. rewrite Ht, Hi. reflexivity. }
  unfold CPLD3_Raster.getScrollOffset, CPLD3_Raster.getPaletteSelect.
  rewrite Hc'. unfold CPLD3_Raster.onHSync.
  rewrite Hs', Hp', Hs, Hp, Hrow.
  split; [reflexivity|]. split; [reflexivity|].
  intros Hbit.
  change (CPLD3_Raster.storeByte c TABLE_MODE v)
    with (CPLD3_Raster.setMode c (negb (Z.land v 0x01 =? 0))
            (if negb (Z.land v 0x01 =? 0) then 0 else CPLD3_Raster.tableIndex c)).
  destruct (Z.eqb_spec (Z.land v 0x01) 0); [contradiction|]. split; reflexivity.
Qed.

Lemma cpld3_table_playback_witness :
  let c := CPLD3_Raster.storeByte
             (CPLD3_Raster.storeByte
                (CPLD3_Raster.storeByte
                   (CPLD3_Raster.storeByte
                      (CPLD3_Raster.storeByte CPLD3_Raster.new
                         CPLD3_Raster.TABLE_ADDR_LO 1)
                      CPLD3_Raster.TABLE_DATA 0x34)
                   CPLD3_Raster.TABLE_DATA 0x12)
                CPLD3_Raster.TABLE_DATA 5)
             TABLE_MODE 1 in
  let c' := (CPLD3_Raster.onHSyncs c [100; 100]).1 in
  CPLD3_Raster.getScrollOffset c' = 0x1234 /\
  CPLD3_Raster.getPaletteSelect c' = 5 /\
  CPLD3_Raster.tableIndex c' = 2.
Proof.
  intros c c'.
  destruct (cpld3_table_playback c [100] 100 0 eq_refl ltac:(vm_compute; split; [discriminate|reflexivity]))
    as (_ & _ & Hi & Hs & Hp & _).
  cbn [app] in Hi, Hs, Hp. unfold c'.
  rewrite Hi, Hs, Hp. vm_compute. repeat split.
Defined.

(** X23. The split-line interrupt.  HSYNCs never change IRQ_SCANLINE or
    IRQ_ENABLE.  Over any sequence of HSYNCs the pending flag becomes set
    iff it was set or, with the interrupt enabled, one of the lines equals
    IRQ_SCANLINE; the callback is invoked once if the flag was clear and
    such a line occurred, and otherwise not at all, however often the line
    recurs.  Writing a byte with bit 0 set to IRQ_STATUS ($400308) clears
    the flag and re-arms the interrupt; a byte with bit 0 clear changes
    nothing. *)
Theorem cpld3_split_line_irq
        (c : CPLD3_Raster.t) (lines : list Z) (v : Z) :
  let r := CPLD3_Raster.onHSyncs c lines in
  let hit := CPLD3_Raster.irqEnable c
             && existsb (fun l => l =? CPLD3_Raster.irqScanline c) lines in
  let c1 := CPLD3_Raster.storeByte r.1 RASTER_IRQ_STATUS v in
  CPLD3_Raster.irqScanline r.1 = CPLD3_Raster.irqScanline c /\
  CPLD3_Raster.irqEnable r.1 = CPLD3_Raster.irqEnable c /\
  CPLD3_Raster.irqPending r.1 = CPLD3_Raster.irqPending c || hit /\
  r.2 = (if negb (CPLD3_Raster.irqPending c) && hit
         then fire (CPLD3_Raster.irqCallback c) CallIRQ else []) /\
  (Z.land v 0x01 = 0 -> c1 = r.1) /\
  (Z.land v 0x01 <> 0 ->
   CPLD3_Raster.irqPending c1 = false /\
   (CPLD3_Raster.onHSyncs c1 lines).2
   = (if hit then fire (CPLD3_Raster.irqCallback c) CallIRQ else [])).
Proof.
  assert (Hrun : forall ls c0,
    let r := CPLD3_Raster.onHSyncs c0 ls in
    let hit := CPLD3_Raster.irqEnable c0
               && existsb (fun l => l =? CPLD3_Raster.irqScanline c0) ls in
    CPLD3_Raster.irqScanline r.1 = CPLD3_Raster.irqScanline c0 /\
    CPLD3_Raster.irqEnable r.1 = CPLD3_Raster.irqEnable c0 /\
    CPLD3_Raster.irqCallback r.1 = CPLD3_Raster.irqCallback c0 /\
    CPLD3_Raster.irqPending r.1 = CPLD3_Raster.irqPending c0 || hit /\
    r.2 = (if negb (CPLD3_Raster.irqPending c0) && hit
           then fire (CPLD3_Raster.irqCallback c0) CallIRQ else [])).
  { induction ls as [|l ls IH]; intros c0.
    - cbn. rewrite !andb_false_r, orb_false_r. repeat split.
    - cbn zeta. rewrite onHSyncs_cons. cbn [fst snd existsb].
      specialize (IH (CPLD3_Raster.onHSync c0 l).1). cbn zeta in IH.
      destruct IH as (Hl & He & Hc & Hp & Hcalls).
      rewrite Hl, He, Hc, Hp, Hcalls. clear Hl He Hc Hp Hcalls.
      unfold CPLD3_Raster.onHSync.
      destruct (updateEffects_frame c0) as (_ & _ & Hl & He & Hp & Hc).
      set (u := CPLD3_Raster.updateEffects c0) in *.
      unfold CPLD3_Raster.checkIRQ. rewrite Hl, He, Hp, Hc.
      destruct (CPLD3_Raster.irqEnable c0) eqn:Een;
        destruct (l =? CPLD3_Raster.irqScanline c0) eqn:Eline;
        destruct (CPLD3_Raster.irqPending c0) eqn:Epend;
        cbn [andb orb negb fst snd CPLD3_Raster.setIrq CPLD3_Raster.irqScanline
             CPLD3_Raster.irqEnable CPLD3_Raster.irqPending
             CPLD3_Raster.irqCallback app];
        rewrite ?Hl, ?He, ?Hp, ?Hc, ?Een, ?Epend, ?app_nil_r;
        cbn [andb orb negb];
        repeat split; try reflexivity;
        destruct (existsb _ ls); reflexivity. }
  intros r hit c1.
  destruct (Hrun lines c) as (Hl & He & Hc & Hp & Hcalls).
  fold r in Hl, He, Hc, Hp, Hcalls. fold hit in Hp, Hcalls.
  split; [exact Hl|]. split; [exact He|]. split; [exact Hp|].
  split; [exact Hcalls|].
  assert (Hstore : c1 = if Z.land v 0x01 =? 0 then r.1
                        else CPLD3_Raster.setIrq r.1 (CPLD3_Raster.irqScanline r.1)
                               (CPLD3_Raster.irqEnable r.1) false) by reflexivity.
  split.
  - intros Hbit. rewrite Hstore, Hbit. reflexivity.
  - intros Hbit. destruct (Z.eqb_spec (Z.land v 0x01) 0); [contradiction|].
    split; [rewrite Hstore; reflexivity|].
    destruct (Hrun lines c1) as (_ & _ & _ & _ & Hcalls1).
    rewrite Hcalls1, Hstore.
    cbn [CPLD3_Raster.setIrq CPLD3_Raster.irqScanline CPLD3_Raster.irqEnable
         CPLD3_Raster.irqPending CPLD3_Raster.irqCallback negb andb].
    rewrite Hl, He, Hc. reflexivity.
Qed.


(** ** MasterClock: raster position and audio sample count *)

Section ClockTiming.
Import MasterClock.

Lemma i32_small z : -2147483648 <= z < 2147483648 -> i32 z = z.
Proof. intros. unfold i32. Z.to_euclidean_division_equations. lia. Qed.

Lemma u64_small z : 0 <= z < 18446744073709551616 -> u64 z = z.
Proof. intros. unfold u64. apply Z.mod_small. lia. Qed.

(** Where [updateVideoTiming] puts the raster. *)
Lemma updateVideoTiming_position k :
  0 <= graphicsCPUCycles k ->
  let p := graphicsCPUCycles k mod 225000 in
  currentScanline (updateVideoTiming k).1 = p / 858 /\
  currentPixel (updateVideoTiming k).1 = p mod 858.
Proof.
  intros Hg p. unfold updateVideoTiming. cbn [fst currentScanline currentPixel setRaster].
  change (u32 (GRAPHICS_CPU_FREQ / FRAME_RATE)) with 225000.
  change PIXELS_PER_SCANLINE with 858. fold p.
  assert (Hp : 0 <= p < 225000) by (apply Z.mod_pos_bound; lia).
  split; apply i32_small; Z.to_euclidean_division_equations; lia.
Qed.

(** The loop runs [n] times when the counter is [n] short of a target
    that a [uint32_t] can reach. *)
Lemma audioLoop_runs n :
  forall fuel k expected,
    0 <= audioSampleCounter k ->
    audioSampleCounter k + Z.of_nat n = expected ->
    expected < 4294967296 ->
    (n <= fuel)%nat ->
    exists k',
      audioLoop fuel k expected
      = Some (k', concat (replicate n (emit (onAudioSample k) AudioSample))) /\
      audioSampleCounter k' = expected /\
      audioSamplesThisFrame k'
      = (if (n =? 0)%nat then audioSamplesThisFrame k
         else u32 (audioSamplesThisFrame k + Z.of_nat n)) /\
      setAudio k' (audioSampleCounter k) (audioSamplesThisFrame k) = k.
Proof.
  induction n as [|n IH]; intros fuel k expected Hc Hsum Hmax Hfuel.
  - exists k. replace expected with (audioSampleCounter k) by lia.
    destruct fuel; cbn [audioLoop]; rewrite Z.ltb_irrefl;
      (split; [reflexivity|]); (split; [reflexivity|]);
      (split; [reflexivity|]); destruct k; reflexivity.
  - destruct fuel as [|fuel]; [lia|]. cbn [audioLoop].
    destruct (Z.ltb_spec (audioSampleCounter k) expected) as [_|]; [|lia].
    set (k1 := setAudio k (u32 (audioSampleCounter k + 1))
                        (u32 (audioSamplesThisFrame k + 1))).
    assert (Hc1 : audioSampleCounter k1 = audioSampleCounter k + 1).
    { unfold k1. cbn. apply u32_small. lia. }
    destruct (IH fuel k1 expected) as (k' & Hrun & Hcnt & Hfr & Hrest);
      [lia|lia|lia|lia|].
    exists k'. rewrite Hrun. cbn [replicate concat].
    change (onAudioSample k1) with (onAudioSample k).
    split; [reflexivity|]. split; [exact Hcnt|]. split.
    + rewrite Hfr. change (audioSamplesThisFrame k1)
        with (u32 (audioSamplesThisFrame k + 1)).
      destruct n; [cbn; f_equal; lia|].
      cbn [Nat.eqb]. unfold u32. rewrite Zplus_mod_idemp_l. f_equal. lia.
    + apply (f_equal (fun s => setAudio s (audioSampleCounter k)
                                        (audioSamplesThisFrame k))) in Hrest.
      change (setAudio k' (audioSampleCounter k) (audioSamplesThisFrame k)
              = setAudio k (audioSampleCounter k) (audioSamplesThisFrame k))
        in Hrest.
      rewrite Hrest. destruct k; reflexivity.
Qed.

(** A target beyond the range of the [uint32_t] counter is never reached. *)
Lemma audioLoop_hangs fuel :
  forall k expected,
    0 <= audioSampleCounter k < 4294967296 ->
    4294967296 <= expected ->
    audioLoop fuel k expected = None.
Proof.
  induction fuel as [|fuel IH]; intros k expected Hc He; cbn [audioLoop];
    destruct (Z.ltb_spec (audioSampleCounter k) expected) as [_|]; try lia.
  - reflexivity.
  - rewrite IH; [reflexivity| |exact He].
    cbn. pose proof (u32_range (audioSampleCounter k + 1)). lia.
Qed.

Definition isAudioSample (e : Event) : bool :=
  match e with AudioSample => true | _ => false end.

Lemma audio_events_count n slot :
  length (filter (fun e => isAudioSample e = true)
                 (concat (replicate n (emit slot AudioSample))))
  = if slot then n else 0%nat.
Proof.
  induction n as [|n IH]; [destruct slot; reflexivity|].
  cbn [replicate concat]. rewrite filter_app, length_app, IH.
  destruct slot; reflexivity.
Qed.

Lemma video_events_no_audio k :
  filter (fun e => isAudioSample e = true) (updateVideoTiming k).2 = [].
Proof.
  unfold updateVideoTiming. cbn [snd]. rewrite filter_app.
  repeat case_match; unfold emit; repeat case_match; reflexivity.
Qed.

End ClockTiming.

(** X24. The raster position of the master clock is a function of the
    graphics cycle counter alone.  With [p] the counter modulo the 225000
    cycles of a frame, the scanline is [p / 858] and the pixel
    [p mod 858].  A frame is 262 lines of 858 pixels and 204 cycles more,
    so the scanline ranges over 0..262 and line 262 has 204 pixels.  The
    clock is in vblank from cycle 205920 of the frame on.  Recomputing the
    position without new graphics cycles changes nothing and invokes no
    callback. *)
Theorem masterclock_raster_from_cycles (k : MasterClock.t) :
  0 <= MasterClock.graphicsCPUCycles k ->
  let p := MasterClock.graphicsCPUCycles k mod 225000 in
  let r := MasterClock.updateVideoTiming k in
  MasterClock.currentScanline r.1 = p / 858 /\
  MasterClock.currentPixel r.1 = p mod 858 /\
  0 <= MasterClock.currentScanline r.1 <= 262 /\
  (MasterClock.currentScanline r.1 = 262 -> MasterClock.currentPixel r.1 < 204) /\
  MasterClock.isVBlank r.1 = (205920 <=? p) /\
  MasterClock.isHBlank r.1 = (720 <=? p mod 858) /\
  (In MasterClock.VBlank r.2 <->
   MasterClock.onVBlank k = true /\
   MasterClock.currentScanline k < 240 /\ 205920 <= p) /\
  MasterClock.updateVideoTiming r.1 = (r.1, []).
Proof.
  intros Hg p r.
  destruct (updateVideoTiming_position k Hg) as [Hline Hpix].
  fold p r in Hline, Hpix.
  assert (Hp : 0 <= p < 225000) by (apply Z.mod_pos_bound; lia).
  split; [exact Hline|]. split; [exact Hpix|].
  split; [rewrite Hline; Z.to_euclidean_division_equations; lia|].
  split; [rewrite Hline, Hpix; Z.to_euclidean_division_equations; lia|].
  split.
  { unfold MasterClock.isVBlank. rewrite Hline.
    change MasterClock.SCANLINES_PER_FRAME with 240.
    destruct (Z.leb_spec 240 (p / 858)); destruct (Z.leb_spec 205920 p);
      try reflexivity; Z.to_euclidean_division_equations; lia. }
  split; [unfold MasterClock.isHBlank; rewrite Hpix; reflexivity|].
  split.
  { unfold r at 1. unfold MasterClock.updateVideoTiming at 1. cbn [snd].
    change (MasterClock.setRaster _ _ _ _) with r.1.
    change (MasterClock.onVBlank r.1) with (MasterClock.onVBlank k).
    rewrite in_app_iff, Hline. change MasterClock.SCANLINES_PER_FRAME with 240.
    split.
    - intros [Hin|Hin].
      + destruct (negb _); [|contradiction]. unfold MasterClock.emit in Hin.
        destruct (MasterClock.onScanline _); [|contradiction].
        destruct Hin as [Heq|[]]. discriminate Heq.
      + destruct (Z.ltb_spec (MasterClock.currentScanline k) 240);
          destruct (Z.leb_spec 240 (p / 858));
          cbn [andb] in Hin; try contradiction.
        unfold MasterClock.emit in Hin.
        destruct (MasterClock.onVBlank k); [|contradiction].
        split; [reflexivity|]. split; [assumption|].
        Z.to_euclidean_division_equations; lia.
    - intros (Hb & Hold & Hnew). right.
      destruct (Z.ltb_spec (MasterClock.currentScanline k) 240); [|lia].
      destruct (Z.leb_spec 240 (p / 858));
        [|Z.to_euclidean_division_equations; lia].
      cbn. rewrite Hb. left. reflexivity. }
  unfold MasterClock.updateVideoTiming at 1.
  change (MasterClock.graphicsCPUCycles r.1) with (MasterClock.graphicsCPUCycles k).
  change (u32 (MasterClock.GRAPHICS_CPU_FREQ / MasterClock.FRAME_RATE)) with 225000.
  change MasterClock.PIXELS_PER_SCANLINE with 858. fold p.
  assert (Hl : i32 (p / 858) = MasterClock.currentScanline r.1).
  { rewrite Hline. apply i32_small. Z.to_euclidean_division_equations; lia. }
  assert (Hx : i32 (p mod 858) = MasterClock.currentPixel r.1).
  { rewrite Hpix. apply i32_small. Z.to_euclidean_division_equations; lia. }
  rewrite Hl, Hx.
  cbn [MasterClock.currentScanline MasterClock.setRaster].
  rewrite Z.eqb_refl. cbn [negb app].
  destruct (Z.ltb_spec (MasterClock.currentScanline r.1) MasterClock.SCANLINES_PER_FRAME);
    destruct (Z.leb_spec MasterClock.SCANLINES_PER_FRAME (MasterClock.currentScanline r.1));
    cbn [andb]; try lia; f_equal; destruct r as [[] ?]; reflexivity.
Qed.

Lemma masterclock_raster_from_cycles_witness :
  let k := MasterClock.setCycles (MasterClock.new 0) 0 (225000 + 205920) 0 0 in
  MasterClock.currentScanline (MasterClock.updateVideoTiming k).1 = 240 /\
  MasterClock.currentPixel (MasterClock.updateVideoTiming k).1 = 0 /\
  MasterClock.isVBlank (MasterClock.updateVideoTiming k).1 = true.
Proof.
  intros k.
  destruct (masterclock_raster_from_cycles k ltac:(vm_compute; discriminate))
    as (Hline & Hpix & _ & _ & Hvb & _).
  rewrite Hline, Hpix, Hvb. repeat split.
Defined.

(** X25. Audio samples follow the graphics cycle counter without drift.
    After [addGraphicsCPUCycles] the sample counter stands at
    [g * 32000 / 13500000] for the new cycle count [g], whatever the sizes
    of the steps that led there, and the audio callback, when bound, has
    been invoked once for every sample the counter advanced by.  This
    holds as long as that count fits the 32-bit counter: from the first
    call that asks for 2^32 samples or more (a little over 37 hours of
    emulated time) the catch-up loop never ends. *)
Theorem masterclock_audio_samples
        (k : MasterClock.t) (cycles : Z) (fuel : nat) :
  0 <= cycles < 4294967296 ->
  0 <= MasterClock.graphicsCPUCycles k ->
  0 <= MasterClock.audioSampleCounter k < 4294967296 ->
  let g := MasterClock.graphicsCPUCycles k + cycles in
  let expected := g * 32000 / 13500000 in
  MasterClock.audioSampleCounter k <= expected ->
  g * 32000 < 18446744073709551616 ->
  let n := Z.to_nat (expected - MasterClock.audioSampleCounter k) in
  (expected < 4294967296 -> (n <= fuel)%nat ->
   exists k' events,
     MasterClock.addGraphicsCPUCycles fuel k cycles = Some (k', events) /\
     MasterClock.graphicsCPUCycles k' = g /\
     MasterClock.masterCycles k' = g /\
     MasterClock.audioSampleCounter k' = expected /\
     length (filter (fun e => isAudioSample e = true) events)
     = (if MasterClock.onAudioSample k then n else 0%nat)) /\
  (4294967296 <= expected ->
   MasterClock.addGraphicsCPUCycles fuel k cycles = None).
Proof.
  intros Hcy Hg Hc g expected Hle Hfit n.
  assert (Hg64 : u64 g = g) by (apply u64_small; lia).
  unfold MasterClock.addGraphicsCPUCycles. cbv zeta.
  set (k0 := MasterClock.setCycles (MasterClock.setCycles _ _ _ _ _) _ _ _ _).
  pose proof (video_events_no_audio k0) as Hvideo.
  destruct (MasterClock.updateVideoTiming k0) as [k1 video] eqn:Hupd.
  assert (Hk1 : k1 = (MasterClock.updateVideoTiming k0).1) by (rewrite Hupd; reflexivity).
  assert (Hm1 : MasterClock.masterCycles k1 = g) by (rewrite Hk1; exact Hg64).
  assert (Hg1 : MasterClock.graphicsCPUCycles k1 = g) by (rewrite Hk1; exact Hg64).
  assert (Hc1 : MasterClock.audioSampleCounter k1 = MasterClock.audioSampleCounter k)
    by (rewrite Hk1; reflexivity).
  assert (Ha1 : MasterClock.onAudioSample k1 = MasterClock.onAudioSample k)
    by (rewrite Hk1; reflexivity).
  unfold MasterClock.updateAudioTiming. rewrite Hm1.
  change MasterClock.AUDIO_SAMPLE_RATE with 32000.
  change MasterClock.GRAPHICS_CPU_FREQ with 13500000.
  rewrite (u64_small (g * 32000)) by lia. fold expected.
  cbn [snd] in Hvideo.
  split.
  - intros Hmax Hfuel.
    destruct (audioLoop_runs n fuel k1 expected) as (k' & Hrun & Hcnt & _ & Hrest);
      [lia|unfold n; lia|exact Hmax|exact Hfuel|].
    rewrite Hrun. exists k', (video ++ concat (replicate n
      (MasterClock.emit (MasterClock.onAudioSample k1) MasterClock.AudioSample))).
    split; [reflexivity|].
    assert (Hsame : MasterClock.graphicsCPUCycles k' = MasterClock.graphicsCPUCycles k1
                    /\ MasterClock.masterCycles k' = MasterClock.masterCycles k1).
    { rewrite <- Hrest. split; reflexivity. }
    destruct Hsame as [-> ->].
    split; [exact Hg1|]. split; [exact Hm1|]. split; [exact Hcnt|].
    rewrite filter_app, Hvideo, app_nil_l, audio_events_count, Ha1. reflexivity.
  - intros Hbig. rewrite audioLoop_hangs; [reflexivity|lia|exact Hbig].
Qed.

Lemma masterclock_audio_samples_witness :
  exists k' events,
    MasterClock.addGraphicsCPUCycles 10 (MasterClock.new 0) 1000 = Some (k', events) /\
    MasterClock.audioSampleCounter k' = 2.
Proof.
  destruct (masterclock_audio_samples (MasterClock.new 0) 1000 10
              ltac:(lia) ltac:(vm_compute; discriminate)
              ltac:(vm_compute; split; [discriminate|reflexivity])
              ltac:(vm_compute; discriminate) ltac:(vm_compute; reflexivity))
    as [Hrun _].
  destruct Hrun as (k' & events & Hrun & _ & _ & Hcnt & _);
    [vm_compute; reflexivity|vm_compute; lia|].
  exists k', events. split; [exact Hrun|exact Hcnt].
Defined.


(** ** VideoRenderer: what a rendered frame holds *)

Section RenderedFrame.
Import VideoRenderer.

Lemma getAt_Some {A} (a : list A) i :
  0 <= i < Z.of_nat (length a) -> is_Some (getAt a i).
Proof.
  intros Hi. unfold getAt. destruct (Z.leb_spec 0 i); [|lia].
  apply lookup_lt_is_Some_2. lia.
Qed.

Lemma setAt_Some {A} (a : list A) i v :
  0 <= i < Z.of_nat (length a) -> setAt a i v = Some (<[Z.to_nat i := v]> a).
Proof.
  intros Hi. unfold setAt.
  destruct (Z.leb_spec 0 i); [|lia]. destruct (Z.ltb_spec i (Z.of_nat (length a))); [|lia].
  reflexivity.
Qed.

Lemma getAt_insert {A} (a : list A) i j v :
  0 <= i < Z.of_nat (length a) ->
  getAt (<[Z.to_nat i := v]> a) j = if j =? i then Some v else getAt a j.
Proof.
  intros Hi. unfold getAt. destruct (Z.eqb_spec j i) as [->|Hne].
  - destruct (Z.leb_spec 0 i); [|lia]. apply list_lookup_insert_eq. lia.
  - destruct (Z.leb_spec 0 j); [|reflexivity].
    apply list_lookup_insert_ne. intros Heq. apply Hne. apply Z2Nat.inj in Heq; lia.
Qed.

(** Loop invariants for [forRange]. *)
Lemma forRange_from {St} (Inv : Z -> St -> Prop) (body : St -> Z -> option St) len :
  forall m s,
    Inv m s ->
    (forall i s, m <= i < m + Z.of_nat len -> Inv i s ->
                 exists s', body s i = Some s' /\ Inv (i + 1) s') ->
    exists s',
      foldl (fun acc x => s ← acc; body s x) (Some s) (seqZ m (Z.of_nat len))
      = Some s' /\ Inv (m + Z.of_nat len) s'.
Proof.
  induction len as [|len IH]; intros m s Hinv Hstep.
  - exists s. cbn. rewrite Z.add_0_r. split; [reflexivity|exact Hinv].
  - rewrite seqZ_cons by lia. cbn [foldl mbind option_bind].
    destruct (Hstep m s ltac:(lia) Hinv) as (s1 & Hb & Hinv1). rewrite Hb.
    replace (Z.pred (Z.of_nat (S len))) with (Z.of_nat len) by lia.
    destruct (IH (Z.succ m) s1) as (s' & Hrun & Hinv').
    + replace (Z.succ m) with (m + 1) by lia. exact Hinv1.
    + intros i s2 Hi. apply Hstep. lia.
    + exists s'. split; [exact Hrun|].
      replace (m + Z.of_nat (S len)) with (Z.succ m + Z.of_nat len) by lia.
      exact Hinv'.
Qed.

Lemma forRange_ind {St} (Inv : Z -> St -> Prop) (body : St -> Z -> option St) n s :
  0 <= n ->
  Inv 0 s ->
  (forall i s, 0 <= i < n -> Inv i s ->
               exists s', body s i = Some s' /\ Inv (i + 1) s') ->
  exists s', forRange n body s = Some s' /\ Inv n s'.
Proof.
  intros Hn Hinv Hstep. unfold forRange.
  destruct (forRange_from Inv body (Z.to_nat n) 0 s Hinv) as (s' & Hrun & Hinv').
  - intros i s1 Hi. apply Hstep. lia.
  - rewrite Z2Nat.id in Hrun, Hinv' by lia. exists s'. split; assumption.
Qed.

(** The renderer's arrays have their declared sizes. *)
Definition lineWf (b : LineBuffer.t) : Prop :=
  Z.of_nat (length (LineBuffer.color b)) = WIDTH /\
  Z.of_nat (length (LineBuffer.priority b)) = WIDTH /\
  Z.of_nat (length (LineBuffer.alpha b)) = WIDTH.

Definition rendererWf (r : t) : Prop :=
  Z.of_nat (length (framebuffer r)) = WIDTH * HEIGHT /\
  Z.of_nat (length (paletteRGBA r)) = 256 /\
  Z.of_nat (length (layerBuffers r)) = 6 /\
  Forall lineWf (layerBuffers r) /\
  lineWf (finalBuffer r).

(** VRAM holds bytes. *)
Definition byteRAM (ram : RAM.t) : Prop :=
  RAM.wf ram /\ Forall is_u8 (RAM.data ram).

Lemma readVRAM_byte ram a :
  byteRAM ram -> exists b, readVRAM (Some ram) a = Some b /\ 0 <= b <= 255.
Proof.
  intros [Hwf Hbytes].
  destruct (readVRAM_total (Some ram) ltac:(intros ? [= <-]; exact Hwf) a)
    as [b Hb].
  exists b. split; [exact Hb|].
  unfold readVRAM in Hb. destruct (0x80000 <=? a); [injection Hb as <-; lia|].
  unfold RAM.readByte in Hb.
  destruct (_ <? _) in Hb; [|injection Hb as <-; lia].
  rewrite Forall_lookup in Hbytes. apply (Hbytes _ _ Hb).
Qed.

(** The colour a framebuffer-mode pixel gets: the palette entry of the
    VRAM byte at the pixel's index. *)
Definition indexed (palette : list Z) (vram : option RAM.t) (j : Z) : option Z :=
  palIndex ← readVRAM vram j; getAt palette palIndex.

Definition inRow (line j : Z) : bool :=
  (line * WIDTH <=? j) && (j <? line * WIDTH + WIDTH).

(** What a scanline leaves of the renderer other than the framebuffer. *)
Definition sameBuffers (r r' : t) : Prop :=
  layerBuffers r' = layerBuffers r /\ finalBuffer r' = finalBuffer r /\
  paletteRGBA r' = paletteRGBA r /\ paletteDirty r' = paletteDirty r /\
  spriteCache r' = spriteCache r /\ spriteCacheDirty r' = spriteCacheDirty r.

Lemma renderFramebufferMode_spec r ram line :
  rendererWf r -> byteRAM ram -> 0 <= line < HEIGHT ->
  exists r',
    renderFramebufferMode r (Some ram) line = Some r' /\
    rendererWf r' /\ sameBuffers r r' /\
    forall j, getAt (framebuffer r') j
              = if inRow line j then indexed (paletteRGBA r) (Some ram) j
                else getAt (framebuffer r) j.
Proof.
  intros Hwf Hram Hline. unfold renderFramebufferMode.
  change HEIGHT with 240 in Hline.
  set (Inv := fun (n : Z) (s : t) =>
    rendererWf s /\ sameBuffers r s /\
    forall j, getAt (framebuffer s) j
              = if (line * WIDTH <=? j) && (j <? line * WIDTH + n)
                then indexed (paletteRGBA r) (Some ram) j
                else getAt (framebuffer r) j).
  destruct (forRange_ind Inv
    (fun r x =>
       palIndex ← framebufferPixel (Some ram) line x;
       colour ← getAt (paletteRGBA r) palIndex;
       fb ← setAt (framebuffer r) (line * WIDTH + x) colour;
       Some (setFramebuffer r fb)) WIDTH r) as (r' & Hrun & Hinv).
  - unfold WIDTH. lia.
  - split; [exact Hwf|]. split; [repeat split|].
    intros j. destruct (Z.leb_spec (line * WIDTH) j); destruct (Z.ltb_spec j (line * WIDTH + 0));
      cbn [andb]; try reflexivity; lia.
  - intros x s Hx (Hs & Hsame & Hpix). change WIDTH with 320 in *.
    assert (Haddr : framebufferPixel (Some ram) line x
                    = readVRAM (Some ram) (line * 320 + x)).
    { unfold framebufferPixel. change FRAMEBUFFER with 0. change WIDTH with 320.
      rewrite Z.add_0_l, (u32_small (line * 320)) by lia.
      rewrite u32_small by lia. reflexivity. }
    rewrite Haddr.
    destruct (readVRAM_byte ram (line * 320 + x) Hram) as (b & Hb & Hbr).
    rewrite Hb. cbn [mbind option_bind].
    destruct Hs as (Hfb & Hpal & Hrest).
    destruct (getAt_Some (paletteRGBA s) b ltac:(lia)) as [colour Hcol].
    rewrite Hcol. cbn [mbind option_bind].
    change (WIDTH * HEIGHT) with 76800 in Hfb.
    rewrite setAt_Some by lia. cbn [mbind option_bind].
    eexists. split; [reflexivity|]. split; [|split].
    + split; [|exact (conj Hpal Hrest)].
      cbn [framebuffer setFramebuffer]. rewrite length_insert. exact Hfb.
    + destruct Hsame as (? & ? & ? & ? & ? & ?). repeat split; assumption.
    + intros j. cbn [framebuffer setFramebuffer].
      rewrite getAt_insert by lia. rewrite Hpix.
      destruct Hsame as (_ & _ & Hp & _).
      destruct (Z.eqb_spec j (line * 320 + x)) as [->|Hne].
      * destruct (Z.leb_spec (line * 320) (line * 320 + x)); [|lia].
        destruct (Z.ltb_spec (line * 320 + x) (line * 320 + (x + 1))); [|lia].
        cbn [andb]. unfold indexed. rewrite Hb. cbn [mbind option_bind].
        rewrite <- Hp. symmetry. exact Hcol.
      * destruct (Z.leb_spec (line * 320) j);
          destruct (Z.ltb_spec j (line * 320 + x));
          destruct (Z.ltb_spec j (line * 320 + (x + 1)));
          cbn [andb]; try reflexivity; lia.
  - exists r'. split; [exact Hrun|]. destruct Hinv as (Hw & Hs & Hp).
    split; [exact Hw|]. split; [exact Hs|exact Hp].
Qed.

(** A loop that assigns the pixels of one row in turn, each from the
    buffers and from the pixel's own old value. *)
Lemma row_loop (body : t -> Z -> option t) (pix : Z -> Z) r line :
  rendererWf r -> 0 <= line < HEIGHT ->
  (forall s x v0,
      0 <= x < WIDTH -> rendererWf s -> sameBuffers r s ->
      getAt (framebuffer s) (line * WIDTH + x) = Some v0 ->
      getAt (framebuffer r) (line * WIDTH + x) = Some v0 ->
      body s x
      = Some (setFramebuffer s (<[Z.to_nat (line * WIDTH + x) := pix (line * WIDTH + x)]>
                                  (framebuffer s)))) ->
  exists r',
    forRange WIDTH body r = Some r' /\ rendererWf r' /\ sameBuffers r r' /\
    forall j, getAt (framebuffer r') j
              = if inRow line j then Some (pix j) else getAt (framebuffer r) j.
Proof.
  intros Hwf Hline Hbody. change HEIGHT with 240 in Hline.
  set (Inv := fun (n : Z) (s : t) =>
    rendererWf s /\ sameBuffers r s /\
    forall j, getAt (framebuffer s) j
              = if (line * WIDTH <=? j) && (j <? line * WIDTH + n)
                then Some (pix j) else getAt (framebuffer r) j).
  destruct (forRange_ind Inv body WIDTH r) as (r' & Hrun & Hinv).
  - unfold WIDTH. lia.
  - split; [exact Hwf|]. split; [repeat split|].
    intros j. destruct (Z.leb_spec (line * WIDTH) j);
      destruct (Z.ltb_spec j (line * WIDTH + 0)); cbn [andb]; try reflexivity; lia.
  - intros x s Hx (Hs & Hsame & Hpix).
    pose proof Hwf as (Hfb0 & _). pose proof Hs as (Hfb & Hrest).
    change WIDTH with 320 in *. change (320 * HEIGHT) with 76800 in *.
    destruct (getAt_Some (framebuffer r) (line * 320 + x) ltac:(lia)) as [v0 Hv0].
    assert (Hv : getAt (framebuffer s) (line * 320 + x) = Some v0).
    { rewrite Hpix.
      destruct (Z.ltb_spec (line * 320 + x) (line * 320 + x)); [lia|].
      rewrite andb_false_r. exact Hv0. }
    rewrite (Hbody s x v0 Hx Hs Hsame Hv Hv0).
    eexists. split; [reflexivity|]. split; [|split].
    + split; [|exact Hrest].
      cbn [framebuffer setFramebuffer]. rewrite length_insert. exact Hfb.
    + destruct Hsame as (? & ? & ? & ? & ? & ?). repeat split; assumption.
    + intros j. cbn [framebuffer setFramebuffer].
      rewrite getAt_insert by lia. rewrite Hpix.
      destruct (Z.eqb_spec j (line * 320 + x)) as [->|Hne].
      * destruct (Z.leb_spec (line * 320) (line * 320 + x)); [|lia].
        destruct (Z.ltb_spec (line * 320 + x) (line * 320 + (x + 1))); [|lia].
        reflexivity.
      * destruct (Z.leb_spec (line * 320) j);
          destruct (Z.ltb_spec j (line * 320 + x));
          destruct (Z.ltb_spec j (line * 320 + (x + 1)));
          cbn [andb]; try reflexivity; lia.
  - exists r'. split; [exact Hrun|]. destruct Hinv as (Hw & Hs & Hp).
    split; [exact Hw|]. split; [exact Hs|exact Hp].
Qed.

(** The palette a scanline works with: read from VRAM when the cache is
    dirty, the cached one otherwise. *)
Definition paletteFor (r : t) (vram : option RAM.t) (palette : list Z) : Prop :=
  if paletteDirty r then updatePaletteCache vram = Some palette
  else paletteRGBA r = palette.

Lemma updatePaletteCache_length vram palette :
  updatePaletteCache vram = Some palette -> Z.of_nat (length palette) = 256.
Proof.
  unfold updatePaletteCache. intros H. apply length_mapM in H.
  rewrite <- H, length_seqZ. reflexivity.
Qed.

Lemma updatePaletteCache_entries vram palette i :
  updatePaletteCache vram = Some palette -> 0 <= i < 256 ->
  getAt palette i = paletteEntry vram i.
Proof.
  unfold updatePaletteCache. intros H Hi. apply mapM_Some_1 in H.
  assert (Hl : seqZ 0 256 !! Z.to_nat i = Some i).
  { rewrite lookup_seqZ_lt by lia. f_equal. lia. }
  destruct (Forall2_lookup_l _ _ _ _ _ H Hl) as (y & Hy & Hf).
  unfold getAt. destruct (Z.leb_spec 0 i); [|lia]. rewrite Hy, Hf. reflexivity.
Qed.

Lemma paletteFor_exists r ram :
  RAM.wf ram -> exists palette, paletteFor r (Some ram) palette.
Proof.
  intros Hwf. unfold paletteFor. destruct (paletteDirty r); [|eauto].
  destruct (updatePaletteCache_total (Some ram) ltac:(intros ? [= <-]; exact Hwf))
    as [palette Hp].
  eauto.
Qed.

(** The first step of [renderScanline]. *)
Lemma palette_step r ram palette :
  rendererWf r -> paletteFor r (Some ram) palette ->
  exists r1,
    (if paletteDirty r
     then palette' ← updatePaletteCache (Some ram); Some (setPalette r palette' false)
     else Some r) = Some r1 /\
    rendererWf r1 /\ paletteRGBA r1 = palette /\ paletteDirty r1 = false /\
    framebuffer r1 = framebuffer r /\ layerBuffers r1 = layerBuffers r /\
    finalBuffer r1 = finalBuffer r /\ spriteCache r1 = spriteCache r /\
    spriteCacheDirty r1 = spriteCacheDirty r.
Proof.
  intros Hwf Hpal. unfold paletteFor in Hpal.
  destruct (paletteDirty r) eqn:Hd.
  - rewrite Hpal. cbn [mbind option_bind]. eexists. split; [reflexivity|].
    destruct Hwf as (Hfb & _ & Hrest).
    split; [|repeat split].
    split; [exact Hfb|]. split; [|exact Hrest].
    apply updatePaletteCache_length with (Some ram). exact Hpal.
  - exists r. repeat split; try assumption; apply Hwf.
Qed.

Lemma videoMode_register c :
  Z.land (CPLD2_Video.getRegister c 0x00) 0x03
  = match CPLD2_Video.videoMode c with
    | CPLD2_Video.MODE_240P => 0 | CPLD2_Video.MODE_480I => 1
    end.
Proof.
  rewrite getRegister_offset by lia. cbn.
  destruct (CPLD2_Video.videoMode c); reflexivity.
Qed.

Lemma renderScanline_240p r c ram line palette :
  rendererWf r -> byteRAM ram -> CPLD2_Video.videoMode c = CPLD2_Video.MODE_240P ->
  0 <= line < HEIGHT -> paletteFor r (Some ram) palette ->
  exists r',
    renderScanline r (Some c) (Some ram) line = Some r' /\
    rendererWf r' /\ paletteRGBA r' = palette /\ paletteDirty r' = false /\
    layerBuffers r' = layerBuffers r /\ finalBuffer r' = finalBuffer r /\
    spriteCache r' = spriteCache r /\ spriteCacheDirty r' = spriteCacheDirty r /\
    forall j, getAt (framebuffer r') j
              = if inRow line j then indexed palette (Some ram) j
                else getAt (framebuffer r) j.
Proof.
  intros Hwf Hram Hmode Hline Hpal. unfold renderScanline.
  destruct (palette_step r ram palette Hwf Hpal)
    as (r1 & -> & Hwf1 & Hp1 & Hd1 & Hfb1 & Hl1 & Hf1 & Hs1 & Hsd1).
  cbn [mbind option_bind]. rewrite videoMode_register, Hmode. cbn [Z.eqb].
  destruct (renderFramebufferMode_spec r1 ram line Hwf1 Hram Hline)
    as (r' & Hrun & Hwf' & (Hl & Hf & Hp & Hd & Hs & Hsd) & Hpix).
  exists r'. split; [exact Hrun|]. split; [exact Hwf'|].
  rewrite Hp, Hd, Hl, Hf, Hs, Hsd, Hp1, Hd1, Hl1, Hf1, Hs1, Hsd1.
  repeat (split; [reflexivity|]).
  intros j. rewrite Hpix, Hp1, Hfb1. reflexivity.
Qed.

(** A frame is its 240 rows: a scanline function that fills its own row,
    runs from [Good] states and leaves [Done] ones, fills the frame. *)
Lemma rows_fill (step : t -> Z -> option t) (Good Done : t -> Prop)
      (pix : Z -> option Z) r :
  Good r ->
  (forall s, Done s -> Good s) ->
  (forall s line, Good s -> 0 <= line < HEIGHT ->
     exists s', step s line = Some s' /\ Done s' /\
       forall j, getAt (framebuffer s') j
                 = if inRow line j then pix j else getAt (framebuffer s) j) ->
  exists r',
    forRange HEIGHT step r = Some r' /\ Done r' /\
    forall j, 0 <= j < WIDTH * HEIGHT -> getAt (framebuffer r') j = pix j.
Proof.
  intros Hgood Hweak Hstep.
  set (Inv := fun (n : Z) (s : t) =>
    Good s /\ (0 < n -> Done s) /\
    forall j, 0 <= j < WIDTH * n -> getAt (framebuffer s) j = pix j).
  destruct (forRange_ind Inv step HEIGHT r) as (r' & Hrun & Hg & Hd & Hpix).
  - unfold HEIGHT. lia.
  - split; [exact Hgood|]. split; [lia|]. intros j Hj. unfold WIDTH in Hj. lia.
  - intros line s Hline (Hg & _ & Hpix).
    destruct (Hstep s line Hg Hline) as (s' & Hs & Hd' & Hrow).
    exists s'. split; [exact Hs|]. split; [apply Hweak; exact Hd'|].
    split; [intros _; exact Hd'|].
    intros j Hj. rewrite Hrow. unfold inRow. change WIDTH with 320 in *.
    destruct (Z.leb_spec (line * 320) j); destruct (Z.ltb_spec j (line * 320 + 320));
      cbn [andb]; try reflexivity; try lia.
    apply Hpix. lia.
  - exists r'. split; [exact Hrun|]. split; [|exact Hpix].
    apply Hd. unfold HEIGHT. lia.
Qed.

(** The layer buffers as [reset] leaves them: every colour transparent. *)
Definition blankLayers (r : t) : Prop :=
  Forall (fun buf => Forall (fun c => c = 0) (LineBuffer.color buf))
         (layerBuffers r).

Lemma getAt_lookup {A} (a : list A) i v :
  getAt a i = Some v -> a !! Z.to_nat i = Some v.
Proof. unfold getAt. destruct (0 <=? i); [tauto|discriminate]. Qed.

Lemma topPixel_blank r x :
  rendererWf r -> blankLayers r -> 0 <= x < WIDTH -> topPixel r x = Some (0, 0, 16).
Proof.
  intros (_ & _ & Hn & Hlines & _) Hblank Hx. unfold topPixel.
  destruct (forRange_ind (fun (_ : Z) (top : Z * Z * Z) => top = (0, 0, 16))
    (fun (top : Z * Z * Z) layer =>
       let '(topColor, topPriority, topAlpha) := top in
       buf ← getAt (layerBuffers r) layer;
       color ← getAt (LineBuffer.color buf) x;
       priority ← getAt (LineBuffer.priority buf) x;
       alpha ← getAt (LineBuffer.alpha buf) x;
       if color =? 0 then Some top
       else if topPriority <=? priority then
         if alpha =? 16 then Some (color, priority, alpha)
         else if 0 <? alpha then
           fgColor ← getAt (paletteRGBA r) color;
           bgColor ← getAt (paletteRGBA r) topColor;
           let blended := blendAlpha fgColor bgColor alpha in
           Some (color, priority, 16)
         else Some top
       else Some top) 6 (0, 0, 16)) as (top & Hrun & ->);
    [lia|reflexivity| |exact Hrun].
  intros layer top Hlayer ->.
  destruct (getAt_Some (layerBuffers r) layer ltac:(lia)) as [buf Hbuf].
  rewrite Hbuf. cbn [mbind option_bind].
  pose proof (getAt_lookup _ _ _ Hbuf) as Hl.
  rewrite Forall_lookup in Hlines. destruct (Hlines _ _ Hl) as (Hc & Hp & Ha).
  unfold blankLayers in Hblank. rewrite Forall_lookup in Hblank.
  specialize (Hblank _ _ Hl). rewrite Forall_lookup in Hblank.
  destruct (getAt_Some (LineBuffer.color buf) x ltac:(lia)) as [c0 Hc0].
  destruct (getAt_Some (LineBuffer.priority buf) x ltac:(lia)) as [p0 Hp0].
  destruct (getAt_Some (LineBuffer.alpha buf) x ltac:(lia)) as [a0 Ha0].
  rewrite Hc0, Hp0, Ha0. cbn [mbind option_bind].
  rewrite (Hblank _ _ (getAt_lookup _ _ _ Hc0)). cbn [Z.eqb].
  eexists. split; reflexivity.
Qed.

(** The first loop of [compositeBuffers] over blank layers: the final
    buffer ends up all backdrop. *)
Lemma composite_final_blank r :
  rendererWf r -> blankLayers r ->
  exists r1,
    forRange WIDTH
      (fun r x =>
         '(topColor, topPriority, topAlpha) ← topPixel r x;
         c ← setAt (LineBuffer.color (finalBuffer r)) x topColor;
         p ← setAt (LineBuffer.priority (finalBuffer r)) x topPriority;
         a ← setAt (LineBuffer.alpha (finalBuffer r)) x topAlpha;
         Some (setFinalBuffer r (LineBuffer.mk c p a))) r = Some r1 /\
    rendererWf r1 /\ framebuffer r1 = framebuffer r /\
    layerBuffers r1 = layerBuffers r /\ paletteRGBA r1 = paletteRGBA r /\
    paletteDirty r1 = paletteDirty r /\ spriteCache r1 = spriteCache r /\
    spriteCacheDirty r1 = spriteCacheDirty r /\
    forall x, 0 <= x < WIDTH -> getAt (LineBuffer.color (finalBuffer r1)) x = Some 0.
Proof.
  intros Hwf Hblank.
  set (Inv := fun (n : Z) (s : t) =>
    rendererWf s /\ framebuffer s = framebuffer r /\
    layerBuffers s = layerBuffers r /\ paletteRGBA s = paletteRGBA r /\
    paletteDirty s = paletteDirty r /\ spriteCache s = spriteCache r /\
    spriteCacheDirty s = spriteCacheDirty r /\
    forall x, 0 <= x < n -> getAt (LineBuffer.color (finalBuffer s)) x = Some 0).
  destruct (forRange_ind Inv
    (fun r x =>
       '(topColor, topPriority, topAlpha) ← topPixel r x;
       c ← setAt (LineBuffer.color (finalBuffer r)) x topColor;
       p ← setAt (LineBuffer.priority (finalBuffer r)) x topPriority;
       a ← setAt (LineBuffer.alpha (finalBuffer r)) x topAlpha;
       Some (setFinalBuffer r (LineBuffer.mk c p a))) WIDTH r)
    as (r1 & Hrun & Hinv).
  - unfold WIDTH. lia.
  - split; [exact Hwf|]. repeat (split; [reflexivity|]). intros x Hx. lia.
  - intros x s Hx (Hs & Hfb & Hl & Hp & Hd & Hsp & Hsd & Hfin).
    assert (Hbl : blankLayers s) by (unfold blankLayers; rewrite Hl; exact Hblank).
    rewrite (topPixel_blank s x Hs Hbl Hx). cbn [mbind option_bind].
    destruct Hs as (Hlen & Hpal & Hn & Hlines & (Hc & Hpr & Ha)).
    rewrite !setAt_Some by lia. cbn [mbind option_bind].
    eexists. split; [reflexivity|].
    split.
    { split; [exact Hlen|]. split; [exact Hpal|]. split; [exact Hn|].
      split; [exact Hlines|].
      unfold lineWf. cbn. rewrite !length_insert. repeat split; assumption. }
    repeat (split; [assumption|]).
    intros x' Hx'. cbn [finalBuffer setFinalBuffer LineBuffer.color].
    rewrite getAt_insert by lia.
    destruct (Z.eqb_spec x' x); [reflexivity|]. apply Hfin. lia.
  - exists r1. split; [exact Hrun|]. destruct Hinv as (? & ? & ? & ? & ? & ? & ? & Hfin).
    repeat (split; [assumption|]). exact Hfin.
Qed.

Lemma compositeBuffers_blank r line p0 :
  rendererWf r -> blankLayers r -> 0 <= line < HEIGHT ->
  getAt (paletteRGBA r) 0 = Some p0 ->
  exists r',
    compositeBuffers r line = Some r' /\
    rendererWf r' /\ layerBuffers r' = layerBuffers r /\
    paletteRGBA r' = paletteRGBA r /\ paletteDirty r' = paletteDirty r /\
    spriteCache r' = spriteCache r /\ spriteCacheDirty r' = spriteCacheDirty r /\
    forall j, getAt (framebuffer r') j
              = if inRow line j then Some p0 else getAt (framebuffer r) j.
Proof.
  intros Hwf Hblank Hline Hp0. unfold compositeBuffers.
  destruct (composite_final_blank r Hwf Hblank)
    as (r1 & -> & Hwf1 & Hfb1 & Hl1 & Hp1 & Hd1 & Hsp1 & Hsd1 & Hfin).
  cbn [mbind option_bind].
  destruct (row_loop
    (fun r x =>
       palIndex ← getAt (LineBuffer.color (finalBuffer r)) x;
       colour ← getAt (paletteRGBA r) palIndex;
       fb ← setAt (framebuffer r) (line * WIDTH + x) colour;
       Some (setFramebuffer r fb)) (fun _ => p0) r1 line Hwf1 Hline)
    as (r' & Hrun & Hwf' & (Hl & Hf & Hp & Hd & Hsp & Hsd) & Hpix).
  - intros s x v0 Hx Hs (_ & Hf & Hp & _) _ _.
    rewrite Hf, (Hfin x Hx). cbn [mbind option_bind].
    rewrite Hp, Hp1, Hp0. cbn [mbind option_bind].
    destruct Hs as (Hlen & _). change HEIGHT with 240 in *. change WIDTH with 320 in *.
    rewrite setAt_Some by lia. reflexivity.
  - exists r'. split; [exact Hrun|]. split; [exact Hwf'|].
    rewrite Hl, Hp, Hd, Hsp, Hsd, Hl1, Hp1, Hd1, Hsp1, Hsd1.
    repeat (split; [reflexivity|]).
    intros j. rewrite Hpix, Hfb1. reflexivity.
Qed.

(** [applyEffects] as the CPLD2 registers drive it: the brightness is the
    HBLANK status read at $08, the tints read 0. *)
Lemma applyEffects_spec r c line :
  rendererWf r -> 0 <= line < HEIGHT ->
  let dim v := applyBrightness v (CPLD2_Video.b2z (CPLD2_Video.inHBlank c)) in
  exists r',
    applyEffects r (Some c) line = Some r' /\
    rendererWf r' /\ sameBuffers r r' /\
    forall j v, getAt (framebuffer r) j = Some v ->
                getAt (framebuffer r') j = Some (if inRow line j then dim v else v).
Proof.
  intros Hwf Hline dim. unfold applyEffects.
  rewrite !getRegister_offset by lia. cbn [Z.eqb Pos.eqb].
  change (i8 0) with 0. cbn [Z.eqb negb orb].
  assert (Hb : negb (CPLD2_Video.b2z (CPLD2_Video.inHBlank c) =? 31) = true)
    by (destruct (CPLD2_Video.inHBlank c); reflexivity).
  rewrite Hb.
  destruct (row_loop
    (fun r x =>
       color ← getAt (framebuffer r) (line * WIDTH + x);
       fb ← setAt (framebuffer r) (line * WIDTH + x)
              (applyBrightness color (CPLD2_Video.b2z (CPLD2_Video.inHBlank c)));
       Some (setFramebuffer r fb))
    (fun j => dim (default 0 (getAt (framebuffer r) j))) r line Hwf Hline)
    as (r' & Hrun & Hwf' & Hsame & Hpix).
  - intros s x v0 Hx Hs _ Hv Hv0. rewrite Hv, Hv0. cbn [mbind option_bind default].
    destruct Hs as (Hlen & _). change HEIGHT with 240 in *. change WIDTH with 320 in *.
    rewrite setAt_Some by lia. reflexivity.
  - exists r'. split; [exact Hrun|]. split; [exact Hwf'|]. split; [exact Hsame|].
    intros j v Hv. rewrite Hpix, Hv. cbn [default].
    destruct (inRow line j); reflexivity.
Qed.

Lemma sprite_step r ram :
  RAM.wf ram ->
  exists r1,
    (if spriteCacheDirty r
     then sprites ← updateSpriteCache (Some ram); Some (setSprites r sprites false)
     else Some r) = Some r1 /\
    framebuffer r1 = framebuffer r /\ layerBuffers r1 = layerBuffers r /\
    finalBuffer r1 = finalBuffer r /\ paletteRGBA r1 = paletteRGBA r /\
    paletteDirty r1 = paletteDirty r /\ spriteCacheDirty r1 = false.
Proof.
  intros Hwf. destruct (spriteCacheDirty r) eqn:Hd.
  - destruct (updateSpriteCache_total (Some ram) ltac:(intros ? [= <-]; exact Hwf))
      as [sprites ->].
    cbn [mbind option_bind]. eexists. split; [reflexivity|]. repeat split.
  - exists r. repeat split. exact Hd.
Qed.

Lemma renderScanline_480i r c ram line palette p0 :
  rendererWf r -> blankLayers r -> byteRAM ram ->
  CPLD2_Video.videoMode c = CPLD2_Video.MODE_480I ->
  0 <= line < HEIGHT -> paletteFor r (Some ram) palette ->
  getAt palette 0 = Some p0 ->
  exists r',
    renderScanline r (Some c) (Some ram) line = Some r' /\
    rendererWf r' /\ paletteRGBA r' = palette /\ paletteDirty r' = false /\
    layerBuffers r' = layerBuffers r /\ spriteCacheDirty r' = false /\
    forall j, getAt (framebuffer r') j
              = if inRow line j
                then Some (applyBrightness p0 (CPLD2_Video.b2z (CPLD2_Video.inHBlank c)))
                else getAt (framebuffer r) j.
Proof.
  intros Hwf Hblank Hram Hmode Hline Hpal Hp0. unfold renderScanline.
  destruct (palette_step r ram palette Hwf Hpal)
    as (r1 & -> & Hwf1 & Hp1 & Hd1 & Hfb1 & Hl1 & Hf1 & Hs1 & Hsd1).
  cbn [mbind option_bind]. rewrite videoMode_register, Hmode. cbn [Z.eqb Pos.eqb].
  rewrite (getRegister_offset c 0x01) by lia. cbn [Z.eqb Pos.eqb].
  destruct (sprite_step r1 ram (proj1 Hram))
    as (r2 & -> & Hfb2 & Hl2 & Hf2 & Hp2 & Hd2 & Hsd2).
  cbn [mbind option_bind]. unfold layerOn. rewrite !Z.land_0_l.
  cbn [Z.eqb negb andb mbind option_bind].
  assert (Hwf2 : rendererWf r2).
  { destruct Hwf1 as (Ha & Hb & Hc & Hd & He).
    unfold rendererWf. rewrite Hfb2, Hl2, Hf2, Hp2.
    exact (conj Ha (conj Hb (conj Hc (conj Hd He)))). }
  assert (Hbl2 : blankLayers r2)
    by (unfold blankLayers; rewrite Hl2, Hl1; exact Hblank).
  destruct (compositeBuffers_blank r2 line p0 Hwf2 Hbl2 Hline
              ltac:(rewrite Hp2, Hp1; exact Hp0))
    as (r3 & -> & Hwf3 & Hl3 & Hp3 & Hd3 & Hsp3 & Hsd3 & Hpix3).
  cbn [mbind option_bind].
  destruct (applyEffects_spec r3 c line Hwf3 Hline)
    as (r' & Hrun & Hwf' & (Hl & Hf & Hp & Hd & Hsp & Hsd) & Hpix).
  exists r'. split; [exact Hrun|]. split; [exact Hwf'|].
  rewrite Hp, Hd, Hl, Hsd, Hp3, Hd3, Hl3, Hsd3, Hp2, Hd2, Hl2, Hsd2, Hp1, Hd1, Hl1.
  repeat (split; [reflexivity|]).
  intros j. specialize (Hpix3 j).
  destruct (inRow line j) eqn:Hrow.
  - rewrite (Hpix j p0 Hpix3), Hrow. reflexivity.
  - rewrite Hfb2, Hfb1 in Hpix3.
    destruct (getAt (framebuffer r) j) as [v|] eqn:Hv.
    + rewrite (Hpix j v Hpix3), Hrow. reflexivity.
    + destruct (getAt (framebuffer r') j) as [v'|] eqn:Hv'; [|reflexivity].
      exfalso. unfold getAt in Hv, Hv'. destruct (0 <=? j); [|discriminate].
      apply lookup_ge_None_1 in Hv. apply lookup_lt_Some in Hv'.
      destruct Hwf as (Hlen & _). destruct Hwf' as (Hlen' & _). lia.
Qed.

Lemma applyBrightness_channels color brightness :
  0 <= brightness <= 31 ->
  let out := applyBrightness color brightness in
  channel out 16 = channel color 16 * brightness / 31 /\
  channel out 8 = channel color 8 * brightness / 31 /\
  channel out 0 = channel color 0 * brightness / 31 /\
  channel out 24 = channel color 24.
Proof.
  intros Hb out. unfold out, applyBrightness.
  pose proof (channel_range color 24 ltac:(lia)) as Ha.
  pose proof (channel_range color 16 ltac:(lia)) as Hr.
  pose proof (channel_range color 8 ltac:(lia)) as Hg.
  pose proof (channel_range color 0 ltac:(lia)) as Hl.
  set (a := channel color 24) in *. set (r := channel color 16) in *.
  set (g := channel color 8) in *. set (b := channel color 0) in *.
  assert (Hs : forall ch, 0 <= ch <= 255 -> 0 <= ch * brightness / 31 <= ch).
  { intros ch Hch. split; [apply Z.div_pos; nia|].
    apply Z.div_le_upper_bound; nia. }
  pose proof (Hs r Hr). pose proof (Hs g Hg). pose proof (Hs b Hl).
  rewrite !u8_small by lia. rewrite pack_eq by lia.
  rewrite !channel_div by lia.
  change (2 ^ 16) with 65536. change (2 ^ 8) with 256.
  change (2 ^ 0) with 1. change (2 ^ 24) with 16777216.
  set (r' := r * brightness / 31) in *. set (g' := g * brightness / 31) in *.
  set (b' := b * brightness / 31) in *. clearbody r' g' b'.
  repeat split; Z.to_euclidean_division_equations; lia.
Qed.

Lemma rendererWf_reset r : lineWf (finalBuffer r) -> rendererWf (reset r).
Proof.
  intros Hfinal. unfold rendererWf, reset.
  cbn [framebuffer paletteRGBA layerBuffers finalBuffer].
  rewrite length_replicate, length_fmap, length_seqZ.
  split; [apply Z2Nat.id; unfold WIDTH, HEIGHT; lia|].
  split; [reflexivity|]. split; [reflexivity|]. split; [|exact Hfinal].
  apply Forall_replicate. unfold lineWf, blankLine.
  cbn [LineBuffer.color LineBuffer.priority LineBuffer.alpha].
  rewrite !length_replicate. rewrite Z2Nat.id by (unfold WIDTH; lia).
  repeat split.
Qed.

Lemma blankLayers_reset r : blankLayers (reset r).
Proof.
  unfold blankLayers, reset. cbn [layerBuffers].
  apply Forall_replicate. unfold blankLine. cbn [LineBuffer.color].
  apply Forall_replicate. reflexivity.
Qed.

Lemma byteRAM_new base size : 0 <= size -> byteRAM (RAM.new base size).
Proof.
  intros Hs. split; [apply RAM_new_wf; exact Hs|].
  unfold RAM.new. cbn [RAM.data]. apply Forall_replicate. unfold is_u8. lia.
Qed.

End RenderedFrame.

(** X26. Framebuffer mode.  With CPLD2 in 240p mode, [renderFrame] never
    leaves an array and turns the first 76800 bytes of VRAM into the
    picture: pixel [j] of the framebuffer becomes the palette colour of the
    VRAM byte at address [j].  The palette is converted from the 256
    RGB565 entries at $014000 when the cache is dirty, which it is only
    after [reset]; afterwards the cached palette is used and stays as it
    is, whatever VRAM holds.  Layer buffers and sprite cache are not
    touched. *)
Theorem renderFrame_240p_shows_vram
        (r : VideoRenderer.t) (c : CPLD2_Video.t) (ram : RAM.t) :
  rendererWf r -> byteRAM ram ->
  CPLD2_Video.videoMode c = CPLD2_Video.MODE_240P ->
  exists r' palette,
    VideoRenderer.renderFrame r (Some c) (Some ram) = Some r' /\
    rendererWf r' /\
    (if VideoRenderer.paletteDirty r
     then Z.of_nat (length palette) = 256 /\
          forall i, 0 <= i < 256 ->
                    VideoRenderer.getAt palette i
                    = VideoRenderer.paletteEntry (Some ram) i
     else palette = VideoRenderer.paletteRGBA r) /\
    VideoRenderer.paletteRGBA r' = palette /\
    VideoRenderer.paletteDirty r' = false /\
    VideoRenderer.layerBuffers r' = VideoRenderer.layerBuffers r /\
    VideoRenderer.spriteCache r' = VideoRenderer.spriteCache r /\
    forall j, 0 <= j < 76800 ->
      exists b colour,
        VideoRenderer.readVRAM (Some ram) j = Some b /\
        VideoRenderer.getAt palette b = Some colour /\
        VideoRenderer.getAt (VideoRenderer.framebuffer r') j = Some colour.
Proof.
  intros Hwf Hram Hmode.
  destruct (paletteFor_exists r ram (proj1 Hram)) as [palette Hpal].
  set (Good := fun s : VideoRenderer.t =>
    rendererWf s /\ paletteFor s (Some ram) palette /\
    VideoRenderer.layerBuffers s = VideoRenderer.layerBuffers r /\
    VideoRenderer.spriteCache s = VideoRenderer.spriteCache r).
  set (Done := fun s : VideoRenderer.t =>
    Good s /\ VideoRenderer.paletteRGBA s = palette /\
    VideoRenderer.paletteDirty s = false).
  destruct (rows_fill (fun s line => VideoRenderer.renderScanline s (Some c) (Some ram) line)
              Good Done (indexed palette (Some ram)) r) as (r' & Hrun & Hdone & Hpix).
  - repeat split; try assumption; apply Hwf.
  - intros s [Hg _]. exact Hg.
  - intros s line (Hs & Hp & Hl & Hsp) Hline.
    destruct (renderScanline_240p s c ram line palette Hs Hram Hmode Hline Hp)
      as (s' & Hstep & Hs' & Hp' & Hd' & Hl' & _ & Hsp' & _ & Hrow).
    exists s'. split; [exact Hstep|]. split; [|exact Hrow].
    split; [|split; assumption].
    split; [exact Hs'|]. split; [|split; congruence].
    unfold paletteFor. rewrite Hd'. exact Hp'.
  - exists r', palette. split; [exact Hrun|].
    destruct Hdone as ((Hwf' & _ & Hl' & Hsp') & Hp' & Hd').
    split; [exact Hwf'|]. split.
    { unfold paletteFor in Hpal. destruct (VideoRenderer.paletteDirty r).
      - split; [apply updatePaletteCache_length with (Some ram); exact Hpal|].
        intros i Hi. apply updatePaletteCache_entries; assumption.
      - symmetry. exact Hpal. }
    split; [exact Hp'|]. split; [exact Hd'|]. split; [exact Hl'|].
    split; [exact Hsp'|].
    intros j Hj. specialize (Hpix j Hj). unfold indexed in Hpix.
    destruct (readVRAM_byte ram j Hram) as (b & Hb & Hbr).
    rewrite Hb in Hpix. cbn [mbind option_bind] in Hpix.
    assert (Hlen : Z.of_nat (length palette) = 256).
    { rewrite <- Hp'. apply Hwf'. }
    destruct (getAt_Some palette b ltac:(lia)) as [colour Hc].
    exists b, colour. split; [exact Hb|]. split; [exact Hc|].
    rewrite Hpix. exact Hc.
Qed.

Lemma renderFrame_240p_shows_vram_witness :
  exists r',
    VideoRenderer.renderFrame
      (VideoRenderer.reset
         (VideoRenderer.mk [] [] VideoRenderer.blankLine [] true [] true))
      (Some CPLD2_Video.new) (Some (RAM.new 0x000000 (128 * 1024))) = Some r' /\
    VideoRenderer.paletteDirty r' = false.
Proof.
  destruct (renderFrame_240p_shows_vram
              (VideoRenderer.reset
                 (VideoRenderer.mk [] [] VideoRenderer.blankLine [] true [] true))
              CPLD2_Video.new (RAM.new 0x000000 (128 * 1024)))
    as (r' & palette & Hrun & _ & _ & _ & Hclean & _).
  - apply rendererWf_reset. unfold lineWf, VideoRenderer.blankLine.
    cbn [VideoRenderer.finalBuffer VideoRenderer.LineBuffer.color
         VideoRenderer.LineBuffer.priority VideoRenderer.LineBuffer.alpha].
    rewrite !length_replicate. repeat split.
  - apply byteRAM_new. lia.
  - reflexivity.
  - exists r'. split; [exact Hrun|exact Hclean].
Defined.

(** X27. With CPLD2 in 480i mode [renderFrame] takes the tile path, but
    the layer-enable register $01 reads 0: no tile layer and no sprite is
    drawn and the layer buffers stay as they are.  With the buffers as
    [reset] leaves them the whole frame is one colour, palette entry 0
    dimmed by the brightness register $08, and that register is the HBLANK
    status: the brightness is 0 or 1 out of 31, so every colour channel of
    every pixel is at most 8, and 0 outside HBLANK. *)
Theorem renderFrame_480i_draws_backdrop
        (r : VideoRenderer.t) (c : CPLD2_Video.t) (ram : RAM.t) :
  rendererWf r -> blankLayers r -> byteRAM ram ->
  CPLD2_Video.videoMode c = CPLD2_Video.MODE_480I ->
  exists r' p0,
    VideoRenderer.renderFrame r (Some c) (Some ram) = Some r' /\
    rendererWf r' /\
    VideoRenderer.layerBuffers r' = VideoRenderer.layerBuffers r /\
    VideoRenderer.getAt (VideoRenderer.paletteRGBA r') 0 = Some p0 /\
    let pixel :=
      VideoRenderer.applyBrightness p0
        (CPLD2_Video.b2z (CPLD2_Video.inHBlank c)) in
    (forall j, 0 <= j < 76800 ->
       VideoRenderer.getAt (VideoRenderer.framebuffer r') j = Some pixel) /\
    VideoRenderer.channel pixel 24 = VideoRenderer.channel p0 24 /\
    VideoRenderer.channel pixel 16 <= 8 /\
    VideoRenderer.channel pixel 8 <= 8 /\
    VideoRenderer.channel pixel 0 <= 8 /\
    (CPLD2_Video.inHBlank c = false ->
     VideoRenderer.channel pixel 16 = 0 /\ VideoRenderer.channel pixel 8 = 0 /\
     VideoRenderer.channel pixel 0 = 0).
Proof.
  intros Hwf Hblank Hram Hmode.
  destruct (paletteFor_exists r ram (proj1 Hram)) as [palette Hpal].
  assert (Hlen : Z.of_nat (length palette) = 256).
  { unfold paletteFor in Hpal. destruct (VideoRenderer.paletteDirty r).
    - apply updatePaletteCache_length with (Some ram). exact Hpal.
    - rewrite <- Hpal. apply Hwf. }
  destruct (getAt_Some palette 0 ltac:(lia)) as [p0 Hp0].
  set (hb := CPLD2_Video.b2z (CPLD2_Video.inHBlank c)).
  set (Good := fun s : VideoRenderer.t =>
    rendererWf s /\ paletteFor s (Some ram) palette /\
    VideoRenderer.layerBuffers s = VideoRenderer.layerBuffers r).
  set (Done := fun s : VideoRenderer.t =>
    Good s /\ VideoRenderer.paletteRGBA s = palette).
  destruct (rows_fill (fun s line => VideoRenderer.renderScanline s (Some c) (Some ram) line)
              Good Done (fun _ => Some (VideoRenderer.applyBrightness p0 hb)) r)
    as (r' & Hrun & Hdone & Hpix).
  - repeat split; try assumption; apply Hwf.
  - intros s [Hg _]. exact Hg.
  - intros s line (Hs & Hp & Hl) Hline.
    assert (Hbl : blankLayers s) by (unfold blankLayers; rewrite Hl; exact Hblank).
    destruct (renderScanline_480i s c ram line palette p0 Hs Hbl Hram Hmode Hline Hp Hp0)
      as (s' & Hstep & Hs' & Hp' & Hd' & Hl' & _ & Hrow).
    exists s'. split; [exact Hstep|]. split; [|exact Hrow].
    split; [|exact Hp'].
    split; [exact Hs'|]. split; [|congruence].
    unfold paletteFor. rewrite Hd'. exact Hp'.
  - exists r', p0. split; [exact Hrun|].
    destruct Hdone as ((Hwf' & _ & Hl') & Hp').
    split; [exact Hwf'|]. split; [exact Hl'|].
    split; [rewrite Hp'; exact Hp0|].
    cbv zeta. fold hb. split; [exact Hpix|].
    assert (Hhb : 0 <= hb <= 1) by (unfold hb; destruct (CPLD2_Video.inHBlank c); cbn; lia).
    destruct (applyBrightness_channels p0 hb ltac:(lia)) as (Hr & Hg & Hb & Ha).
    pose proof (channel_range p0 16 ltac:(lia)).
    pose proof (channel_range p0 8 ltac:(lia)).
    pose proof (channel_range p0 0 ltac:(lia)).
    rewrite Hr, Hg, Hb, Ha.
    split; [reflexivity|].
    split; [Z.to_euclidean_division_equations; nia|].
    split; [Z.to_euclidean_division_equations; nia|].
    split; [Z.to_euclidean_division_equations; nia|].
    intros Hout. unfold hb. rewrite Hout. cbn [CPLD2_Video.b2z].
    rewrite !Z.mul_0_r. repeat split.
Qed.

Lemma renderFrame_480i_draws_backdrop_witness :
  exists r',
    VideoRenderer.renderFrame
      (VideoRenderer.reset
         (VideoRenderer.mk [] [] VideoRenderer.blankLine [] true [] true))
      (Some (CPLD2_Video.setRegister CPLD2_Video.new 0 1))
      (Some (RAM.new 0x000000 (128 * 1024))) = Some r' /\
    VideoRenderer.getAt (VideoRenderer.framebuffer r') 0
    = VideoRenderer.getAt (VideoRenderer.framebuffer r') 76799.
Proof.
  destruct (renderFrame_480i_draws_backdrop
              (VideoRenderer.reset
                 (VideoRenderer.mk [] [] VideoRenderer.blankLine [] true [] true))
              (CPLD2_Video.setRegister CPLD2_Video.new 0 1)
              (RAM.new 0x000000 (128 * 1024)))
    as (r' & p0 & Hrun & _ & _ & _ & Hpix & _).
  - apply rendererWf_reset. unfold lineWf, VideoRenderer.blankLine.
    cbn [VideoRenderer.finalBuffer VideoRenderer.LineBuffer.color
         VideoRenderer.LineBuffer.priority VideoRenderer.LineBuffer.alpha].
    rewrite !length_replicate. repeat split.
  - apply blankLayers_reset.
  - apply byteRAM_new. lia.
  - reflexivity.
  - exists r'. split; [exact Hrun|].
    rewrite (Hpix 0), (Hpix 76799) by lia. reflexivity.
Defined.


(** ** VideoRenderer: colour conversion and the pixel operations *)

Section Colours.
Import VideoRenderer.

Lemma land_ones_mod x k : 0 <= k -> Z.land x (Z.ones k) = x mod 2 ^ k.
Proof. intros. apply Z.land_ones. assumption. Qed.

(** Widening a [k]-bit field to 8 bits by repeating its top bits. *)
Lemma expand_bits v up down :
  0 <= up -> 0 <= down -> 0 <= v -> v / 2 ^ down < 2 ^ up ->
  Z.lor (Z.shiftl v up) (Z.shiftr v down) = v * 2 ^ up + v / 2 ^ down.
Proof.
  intros Hu Hd Hv Hlt. rewrite Z.shiftl_mul_pow2, Z.shiftr_div_pow2 by lia.
  apply lor_mul_add; [lia|]. split; [apply Z.div_pos; lia|exact Hlt].
Qed.

Lemma opaque_pack r g b :
  u32 (Z.lor (Z.lor (Z.lor 0xFF000000 (Z.shiftl r 16)) (Z.shiftl g 8)) b)
  = pack 0xFF r g b.
Proof. reflexivity. Qed.

Lemma pack_channels a r g b :
  0 <= a <= 255 -> 0 <= r <= 255 -> 0 <= g <= 255 -> 0 <= b <= 255 ->
  channel (pack a r g b) 24 = a /\ channel (pack a r g b) 16 = r /\
  channel (pack a r g b) 8 = g /\ channel (pack a r g b) 0 = b.
Proof.
  intros Ha Hr Hg Hb. rewrite pack_eq by lia. rewrite !channel_div by lia.
  change (2 ^ 16) with 65536. change (2 ^ 8) with 256.
  change (2 ^ 0) with 1. change (2 ^ 24) with 16777216.
  repeat split; Z.to_euclidean_division_equations; lia.
Qed.

Lemma colour_channels color :
  0 <= color < 4294967296 ->
  pack (channel color 24) (channel color 16) (channel color 8) (channel color 0)
  = color.
Proof.
  intros Hc.
  rewrite pack_eq by (apply channel_range; lia).
  rewrite !channel_div by lia.
  change (2 ^ 16) with 65536. change (2 ^ 8) with 256.
  change (2 ^ 0) with 1. change (2 ^ 24) with 16777216.
  Z.to_euclidean_division_equations; lia.
Qed.

(** The three fields of an RGB565 value. *)
Lemma rgb565_field x :
  0 <= x < 65536 ->
  0 <= x / 2048 < 32 /\ 0 <= (x / 32) mod 64 < 64 /\ 0 <= x mod 32 < 32.
Proof.
  intros Hx. split; [|split].
  - split; [apply Z.div_pos; lia|apply Z.div_lt_upper_bound; lia].
  - apply Z.mod_pos_bound. lia.
  - apply Z.mod_pos_bound. lia.
Qed.

Lemma rgb565_fields_land x :
  0 <= x < 65536 ->
  Z.land (Z.shiftr x 11) 0x1F = x / 2048 /\
  Z.land (Z.shiftr x 5) 0x3F = (x / 32) mod 64 /\
  Z.land (Z.shiftr x 0) 0x1F = x mod 32.
Proof.
  intros Hx. rewrite !Z.shiftr_div_pow2 by lia.
  change 0x1F with (Z.ones 5). change 0x3F with (Z.ones 6).
  rewrite !land_ones_mod by lia.
  change (2 ^ 11) with 2048. change (2 ^ 5) with 32. change (2 ^ 6) with 64.
  change (2 ^ 0) with 1. rewrite Z.div_1_r.
  split; [|split; reflexivity].
  apply Z.mod_small. apply rgb565_field. exact Hx.
Qed.

Lemma rgb565_recombine x : 2048 * (x / 2048) + 32 * ((x / 32) mod 64) + x mod 32 = x.
Proof.
  pose proof (Z.div_mod x 32 ltac:(lia)) as H1.
  pose proof (Z.div_mod (x / 32) 64 ltac:(lia)) as H2.
  rewrite Z.div_div in H2 by lia. change (32 * 64) with 2048 in H2. lia.
Qed.

(** Dividing a widened field by its multiplier gives the field back. *)
Lemma narrowed m d v :
  0 < m -> 0 <= v / d < m -> (m * v + v / d) / m = v.
Proof.
  intros Hm Hd. rewrite (Z.mul_comm m v), Z.div_add_l by lia.
  rewrite (Z.div_small (v / d) m) by lia. lia.
Qed.

Lemma top_bits v d k : 0 < d -> 0 <= v < d * k -> 0 <= v / d < k.
Proof.
  intros Hd Hv. split; [apply Z.div_pos; lia|].
  apply Z.div_lt_upper_bound; lia.
Qed.

Lemma widen5 v :
  0 <= v < 32 -> Z.lor (Z.shiftl v 3) (Z.shiftr v 2) = 8 * v + v / 4.
Proof.
  intros Hv. pose proof (top_bits v 4 8 ltac:(lia) ltac:(lia)).
  rewrite expand_bits; change (2 ^ 3) with 8; change (2 ^ 2) with 4; lia.
Qed.

Lemma widen6 v :
  0 <= v < 64 -> Z.lor (Z.shiftl v 2) (Z.shiftr v 4) = 4 * v + v / 16.
Proof.
  intros Hv. pose proof (top_bits v 16 4 ltac:(lia) ltac:(lia)).
  rewrite expand_bits; change (2 ^ 2) with 4; change (2 ^ 4) with 16; lia.
Qed.

End Colours.

(** X28. The palette conversion is lossless and opaque.  For a 16-bit
    RGB565 value with fields [r5], [g6], [b5] the result has alpha 0xFF,
    red [8 * r5 + r5 / 4] in bits 0..7, green [4 * g6 + g6 / 16] in bits
    8..15 and blue [8 * b5 + b5 / 4] in bits 16..23: each field is widened
    by repeating its top bits, so that full scale maps to 255 and the top
    5, 6 and 5 bits of the three channels give the RGB565 value back. *)
Theorem rgb565_conversion_is_lossless (rgb565 : Z) :
  0 <= rgb565 < 65536 ->
  let out := VideoRenderer.rgb565_to_rgba8888 rgb565 in
  let r5 := rgb565 / 2048 in
  let g6 := (rgb565 / 32) mod 64 in
  let b5 := rgb565 mod 32 in
  VideoRenderer.channel out 24 = 0xFF /\
  VideoRenderer.channel out 0 = 8 * r5 + r5 / 4 /\
  VideoRenderer.channel out 8 = 4 * g6 + g6 / 16 /\
  VideoRenderer.channel out 16 = 8 * b5 + b5 / 4 /\
  2048 * (VideoRenderer.channel out 0 / 8)
  + 32 * (VideoRenderer.channel out 8 / 4)
  + VideoRenderer.channel out 16 / 8 = rgb565.
Proof.
  intros Hx out r5 g6 b5.
  assert (Rr : 0 <= r5 < 32) by (apply rgb565_field; exact Hx).
  assert (Rg : 0 <= g6 < 64) by (apply rgb565_field; exact Hx).
  assert (Rb : 0 <= b5 < 32) by (apply rgb565_field; exact Hx).
  destruct (rgb565_fields_land rgb565 Hx) as (Hr5 & Hg6 & Hb5).
  fold r5 in Hr5. fold g6 in Hg6. fold b5 in Hb5.
  unfold out, VideoRenderer.rgb565_to_rgba8888. rewrite Hr5, Hg6, Hb5.
  cbv zeta.
  rewrite (widen5 r5 Rr), (widen6 g6 Rg), (widen5 b5 Rb).
  pose proof (top_bits r5 4 8 ltac:(lia) ltac:(lia)) as Tr.
  pose proof (top_bits g6 16 4 ltac:(lia) ltac:(lia)) as Tg.
  pose proof (top_bits b5 4 8 ltac:(lia) ltac:(lia)) as Tb.
  rewrite !u8_small by lia. rewrite opaque_pack.
  destruct (pack_channels 0xFF (8 * b5 + b5 / 4) (4 * g6 + g6 / 16) (8 * r5 + r5 / 4))
    as (Ha & Hb & Hg & Hr); try lia.
  rewrite Ha, Hb, Hg, Hr.
  split; [reflexivity|]. split; [reflexivity|]. split; [reflexivity|].
  split; [reflexivity|].
  rewrite (narrowed 8 4 r5), (narrowed 4 16 g6), (narrowed 8 4 b5) by lia.
  apply rgb565_recombine.
Qed.

Lemma rgb565_conversion_is_lossless_witness :
  VideoRenderer.channel (VideoRenderer.rgb565_to_rgba8888 0xF800) 0 = 255 /\
  VideoRenderer.channel (VideoRenderer.rgb565_to_rgba8888 0xF800) 24 = 255.
Proof.
  destruct (rgb565_conversion_is_lossless 0xF800 ltac:(lia)) as (Ha & Hr & _).
  split; [rewrite Hr; reflexivity|exact Ha].
Defined.

(** X29. The neutral elements of the pixel operations.  For a brightness
    of 0..31 [applyBrightness] keeps alpha and scales every colour channel
    to [channel * brightness / 31], never above the channel it came from;
    brightness 31 returns the colour unchanged and brightness 0 returns
    black with the colour's alpha.  [blendAlpha] at alpha 16 returns the
    foreground and at alpha 0 the background, in both cases made opaque. *)
Theorem brightness_and_blend_neutral (color fg bg brightness : Z) :
  0 <= color < 4294967296 -> 0 <= brightness <= 31 ->
  let out := VideoRenderer.applyBrightness color brightness in
  VideoRenderer.channel out 24 = VideoRenderer.channel color 24 /\
  (forall s, s = 16 \/ s = 8 \/ s = 0 ->
     VideoRenderer.channel out s = VideoRenderer.channel color s * brightness / 31 /\
     VideoRenderer.channel out s <= VideoRenderer.channel color s) /\
  (brightness = 31 -> out = color) /\
  (brightness = 0 -> out = VideoRenderer.pack (VideoRenderer.channel color 24) 0 0 0) /\
  VideoRenderer.blendAlpha fg bg 16
  = VideoRenderer.pack 0xFF (VideoRenderer.channel fg 16)
      (VideoRenderer.channel fg 8) (VideoRenderer.channel fg 0) /\
  VideoRenderer.blendAlpha fg bg 0
  = VideoRenderer.pack 0xFF (VideoRenderer.channel bg 16)
      (VideoRenderer.channel bg 8) (VideoRenderer.channel bg 0).
Proof.
  intros Hc Hb out.
  destruct (applyBrightness_channels color brightness Hb) as (Hr & Hg & Hl & Ha).
  fold out in Hr, Hg, Hl, Ha.
  assert (Hs : forall ch, 0 <= ch <= 255 -> 0 <= ch * brightness / 31 <= ch).
  { intros ch Hch. split; [apply Z.div_pos; nia|].
    apply Z.div_le_upper_bound; nia. }
  split; [exact Ha|]. split.
  { intros s [-> | [-> | ->]]; rewrite ?Hr, ?Hg, ?Hl;
      (split; [reflexivity|]); apply Hs; apply channel_range; lia. }
  split.
  { intros ->. unfold out, VideoRenderer.applyBrightness.
    rewrite !Z.div_mul by lia.
    rewrite !u8_small by (pose proof (channel_range color 16 ltac:(lia));
                          pose proof (channel_range color 8 ltac:(lia));
                          pose proof (channel_range color 0 ltac:(lia)); lia).
    apply colour_channels. exact Hc. }
  split.
  { intros ->. unfold out, VideoRenderer.applyBrightness.
    rewrite !Z.mul_0_r. reflexivity. }
  unfold VideoRenderer.blendAlpha. rewrite !opaque_pack.
  change (16 - 16) with 0. change (16 - 0) with 16.
  rewrite !Z.mul_0_r, !Z.add_0_r, !Z.add_0_l, !Z.quot_mul by lia.
  pose proof (channel_range fg 16 ltac:(lia)). pose proof (channel_range fg 8 ltac:(lia)).
  pose proof (channel_range fg 0 ltac:(lia)). pose proof (channel_range bg 16 ltac:(lia)).
  pose proof (channel_range bg 8 ltac:(lia)). pose proof (channel_range bg 0 ltac:(lia)).
  rewrite !u8_small by lia.
  split; reflexivity.
Qed.

Lemma brightness_and_blend_neutral_witness :
  VideoRenderer.applyBrightness 0xFF336699 31 = 0xFF336699 /\
  VideoRenderer.applyBrightness 0xFF336699 0 = 0xFF000000.
Proof.
  destruct (brightness_and_blend_neutral 0xFF336699 0 0 31 ltac:(lia) ltac:(lia))
    as (_ & _ & Hid & _).
  destruct (brightness_and_blend_neutral 0xFF336699 0 0 0 ltac:(lia) ltac:(lia))
    as (_ & _ & _ & Hblack & _).
  split; [apply Hid; reflexivity|rewrite Hblack; reflexivity].
Defined.
